(* ===== verification/_CoqProject ===== *)
-Q . S2P
Prelude.v
Utils.v
UtilsSpec.v
Crc32.v
VTable.v
Exception.v
Control.v
Buffer.v
Stack.v
State.v
Options.v
Wp.v
Demo.v
Curl.v
Report.v
Rules.v
Method.v
MethodSpec.v
Pool.v
Progress.v
Sends.v
Locks.v
LocksSpec.v
UnlockSpec.v
HistorySpec.v
Propfind.v
Dav.v
DavSpec.v
OperSpec.v
PropfindProgress.v
OperProgress.v
PropfindSpec.v
TextSpec.v
Server.v
ServerSpec.v
StoreSpec.v
SessionSpec.v
Dummy.v
Main.v
MountSpec.v
SchemeSpec.v
