(* ===== verification/Prelude.v ===== *)
(** * networkfs: a verification development

    networkfs mounts a WebDAV server as a file system: main (networkfs.c) turns the command line
    into options and a URL, chooses a protocol (proto/), and hands a table of operations to libfuse.
    The WebDAV protocol answers each operation (proto/dav/dav.c) with requests
    (proto/dav/method.c), which go through a wrapper around libcurl (common/wrapper/curl.[ch]) and
    read answers with libxml2. Under all of it lie a small object system with exceptions and
    resource blocks made of macros (common/grammar/), and buffers and a stack
    (common/template/).

    ** The model

    A C function is a function of the state monad of Control.v: a statement falls through,
    leaves its block with break or continue, returns, or is stuck (an access through NULL or out of
    bounds, a lock that is never granted, a variable read before it is set). The macros of
    with.h, try.h and synchronized.h are written from their expansions, so each definition keeps the
    shape of its source. The locals of a function are a record of their own, next to
    the shared state [G] of State.v: the thread's exception object, the pool of curl handles,
    the server record, the table of file locks with its reader-writer lock, and, as bookkeeping, every
    transfer that was made. libcurl, libxml2, the allocator and the calendar are the
    operations of the class [Env], each taking and returning the state of the world; theorems hold for
    every such environment unless a hypothesis says otherwise. Machine integers are Z with
    the wrap-around written out ([u32], [u64], [i32], [i64]); memory is a list of characters.

    ** The files

    - Prelude: bytes, machine integers, shared tactics.
    - Utils, UtilsSpec: common/utils.[ch] and the libc string functions the program uses; what they
      compute, and the round trips of numbers through their texts.
    - Crc32: common/crc32.[ch], with the bitwise checksum it computes.
    - VTable: common/grammar/vtable.[ch].
    - Exception: common/grammar/exception.[ch], malloc.[ch] and the classes of exceptions, as far as the
      program decides by them; Report: the same object with its position and backtrace, and what is
      printed of it.
    - Control: common/grammar/{with,try,_class,synchronized}.h; Wp: the reasoning about statements.
    - Buffer, Stack: common/template/{buffer,stack}.[ch].
    - State: the state, the environment and the interfaces between components (what each kind
      of code may touch, as the classes [WorldRel], [IORel], [CallbackRel], [XferRel]).
    - Demo: a concrete environment, in which the theorems are applied to concrete inputs.
    - Curl: common/wrapper/curl.[ch], the pool of handles; Rules: its calls as rules of [gwp];
      Pool: the invariant of the pool, that a block with a handle is never stuck by itself, and that a
      request with an exception pending does nothing and answers 1.
    - Method: proto/dav/method.c and parser.c but for locks and PROPFIND; MethodSpec: what requests do
      to the lock and under a pending exception; Sends: what they put on the network; Progress: that
      the requests of the type [request] (MKCOL, PUT, DELETE, HEAD, MOVE, COPY, PROPPATCH) and GET come
      back.
    - Locks: LOCK, UNLOCK, OPTIONS and the teardown; LocksSpec, UnlockSpec: the table of file locks;
      HistorySpec: what it holds after a sequence of opens and closes.
    - Propfind: PROPFIND and the reading of its answer; PropfindProgress: that it comes back when the
      answer can be read; PropfindSpec: what is read back of what a server builds from what the
      program stored; TextSpec: the texts printed into arrays.
    - Dav: proto/dav/dav.c; DavSpec: the exception object and the error numbers; OperSpec: what the
      operations ask of the server; OperProgress: that sequences of them come to their end.
    - Server: a server that stores files, as the class [FileServer] of what the program relies on;
      ServerSpec: what the requests do to its files; StoreSpec: what the operations do; SessionSpec:
      the abstract file system that sessions of operations refine.
    - Dummy: proto/proto.c, proto/dummy/dummy.c, emulator/emulator.c; Main: networkfs.c; Options: its
      record of options, the table of their templates and its texts; MountSpec, SchemeSpec: from the
      command line to the table of operations.

    ** What the theorems show

    - Containers: [Buffer_append] and [Buffer_fetch] store and send exactly the bytes of a transfer;
      [Stack_push] and [Stack_pop] refine cons and tail; the checksum is the
      polynomial division; a table with a changed byte is refused.
    - Control: a block runs its cleanup exactly once; what try, catch, throw and throwable do.
    - Requests: those of the type [request] return, with every handle back in the pool or closed; under
      a pending exception they answer 1 and nothing is sent; a request that succeeds makes exactly one
      transfer with its method; the lock is given back, except after a failed transfer, and what follows from that.
    - File locks: what opening and closing a file does to the table, in every case, and that the token of
      an entry is one that the server's answer delivers; that an entry counts the users of its path
      in a history without DELETE and MOVE of open paths, and a race.
    - Operations: without locks every sequence of them, truncations and copies of ranges excepted, runs
      to its end; what those that stand for one request answer and send; a write that answers a count
      ended with the PUT of its range, after the HEAD and the padding when the range was refused; the
      exception object is empty between operations, with the exception of release.
    - Contents: over a server that stores files, every session of reads, writes, creations, removals,
      renamings and changes of properties is a run of a file system in memory (a finite map from URLs to bytes),
      and what was written is read back, past any gap. Reads are below 10 GB and writes below 4 GB,
      which TextSpec.v's [range_is_cut] shows to be needed for the first.
    - Attributes: a mode survives chmod and PROPFIND, a listing is read back, a group is not. The texts
      printed into arrays are whole, but for the range of a large transfer.
    - Mounting: from a URL to a table over the right server, with the parts of its URL; the password is
      hidden in the URL and in each -o of the command line, unless an option switches that off by the
      way. Each option is stored to a member of its type, or is a flag, or is an [int] stored to a [long].
    - Reports: which of their pieces go to which stream.

    ** Bounds and fuel

    Transfers, documents and lists are finite objects, and the recursion over them is structural. Only
    three functions take fuel: [to_digits], with more fuel than the number has bits; the spin
    loop, which succeeds in its first round when the lock is free, and no other thread holds it
    between two operations of the model; and [hide_subopts], whose every round passes at least one
    character of a text that is as long as the fuel.

    ** Not modelled

    The library checks and constructors at load time, logging (switched off in the source) and the
    macros that only paste tokens. What a handler prints about an exception it swallows is not part of
    its run; Report.v says what the text is. Output never fails. The threads of libfuse are modelled
    where the code meets them, as sections of [dav_lock] and [dav_unlock] between which others run.
    libfuse's parser is a parameter of main; Options.v relies on what its header documents of a
    store. Records are laid out as on 64-bit Linux. That LOCK, UNLOCK and OPTIONS come back is not shown:
    the first goes through NULL on some answers of a server, the last on a Server line without a slash;
    nor that truncations and copies of ranges do, which read a size that an answer may leave out.
    C objects of unbounded size on the stack are lists. The refinement of the file system leaves out
    listings, attributes, truncation, copies of ranges and making links: the first four read a PROPFIND
    answer or copy, of which [FileServer] promises nothing, and the last goes on with an exception
    pending. Of a renamed directory it says only what does not change. *)

From stdpp Require Export base list gmap strings.
From Stdlib Require Export ZArith Lia Ascii.
#[export] Set Default Goal Selector "!".

Declare Scope c_scope.
Delimit Scope c_scope with c.
#[local] Open Scope Z_scope.

(** ** Bytes of memory *)

(** A region of C memory, as the list of its characters. *)
Abbreviation bytes := (list ascii).

(** A string literal as the bytes of its characters, without the NUL. *)
Definition lit (s : string) : bytes := String.list_ascii_of_string s.
Definition str_of (b : bytes) : string := String.string_of_list_ascii b.

Definition NUL : ascii := ascii_of_nat 0.
Definition ord (c : ascii) : Z := Z.of_nat (nat_of_ascii c).

(** A double quote and a line end. *)
Definition DQ : string := String "034"%char EmptyString.
Definition CRLF : string := String "013"%char (String "010"%char EmptyString).

(** [p != NULL] *)
Definition not_null {A} (o : option A) : bool :=
  match o with Some _ => true | None => false end.

(** ** Machine integers *)

Definition u32 (x : Z) : Z := Z.land x (Z.ones 32).
Definition u64 (x : Z) : Z := Z.land x (Z.ones 64).

(** Two's complement reading of the low [w] bits. *)
Definition signed (w : Z) (x : Z) : Z :=
  let y := x mod 2 ^ w in if y <? 2 ^ (w - 1) then y else y - 2 ^ w.
Definition i32 (x : Z) : Z := signed 32 x.
Definition i64 (x : Z) : Z := signed 64 x.

Definition LONG_MAX : Z := 2 ^ 63 - 1.
Definition LONG_MIN : Z := - 2 ^ 63.

Create HintDb nfs.
Create Rewrite HintDb nfs_rw.

(** ** Shared tactics *)

(** Split every conjunction of the goal. *)
Ltac splits := repeat match goal with |- _ /\ _ => split end.

(** Case on every [match] or [if] of the goal, keeping equations. *)
Ltac cases := repeat (case_match; simplify_eq; try done).

(** A proposition chosen by a known boolean. *)
Lemma if_true (b : bool) (P Q : Prop) : b = true -> P -> if b then P else Q.
Proof. by intros ->. Qed.
Lemma if_false (b : bool) (P Q : Prop) : b = false -> Q -> if b then P else Q.
Proof. by intros ->. Qed.

(** ** Integers *)

Lemma u32_mod (x : Z) : u32 x = (x mod 2 ^ 32)%Z.
Proof. unfold u32. by rewrite Z.land_ones. Qed.

Lemma u64_mod (x : Z) : u64 x = (x mod 2 ^ 64)%Z.
Proof. unfold u64. by rewrite Z.land_ones. Qed.

Lemma u32_range (x : Z) : (0 <= u32 x < 2 ^ 32)%Z.
Proof. rewrite u32_mod. by apply Z.mod_pos_bound. Qed.

Lemma u64_range (x : Z) : (0 <= u64 x < 2 ^ 64)%Z.
Proof. rewrite u64_mod. by apply Z.mod_pos_bound. Qed.

Lemma u32_id (x : Z) : (0 <= x < 2 ^ 32)%Z -> u32 x = x.
Proof. intros. rewrite u32_mod. by apply Z.mod_small. Qed.

Lemma u64_id (x : Z) : (0 <= x < 2 ^ 64)%Z -> u64 x = x.
Proof. intros. rewrite u64_mod. by apply Z.mod_small. Qed.

Lemma i32_id (x : Z) : (0 <= x < 2 ^ 31)%Z -> i32 x = x.
Proof. intros. unfold i32, signed. rewrite Z.mod_small by lia. case_match; lia. Qed.

Lemma i64_id (x : Z) : (0 <= x < 2 ^ 63)%Z -> i64 x = x.
Proof. intros. unfold i64, signed. rewrite Z.mod_small by lia. case_match; lia. Qed.

Lemma i32_le (x : Z) : (0 <= x)%Z -> (i32 x <= x)%Z.
Proof.
  intros. unfold i32, signed. pose proof (Z.mod_le x (2 ^ 32)). case_match; lia.
Qed.

#[export] Hint Resolve u32_range u64_range : nfs.

(** ** Bytes *)

Lemma str_of_lit (s : string) : str_of (lit s) = s.
Proof. apply String.string_of_list_ascii_of_string. Qed.

Lemma lit_str_of (b : bytes) : lit (str_of b) = b.
Proof. apply String.list_ascii_of_string_of_list_ascii. Qed.

Lemma lit_inj (s t : string) : lit s = lit t -> s = t.
Proof. intros H. rewrite <- (str_of_lit s), <- (str_of_lit t). by rewrite H. Qed.

Lemma lit_app (s t : string) : lit (s ++ t) = lit s ++ lit t.
Proof. unfold lit. induction s as [|c s IH]; simpl; [done|]. by f_equal. Qed.

#[export] Hint Rewrite str_of_lit lit_str_of lit_app : nfs_rw.
