(* ===== verification/Utils.v ===== *)
(** * C strings: common/utils.h and the parts of libc the program uses on strings

    A [char *] that points into a buffer is the list of the bytes from the
    pointer to the end of the buffer; [cstr] is the C string that starts there.
    A store at an offset is an update of that list, and [None] when the offset
    lies outside the buffer. *)

From S2P Require Import Prelude.
#[local] Open Scope Z_scope.

(** ** Definitions *)

(** [isspace] in the C locale: tab, newline, vertical tab, form feed, return, space. *)
Definition isspace (c : ascii) : bool :=
  let n := ord c in ((9 <=? n) && (n <=? 13)) || (n =? 32).

Definition is_digit (base : Z) (c : ascii) : bool :=
  (48 <=? ord c) && (ord c <? 48 + base).

(** The C string that starts at the head of a region: the bytes before the first NUL. *)
Fixpoint cstr (s : bytes) : bytes :=
  match s with
  | [] => []
  | c :: s' => if (c =? NUL)%char then [] else c :: cstr s'
  end.

Definition strlen (s : bytes) : nat := length (cstr s).

(** strncmp: the difference of the first unequal bytes among the first [n]. The end of a
    region reads as a NUL byte. *)
Fixpoint strncmp (s1 s2 : bytes) (n : nat) : Z :=
  match n with
  | O => 0
  | S n' =>
      let c1 := default NUL (head s1) in
      let c2 := default NUL (head s2) in
      if (c1 =? c2)%char
      then if (c1 =? NUL)%char then 0 else strncmp (tail s1) (tail s2) n'
      else ord c1 - ord c2
  end.

Definition strscmp (s1 s2 : bytes) : Z := strncmp s1 s2 (strlen s2).

(** The loop of [strnrstrip]: [end + 1] after it, started from [end + 1 = k]. *)
Fixpoint strip_end (s : bytes) (k : nat) : nat :=
  match k with
  | O => O
  | S k' => if isspace (default NUL (s !! k')) then strip_end s k' else k
  end.

(** [*(end + 1) = NUL]: [None] is a store outside the region. *)
Definition strnrstrip (s : bytes) (n : nat) : option bytes :=
  let k := strip_end s n in
  if decide (k < length s)%nat then Some (<[k := NUL]> s) else None.

Definition strrstrip (s : bytes) : option bytes := strnrstrip s (strlen s).

(** The pointer past the leading white space. *)
Fixpoint strlstrip (s : bytes) : bytes :=
  match s with
  | c :: s' => if isspace c then strlstrip s' else s
  | [] => []
  end.

Definition strstrip (s : bytes) : option bytes := strlstrip <$> strrstrip s.

(** strchr: the offset of the first occurrence in the C string. *)
Fixpoint strchr (s : bytes) (c : ascii) : option nat :=
  match s with
  | [] => None
  | d :: s' => if (d =? NUL)%char then None
               else if (d =? c)%char then Some O else S <$> strchr s' c
  end.

(** The bytes that [strtok_r] yields, one per call, for the delimiters [delim]. *)
Fixpoint strtok_go (delim : bytes) (cur s : bytes) : list bytes :=
  let flush := match cur with [] => [] | _ => [reverse cur] end in
  match s with
  | [] => flush
  | c :: s' =>
      if bool_decide (c ∈ delim) then flush ++ strtok_go delim [] s'
      else strtok_go delim (c :: cur) s'
  end.

Definition strtok (s delim : bytes) : list bytes := strtok_go delim [] (cstr s).

(** ** Numbers: strtol and the printf conversions %d, %zd and %o *)

Definition clamp_long (x : Z) : Z := Z.max LONG_MIN (Z.min LONG_MAX x).

(** The digits at the head of [s], as the value accumulated over [acc], and the rest. *)
Fixpoint strtol_digits (base acc : Z) (s : bytes) : Z * bytes :=
  match s with
  | c :: s' => if is_digit base c then strtol_digits base (acc * base + (ord c - 48)) s'
               else (acc, s)
  | [] => (acc, [])
  end.

(** strtol for the bases 8 and 10: the value, saturated to [long], and the end pointer, which
    is [s] itself when there is no digit. *)
Definition strtol (s : bytes) (base : Z) : Z * bytes :=
  let t := strlstrip s in
  let '(neg, u) := match t with
                   | c :: t' => if (c =? "-")%char then (true, t')
                                else if (c =? "+")%char then (false, t') else (false, t)
                   | [] => (false, t)
                   end in
  match u with
  | c :: _ => if is_digit base c
              then let '(v, rest) := strtol_digits base 0 u in
                   (clamp_long (if (neg : bool) then - v else v), rest)
              else (0, s)
  | [] => (0, s)
  end.

Definition digit (d : Z) : ascii := ascii_of_nat (Z.to_nat (48 + d)).

(** The digits of [n], most significant first; [fuel] bounds their number. *)
Fixpoint to_digits (fuel : nat) (base n : Z) : bytes :=
  match fuel with
  | O => []
  | S f => if n <? base then [digit n]
           else to_digits f base (n / base) ++ [digit (n mod base)]
  end.

Definition udigits (base n : Z) : bytes := to_digits (S (Z.to_nat (Z.log2 n))) base n.

(** %d and %zd *)
Definition fmt_d (n : Z) : bytes :=
  if n <? 0 then ("-"%char : ascii) :: udigits 10 (- n) else udigits 10 n.

(** %o *)
Definition fmt_o (n : Z) : bytes := udigits 8 n.

(** What [snprintf (buf, size, ...)] leaves in [buf] as a C string. *)
Definition snprintf (size : nat) (s : bytes) : bytes := take (size - 1) s.
