(* ===== verification/UtilsSpec.v ===== *)
(** * What the string helpers compute

    Prefix comparison, stripping, and the numbers: [strtol] reads back what the printf conversions
    write, and the lengths of what they write. *)

From S2P Require Import Prelude Utils.
#[local] Open Scope Z_scope.

#[local] Arguments Ascii.eqb : simpl never.

(** ** Prefixes and white space *)

Lemma ord_inj c d : ord c = ord d -> c = d.
Proof.
  unfold ord. intros H. rewrite <- (ascii_nat_embedding c), <- (ascii_nat_embedding d).
  f_equal. lia.
Qed.

Lemma strncmp_prefix (s2 : bytes) : forall s1,
  strncmp s1 s2 (strlen s2) = 0 <-> cstr s2 `prefix_of` s1.
Proof.
  unfold strlen. induction s2 as [|c s2 IH]; intros s1; simpl; [by split; [intros _; apply prefix_nil|]|].
  destruct (c =? NUL)%char eqn:Hc; simpl; [by split; [intros _; apply prefix_nil|]|].
  destruct s1 as [|d s1]; simpl.
  - rewrite Ascii.eqb_sym, Hc. split; [|by intros ?%prefix_nil_inv].
    apply Ascii.eqb_neq in Hc. intros H. exfalso. apply Hc, ord_inj. lia.
  - destruct (d =? c)%char eqn:Hd.
    + apply Ascii.eqb_eq in Hd. subst d. rewrite Hc, IH. split.
      * apply prefix_cons.
      * by intros ?%prefix_cons_inv_2.
    + split.
      * intros H. exfalso. apply Ascii.eqb_neq in Hd. apply Hd.
        apply ord_inj. lia.
      * intros ->%prefix_cons_inv_1. by rewrite Ascii.eqb_refl in Hd.
Qed.

(** [strscmp (s1, s2) == 0] tests for the prefix [s2]. *)
Lemma strscmp_prefix (s1 s2 : bytes) : strscmp s1 s2 = 0 <-> cstr s2 `prefix_of` s1.
Proof. apply strncmp_prefix. Qed.

Lemma strlstrip_nonspace c s : isspace c = false -> strlstrip (c :: s) = c :: s.
Proof. simpl. by intros ->. Qed.

(** ** Searching *)

Lemma strchr_app c (s t : bytes) :
  c <> NUL -> cstr s = s -> strchr s c = None -> strchr (s ++ c :: t) c = Some (length s).
Proof.
  intros Hc. induction s as [|d s IH]; simpl.
  - intros _ _. rewrite (proj2 (Ascii.eqb_neq c NUL)), Ascii.eqb_refl by done. done.
  - destruct (d =? NUL)%char eqn:Hd; [done|]. intros [= Hs].
    destruct (d =? c)%char; [done|]. destruct (strchr s c) eqn:Hn; [done|]. intros _.
    by rewrite IH.
Qed.

(** ** Digits *)

Lemma ord_digit d : 0 <= d < 10 -> ord (digit d) = 48 + d.
Proof. intros H. unfold ord, digit. rewrite nat_ascii_embedding; lia. Qed.

Lemma is_digit_digit base d : 0 <= d < base -> base <= 10 -> is_digit base (digit d) = true.
Proof. intros. unfold is_digit. rewrite ord_digit by lia. lia. Qed.

Lemma digit_nonspace d : 0 <= d < 10 -> isspace (digit d) = false.
Proof. intros. unfold isspace. rewrite ord_digit by lia. lia. Qed.

Lemma to_digits_S (f : nat) base n :
  to_digits (S f) base n
  = if n <? base then [digit n] else to_digits f base (n / base) ++ [digit (n mod base)].
Proof. done. Qed.

(** The number without its last digit. *)
Lemma div_below base (f : nat) n :
  2 <= base -> 0 <= n < base ^ Z.of_nat (S (S f)) -> 0 <= n / base < base ^ Z.of_nat (S f).
Proof.
  intros Hb Hn. split; [apply Z.div_pos; lia|]. apply Z.div_lt_upper_bound; [lia|].
  rewrite <- Z.pow_succ_r, <- Nat2Z.inj_succ by lia. apply Hn.
Qed.

(** Reading continues through the digits of [n]. *)
Lemma strtol_digits_to_digits base (fuel : nat) : forall n acc rest,
  2 <= base <= 10 -> 0 <= n < base ^ Z.of_nat (S fuel) ->
  exists k, 1 <= k /\ strtol_digits base acc (to_digits (S fuel) base n ++ rest)
            = strtol_digits base (acc * base ^ k + n) rest.
Proof.
  induction fuel as [|f IH]; intros n acc rest Hb Hn; rewrite to_digits_S;
    destruct (n <? base) eqn:Hlt.
  2: { change (Z.of_nat 1) with 1 in Hn. rewrite Z.pow_1_r in Hn. lia. }
  1,2: exists 1; split; [done|]; simpl app; cbn [strtol_digits];
    rewrite is_digit_digit, ord_digit by lia; f_equal; lia.
  pose proof (div_below base f n ltac:(lia) Hn) as Hd. rewrite <- app_assoc.
  destruct (IH (n / base) acc ([digit (n mod base)] ++ rest) Hb Hd) as (k & Hk & ->).
  pose proof (Z.mod_pos_bound n base ltac:(lia)).
  exists (k + 1). split; [lia|]. simpl app. cbn [strtol_digits].
  rewrite is_digit_digit, ord_digit by lia.
  f_equal. rewrite Z.pow_add_r, Z.pow_1_r by lia. pose proof (Z.div_mod n base ltac:(lia)). nia.
Qed.

Lemma udigits_fuel base n : 2 <= base -> 0 <= n -> n < base ^ Z.of_nat (S (Z.to_nat (Z.log2 n))).
Proof.
  intros Hb Hn. rewrite Nat2Z.inj_succ, Z2Nat.id by apply Z.log2_nonneg.
  apply Z.lt_le_trans with (2 ^ Z.succ (Z.log2 n)).
  - destruct (decide (n = 0)) as [->|Hne]; [done|]. apply Z.log2_spec. lia.
  - apply Z.pow_le_mono_l. lia.
Qed.

Lemma to_digits_head base (fuel : nat) : forall n,
  2 <= base <= 10 -> 0 <= n < base ^ Z.of_nat (S fuel) ->
  exists d s, to_digits (S fuel) base n = digit d :: s /\ 0 <= d < base.
Proof.
  induction fuel as [|f IH]; intros n Hb Hn; rewrite to_digits_S; destruct (n <? base) eqn:Hlt.
  2: { change (Z.of_nat 1) with 1 in Hn. rewrite Z.pow_1_r in Hn. lia. }
  1,2: exists n, []; split; [done|lia].
  destruct (IH (n / base)) as (d & s & -> & Hd); [done|by apply div_below; [lia|]|].
  by exists d, (s ++ [digit (n mod base)]).
Qed.

Lemma udigits_head base n :
  2 <= base <= 10 -> 0 <= n -> exists d s, udigits base n = digit d :: s /\ 0 <= d < base.
Proof. intros Hb Hn. apply to_digits_head; [done|]. split; [done|]. apply udigits_fuel; lia. Qed.

(** The number of digits. *)
Lemma to_digits_length base (fuel : nat) : forall n k,
  2 <= base -> 0 <= n < base ^ k -> 1 <= k -> Z.of_nat (length (to_digits fuel base n)) <= k.
Proof.
  induction fuel as [|f IH]; intros n k Hb Hn Hk; simpl; [lia|].
  destruct (n <? base) eqn:Hlt; [simpl; lia|]. rewrite length_app. simpl.
  assert (1 < k) as Hk1.
  { destruct (decide (k = 1)) as [->|]; [|lia]. rewrite Z.pow_1_r in Hn. lia. }
  assert (Z.of_nat (length (to_digits f base (n / base))) <= k - 1); [|lia].
  apply IH; [done| |lia]. split; [apply Z.div_pos; lia|].
  apply Z.div_lt_upper_bound; [lia|]. rewrite <- Z.pow_succ_r by lia.
  replace (Z.succ (k - 1)) with k by lia. apply Hn.
Qed.

Lemma udigits_length base n k :
  2 <= base -> 0 <= n < base ^ k -> 1 <= k -> Z.of_nat (length (udigits base n)) <= k.
Proof. apply to_digits_length. Qed.

(** ** [strtol] reads what printf wrote *)

(** What comes after a number does not go on with a digit. *)
Definition ends_number (base : Z) (rest : bytes) : Prop :=
  match rest with [] => True | c :: _ => is_digit base c = false end.

Lemma strtol_digits_stop base acc rest : ends_number base rest -> strtol_digits base acc rest = (acc, rest).
Proof. destruct rest as [|c r]; simpl; [done|]. by intros ->. Qed.

Lemma clamp_long_id x : LONG_MIN <= x <= LONG_MAX -> clamp_long x = x.
Proof. unfold clamp_long. lia. Qed.

Lemma strtol_udigits base n rest :
  2 <= base <= 10 -> 0 <= n <= LONG_MAX -> ends_number base rest ->
  strtol (udigits base n ++ rest) base = (n, rest).
Proof.
  intros Hb Hn Hr. unfold strtol.
  destruct (udigits_head base n) as (d & s & Hd & Hdr); [done|lia|]. rewrite Hd. simpl app.
  rewrite strlstrip_nonspace by (apply digit_nonspace; lia).
  assert ((digit d =? "-")%char = false /\ (digit d =? "+")%char = false) as [-> ->].
  { split; apply Ascii.eqb_neq; intros Heq; apply (f_equal ord) in Heq;
      rewrite ord_digit in Heq by lia.
    - change (ord "-") with 45 in Heq. lia.
    - change (ord "+") with 43 in Heq. lia. }
  rewrite is_digit_digit by lia. change (digit d :: s ++ rest) with ((digit d :: s) ++ rest).
  rewrite <- Hd. unfold udigits.
  destruct (strtol_digits_to_digits base (Z.to_nat (Z.log2 n)) n 0 rest) as (k & _ & ->);
    [done|split; [lia|by apply udigits_fuel; lia]|].
  rewrite Z.mul_0_l, strtol_digits_stop by done. rewrite clamp_long_id; [done|].
  unfold LONG_MIN, LONG_MAX in *. lia.
Qed.

(** [%o] and base 8, [%d] and base 10. *)
Lemma strtol_fmt_o n rest :
  0 <= n <= LONG_MAX -> ends_number 8 rest -> strtol (fmt_o n ++ rest) 8 = (n, rest).
Proof. apply strtol_udigits. lia. Qed.

Lemma strtol_fmt_d n rest :
  LONG_MIN <= n <= LONG_MAX -> ends_number 10 rest -> strtol (fmt_d n ++ rest) 10 = (n, rest).
Proof.
  intros Hn Hr. unfold fmt_d. destruct (n <? 0) eqn:Hneg; [|apply strtol_udigits; [lia|lia|done]].
  unfold strtol. simpl app. rewrite strlstrip_nonspace by done.
  cbv beta iota. change (("-" =? "-")%char) with true. cbv iota.
  destruct (udigits_head 10 (- n)) as (d & s & Hd & Hdr); [lia..|].
  rewrite Hd. simpl app. cbv beta iota. rewrite is_digit_digit by lia.
  change (digit d :: s ++ rest) with ((digit d :: s) ++ rest). rewrite <- Hd. unfold udigits.
  destruct (strtol_digits_to_digits 10 (Z.to_nat (Z.log2 (- n))) (- n) 0 rest) as (k & _ & ->);
    [lia|split; [lia|apply udigits_fuel; lia]|].
  rewrite Z.mul_0_l, strtol_digits_stop by done. rewrite clamp_long_id; [f_equal; lia|].
  unfold LONG_MIN, LONG_MAX in *. lia.
Qed.

(** Text that fits is not cut. *)
Lemma snprintf_fits (size : nat) (s : bytes) : (length s < size)%nat -> snprintf size s = s.
Proof. intros. unfold snprintf. apply take_ge. lia. Qed.

#[export] Hint Resolve udigits_length strtol_fmt_o strtol_fmt_d : nfs.
