(* ===== verification/Crc32.v ===== *)
(** * common/crc32.c: the table-driven CRC, and the polynomial division it computes *)

From S2P Require Import Prelude.
#[local] Open Scope Z_scope.

(** ** Definitions *)

Definition crc32_table : list Z := [
  0x00000000; 0x04c11db7; 0x09823b6e; 0x0d4326d9;
  0x130476dc; 0x17c56b6b; 0x1a864db2; 0x1e475005;
  0x2608edb8; 0x22c9f00f; 0x2f8ad6d6; 0x2b4bcb61;
  0x350c9b64; 0x31cd86d3; 0x3c8ea00a; 0x384fbdbd;
  0x4c11db70; 0x48d0c6c7; 0x4593e01e; 0x4152fda9;
  0x5f15adac; 0x5bd4b01b; 0x569796c2; 0x52568b75;
  0x6a1936c8; 0x6ed82b7f; 0x639b0da6; 0x675a1011;
  0x791d4014; 0x7ddc5da3; 0x709f7b7a; 0x745e66cd;
  0x9823b6e0; 0x9ce2ab57; 0x91a18d8e; 0x95609039;
  0x8b27c03c; 0x8fe6dd8b; 0x82a5fb52; 0x8664e6e5;
  0xbe2b5b58; 0xbaea46ef; 0xb7a96036; 0xb3687d81;
  0xad2f2d84; 0xa9ee3033; 0xa4ad16ea; 0xa06c0b5d;
  0xd4326d90; 0xd0f37027; 0xddb056fe; 0xd9714b49;
  0xc7361b4c; 0xc3f706fb; 0xceb42022; 0xca753d95;
  0xf23a8028; 0xf6fb9d9f; 0xfbb8bb46; 0xff79a6f1;
  0xe13ef6f4; 0xe5ffeb43; 0xe8bccd9a; 0xec7dd02d;
  0x34867077; 0x30476dc0; 0x3d044b19; 0x39c556ae;
  0x278206ab; 0x23431b1c; 0x2e003dc5; 0x2ac12072;
  0x128e9dcf; 0x164f8078; 0x1b0ca6a1; 0x1fcdbb16;
  0x018aeb13; 0x054bf6a4; 0x0808d07d; 0x0cc9cdca;
  0x7897ab07; 0x7c56b6b0; 0x71159069; 0x75d48dde;
  0x6b93dddb; 0x6f52c06c; 0x6211e6b5; 0x66d0fb02;
  0x5e9f46bf; 0x5a5e5b08; 0x571d7dd1; 0x53dc6066;
  0x4d9b3063; 0x495a2dd4; 0x44190b0d; 0x40d816ba;
  0xaca5c697; 0xa864db20; 0xa527fdf9; 0xa1e6e04e;
  0xbfa1b04b; 0xbb60adfc; 0xb6238b25; 0xb2e29692;
  0x8aad2b2f; 0x8e6c3698; 0x832f1041; 0x87ee0df6;
  0x99a95df3; 0x9d684044; 0x902b669d; 0x94ea7b2a;
  0xe0b41de7; 0xe4750050; 0xe9362689; 0xedf73b3e;
  0xf3b06b3b; 0xf771768c; 0xfa325055; 0xfef34de2;
  0xc6bcf05f; 0xc27dede8; 0xcf3ecb31; 0xcbffd686;
  0xd5b88683; 0xd1799b34; 0xdc3abded; 0xd8fba05a;
  0x690ce0ee; 0x6dcdfd59; 0x608edb80; 0x644fc637;
  0x7a089632; 0x7ec98b85; 0x738aad5c; 0x774bb0eb;
  0x4f040d56; 0x4bc510e1; 0x46863638; 0x42472b8f;
  0x5c007b8a; 0x58c1663d; 0x558240e4; 0x51435d53;
  0x251d3b9e; 0x21dc2629; 0x2c9f00f0; 0x285e1d47;
  0x36194d42; 0x32d850f5; 0x3f9b762c; 0x3b5a6b9b;
  0x0315d626; 0x07d4cb91; 0x0a97ed48; 0x0e56f0ff;
  0x1011a0fa; 0x14d0bd4d; 0x19939b94; 0x1d528623;
  0xf12f560e; 0xf5ee4bb9; 0xf8ad6d60; 0xfc6c70d7;
  0xe22b20d2; 0xe6ea3d65; 0xeba91bbc; 0xef68060b;
  0xd727bbb6; 0xd3e6a601; 0xdea580d8; 0xda649d6f;
  0xc423cd6a; 0xc0e2d0dd; 0xcda1f604; 0xc960ebb3;
  0xbd3e8d7e; 0xb9ff90c9; 0xb4bcb610; 0xb07daba7;
  0xae3afba2; 0xaafbe615; 0xa7b8c0cc; 0xa379dd7b;
  0x9b3660c6; 0x9ff77d71; 0x92b45ba8; 0x9675461f;
  0x8832161a; 0x8cf30bad; 0x81b02d74; 0x857130c3;
  0x5d8a9099; 0x594b8d2e; 0x5408abf7; 0x50c9b640;
  0x4e8ee645; 0x4a4ffbf2; 0x470cdd2b; 0x43cdc09c;
  0x7b827d21; 0x7f436096; 0x7200464f; 0x76c15bf8;
  0x68860bfd; 0x6c47164a; 0x61043093; 0x65c52d24;
  0x119b4be9; 0x155a565e; 0x18197087; 0x1cd86d30;
  0x029f3d35; 0x065e2082; 0x0b1d065b; 0x0fdc1bec;
  0x3793a651; 0x3352bbe6; 0x3e119d3f; 0x3ad08088;
  0x2497d08d; 0x2056cd3a; 0x2d15ebe3; 0x29d4f654;
  0xc5a92679; 0xc1683bce; 0xcc2b1d17; 0xc8ea00a0;
  0xd6ad50a5; 0xd26c4d12; 0xdf2f6bcb; 0xdbee767c;
  0xe3a1cbc1; 0xe760d676; 0xea23f0af; 0xeee2ed18;
  0xf0a5bd1d; 0xf464a0aa; 0xf9278673; 0xfde69bc4;
  0x89b8fd09; 0x8d79e0be; 0x803ac667; 0x84fbdbd0;
  0x9abc8bd5; 0x9e7d9662; 0x933eb0bb; 0x97ffad0c;
  0xafb010b1; 0xab710d06; 0xa6322bdf; 0xa2f33668;
  0xbcb4666d; 0xb8757bda; 0xb5365d03; 0xb1f740b4
].

(** The body of the loop of [xcrc32], on one byte. *)
Definition xcrc32_step (crc b : Z) : Z :=
  Z.lxor (u32 (Z.shiftl crc 8))
         (nth (Z.to_nat (Z.land (Z.lxor (Z.shiftr crc 24) b) 255)) crc32_table 0).

(** [while (len--)]: [None] is a read past the end of the buffer. *)
Fixpoint xcrc32 (buf : list Z) (len : nat) (init : Z) {struct len} : option Z :=
  match len with
  | O => Some init
  | S len' => match buf with
              | b :: buf' => xcrc32 buf' len' (xcrc32_step init b)
              | [] => None
              end
  end.

Definition crc32 (buf : list Z) (len : nat) : option Z := xcrc32 buf len 0xffffffff.

(** ** Specification: division by the polynomial, one bit at a time *)

Definition POLY : Z := 0x04c11db7.

(** The generator program in the comment above the table. *)
Definition crc_bit (c : Z) : Z :=
  if Z.testbit c 31 then Z.lxor (u32 (Z.shiftl c 1)) POLY else u32 (Z.shiftl c 1).

Definition crc_bits (n : nat) (c : Z) : Z := Nat.iter n crc_bit c.

Definition crc_byte (crc b : Z) : Z := crc_bits 8 (Z.lxor crc (Z.shiftl b 24)).

Definition crc_spec (init : Z) (buf : list Z) : Z := fold_left crc_byte buf init.

Definition is_byte (b : Z) : Prop := 0 <= b < 2 ^ 8.
Definition is_u32 (x : Z) : Prop := 0 <= x < 2 ^ 32.

(** ** The table *)

(** The table holds what the generator program in its comment prints. *)
Lemma crc32_table_generated :
  crc32_table = (fun i => crc_bits 8 (Z.shiftl (Z.of_nat i) 24)) <$> seq 0 256.
Proof. vm_compute. reflexivity. Qed.

Lemma crc32_table_nth (i : nat) :
  (i < 256)%nat -> nth i crc32_table 0 = crc_bits 8 (Z.shiftl (Z.of_nat i) 24).
Proof.
  intros Hi. by rewrite crc32_table_generated, nth_lookup, list_lookup_fmap, lookup_seq_lt by done.
Qed.

(** ** Linearity of one step of the division *)

Lemma u32_lxor (a b : Z) : u32 (Z.lxor a b) = Z.lxor (u32 a) (u32 b).
Proof. unfold u32. apply Z.bits_inj'. intros n Hn.
  rewrite !Z.land_spec, !Z.lxor_spec, !Z.land_spec. by destruct (Z.testbit a n), (Z.testbit b n), (Z.testbit (Z.ones 32) n). Qed.

Lemma lxor_swap (a b c d : Z) : Z.lxor (Z.lxor a b) (Z.lxor c d) = Z.lxor (Z.lxor a c) (Z.lxor b d).
Proof. rewrite !Z.lxor_assoc. f_equal. by rewrite <- !Z.lxor_assoc, (Z.lxor_comm b c). Qed.

Lemma crc_bit_lxor (a b : Z) : crc_bit (Z.lxor a b) = Z.lxor (crc_bit a) (crc_bit b).
Proof.
  unfold crc_bit. rewrite Z.lxor_spec, Z.shiftl_lxor, u32_lxor.
  destruct (Z.testbit a 31), (Z.testbit b 31); simpl.
  - by rewrite lxor_swap, Z.lxor_nilpotent, Z.lxor_0_r.
  - by rewrite !Z.lxor_assoc, (Z.lxor_comm POLY).
  - by rewrite Z.lxor_assoc.
  - done.
Qed.

Lemma crc_bits_lxor (n : nat) (a b : Z) :
  crc_bits n (Z.lxor a b) = Z.lxor (crc_bits n a) (crc_bits n b).
Proof. induction n as [|n IH]; [done|]. simpl. unfold crc_bits in *. by rewrite IH, crc_bit_lxor. Qed.

Lemma is_u32_bits (x : Z) : is_u32 x <-> 0 <= x /\ forall i, 32 <= i -> Z.testbit x i = false.
Proof.
  unfold is_u32. split.
  - intros [H0 H]. split; [done|]. intros i Hi.
    rewrite <- (Z.mod_small x (2 ^ 32)) by done. by apply Z.mod_pow2_bits_high.
  - intros [H0 H]. split; [done|]. enough (x = u32 x) as -> by apply u32_range.
    unfold u32. apply Z.bits_inj'. intros i Hi. rewrite Z.land_spec.
    destruct (decide (i < 32)).
    + by rewrite Z.ones_spec_low, andb_true_r by lia.
    + by rewrite H, andb_false_l by lia.
Qed.

Lemma is_u32_lxor (a b : Z) : is_u32 a -> is_u32 b -> is_u32 (Z.lxor a b).
Proof.
  rewrite !is_u32_bits. intros [Ha Ha'] [Hb Hb']. split.
  - by apply Z.lxor_nonneg.
  - intros i Hi. by rewrite Z.lxor_spec, Ha', Hb'.
Qed.

Lemma is_u32_u32 (a : Z) : is_u32 (u32 a).
Proof. apply u32_range. Qed.

Lemma is_u32_crc_bit (c : Z) : is_u32 (crc_bit c).
Proof. unfold crc_bit. case_match; [apply is_u32_lxor|]; try apply is_u32_u32. done. Qed.

Lemma is_u32_byte (b : Z) : is_byte b -> is_u32 b.
Proof. unfold is_byte, is_u32. lia. Qed.

#[export] Hint Resolve is_u32_lxor is_u32_u32 is_u32_crc_bit is_u32_byte : nfs.

(** On a word whose top [n] bits are clear, [n] steps are a shift. *)
Lemma crc_bits_shift (n : nat) (c : Z) :
  Z.of_nat n <= 32 -> 0 <= c < 2 ^ (32 - Z.of_nat n) -> crc_bits n c = Z.shiftl c (Z.of_nat n).
Proof.
  induction n as [|n IH]; intros Hn Hc.
  - by rewrite Z.shiftl_0_r.
  - unfold crc_bits in *. simpl. rewrite IH.
    + unfold crc_bit. replace (Z.testbit _ 31) with false.
      * rewrite Z.shiftl_shiftl by lia. replace (Z.of_nat n + 1) with (Z.of_nat (S n)) by lia.
        apply u32_id. rewrite Z.shiftl_mul_pow2 by lia.
        replace (2 ^ 32) with (2 ^ (32 - Z.of_nat (S n)) * 2 ^ Z.of_nat (S n)).
        -- assert (0 < 2 ^ Z.of_nat (S n)) by (apply Z.pow_pos_nonneg; lia). nia.
        -- rewrite <- Z.pow_add_r by lia. f_equal. lia.
      * symmetry. rewrite Z.shiftl_spec by lia.
        destruct (decide (31 - Z.of_nat n < 0)); [lia|].
        rewrite <- (Z.mod_small c (2 ^ (32 - Z.of_nat (S n)))) by done.
        apply Z.mod_pow2_bits_high. lia.
    + lia.
    + split; [lia|]. eapply Z.lt_le_trans; [apply Hc|]. apply Z.pow_le_mono_r; lia.
Qed.

(** ** The table-driven step is eight steps of the division *)

Lemma split_top_byte (c : Z) :
  is_u32 c -> c = Z.lxor (Z.shiftl (Z.shiftr c 24) 24) (c mod 2 ^ 24).
Proof.
  intros Hc. apply Z.bits_inj'. intros i Hi. rewrite Z.lxor_spec, Z.shiftl_spec by done.
  destruct (decide (i < 24)).
  - by rewrite (Z.testbit_neg_r _ (i - 24)), Z.mod_pow2_bits_low by lia.
  - rewrite Z.shiftr_spec, Z.mod_pow2_bits_high, xorb_false_r by lia. f_equal. lia.
Qed.

Lemma shiftr24_byte (c : Z) : is_u32 c -> 0 <= Z.shiftr c 24 < 256.
Proof.
  intros Hc. rewrite Z.shiftr_div_pow2 by lia. unfold is_u32 in Hc.
  split; [apply Z.div_pos; lia|]. apply Z.div_lt_upper_bound; lia.
Qed.

Lemma lxor_byte (a b : Z) : 0 <= a < 256 -> 0 <= b < 256 -> 0 <= Z.lxor a b < 256.
Proof.
  intros Ha Hb. split; [apply Z.lxor_nonneg; lia|].
  enough (Z.lxor a b = Z.lxor a b mod 2 ^ 8) as -> by (apply Z.mod_pos_bound; lia).
  apply Z.bits_inj'. intros i Hi. destruct (decide (i < 8)).
  - by rewrite Z.mod_pow2_bits_low by lia.
  - rewrite Z.mod_pow2_bits_high, Z.lxor_spec by lia.
    rewrite <- (Z.mod_small a (2 ^ 8)), <- (Z.mod_small b (2 ^ 8)) by lia.
    by rewrite !Z.mod_pow2_bits_high by lia.
Qed.

Lemma xcrc32_step_spec (crc b : Z) :
  is_u32 crc -> is_byte b -> xcrc32_step crc b = crc_byte crc b.
Proof.
  intros Hc Hb. unfold xcrc32_step, crc_byte.
  pose proof (shiftr24_byte crc Hc) as Hhi.
  assert (0 <= Z.lxor (Z.shiftr crc 24) b < 256) as Hx by (apply lxor_byte; [done|unfold is_byte in Hb; lia]).
  change 255 with (Z.ones 8). rewrite Z.land_ones by lia. rewrite (Z.mod_small _ (2 ^ 8)) by lia.
  rewrite crc32_table_nth by lia. rewrite Z2Nat.id by lia.
  rewrite (split_top_byte crc Hc) at 3.
  rewrite (Z.lxor_comm (Z.shiftl _ _) (crc mod _)), Z.lxor_assoc, <- Z.shiftl_lxor, crc_bits_lxor.
  f_equal. rewrite crc_bits_shift; [|lia|apply Z.mod_pos_bound; lia].
  unfold u32. apply Z.bits_inj'. intros i Hi.
  rewrite Z.land_spec, !Z.shiftl_spec by done.
  destruct (decide (i < 32)).
  - rewrite Z.ones_spec_low, andb_true_r by lia.
    destruct (decide (i < 8)); [by rewrite !Z.testbit_neg_r by lia|].
    by rewrite Z.mod_pow2_bits_low by lia.
  - rewrite Z.ones_spec_high, andb_false_r by lia. by rewrite Z.mod_pow2_bits_high by lia.
Qed.

(** ** Kernel: the step loses nothing *)

Lemma crc_bit_kernel (c : Z) : is_u32 c -> crc_bit c = 0 -> c = 0.
Proof.
  intros Hc H. assert (forall i, 0 <= i -> Z.testbit (crc_bit c) i = false) as Hb.
  { intros i _. by rewrite H, Z.testbit_0_l. }
  apply is_u32_bits in Hc as [H0 Hhi]. unfold crc_bit in Hb. destruct (Z.testbit c 31) eqn:E31.
  - specialize (Hb 0). rewrite Z.lxor_spec in Hb. unfold u32 in Hb.
    rewrite Z.land_spec, Z.shiftl_spec, (Z.testbit_neg_r c) in Hb by lia.
    exfalso. discriminate Hb. done.
  - apply Z.bits_inj'. intros i Hi. rewrite Z.testbit_0_l.
    destruct (decide (i < 31)); [|destruct (decide (i = 31)); [by subst|apply Hhi; lia]].
    specialize (Hb (i + 1)). unfold u32 in Hb.
    rewrite Z.land_spec, Z.shiftl_spec, Z.ones_spec_low, andb_true_r in Hb by lia.
    replace (i + 1 - 1) with i in Hb by lia. apply Hb. lia.
Qed.

Lemma is_u32_crc_bits (n : nat) (c : Z) : is_u32 c -> is_u32 (crc_bits n c).
Proof. intros. destruct n; simpl; auto with nfs. Qed.

Lemma crc_bits_kernel (n : nat) (c : Z) : is_u32 c -> crc_bits n c = 0 -> c = 0.
Proof.
  intros Hc. induction n as [|n IH]; [done|]. simpl. intros H.
  apply IH, crc_bit_kernel; [by apply is_u32_crc_bits|done].
Qed.

Lemma is_u32_crc_byte (crc b : Z) : is_u32 (crc_byte crc b).
Proof. unfold crc_byte, crc_bits. simpl. auto with nfs. Qed.

Lemma is_u32_shift24 (b : Z) : is_byte b -> is_u32 (Z.shiftl b 24).
Proof. unfold is_byte, is_u32. rewrite Z.shiftl_mul_pow2 by lia. lia. Qed.

Lemma is_u32_crc_spec (init : Z) (buf : list Z) : is_u32 init -> is_u32 (crc_spec init buf).
Proof.
  revert init. induction buf as [|b buf IH]; intros init Hi; simpl; [done|].
  apply IH, is_u32_crc_byte.
Qed.

#[export] Hint Resolve is_u32_crc_byte is_u32_shift24 is_u32_crc_spec : nfs.

Lemma lxor_eq_0 (a b : Z) : Z.lxor a b = 0 <-> a = b.
Proof. split; [apply Z.lxor_eq|intros ->; apply Z.lxor_nilpotent]. Qed.

Lemma crc_byte_lxor (c1 c2 b1 b2 : Z) :
  Z.lxor (crc_byte c1 b1) (crc_byte c2 b2) = crc_byte (Z.lxor c1 c2) (Z.lxor b1 b2).
Proof. unfold crc_byte. by rewrite <- crc_bits_lxor, lxor_swap, Z.shiftl_lxor. Qed.

Lemma crc_byte_inj_state (c1 c2 b : Z) :
  is_u32 c1 -> is_u32 c2 -> crc_byte c1 b = crc_byte c2 b -> c1 = c2.
Proof.
  intros H1 H2. rewrite <- lxor_eq_0, crc_byte_lxor, Z.lxor_nilpotent.
  unfold crc_byte. rewrite Z.shiftl_0_l, Z.lxor_0_r. intros H.
  apply lxor_eq_0. eapply crc_bits_kernel; [|done]. auto with nfs.
Qed.

Lemma crc_byte_inj_byte (c b1 b2 : Z) :
  is_byte b1 -> is_byte b2 -> crc_byte c b1 = crc_byte c b2 -> b1 = b2.
Proof.
  intros H1 H2. rewrite <- lxor_eq_0, crc_byte_lxor, Z.lxor_nilpotent.
  unfold crc_byte. rewrite Z.lxor_0_l. intros H.
  apply crc_bits_kernel in H.
  - apply Z.shiftl_eq_0_iff in H; [|lia]. by apply lxor_eq_0.
  - rewrite Z.shiftl_lxor. auto with nfs.
Qed.

Lemma crc_spec_inj (buf : list Z) (c1 c2 : Z) :
  is_u32 c1 -> is_u32 c2 -> crc_spec c1 buf = crc_spec c2 buf -> c1 = c2.
Proof.
  revert c1 c2. induction buf as [|b buf IH]; intros c1 c2 H1 H2 H; [done|].
  apply (crc_byte_inj_state c1 c2 b H1 H2), IH; auto with nfs.
Qed.

Lemma crc_spec_app (c : Z) (b1 b2 : list Z) :
  crc_spec c (b1 ++ b2) = crc_spec (crc_spec c b1) b2.
Proof. apply fold_left_app. Qed.

(** ** The function *)

(** [xcrc32] reads exactly the first [len] bytes, whatever follows them. *)
Lemma xcrc32_app_spec (buf rest : list Z) (init : Z) :
  Forall is_byte buf -> is_u32 init ->
  xcrc32 (buf ++ rest) (length buf) init = Some (crc_spec init buf).
Proof.
  intros Hb. revert init. induction Hb as [|b buf Hb _ IH]; intros init Hi; simpl.
  - done.
  - rewrite xcrc32_step_spec by done. apply IH. auto with nfs.
Qed.

Lemma xcrc32_some_length (buf : list Z) (len : nat) (init : Z) :
  is_Some (xcrc32 buf len init) <-> (len <= length buf)%nat.
Proof.
  revert buf init. induction len as [|len IH]; intros buf init; simpl.
  { split; [lia|intros _; by eexists]. }
  destruct buf as [|b buf]; simpl; [split; [intros [? [=]]|lia]|]. rewrite IH. lia.
Qed.

(** C38: on any buffer of bytes and any 32-bit start value, [xcrc32] returns the remainder that
    bit-by-bit division by the polynomial 0x04c11db7 gives, and it reads nothing past [len]. *)
Theorem xcrc32_correct (buf rest : list Z) (init : Z) :
  Forall is_byte buf -> is_u32 init ->
  xcrc32 (buf ++ rest) (length buf) init = Some (crc_spec init buf)
  /\ is_u32 (crc_spec init buf).
Proof. intros Hb Hi. split; [by apply xcrc32_app_spec|auto with nfs]. Qed.

Lemma xcrc32_correct_witness :
  xcrc32 ([0x31; 0x32; 0x33] ++ [0xff]) 3 0xffffffff
    = Some (crc_spec 0xffffffff [0x31; 0x32; 0x33]) /\ is_u32 (crc_spec 0xffffffff [0x31; 0x32; 0x33]).
Proof.
  apply (xcrc32_correct [0x31; 0x32; 0x33] [0xff] 0xffffffff).
  - repeat constructor; vm_compute; congruence.
  - vm_compute. split; congruence.
Defined.

(** C39: the checksum of a buffer that arrives in two pieces is the checksum of the second piece
    started from the checksum of the first, as the comment of [xcrc32] promises. *)
Theorem xcrc32_compose (b1 b2 : list Z) (init c : Z) :
  Forall is_byte b1 -> Forall is_byte b2 -> is_u32 init ->
  xcrc32 b1 (length b1) init = Some c ->
  xcrc32 b2 (length b2) c = xcrc32 (b1 ++ b2) (length (b1 ++ b2)) init.
Proof.
  intros H1 H2 Hi Hc.
  pose proof (xcrc32_app_spec b1 [] init H1 Hi) as E1. rewrite app_nil_r in E1.
  rewrite E1 in Hc. simplify_eq.
  pose proof (xcrc32_app_spec (b1 ++ b2) [] init) as E2. rewrite app_nil_r in E2.
  pose proof (xcrc32_app_spec b2 [] (crc_spec init b1)) as E3. rewrite app_nil_r in E3.
  rewrite E2, E3, crc_spec_app; auto with nfs. by apply Forall_app.
Qed.

Lemma xcrc32_compose_witness :
  exists c, xcrc32 [1; 2] 2 0xffffffff = Some c
     /\ xcrc32 [3; 4] 2 c = xcrc32 [1; 2; 3; 4] 4 0xffffffff.
Proof.
  eexists. split; [vm_compute; reflexivity|].
  apply (xcrc32_compose [1; 2] [3; 4] 0xffffffff);
    [repeat constructor; vm_compute; congruence..|vm_compute; split; congruence|vm_compute; reflexivity].
Defined.
