(* ===== verification/VTable.v ===== *)
(** * common/grammar/vtable.[ch]: checksummed tables of virtual methods *)

From S2P Require Import Prelude Crc32.
#[local] Open Scope Z_scope.

(** ** Definitions *)

(** A table in memory: the checksum word of [struct VTable] and the bytes that follow it
    (padding and method pointers). *)
Record VTable := mkVTable {
  vtable_checksum : Z;
  vtable_body : list Z;
}.

Definition SIZEOF_VTABLE : nat := 4.
Definition sizeof_vtable (this : VTable) : nat := (SIZEOF_VTABLE + length (vtable_body this))%nat.

(** What a check of a table can do: give its answer, or call [VTable_crash], which prints a trace
    and exits with status 255. [VtOutOfBounds] is a read past the table. *)
Inductive vt_outcome :=
  | VtAnswer (b : bool)
  | VtCrash (status : Z)
  | VtOutOfBounds.

Definition VTable_crash : vt_outcome := VtCrash 255.

(** The loop of [VTable_rand_init]: [rands] are the values the next calls of [rand ()] return. *)
Fixpoint VTable_rand_init (VTable_rand : Z) (rands : list Z) : option Z :=
  if VTable_rand =? 0 then
    match rands with
    | r :: rands' => VTable_rand_init r rands'
    | [] => None
    end
  else Some VTable_rand.

Definition VTable_checksum (VTable_rand : Z) (this : VTable) (size : nat) : option Z :=
  c ← crc32 (vtable_body this) (size - SIZEOF_VTABLE); Some (Z.lxor c VTable_rand).

Definition VTable_vaild (VTable_rand : Z) (this : option VTable) (size : nat) : vt_outcome :=
  match this with
  | None => VtAnswer false
  | Some vt =>
      match VTable_checksum VTable_rand vt size with
      | None => VtOutOfBounds
      | Some c => if vtable_checksum vt =? c then VtAnswer true else VTable_crash
      end
  end.

(** [VTable_init], after the seed [VTable_rand] is set. *)
Definition VTable_init (VTable_rand : Z) (this : VTable) (size : nat) : option VTable :=
  c ← VTable_checksum VTable_rand this size; Some (mkVTable c (vtable_body this)).

(** [virtual_method]: NULL unless the table is there, the method is there and the table is
    valid; [method] reads the method's field. A crash does not return. *)
Definition virtual_method {A} (VTable_rand : Z) (this : option VTable) (size : nat)
    (method : VTable -> option A) : vt_outcome * option A :=
  match this with
  | None => (VtAnswer false, None)
  | Some vt =>
      match method vt with
      | None => (VtAnswer false, None)
      | Some m => match VTable_vaild VTable_rand this size with
                  | VtAnswer true => (VtAnswer true, Some m)
                  | o => (o, None)
                  end
      end
  end.

(** ** Lemmas *)

Lemma VTable_checksum_spec (rand : Z) (vt : VTable) :
  Forall is_byte (vtable_body vt) ->
  VTable_checksum rand vt (sizeof_vtable vt)
  = Some (Z.lxor (crc_spec 0xffffffff (vtable_body vt)) rand).
Proof.
  intros Hb. unfold VTable_checksum, sizeof_vtable, crc32.
  replace (SIZEOF_VTABLE + _ - _)%nat with (length (vtable_body vt)) by lia.
  pose proof (xcrc32_app_spec (vtable_body vt) [] 0xffffffff Hb) as H.
  rewrite app_nil_r in H. by rewrite H.
Qed.

Lemma VTable_vaild_spec (rand : Z) (vt : VTable) (size : nat) :
  Forall is_byte (vtable_body vt) -> size = sizeof_vtable vt ->
  VTable_vaild rand (Some vt) size
  = if vtable_checksum vt =? Z.lxor (crc_spec 0xffffffff (vtable_body vt)) rand
    then VtAnswer true else VtCrash 255.
Proof. intros Hb ->. unfold VTable_vaild. by rewrite VTable_checksum_spec. Qed.

Lemma lxor_cancel_r (a b r : Z) : Z.lxor a r = Z.lxor b r -> a = b.
Proof.
  intros H. apply (f_equal (fun x => Z.lxor x r)) in H.
  by rewrite !Z.lxor_assoc, Z.lxor_nilpotent, !Z.lxor_0_r in H.
Qed.

Lemma crc_spec_byte_change (init : Z) (pre suf : list Z) (b b' : Z) :
  is_u32 init -> is_byte b -> is_byte b' ->
  crc_spec init (pre ++ b :: suf) = crc_spec init (pre ++ b' :: suf) -> b = b'.
Proof.
  intros Hi Hb Hb'. rewrite !crc_spec_app. simpl. intros H.
  apply crc_spec_inj in H; [|auto with nfs..]. by apply crc_byte_inj_byte in H.
Qed.

(** ** Properties *)

(** C40: a table that [VTable_init] sealed passes [VTable_vaild]; once a single byte of it, in
    the methods or in the stored checksum, is overwritten with another value, [VTable_vaild]
    never answers: it crashes the program. *)
Theorem VTable_tamper_detected (rand c0 c' : Z) (pre suf : list Z) (b b' : Z) :
  Forall is_byte (pre ++ b :: suf) -> is_byte b' ->
  let vt := mkVTable c0 (pre ++ b :: suf) in
  exists sealed,
    VTable_init rand vt (sizeof_vtable vt) = Some sealed
    /\ VTable_vaild rand (Some sealed) (sizeof_vtable sealed) = VtAnswer true
    /\ (b <> b' ->
        VTable_vaild rand (Some (mkVTable (vtable_checksum sealed) (pre ++ b' :: suf)))
          (sizeof_vtable sealed) = VtCrash 255)
    /\ (c' <> vtable_checksum sealed ->
        VTable_vaild rand (Some (mkVTable c' (vtable_body sealed))) (sizeof_vtable sealed)
        = VtCrash 255).
Proof.
  intros Hbs Hb' vt. unfold VTable_init. rewrite VTable_checksum_spec by done.
  eexists. split; [reflexivity|]. simpl vtable_checksum. splits; intros.
  - rewrite VTable_vaild_spec by done. simpl. by rewrite Z.eqb_refl.
  - apply Forall_app in Hbs as [? [? ?]%Forall_cons].
    rewrite VTable_vaild_spec.
    + simpl. destruct (Z.eqb_spec (Z.lxor (crc_spec 4294967295 (pre ++ b :: suf)) rand)
        (Z.lxor (crc_spec 4294967295 (pre ++ b' :: suf)) rand)) as [Heq%lxor_cancel_r|]; [|done].
      by apply crc_spec_byte_change in Heq.
    + apply Forall_app. auto using Forall_cons_2.
    + unfold sizeof_vtable. simpl. by rewrite !length_app.
  - rewrite VTable_vaild_spec by done. simpl in *.
    by destruct (Z.eqb_spec c' (Z.lxor (crc_spec 4294967295 (pre ++ b :: suf)) rand)).
Qed.

Lemma VTable_tamper_detected_witness :
  exists sealed, VTable_init 77 (mkVTable 0 [1; 2; 3]) 7 = Some sealed
    /\ VTable_vaild 77 (Some sealed) 7 = VtAnswer true
    /\ VTable_vaild 77 (Some (mkVTable (vtable_checksum sealed) [1; 9; 3])) 7 = VtCrash 255.
Proof.
  destruct (VTable_tamper_detected 77 0 0 [1] [3] 2 9) as (sealed & H1 & H2 & H3 & _).
  - repeat constructor; vm_compute; congruence.
  - vm_compute. split; congruence.
  - exists sealed. vm_compute in H1. injection H1 as <-. splits.
    + reflexivity.
    + exact H2.
    + apply H3. lia.
Defined.

(** A seed is never zero, so a table that is still all zero does not pass for sealed. *)
Lemma VTable_rand_init_nonzero (r r' : Z) (rands : list Z) :
  VTable_rand_init r rands = Some r' -> r' <> 0.
Proof.
  revert r. induction rands as [|x rands IH]; intros r; simpl;
    destruct (Z.eqb_spec r 0); intros; simplify_eq; eauto.
Qed.
