(* ===== verification/Exception.v ===== *)
(** * common/grammar/exception.[ch] and malloc.[ch]: the thread's exception object

    Every thread has one exception object [ex]. Its [set] byte is 0 (none), 1 (pending) or 2
    (being handled in a [catch] block). The class of an exception is the address of its virtual
    table, here the tag [ExnType]. The fields below [vtable] are the payloads of the classes,
    which overlay each other in the 1024 bytes of the C object; a payload is read only under a
    test of the class. The source position and the backtrace, which the program only prints, are in
    Report.v. *)

From S2P Require Import Prelude.
#[local] Open Scope Z_scope.

(** ** Definitions *)

(** The virtual tables declared with [VTABLE_INIT (Exception, ...)]. *)
Inductive ExnType :=
  | CurlException
  | CurlUrlException
  | MallocException
  | UnspecifiedException
  | NetworkFSException.

Inductive CURLaction :=
  | CURL_INIT | CURL_SETOPT | CURL_PERFORM | CURL_INFO | CURL_SLIST_APPEND | CURL_UNESCAPE.

Inductive CURLUaction := CURLU_INIT | CURLU_DUP | CURLU_SET | CURLU_GET.

#[export] Instance ExnType_eq_dec : EqDecision ExnType.
Proof. solve_decision. Defined.
#[export] Instance CURLaction_eq_dec : EqDecision CURLaction.
Proof. solve_decision. Defined.
#[export] Instance CURLUaction_eq_dec : EqDecision CURLUaction.
Proof. solve_decision. Defined.

Definition EXCEPTION_CATCHED : Z := 2.

Record Exception := mkException {
  set : Z;
  vtable : option ExnType;
  what : option string;       (* Exception: NULL is None *)
  code : Z;                   (* CurlException, CurlUrlException *)
  response_code : Z;          (* CurlException *)
  action : CURLaction;        (* CurlException *)
  uaction : CURLUaction;      (* CurlUrlException *)
  option_or_info : Z;         (* CurlException: option, info; CurlUrlException: part *)
}.

(** The initial value of the thread-local [ex]. *)
Definition ex0 : Exception := mkException 0 None None 0 0 CURL_INIT CURLU_INIT 0.

Definition with_set (z : Z) (e : Exception) : Exception :=
  mkException z (vtable e) (what e) (code e) (response_code e) (action e) (uaction e) (option_or_info e).
Definition with_vtable (v : option ExnType) (e : Exception) : Exception :=
  mkException (set e) v (what e) (code e) (response_code e) (action e) (uaction e) (option_or_info e).
Definition with_what (w : option string) (e : Exception) : Exception :=
  mkException (set e) (vtable e) w (code e) (response_code e) (action e) (uaction e) (option_or_info e).

Definition Exception_has (e : Exception) : bool := set e =? 1.

(** [TEST_SUCCESS]: 1 when an exception is pending, 0 on success. *)
Definition TEST_SUCCESS (e : Exception) : Z := if Exception_has e then 1 else 0.

(** [issubtype (Exception, &ex, T)] compares table addresses. *)
Definition issubtype (e : Exception) (t : ExnType) : bool := bool_decide (vtable e = Some t).

Definition Exception_copy (dst src : Exception) : Exception :=
  if set src =? 0 then with_set 0 dst else src.

(** The [destory] method of each class: CurlException, CurlUrlException and MallocException have
    none, and a missing method is skipped. *)
Definition Exception_destory_dynamic (e : Exception) : Exception := with_what None e.

Definition destory_method (t : ExnType) : option (Exception -> Exception) :=
  match t with
  | CurlException => None
  | CurlUrlException => None
  | MallocException => None
  | UnspecifiedException => Some Exception_destory_dynamic
  | NetworkFSException => Some Exception_destory_dynamic
  end.

Definition Exception_destory (e : Exception) : Exception :=
  let e1 := match t ← vtable e; destory_method t with
            | Some destory => destory e
            | None => e
            end in
  with_vtable None (with_set 0 e1).

Definition Exception_dirtydestory (e : Exception) : Exception := Exception_destory e.

Definition Exception_init (e : Exception) : Exception :=
  with_set 1 (if set e =? 0 then e else Exception_dirtydestory e).

(** [dup] is what [strdup (what)] returned. *)
Definition Exception_init_what (e : Exception) (dup : option string) : Exception :=
  with_what dup (Exception_init e).

Definition UnspecifiedException_init (e : Exception) (dup : option string) : Exception :=
  with_vtable (Some UnspecifiedException) (Exception_init_what e dup).

Definition NetworkFSException_init (e : Exception) (dup : option string) : Exception :=
  with_vtable (Some NetworkFSException) (Exception_init_what e dup).

(** A MallocException points to the caller's literal, it does not copy it. *)
Definition MallocException_init (e : Exception) (what : option string) : Exception :=
  with_vtable (Some MallocException) (with_what what (Exception_init e)).

(** *** What the exceptions print *)

Definition Exception_fputs_what (e : Exception) : string :=
  match what e with
  | None => "(no message)
"
  | Some w => w +:+ "
"
  end.

Definition Exception_fputs_malloc (e : Exception) : string :=
  "Fail to allocate memory"
  +:+ match what e with Some w => " for " +:+ w | None => "" end
  +:+ ", possible out of memory
".

(** ** Lemmas *)

Lemma Exception_init_pending (e : Exception) : Exception_has (Exception_init e) = true.
Proof. done. Qed.

Lemma Exception_destory_set (e : Exception) : set (Exception_destory e) = 0.
Proof. done. Qed.

Lemma Exception_destory_vtable (e : Exception) : vtable (Exception_destory e) = None.
Proof. done. Qed.

Lemma Exception_destory_has (e : Exception) : Exception_has (Exception_destory e) = false.
Proof. done. Qed.

Lemma issubtype_destory (e : Exception) (t : ExnType) : issubtype (Exception_destory e) t = false.
Proof. done. Qed.

Lemma TEST_SUCCESS_0 (e : Exception) : TEST_SUCCESS e = 0 <-> Exception_has e = false.
Proof. unfold TEST_SUCCESS. by destruct (Exception_has e). Qed.

#[export] Hint Rewrite Exception_destory_set Exception_destory_vtable Exception_destory_has
  issubtype_destory : nfs_rw.
