(* ===== verification/Control.v ===== *)
(** * common/grammar/{macro,with,try,_class}.h: the control macros, as a monad

    The program writes its resource handling and its exceptions with macros that expand to
    [for], [switch], [while] and [goto]. A C statement is a function from a state to the way it
    ended and the state it left: it falls through, it leaves the innermost block with [break]
    or [continue], it returns from the function, or its behaviour is undefined or it never comes
    back ([Stuck]). Each macro below is written from its expansion, so a definition of a C function can
    keep the shape of its source. *)

From S2P Require Import Prelude Exception.
#[local] Open Scope Z_scope.

(** ** The monad *)

(** Why a statement has no successor. *)
Inductive fault :=
  | NullDeref                 (* a NULL or dangling pointer is dereferenced *)
  | OutOfBounds               (* an access outside its object *)
  | Deadlock                  (* a lock is requested that is never granted *)
  | BadUnlock                 (* a lock is released that is not held *)
  | Uninit                    (* a variable is read that was never set *)
  | BadControl.               (* control leaves a function body without [return] *)

Inductive ctl (R A : Type) :=
  | Next (a : A)
  | Brk
  | Cont
  | Ret (r : R)
  | Stuck (f : fault).
Arguments Next {R A} a.
Arguments Brk {R A}.
Arguments Cont {R A}.
Arguments Ret {R A} r.
Arguments Stuck {R A} f.

Definition M (S R A : Type) : Type := S -> ctl R A * S.

(** What the macros need of the state: the thread's exception object. *)
Class HasEx (S : Type) := {
  get_ex : S -> Exception;
  put_ex : Exception -> S -> S;
  get_put_ex : forall e s, get_ex (put_ex e s) = e;
  put_put_ex : forall e e' s, put_ex e (put_ex e' s) = put_ex e s;
  put_get_ex : forall s, put_ex (get_ex s) s = s;
}.

Section Monad.
Context {S R : Type}.

Definition mret {A} (a : A) : M S R A := fun s => (Next a, s).

(** Control other than [Next] skips the rest of the block. *)
Definition bind {A B} (m : M S R A) (f : A -> M S R B) : M S R B := fun s =>
  match m s with
  | (Next a, s') => f a s'
  | (Brk, s') => (Brk, s')
  | (Cont, s') => (Cont, s')
  | (Ret r, s') => (Ret r, s')
  | (Stuck e, s') => (Stuck e, s')
  end.

Definition break {A} : M S R A := fun s => (Brk, s).
Definition continue {A} : M S R A := fun s => (Cont, s).
Definition return_ {A} (r : R) : M S R A := fun s => (Ret r, s).
Definition stuck {A} (f : fault) : M S R A := fun s => (Stuck f, s).
Definition gets {A} (f : S -> A) : M S R A := fun s => (Next (f s), s).
Definition modify (f : S -> S) : M S R unit := fun s => (Next tt, f s).
Definition skip : M S R unit := mret tt.
Definition when (b : bool) (m : M S R unit) : M S R unit := if b then m else skip.

(** An access through a pointer that may be NULL. *)
Definition deref {A} (o : option A) : M S R A :=
  match o with Some a => mret a | None => stuck NullDeref end.
End Monad.

Notation "x <- m ;; k" := (bind m (fun x => k))
  (at level 20, m at level 99, k at level 200) : c_scope.
Notation "' p <- m ;; k" := (bind m (fun p => k))
  (at level 20, p pattern, m at level 99, k at level 200) : c_scope.
Notation "m ;;; k" := (bind m (fun _ => k))
  (at level 100, k at level 200, right associativity) : c_scope.
#[local] Open Scope c_scope.

Section Macros.
Context {S R : Type} `{HasEx S}.
Implicit Types m body : M S R unit.

Definition ex_set (z : Z) : M S R unit := modify (fun s => put_ex (with_set z (get_ex s)) s).
Definition has_ex : M S R bool := gets (fun s => Exception_has (get_ex s)).
Definition upd_ex (f : Exception -> Exception) : M S R unit :=
  modify (fun s => put_ex (f (get_ex s)) s).

(** [switch (1) case 1: m]: the block that [break] leaves. *)
Definition do_once m : M S R unit := fun s =>
  match m s with (Brk, s') => (Next tt, s') | r => r end.

(** The body of a [while] or [for] statement, run for one round: [break] and [continue] both
    end the round. *)
Definition round m : M S R unit := fun s =>
  match do_once m s with (Cont, s') => (Next tt, s') | r => r end.

(** foreach.h: the loop over the elements of a list. *)
Fixpoint for_each {X} (l : list X) (body : X -> M S R unit) : M S R unit :=
  match l with
  | [] => skip
  | x :: l' => fun s =>
      match body x s with
      | (Next _, s') | (Cont, s') => for_each l' body s'
      | (Brk, s') => (Next tt, s')
      | r => r
      end
  end.

(** [for (decl;;) m] where [m] always ends in [break]. *)
Definition for_once m : M S R unit := do_once m.

(** with.h: [if (1) { init; if (condition) goto start; end: cleanup; }
    else while (1) if (1) goto end; else start: do_once body]. *)
Definition reflow (init : M S R unit) (condition : M S R bool) (cleanup : M S R unit) body
    : M S R unit :=
  init ;;; c <- condition ;; when c (round (do_once body)) ;;; cleanup.

Definition do_after (expr : M S R unit) body : M S R unit := reflow skip (mret true) expr body.
Definition break_after body : M S R unit := do_after break body.

(** [for (decl;;) reflow (init, condition, cleanup; break) body]. *)
Definition with_test {X} (decl : M S R X) (init : X -> M S R unit) (condition : M S R bool)
    (cleanup : X -> M S R unit) (body : X -> M S R unit) : M S R unit :=
  for_once (x <- decl ;; reflow (init x) condition (cleanup x ;;; break) (body x)).

Definition no_pending : M S R bool := b <- has_ex ;; mret (negb b).

Definition with_seperated {X} (decl : M S R X) init cleanup (body : X -> M S R unit) :=
  with_test decl init no_pending cleanup body.
Definition with_assign {X} (decl : M S R X) cleanup (body : X -> M S R unit) :=
  with_test decl (fun _ => skip) no_pending cleanup body.
Definition with_decl {X} (decl : M S R X) (body : X -> M S R unit) :=
  with_test decl (fun _ => skip) no_pending (fun _ => skip) body.

(** try.h: [if unlikely (Exception_has (&ex)) break]. *)
Definition check : M S R unit := b <- has_ex ;; when b break.

Definition onsuccess m : M S R unit := b <- has_ex ;; when (negb b) m.

Definition throwable m : M S R unit := do_after check m.

(** [throwable x = e], where [e] is an expression. *)
Definition throwable_as {A} (e : M S R A) : M S R A := a <- e ;; check ;;; mret a.

(** [reflow (, 1, ex.set = true; break) m]. *)
Definition throw m : M S R unit := reflow skip (mret true) (ex_set 1 ;;; break) m.

Definition condition_throw (test : bool) m : M S R unit := if test then skip else throw m.

(** [try body handlers], where the handlers are the chain of [else if] after it; [no_handler]
    ends a chain without a default. *)
Definition try_ body (handlers : M S R unit) : M S R unit :=
  round (do_once body) ;;; b <- has_ex ;; when b handlers.

Definition no_handler : M S R unit := skip.

Definition end_catch : M S R unit :=
  e <- gets get_ex ;; when (negb (set e =? 1)) (upd_ex Exception_destory).

Definition catch_default (body : M S R unit) : M S R unit :=
  with_test skip (fun _ => ex_set EXCEPTION_CATCHED) (mret true) (fun _ => end_catch) (fun _ => body).
Definition catch_type (t : ExnType) (body rest : M S R unit) : M S R unit :=
  b <- gets (fun s => issubtype (get_ex s) t) ;; if (b : bool) then catch_default body else rest.

Definition onerror_default (body : M S R unit) : M S R unit :=
  with_test skip (fun _ => skip) (mret true) (fun _ => skip) (fun _ => body).
Definition onerror_type (t : ExnType) (body rest : M S R unit) : M S R unit :=
  b <- gets (fun s => issubtype (get_ex s) t) ;; if (b : bool) then onerror_default body else rest.

(** The saved object is a local of the [with]; an [ex] that is not set leaves it unset. *)
Definition hideE (body : M S R unit) : M S R unit :=
  with_test (gets (fun s => Exception_copy ex0 (get_ex s))) (fun _ => ex_set 0) (mret true)
    (fun save => upd_ex (fun e => Exception_copy e save)) (fun _ => body).

(** synchronized.h: [with (, while (lock ());, 1, unlock ()) body]; [lock] is stuck when it can
    never succeed. *)
Definition synchronized (lock unlock body : M S R unit) : M S R unit :=
  with_test skip (fun _ => lock) (mret true) (fun _ => unlock) (fun _ => body).

(** synchronized.h: [ensure_synchronized (...) body else test]. Every round calls [trylock] and
    then runs [test], whether or not the lock was taken; a [break] in [test] ends the loop, and
    once a round that took the lock passes the test, [body] runs. [fuel] bounds the rounds. *)
Fixpoint ensure_loop (fuel : nat) (trylock : M S R Z) (body test : M S R unit) : M S R Z :=
  match fuel with
  | O => stuck Deadlock
  | Datatypes.S fuel' =>
      e <- trylock ;; fun s =>
      match test s with
      | (Brk, s') => (Next e, s')
      | (Next _, s') | (Cont, s') =>
          if e =? 0 then (round (do_once body) ;;; mret e) s'
          else ensure_loop fuel' trylock body test s'
      | (Ret r, s') => (Ret r, s')
      | (Stuck f, s') => (Stuck f, s')
      end
  end.

Definition ensure_synchronized (fuel : nat) (trylock : M S R Z) (unlock body test : M S R unit)
    : M S R unit :=
  e <- ensure_loop fuel trylock body test ;; when (e =? 0) unlock.
End Macros.

(** A function runs on a frame of local variables [L] next to the shared state [G]. *)
#[export] Instance HasEx_frame {L G} `{HasEx G} : HasEx (L * G).
Proof.
  refine {| get_ex := fun s => get_ex (snd s); put_ex := fun e s => (fst s, put_ex e (snd s)) |}.
  - intros e [l g]. apply get_put_ex.
  - intros e e' [l g]. simpl. by rewrite put_put_ex.
  - intros [l g]. simpl. by rewrite put_get_ex.
Defined.

(** Access to the local variables. *)
Definition local {L G R} : M (L * G) R L := gets fst.
Definition set_local {L G R} (l : L) : M (L * G) R unit := modify (fun s => (l, snd s)).
Definition upd_local {L G R} (f : L -> L) : M (L * G) R unit := modify (fun s => (f (fst s), snd s)).

(** A call: the callee runs on a frame of its own, made from [fresh], and its [return] is the
    value of the call expression; [out] reads what it left in its frame. *)
Definition call {L G L' R R' B} (fresh : L') (out : L' -> B) (f : M (L' * G) R' unit)
    : M (L * G) R (R' * B) := fun '(l, g) =>
  match f (fresh, g) with
  | (Ret r, (l', g')) => (Next (r, out l'), (l, g'))
  | (Stuck e, (_, g')) => (Stuck e, (l, g'))
  | (_, (_, g')) => (Stuck BadControl, (l, g'))
  end.

(** A callback that works on its caller's variables. *)
Definition call_in {S R R'} (f : M S R' unit) : M S R R' := fun s =>
  match f s with
  | (Ret r, s') => (Next r, s')
  | (Stuck e, s') => (Stuck e, s')
  | (_, s') => (Stuck BadControl, s')
  end.

(** ** Equations *)

(** The way a block ends for the code after it, when its [break] and [continue] stay inside. *)
Definition absorb {S R} (r : ctl R unit * S) : ctl R unit * S :=
  match r with
  | (Brk, s) => (Next tt, s)
  | (Cont, s) => (Next tt, s)
  | _ => r
  end.

Section Equations.
Context {S R : Type} `{HasEx S}.
Implicit Types m body : M S R unit.

Lemma bind_mret_l {A B} (a : A) (f : A -> M S R B) (s : S) : bind (mret a) f s = f a s.
Proof. done. Qed.

Lemma bind_mret_r {A} (m : M S R A) (s : S) : bind m mret s = m s.
Proof. unfold bind. by destruct (m s) as [[] ?]. Qed.

Lemma bind_assoc {A B C} (m : M S R A) (f : A -> M S R B) (g : B -> M S R C) (s : S) :
  bind (bind m f) g s = bind m (fun a => bind (f a) g) s.
Proof. unfold bind. by destruct (m s) as [[] ?]. Qed.

Lemma bind_next {A B} (m : M S R A) (f : A -> M S R B) (s s' : S) (a : A) :
  m s = (Next a, s') -> bind m f s = f a s'.
Proof. unfold bind. by intros ->. Qed.

Lemma bind_brk {A B} (m : M S R A) (f : A -> M S R B) (s s' : S) :
  m s = (Brk, s') -> bind m f s = (Brk, s').
Proof. unfold bind. by intros ->. Qed.

Lemma bind_ret {A B} (m : M S R A) (f : A -> M S R B) (s s' : S) (r : R) :
  m s = (Ret r, s') -> bind m f s = (Ret r, s').
Proof. unfold bind. by intros ->. Qed.

Lemma bind_stuck {A B} (m : M S R A) (f : A -> M S R B) (s s' : S) (e : fault) :
  m s = (Stuck e, s') -> bind m f s = (Stuck e, s').
Proof. unfold bind. by intros ->. Qed.

Lemma round_do_once (body : M S R unit) (s : S) : round (do_once body) s = absorb (body s).
Proof. unfold round, do_once. by destruct (body s) as [[] ?]. Qed.

Lemma check_run (s : S) :
  (check : M S R unit) s = (if Exception_has (get_ex s) then Brk else Next tt, s).
Proof. unfold check, has_ex, gets, bind, when. by destruct (Exception_has _). Qed.

Lemma throwable_run m (s : S) :
  throwable m s
  = match absorb (m s) with
    | (Next _, s') => (if Exception_has (get_ex s') then Brk else Next tt, s')
    | r => r
    end.
Proof.
  unfold throwable, do_after, reflow, when. unfold bind, skip, mret. rewrite round_do_once.
  destruct (absorb (m s)) as [[] ?]; try done. by rewrite check_run.
Qed.

Lemma throwable_as_run {A} (e : M S R A) (s s' : S) (a : A) :
  e s = (Next a, s') ->
  throwable_as e s = (if Exception_has (get_ex s') then Brk else Next a, s').
Proof.
  intros He. unfold throwable_as, bind. rewrite He, check_run. by destruct (Exception_has _).
Qed.

Lemma throw_run m (s : S) :
  throw m s
  = match absorb (m s) with
    | (Next _, s') => (Brk, put_ex (with_set 1 (get_ex s')) s')
    | r => r
    end.
Proof.
  unfold throw, reflow, when. unfold bind, skip, mret. rewrite round_do_once.
  by destruct (absorb (m s)) as [[] ?].
Qed.

Lemma reflow_run (cleanup : M S R unit) body (c : M S R bool) (init : M S R unit) (s s1 s2 : S) (b : bool) :
  init s = (Next tt, s1) -> c s1 = (Next b, s2) ->
  reflow init c cleanup body s
  = bind (fun s => if b then absorb (body s) else (Next tt, s)) (fun _ => cleanup) s2.
Proof.
  intros H1 H2. unfold reflow. rewrite (bind_next _ _ _ _ _ H1), (bind_next _ _ _ _ _ H2).
  unfold bind, when. destruct b; [by rewrite round_do_once|done].
Qed.

Lemma with_test_run {X} (decl : M S R X) init cond cleanup (body : X -> M S R unit)
    (s s0 s1 s2 : S) (x : X) (b : bool) (cl : S -> S) :
  decl s = (Next x, s0) -> init x s0 = (Next tt, s1) -> cond s1 = (Next b, s2) ->
  (forall s, cleanup x s = (Next tt, cl s)) ->
  with_test decl init cond cleanup body s
  = match (if b then absorb (body x s2) else (Next tt, s2)) with
    | (Next _, s3) => (Next tt, cl s3)
    | r => r
    end.
Proof.
  intros H0 H1 H2 Hc. unfold with_test, for_once, do_once.
  rewrite (bind_next _ _ _ _ _ H0), (reflow_run _ _ _ _ _ _ _ _ H1 H2).
  unfold bind. destruct b; simpl; [|by rewrite Hc].
  destruct (body x s2) as [[] s3]; simpl; by rewrite ?Hc.
Qed.

(** [with] whose condition is that no exception is pending. *)
Lemma with_assign_run {X} (decl : M S R X) cleanup (body : X -> M S R unit)
    (s s0 : S) (x : X) (cl : S -> S) :
  decl s = (Next x, s0) -> (forall s, cleanup x s = (Next tt, cl s)) ->
  with_assign decl cleanup body s
  = match (if Exception_has (get_ex s0) then (Next tt, s0) else absorb (body x s0)) with
    | (Next _, s3) => (Next tt, cl s3)
    | r => r
    end.
Proof.
  intros H0 Hc. unfold with_assign.
  rewrite (with_test_run decl _ _ _ _ s s0 s0 s0 x (negb (Exception_has (get_ex s0))) cl); try done.
  by destruct (Exception_has _).
Qed.

Lemma try_run body handlers (s : S) :
  try_ body handlers s
  = match absorb (body s) with
    | (Next _, s') => if Exception_has (get_ex s') then handlers s' else (Next tt, s')
    | r => r
    end.
Proof.
  unfold try_. unfold bind at 1. rewrite round_do_once.
  destruct (absorb (body s)) as [[] s']; try done.
  unfold bind, has_ex, gets, when. by destruct (Exception_has _).
Qed.

Lemma catch_default_run body (s : S) :
  catch_default body s
  = match absorb (body (put_ex (with_set EXCEPTION_CATCHED (get_ex s)) s)) with
    | (Next _, s') =>
        (Next tt, if set (get_ex s') =? 1 then s' else put_ex (Exception_destory (get_ex s')) s')
    | r => r
    end.
Proof.
  unfold catch_default.
  erewrite (with_test_run _ _ _ _ _ s s _ _ tt true
    (fun s' => if set (get_ex s') =? 1 then s' else put_ex (Exception_destory (get_ex s')) s'));
    try reflexivity.
  intros s'. unfold end_catch, bind, gets, when. by destruct (_ =? 1).
Qed.

Lemma onerror_default_run body (s : S) :
  onerror_default body s
  = match absorb (body s) with (Next _, s') => (Next tt, s') | r => r end.
Proof.
  unfold onerror_default. by rewrite (with_test_run _ _ _ _ _ s s s s tt true (fun s => s)).
Qed.
End Equations.

(** ** What a statement keeps, whatever happens in it

    [keeps Rel m]: every run of [m], however it ends, takes a state to a [Rel]-related one. *)

Definition keeps {S R A} (Rel : S -> S -> Prop) (m : M S R A) : Prop :=
  forall s, Rel s (snd (m s)).

(** A preorder on states that lets an exception become pending. *)
Class KeepRel {S} `{HasEx S} (Rel : S -> S -> Prop) := {
  keep_refl : forall s, Rel s s;
  keep_trans : forall s1 s2 s3, Rel s1 s2 -> Rel s2 s3 -> Rel s1 s3;
  keep_raise : forall e s, Exception_has e = true -> Rel s (put_ex e s);
}.

(** One that does not look at the exception object at all. *)
Class KeepEx {S} `{HasEx S} (Rel : S -> S -> Prop) := {
  keep_ex_rel :: KeepRel Rel;
  keep_ex : forall e s, Rel s (put_ex e s);
}.

Create HintDb keeps.
#[export] Hint Extern 0 (KeepRel _) => apply _ : keeps.
#[export] Hint Extern 0 (KeepEx _) => apply _ : keeps.

Section Keeps.
Context {S R : Type} `{HasEx S} (Rel : S -> S -> Prop) `{!KeepRel Rel}.

Lemma keeps_same {A} (m : M S R A) : (forall s, snd (m s) = s) -> keeps Rel m.
Proof. intros Hm s. rewrite Hm. apply keep_refl. Qed.

Lemma keeps_mret {A} (a : A) : keeps Rel (mret (R := R) a).
Proof. by apply keeps_same. Qed.
Lemma keeps_skip : keeps Rel (skip (R := R)).
Proof. by apply keeps_same. Qed.
Lemma keeps_break {A} : keeps Rel (break (R := R) (A := A)).
Proof. by apply keeps_same. Qed.
Lemma keeps_continue {A} : keeps Rel (continue (R := R) (A := A)).
Proof. by apply keeps_same. Qed.
Lemma keeps_return {A} (r : R) : keeps Rel (return_ (A := A) r).
Proof. by apply keeps_same. Qed.
Lemma keeps_stuck {A} (f : fault) : keeps Rel (stuck (R := R) (A := A) f).
Proof. by apply keeps_same. Qed.
Lemma keeps_gets {A} (f : S -> A) : keeps Rel (gets (R := R) f).
Proof. by apply keeps_same. Qed.
Lemma keeps_has_ex : keeps Rel (has_ex (R := R)).
Proof. apply keeps_gets. Qed.
Lemma keeps_no_pending : keeps Rel (no_pending (R := R)).
Proof. by apply keeps_same. Qed.
Lemma keeps_deref {A} (o : option A) : keeps Rel (deref (R := R) o).
Proof. apply keeps_same. by destruct o. Qed.

Lemma keeps_modify (f : S -> S) : (forall s, Rel s (f s)) -> keeps Rel (modify (R := R) f).
Proof. intros Hf s. apply Hf. Qed.
Lemma keeps_raise (f : Exception -> Exception) :
  (forall e, Exception_has (f e) = true) -> keeps Rel (upd_ex (R := R) f).
Proof. intros Hf. apply keeps_modify. intros s. apply keep_raise, Hf. Qed.
Lemma keeps_set_pending : keeps Rel (ex_set (R := R) 1).
Proof. apply keeps_modify. intros s. by apply keep_raise. Qed.

Lemma keeps_bind {A B} (m : M S R A) (f : A -> M S R B) :
  keeps Rel m -> (forall a, keeps Rel (f a)) -> keeps Rel (bind m f).
Proof.
  intros Hm Hf s. unfold bind. specialize (Hm s). destruct (m s) as [[a| | | |] s']; simpl in *; try done.
  eapply keep_trans; [done|apply Hf].
Qed.

Lemma keeps_when (b : bool) (m : M S R unit) : keeps Rel m -> keeps Rel (when b m).
Proof. intros. destruct b; [done|apply keeps_skip]. Qed.

Lemma keeps_do_once (m : M S R unit) : keeps Rel m -> keeps Rel (do_once m).
Proof. intros Hm s. specialize (Hm s). unfold do_once. by destruct (m s) as [[] ?]. Qed.

Lemma keeps_round (m : M S R unit) : keeps Rel m -> keeps Rel (round m).
Proof.
  intros Hm%keeps_do_once s. specialize (Hm s). unfold round.
  by destruct (do_once m s) as [[] ?].
Qed.

Lemma keeps_if {A} (b : bool) (m m' : M S R A) :
  keeps Rel m -> keeps Rel m' -> keeps Rel (if b then m else m').
Proof. by destruct b. Qed.
End Keeps.

#[export] Hint Resolve keeps_mret keeps_skip keeps_break keeps_continue keeps_return keeps_stuck
  keeps_gets keeps_has_ex keeps_no_pending keeps_deref keeps_set_pending keeps_bind
  keeps_when keeps_do_once keeps_round keeps_if : keeps.

Section KeepsEx.
Context {S R : Type} `{HasEx S} (Rel : S -> S -> Prop) `{!KeepEx Rel}.

Lemma keeps_upd_ex (f : Exception -> Exception) : keeps Rel (upd_ex (R := R) f).
Proof. apply keeps_modify. intros s. apply keep_ex. Qed.
Lemma keeps_ex_set (z : Z) : keeps Rel (ex_set (R := R) z).
Proof. apply keeps_modify. intros s. apply keep_ex. Qed.
End KeepsEx.

#[export] Hint Resolve keeps_upd_ex keeps_ex_set : keeps.

(** Decide a [keeps] goal about the statements above by their shape. *)
Ltac keeps_core :=
  repeat first
    [ progress intros
    | solve [eauto 2 with keeps]
    | match goal with Hk : forall _, keeps _ _ |- _ => apply Hk end
    | apply keeps_bind; [apply _|..] | apply keeps_when; [apply _|..] | apply keeps_if
    | apply keeps_do_once | apply keeps_round ].

Section KeepsMacros.
Context {S R : Type} `{HasEx S} (Rel : S -> S -> Prop) `{!KeepRel Rel}.
Implicit Types m body : M S R unit.

Lemma keeps_reflow init (c : M S R bool) cleanup body :
  keeps Rel init -> keeps Rel c -> keeps Rel cleanup -> keeps Rel body ->
  keeps Rel (reflow init c cleanup body).
Proof. intros. unfold reflow. keeps_core. Qed.

Lemma keeps_with_test {X} (decl : M S R X) init cond cleanup (body : X -> M S R unit) :
  keeps Rel decl -> (forall x, keeps Rel (init x)) -> keeps Rel cond ->
  (forall x, keeps Rel (cleanup x)) -> (forall x, keeps Rel (body x)) ->
  keeps Rel (with_test decl init cond cleanup body).
Proof. intros. unfold with_test, for_once. apply keeps_do_once, keeps_bind; [done..|]. intros x. apply keeps_reflow; keeps_core. Qed.

Lemma keeps_with_seperated {X} (decl : M S R X) init cleanup (body : X -> M S R unit) :
  keeps Rel decl -> (forall x, keeps Rel (init x)) ->
  (forall x, keeps Rel (cleanup x)) -> (forall x, keeps Rel (body x)) ->
  keeps Rel (with_seperated decl init cleanup body).
Proof. intros. unfold with_seperated. apply keeps_with_test; keeps_core. Qed.

Lemma keeps_with_assign {X} (decl : M S R X) cleanup (body : X -> M S R unit) :
  keeps Rel decl -> (forall x, keeps Rel (cleanup x)) -> (forall x, keeps Rel (body x)) ->
  keeps Rel (with_assign decl cleanup body).
Proof. intros. unfold with_assign. apply keeps_with_test; keeps_core. Qed.

Lemma keeps_with_decl {X} (decl : M S R X) (body : X -> M S R unit) :
  keeps Rel decl -> (forall x, keeps Rel (body x)) -> keeps Rel (with_decl decl body).
Proof. intros. unfold with_decl. apply keeps_with_test; keeps_core. Qed.

Lemma keeps_check : keeps Rel (check (R := R)).
Proof. intros. unfold check. keeps_core. Qed.

Lemma keeps_throwable m : keeps Rel m -> keeps Rel (throwable m).
Proof. intros. unfold throwable, do_after. pose proof keeps_check. apply keeps_reflow; keeps_core. Qed.

Lemma keeps_throwable_as {A} (e : M S R A) : keeps Rel e -> keeps Rel (throwable_as e).
Proof. intros. unfold throwable_as. pose proof keeps_check. keeps_core. Qed.

Lemma keeps_throw m : keeps Rel m -> keeps Rel (throw m).
Proof. intros. unfold throw. apply keeps_reflow; keeps_core. Qed.

Lemma keeps_condition_throw (b : bool) m : keeps Rel m -> keeps Rel (condition_throw b m).
Proof. intros. unfold condition_throw. pose proof (keeps_throw m). keeps_core. Qed.

Lemma keeps_try body handlers :
  keeps Rel body -> keeps Rel handlers -> keeps Rel (try_ body handlers).
Proof. intros. unfold try_. keeps_core. Qed.

Lemma keeps_onerror_default body : keeps Rel body -> keeps Rel (onerror_default body).
Proof. intros. unfold onerror_default. apply keeps_with_test; keeps_core. Qed.

Lemma keeps_for_each {X} (l : list X) (body : X -> M S R unit) :
  (forall x, keeps Rel (body x)) -> keeps Rel (for_each l body).
Proof.
  intros Hb. induction l as [|x l IH]; simpl; [apply keeps_skip; apply _|].
  intros s. specialize (Hb x s). destruct (body x s) as [[]s']; simpl in *; try done;
    (eapply keep_trans; [done|apply IH]).
Qed.

Lemma keeps_no_handler : keeps Rel (no_handler (R := R)).
Proof. exact (keeps_skip Rel). Qed.
End KeepsMacros.

Section KeepsCatch.
Context {S R : Type} `{HasEx S} (Rel : S -> S -> Prop) `{!KeepEx Rel}.
Implicit Types m body : M S R unit.

Lemma keeps_catch_default body : keeps Rel body -> keeps Rel (catch_default body).
Proof. intros. unfold catch_default, end_catch. apply keeps_with_test; keeps_core. Qed.

Lemma keeps_catch_type t body rest :
  keeps Rel body -> keeps Rel rest -> keeps Rel (catch_type t body rest).
Proof. intros. unfold catch_type. pose proof (keeps_catch_default body). keeps_core. Qed.
End KeepsCatch.

#[export] Hint Resolve keeps_reflow keeps_with_test keeps_with_seperated keeps_with_assign
  keeps_with_decl keeps_check keeps_throwable keeps_throwable_as keeps_throw
  keeps_condition_throw keeps_try keeps_catch_default keeps_catch_type keeps_onerror_default
  keeps_for_each
  keeps_no_handler : keeps.

(** A relation on the shared part of the state, seen through a frame. *)
Definition on_shared {L G} (Rel : G -> G -> Prop) : L * G -> L * G -> Prop :=
  fun s s' => Rel (snd s) (snd s').

#[export] Instance on_shared_keep {L G} `{HasEx G} (Rel : G -> G -> Prop) `{!KeepRel Rel} :
  KeepRel (S := L * G) (on_shared Rel).
Proof.
  split; unfold on_shared.
  - intros [l g]. apply keep_refl.
  - intros [l1 g1] [l2 g2] [l3 g3]. apply keep_trans.
  - intros e [l g]. apply keep_raise.
Qed.

#[export] Instance on_shared_keep_ex {L G} `{HasEx G} (Rel : G -> G -> Prop) `{!KeepEx Rel} :
  KeepEx (S := L * G) (on_shared Rel).
Proof. split; [apply _|]. intros e [l g]. exact (keep_ex (Rel := Rel) e g). Qed.

Lemma keeps_call {L G L' R R' B} (Rel : G -> G -> Prop) (fresh : L') (out : L' -> B)
    (f : M (L' * G) R' unit) :
  keeps (on_shared Rel) f -> keeps (S := L * G) (R := R) (on_shared Rel) (call fresh out f).
Proof.
  intros Hf [l g]. specialize (Hf (fresh, g)). unfold call, on_shared in *. simpl in *.
  by destruct (f (fresh, g)) as [[] [? ?]].
Qed.

Lemma keeps_call_in {S R R'} (Rel : S -> S -> Prop) (f : M S R' unit) :
  keeps Rel f -> keeps Rel (call_in (R := R) f).
Proof.
  intros Hf s. specialize (Hf s). unfold call_in. by destruct (f s) as [[] ?].
Qed.

Lemma keeps_local {L G R} `{HasEx G} (Rel : G -> G -> Prop) `{!KeepRel Rel} :
  keeps (on_shared Rel) (local : M (L * G) R L).
Proof. apply (keeps_same (on_shared Rel)). done. Qed.

Lemma keeps_upd_local {L G R} `{HasEx G} (Rel : G -> G -> Prop) `{!KeepRel Rel} (f : L -> L) :
  keeps (on_shared Rel) (upd_local f : M (L * G) R unit).
Proof. apply keeps_modify. intros [l g]. change (Rel g g). apply keep_refl. Qed.

Lemma keeps_set_local {L G R} `{HasEx G} (Rel : G -> G -> Prop) `{!KeepRel Rel} (l : L) :
  keeps (on_shared Rel) (set_local l : M (L * G) R unit).
Proof. apply keeps_modify. intros [? g]. change (Rel g g). apply keep_refl. Qed.

#[export] Hint Resolve keeps_call keeps_call_in keeps_local keeps_upd_local keeps_set_local : keeps.

(** Decide a [keeps] goal by the shape of the statement. *)
Ltac keeps :=
  repeat first
    [ progress intros
    | match goal with |- KeepRel _ => apply _ | |- KeepEx _ => apply _ end
    | apply keeps_raise; [apply _|done]
    | match goal with Hk : forall _, keeps _ _ |- _ => apply Hk end
    | solve [eauto 2 with keeps]
    | apply keeps_bind | apply keeps_with_test | apply keeps_with_seperated
    | apply keeps_with_assign | apply keeps_with_decl | apply keeps_try | apply keeps_throwable
    | apply keeps_throwable_as | apply keeps_throw | apply keeps_condition_throw
    | apply keeps_catch_type | apply keeps_catch_default | apply keeps_onerror_default
    | apply keeps_when | apply keeps_if | apply keeps_do_once | apply keeps_round
    | apply keeps_reflow | apply keeps_for_each | apply keeps_call | apply keeps_call_in
    | match goal with |- keeps _ (match ?x with _ => _ end) => destruct x eqn:? end ].

(** ** Properties *)

Section Properties.
Context {S R : Type} `{HasEx S}.

(** C31: a [with] block runs its cleanup exactly once on every way out of the body that stays in
    the function (falling through, [break], [continue], a thrown exception), and also when the
    condition skipped the body; control then continues after the block. Only a C [return]
    leaves without the cleanup. *)
Theorem with_cleanup_runs {X} (decl : M S R X) init cond cleanup (body : X -> M S R unit)
    (s s0 s1 s2 : S) (x : X) (b : bool) (cl : S -> S) :
  decl s = (Next x, s0) -> init x s0 = (Next tt, s1) -> cond s1 = (Next b, s2) ->
  (forall s, cleanup x s = (Next tt, cl s)) ->
  with_test decl init cond cleanup body s
  = match (if b then body x s2 else (Next tt, s2)) with
    | (Ret r, s3) => (Ret r, s3)
    | (Stuck f, s3) => (Stuck f, s3)
    | (_, s3) => (Next tt, cl s3)
    end.
Proof.
  intros H0 H1 H2 Hc. rewrite (with_test_run _ _ _ _ _ _ _ _ _ _ _ _ H0 H1 H2 Hc).
  destruct b; [by destruct (body x s2) as [[] ?]|done].
Qed.

(** C32: [try body catch (T) h else rest]: without a pending exception at its end the body is the
    whole statement; an exception of class T runs [h] with the object marked as caught, and
    afterwards the object is destroyed unless [h] threw again; an exception of another class
    goes to [rest] untouched. *)
Theorem try_catch_spec (t : ExnType) (body h rest : M S R unit) (s s1 : S) (c : ctl R unit) :
  body s = (c, s1) -> (forall r, c <> Ret r) -> (forall f, c <> Stuck f) ->
  try_ body (catch_type t h rest) s
  = if Exception_has (get_ex s1) then
      if issubtype (get_ex s1) t then
        match h (put_ex (with_set EXCEPTION_CATCHED (get_ex s1)) s1) with
        | (Ret r, s2) => (Ret r, s2)
        | (Stuck f, s2) => (Stuck f, s2)
        | (_, s2) => (Next tt, if set (get_ex s2) =? 1 then s2
                               else put_ex (Exception_destory (get_ex s2)) s2)
        end
      else rest s1
    else (Next tt, s1).
Proof.
  intros Hb Hr Hf. rewrite try_run, Hb.
  assert (absorb (c, s1) = (Next tt, s1)) as -> by (destruct c as [[]| | | |]; simpl; congruence).
  destruct (Exception_has (get_ex s1)); [|done].
  unfold catch_type. unfold bind at 1, gets. destruct (issubtype (get_ex s1) t); [|done].
  rewrite catch_default_run. by destruct (h _) as [[] ?].
Qed.

(** A [throw] never falls through: it leaves the enclosing block with the exception object
    pending, whatever the statement that builds the exception does inside the function; and a
    [throwable] statement leaves its block exactly when an exception is pending after it. *)
Theorem throw_leaves_block (m : M S R unit) (s s1 : S) (c : ctl R unit) :
  m s = (c, s1) -> (forall r, c <> Ret r) -> (forall f, c <> Stuck f) ->
  (exists s2, throw m s = (Brk, s2) /\ Exception_has (get_ex s2) = true
              /\ get_ex s2 = with_set 1 (get_ex s1))
  /\ throwable m s = (if Exception_has (get_ex s1) then Brk else Next tt, s1).
Proof.
  intros Hm Hr Hf.
  assert (absorb (c, s1) = (Next tt, s1)) as E by (destruct c as [[]| | | |]; simpl; congruence).
  split.
  - rewrite throw_run, Hm, E. eexists. splits; [done|by rewrite get_put_ex..].
  - by rewrite throwable_run, Hm, E.
Qed.
End Properties.

(** The exception object alone is a state of the macros. *)
#[export] Instance HasEx_Exception : HasEx Exception.
Proof. by refine {| get_ex := fun e => e; put_ex := fun e _ => e |}. Defined.

Lemma with_cleanup_runs_witness :
  with_test (S := Exception) (R := Z) (mret tt) (fun _ => skip) (mret true)
    (fun _ => modify (with_what (Some "cleaned"))) (fun _ => ex_set 1 ;;; break) ex0
  = (Next tt, with_what (Some "cleaned") (with_set 1 ex0)).
Proof.
  rewrite (with_cleanup_runs _ _ _ _ _ ex0 ex0 ex0 ex0 tt true (with_what (Some "cleaned")));
    reflexivity.
Defined.

Lemma try_catch_spec_witness :
  try_ (S := Exception) (R := Z) (throw (upd_ex (fun e => MallocException_init e None)))
    (catch_type MallocException skip no_handler) ex0
  = (Next tt, Exception_destory (with_set 2 (MallocException_init ex0 None))).
Proof.
  rewrite (try_catch_spec _ _ _ _ ex0 (MallocException_init ex0 None) Brk);
    [reflexivity..|discriminate|discriminate].
Defined.

Lemma throw_leaves_block_witness :
  throwable (S := Exception) (R := Z) (upd_ex (fun e => MallocException_init e None)) ex0
  = (Brk, MallocException_init ex0 None).
Proof.
  destruct (throw_leaves_block (S := Exception) (R := Z) (upd_ex (fun e => MallocException_init e None)) ex0
    (MallocException_init ex0 None) (Next tt)) as [_ H];
    [reflexivity|discriminate|discriminate|exact H].
Defined.
