(* ===== verification/Buffer.v ===== *)
(** * common/template/buffer.[ch]: the buffers behind the transfer callbacks

    [Buffer_append] is a libcurl write callback and [Buffer_fetch] a read callback. A buffer
    either wraps memory of the caller ([extensible] is false) or owns memory it can grow. *)

From S2P Require Import Prelude Exception.
#[local] Open Scope Z_scope.

(** ** Definitions *)

Record Buffer := mkBuffer {
  data : bytes;        (* the bytes of the allocation *)
  size : Z;
  offset : Z;
  extensible : bool;
}.

Definition zlen (s : bytes) : Z := Z.of_nat (length s).

(** memcpy into [dst] at [off] and out of [src] at [off]: [None] outside the object. *)
Definition mem_write (dst : bytes) (off : Z) (src : bytes) : option bytes :=
  if bool_decide (0 <= off /\ off + zlen src <= zlen dst)
  then Some (take (Z.to_nat off) dst ++ src ++ drop (Z.to_nat off + length src) dst)
  else None.

Definition mem_read (src : bytes) (off n : Z) : option bytes :=
  if bool_decide (0 <= off /\ 0 <= n /\ off + n <= zlen src)
  then Some (take (Z.to_nat n) (drop (Z.to_nat off) src))
  else None.

(** [realloc] to [n] bytes keeps the old ones; the new ones are unspecified, here NUL. *)
Definition realloc_bytes (s : bytes) (n : Z) : bytes := resize (Z.to_nat n) NUL s.

(** [realloc_ok]: the allocation succeeds. *)
Definition Buffer_resize (realloc_ok : bool) (this : Buffer) (new_size : Z) (e : Exception)
    : Z * Buffer * Exception :=
  if extensible this then
    if realloc_ok then
      let this' := mkBuffer (realloc_bytes (data this) new_size) new_size (offset this) true in
      (size this', this', e)
    else (size this, this, with_set 1 (MallocException_init e (Some "buffer resize")))
  else (size this, this, e).

(** The callbacks: the count returned to libcurl, the buffer and the exception object; [None] is
    an access outside the buffer or outside the chunk. The [size] argument, always 1, is not
    used. *)
Definition Buffer_append (realloc_ok : bool) (ptr : bytes) (nmemb : Z) (this : option Buffer)
    (e : Exception) : option (Z * option Buffer * Exception) :=
  match this with
  | None => Some (nmemb, None, e)
  | Some this =>
      if nmemb =? 0 then Some (nmemb, Some this, e) else
      let new_size := u64 (offset this + nmemb) in
      let '(nmemb', this', e') :=
        if size this <? new_size
        then let '(sz, b, e1) := Buffer_resize realloc_ok this new_size e in
             (u64 (sz - offset b), b, e1)
        else (nmemb, this, e) in
      src ← mem_read ptr 0 nmemb';
      data' ← mem_write (data this') (offset this') src;
      Some (nmemb', Some (mkBuffer data' (size this') (offset this' + nmemb') (extensible this')), e')
  end.

(** The bytes stored through [ptr], and the count. *)
Definition Buffer_fetch (nitems : Z) (this : option Buffer)
    : option (Z * bytes * option Buffer) :=
  match this with
  | None => Some (nitems, [], None)
  | Some this =>
      if nitems =? 0 then Some (nitems, [], Some this) else
      let nitems' := if size this <? u64 (offset this + nitems)
                     then u64 (size this - offset this) else nitems in
      out ← mem_read (data this) (offset this) nitems';
      Some (nitems', out, Some (mkBuffer (data this) (size this) (offset this + nitems') (extensible this)))
  end.

Definition Buffer_init_exist (data : bytes) (size : Z) (extensible : bool) : Buffer :=
  mkBuffer data size 0 extensible.

(** [malloc_ok]: the allocation succeeds; on failure the exception is left for the caller and the
    status is [TEST_SUCCESS]. *)
Definition Buffer_init_new (malloc_ok : bool) (size : Z) (e : Exception)
    : Z * option Buffer * Exception :=
  if malloc_ok
  then (TEST_SUCCESS e, Some (mkBuffer (repeat NUL (Z.to_nat size)) size 0 true), e)
  else let e' := MallocException_init e (Some "buffer data") in (TEST_SUCCESS e', None, e').

Definition Buffer_init_quick (malloc_ok : bool) (e : Exception) := Buffer_init_new malloc_ok 512 e.

(** Whether [Buffer_destory] frees the memory. *)
Definition Buffer_destory (this : option Buffer) : bool :=
  match this with None => false | Some b => extensible b end.

(** ** Invariant *)

(** The cursor is inside the allocation, and the allocation has [size] bytes. *)
Record Buffer_wf (b : Buffer) : Prop := {
  wf_offset : 0 <= offset b <= size b;
  wf_size : size b = zlen (data b);
  wf_bound : size b < 2 ^ 62;
}.

(** The bytes already appended, and the bytes still to be fetched. *)
Definition filled (b : Buffer) : bytes := take (Z.to_nat (offset b)) (data b).
Definition unread (b : Buffer) : bytes := drop (Z.to_nat (offset b)) (data b).

(** ** Lemmas *)

Lemma zlen_nonneg (s : bytes) : 0 <= zlen s.
Proof. unfold zlen. lia. Qed.

Lemma zlen_app (s t : bytes) : zlen (s ++ t) = zlen s + zlen t.
Proof. unfold zlen. rewrite length_app. lia. Qed.

(** An append leaves the exception object alone or raises. *)
Lemma Buffer_append_ex (ok : bool) (ptr : bytes) (n k : Z) (b b' : option Buffer) (e e' : Exception) :
  Buffer_append ok ptr n b e = Some (k, b', e') -> e' = e \/ Exception_has e' = true.
Proof.
  unfold Buffer_append, Buffer_resize. intros H.
  repeat (case_match; simplify_option_eq; eauto).
Qed.

Lemma mem_write_in (dst src : bytes) (off : Z) :
  0 <= off -> off + zlen src <= zlen dst ->
  exists dst', mem_write dst off src = Some dst' /\ zlen dst' = zlen dst
    /\ take (Z.to_nat (off + zlen src)) dst' = take (Z.to_nat off) dst ++ src.
Proof.
  intros H0 H1. unfold mem_write. rewrite bool_decide_true by done.
  eexists. split; [done|]. unfold zlen in *.
  assert (length (take (Z.to_nat off) dst) = Z.to_nat off) as Hl by (rewrite length_take; lia).
  split.
  - rewrite !length_app, Hl, length_drop. lia.
  - rewrite take_app_ge by (rewrite Hl; lia). rewrite Hl. f_equal.
    replace (Z.to_nat (off + Z.of_nat (length src)) - Z.to_nat off)%nat with (length src) by lia.
    apply take_app_length.
Qed.

Lemma mem_read_prefix (src : bytes) (n : Z) :
  0 <= n <= zlen src -> mem_read src 0 n = Some (take (Z.to_nat n) src).
Proof. intros. unfold mem_read. rewrite bool_decide_true by (unfold zlen in *; lia). done. Qed.

Lemma zlen_take (n : Z) (s : bytes) : 0 <= n <= zlen s -> zlen (take (Z.to_nat n) s) = n.
Proof. unfold zlen. intros. rewrite length_take. lia. Qed.

Lemma zlen_realloc (s : bytes) (n : Z) : 0 <= n -> zlen (realloc_bytes s n) = n.
Proof. unfold zlen, realloc_bytes. intros. rewrite length_resize. lia. Qed.

Lemma take_realloc (s : bytes) (k n : Z) :
  0 <= k <= zlen s -> k <= n ->
  take (Z.to_nat k) (realloc_bytes s n) = take (Z.to_nat k) s.
Proof. unfold zlen, realloc_bytes. intros. rewrite take_resize_le by lia. 
  rewrite resize_le by lia. done. Qed.

Lemma filled_length (b : Buffer) : Buffer_wf b -> zlen (filled b) = offset b.
Proof. intros [Ho Hs _]. unfold filled. apply zlen_take. lia. Qed.

Lemma filled_unread (b : Buffer) : filled b ++ unread b = data b.
Proof. apply take_drop. Qed.

(** Growing does not move the cursor or change what is filled. *)
Lemma Buffer_resize_wf (b : Buffer) (n : Z) (e : Exception) :
  Buffer_wf b -> extensible b = true -> size b <= n < 2 ^ 62 ->
  exists b', Buffer_resize true b n e = (n, b', e) /\ Buffer_wf b' /\ size b' = n
    /\ offset b' = offset b /\ extensible b' = true /\ filled b' = filled b.
Proof.
  intros [Ho Hs Hb] He Hn. unfold Buffer_resize. rewrite He. eexists. splits; try done.
  - split; simpl; [lia|by rewrite zlen_realloc by lia|lia].
  - unfold filled. simpl. apply take_realloc; lia.
Qed.

(** The store of [Buffer_append], once the count is clipped. *)
Lemma append_store (b : Buffer) (ptr : bytes) (k : Z) :
  Buffer_wf b -> 0 <= k <= zlen ptr -> offset b + k <= size b ->
  exists d, mem_write (data b) (offset b) (take (Z.to_nat k) ptr) = Some d
    /\ Buffer_wf (mkBuffer d (size b) (offset b + k) (extensible b))
    /\ filled (mkBuffer d (size b) (offset b + k) (extensible b)) = filled b ++ take (Z.to_nat k) ptr.
Proof.
  intros [Ho Hs Hb] Hk Hfit.
  destruct (mem_write_in (data b) (take (Z.to_nat k) ptr) (offset b)) as (d & Hd & Hl & Ht);
    [lia|rewrite zlen_take by lia; lia|].
  exists d. splits; [done|split; simpl; lia|].
  unfold filled. simpl. by rewrite zlen_take in Ht by lia.
Qed.

(** How many bytes of a chunk of [n] the buffer takes. *)
Definition append_count (realloc_ok : bool) (b : Buffer) (n : Z) : Z :=
  if (offset b + n <=? size b) || (extensible b && realloc_ok) then n else size b - offset b.

(** What an append does, in every case. *)
Lemma Buffer_append_run (realloc_ok : bool) (ptr : bytes) (n : Z) (b : Buffer) (e : Exception) :
  Buffer_wf b -> 0 <= n <= zlen ptr -> offset b + n < 2 ^ 62 ->
  let k := append_count realloc_ok b n in
  exists b' e',
    Buffer_append realloc_ok ptr n (Some b) e = Some (k, Some b', e')
    /\ Buffer_wf b' /\ extensible b' = extensible b
    /\ filled b' = filled b ++ take (Z.to_nat k) ptr
    /\ size b' = (if (offset b + n <=? size b) || negb (extensible b && realloc_ok) then size b
                  else offset b + n)
    /\ e' = (if negb (offset b + n <=? size b) && extensible b && negb realloc_ok
             then with_set 1 (MallocException_init e (Some "buffer resize")) else e).
Proof.
  intros Hwf Hn Hbound k. pose proof Hwf as [Ho Hs Hb].
  unfold Buffer_append, k, append_count. destruct (Z.eqb_spec n 0) as [->|Hn0].
  { exists b, e. rewrite Z.add_0_r. replace (offset b <=? size b) with true by lia. simpl.
    splits; try done. by rewrite app_nil_r. }
  rewrite u64_id by lia.
  destruct (Z.leb_spec (offset b + n) (size b)) as [Hfit|Hfit]; simpl.
  - replace (size b <? offset b + n) with false by lia.
    rewrite mem_read_prefix by lia. simpl.
    destruct (append_store b ptr n) as (d & -> & Hw & Hf); [done|lia..|].
    eexists _, _. split; [reflexivity|]. by splits.
  - replace (size b <? offset b + n) with true by lia.
    destruct (extensible b) eqn:Eext; [destruct realloc_ok|].
    + destruct (Buffer_resize_wf b (offset b + n) e) as (b1 & -> & Hw1 & Hs1 & Ho1 & He1 & Hf1);
        [done..|lia|].
      rewrite u64_id, Ho1 by lia. replace (offset b + n - offset b) with n by lia.
      rewrite mem_read_prefix by lia. simpl. rewrite <- Ho1.
      destruct (append_store b1 ptr n) as (d & -> & Hw & Hf); [done|lia..|].
      eexists _, _. split; [reflexivity|]. splits; try done; [by rewrite Hf, Hf1|by rewrite Ho1].
    + unfold Buffer_resize. rewrite Eext. simpl. rewrite u64_id by lia.
      rewrite mem_read_prefix by lia. simpl.
      destruct (append_store b ptr (size b - offset b)) as (d & -> & Hw & Hf); [done|lia..|].
      eexists _, _. split; [reflexivity|]. by splits.
    + unfold Buffer_resize. rewrite Eext. simpl. rewrite u64_id by lia.
      rewrite mem_read_prefix by lia. simpl.
      destruct (append_store b ptr (size b - offset b)) as (d & -> & Hw & Hf); [done|lia..|].
      eexists _, _. split; [reflexivity|]. by splits.
Qed.

(** C34: appending a chunk to a well-formed buffer never touches memory outside the buffer or the
    chunk; it stores a prefix of the chunk right after the bytes appended before, the whole chunk
    when it fits or the buffer can grow and otherwise exactly what fits, returns that count, and
    raises an exception only when a needed growth failed. *)
Theorem Buffer_append_spec (realloc_ok : bool) (ptr : bytes) (n : Z) (b : Buffer) (e : Exception) :
  Buffer_wf b -> 0 <= n <= zlen ptr -> offset b + n < 2 ^ 62 ->
  let k := append_count realloc_ok b n in
  exists b' e',
    Buffer_append realloc_ok ptr n (Some b) e = Some (k, Some b', e')
    /\ Buffer_wf b' /\ extensible b' = extensible b
    /\ filled b' = filled b ++ take (Z.to_nat k) ptr
    /\ size b' = (if (offset b + n <=? size b) || negb (extensible b && realloc_ok) then size b
                  else offset b + n)
    /\ e' = (if negb (offset b + n <=? size b) && extensible b && negb realloc_ok
             then with_set 1 (MallocException_init e (Some "buffer resize")) else e).
Proof. apply Buffer_append_run. Qed.

Lemma Buffer_wf_exist (d : bytes) (x : bool) :
  zlen d < 2 ^ 62 -> Buffer_wf (Buffer_init_exist d (zlen d) x).
Proof. intros. split; simpl; [pose proof (zlen_nonneg d)|..]; lia. Qed.

Lemma Buffer_append_spec_witness :
  exists b' e', Buffer_append true (lit "chunk") 5 (Some (Buffer_init_exist (lit "....") 4 false)) ex0
    = Some (4, Some b', e') /\ filled b' = lit "chun" /\ e' = ex0.
Proof.
  destruct (Buffer_append_spec true (lit "chunk") 5 (Buffer_init_exist (lit "....") 4 false) ex0)
    as (b' & e' & H1 & _ & _ & H2 & _ & H3).
  - apply (Buffer_wf_exist (lit "....")). reflexivity.
  - vm_compute. split; congruence.
  - reflexivity.
  - exists b', e'. split; [exact H1|]. split; [exact H2|exact H3].
Defined.

(** ** A whole transfer *)

(** The chunks of a response body, appended one after the other; the exception of a failed growth
    stays in [e]. [None] is an access outside the buffer. *)
Fixpoint append_all (realloc_ok : bool) (chunks : list bytes) (b : Buffer) (e : Exception)
    : option (Buffer * Exception) :=
  match chunks with
  | [] => Some (b, e)
  | c :: cs =>
      match Buffer_append realloc_ok c (zlen c) (Some b) e with
      | Some (_, Some b', e') => append_all realloc_ok cs b' e'
      | _ => None
      end
  end.

Lemma take_app_split (n : nat) (s t : bytes) :
  take n (s ++ t) = take n s ++ take (n - length s) t.
Proof. apply take_app. Qed.

(** The part of the rest of a body that a buffer takes: all of it when the buffer grows, and what
    fits behind the cursor when it does not. *)
Definition taken (b : Buffer) (body : bytes) : bytes :=
  if extensible b then body else take (Z.to_nat (size b - offset b)) body.

(** One chunk: the count appended is the length of what the buffer takes of it, and what is taken
    of a longer body is what is taken of its first chunk and then of the rest. *)
Lemma append_count_taken (b : Buffer) (c : bytes) :
  Buffer_wf b -> take (Z.to_nat (append_count true b (zlen c))) c = taken b c.
Proof.
  intros [Ho Hs Hb]. unfold append_count, taken, zlen.
  destruct (extensible b); simpl; destruct (Z.leb_spec (offset b + Z.of_nat (length c)) (size b)); simpl;
    try (rewrite take_ge by lia); try (rewrite take_ge by lia); try done.
Qed.

Lemma taken_app (b b1 : Buffer) (c cs : bytes) :
  Buffer_wf b -> Buffer_wf b1 -> extensible b1 = extensible b ->
  (extensible b = false -> size b1 = size b) -> filled b1 = filled b ++ taken b c ->
  taken b (c ++ cs) = taken b c ++ taken b1 cs.
Proof.
  intros Hwf Hwf1 Hx Hsz Hf. pose proof (filled_length b1 Hwf1) as Ho1.
  rewrite Hf, zlen_app, filled_length in Ho1 by done. unfold taken in *. rewrite Hx in *.
  destruct (extensible b); [done|]. rewrite take_app_split, (Hsz eq_refl). f_equal. f_equal.
  pose proof Hwf as [? ? ?]. unfold zlen in Ho1. rewrite length_take in Ho1. lia.
Qed.

(** From any cursor: what the buffer takes of the rest of the body, and no exception. *)
Lemma append_all_run (chunks : list bytes) (b : Buffer) (e : Exception) :
  Buffer_wf b -> offset b + zlen (concat chunks) < 2 ^ 62 ->
  exists b', append_all true chunks b e = Some (b', e) /\ Buffer_wf b'
    /\ extensible b' = extensible b /\ filled b' = filled b ++ taken b (concat chunks).
Proof.
  revert b. induction chunks as [|c cs IH]; intros b Hwf Hroom; cbn [append_all concat] in *.
  { exists b. splits; [done..|]. unfold taken. by destruct (extensible b); rewrite ?take_nil, app_nil_r. }
  rewrite zlen_app in Hroom. pose proof (zlen_nonneg c). pose proof (zlen_nonneg (concat cs)).
  destruct (Buffer_append_run true c (zlen c) b e) as (b1 & e1 & -> & Hwf1 & Hx1 & Hf1 & Hsz & He1);
    [done|lia..|].
  rewrite andb_false_r in He1. simpl in He1. subst e1.
  rewrite append_count_taken in Hf1 by done.
  assert (offset b1 <= offset b + zlen c).
  { rewrite <- (filled_length b1 Hwf1), Hf1, zlen_app, filled_length by done. unfold taken, zlen.
    destruct (extensible b); rewrite ?length_take; lia. }
  destruct (IH b1) as (b2 & H2 & Hwf2 & Hx2 & Hf2); [done|lia|].
  exists b2. splits; [done..|congruence|]. rewrite Hf2, Hf1, <- app_assoc. f_equal. symmetry.
  apply taken_app; [done..| |done]. intros Hx. by rewrite Hx, orb_true_r in Hsz.
Qed.

(** C35: a body appended chunk by chunk to any well-formed buffer, growing where it may, always
    returns, without an exception and within the buffer's memory, and leaves behind the bytes that
    were there exactly the concatenation of the chunks when the buffer is extensible, and exactly
    the first [size - offset] bytes of it (all of a shorter one) when it is the caller's fixed
    memory, however the body is cut; the offset is that count: no chunk is lost, repeated or
    reordered. *)
Theorem append_all_collects (chunks : list bytes) (b : Buffer) (e : Exception) :
  Buffer_wf b -> offset b + zlen (concat chunks) < 2 ^ 62 ->
  exists b', append_all true chunks b e = Some (b', e)
    /\ filled b' = filled b ++ (if extensible b then concat chunks
                               else take (Z.to_nat (size b - offset b)) (concat chunks))
    /\ offset b' = if extensible b then offset b + zlen (concat chunks)
                   else Z.min (size b) (offset b + zlen (concat chunks)).
Proof.
  intros Hwf Hroom. destruct (append_all_run chunks b e) as (b' & H1 & Hwf' & _ & Hf); [done..|].
  exists b'. splits; [done..|].
  rewrite <- (filled_length b' Hwf'), Hf, zlen_app, filled_length by done. pose proof Hwf as [? ? ?].
  unfold taken, zlen. destruct (extensible b); rewrite ?length_take; lia.
Qed.

Lemma append_all_collects_witness :
  let chunks := [lit "ab"; lit "cde"; lit "f"] in
  (exists b', append_all true chunks (Buffer_init_exist (lit "....") 4 true) ex0 = Some (b', ex0)
    /\ filled b' = lit "abcdef" /\ offset b' = 6)
  /\ exists b', append_all true chunks (Buffer_init_exist (lit "....") 4 false) ex0 = Some (b', ex0)
    /\ filled b' = lit "abcd" /\ offset b' = 4.
Proof.
  split.
  - destruct (append_all_collects [lit "ab"; lit "cde"; lit "f"] (Buffer_init_exist (lit "....") 4 true) ex0)
      as (b' & H1 & H2 & H3); [apply (Buffer_wf_exist (lit "....")); reflexivity|reflexivity|].
    exists b'. split; [exact H1|]. split; [exact H2|exact H3].
  - destruct (append_all_collects [lit "ab"; lit "cde"; lit "f"] (Buffer_init_exist (lit "....") 4 false) ex0)
      as (b' & H1 & H2 & H3); [apply (Buffer_wf_exist (lit "....")); reflexivity|reflexivity|].
    exists b'. split; [exact H1|]. split; [exact H2|exact H3].
Defined.

(** ** Fetching *)

(** One fetch hands out the next bytes and moves past them. *)
Lemma Buffer_fetch_spec (n : Z) (b : Buffer) :
  Buffer_wf b -> 0 <= n < 2 ^ 62 ->
  let k := Z.min n (size b - offset b) in
  exists b', Buffer_fetch n (Some b) = Some (k, take (Z.to_nat k) (unread b), Some b')
    /\ Buffer_wf b' /\ data b' = data b /\ size b' = size b /\ offset b' = offset b + k.
Proof.
  intros [Ho Hs Hb] Hn k. unfold Buffer_fetch. destruct (Z.eqb_spec n 0) as [->|Hn0].
  { unfold k. rewrite Z.min_l by lia. exists b. splits; [done|done|done|done|lia]. }
  rewrite u64_id by lia.
  assert ((if size b <? offset b + n then u64 (size b - offset b) else n) = k) as ->.
  { unfold k. destruct (Z.ltb_spec (size b) (offset b + n)); [rewrite u64_id by lia|]; lia. }
  unfold mem_read. rewrite bool_decide_true by (unfold k; lia). simpl.
  eexists. splits; [reflexivity|split; simpl; unfold k; lia|done..].
Qed.

(** What libcurl sends when it asks for [reqs] bytes at a time. *)
Fixpoint fetch_all (reqs : list Z) (b : Buffer) : option (bytes * Buffer) :=
  match reqs with
  | [] => Some ([], b)
  | n :: reqs' =>
      match Buffer_fetch n (Some b) with
      | Some (_, out, Some b') => '(rest, b2) ← fetch_all reqs' b'; Some (out ++ rest, b2)
      | _ => None
      end
  end.

(** However libcurl cuts its requests, the uploaded bytes are the buffer's bytes from the
    start, in order, each exactly once, and all of them once enough has been requested. *)
Theorem fetch_all_sends (reqs : list Z) (mem : bytes) :
  Forall (fun n => 0 <= n < 2 ^ 62) reqs -> zlen mem < 2 ^ 62 ->
  exists b', fetch_all reqs (Buffer_init_exist mem (zlen mem) false)
    = Some (take (Z.to_nat (foldr Z.add 0 reqs)) mem, b')
    /\ (zlen mem <= foldr Z.add 0 reqs -> offset b' = zlen mem).
Proof.
  intros Hr Hm.
  enough (forall b, Buffer_wf b -> exists b', fetch_all reqs b
      = Some (take (Z.to_nat (foldr Z.add 0 reqs)) (unread b), b')
      /\ offset b' = Z.min (size b) (offset b + foldr Z.add 0 reqs)) as Hgen.
  { destruct (Hgen (Buffer_init_exist mem (zlen mem) false)) as (b' & H1 & H2);
      [apply Buffer_wf_exist; lia|]. exists b'. split; [exact H1|simpl in H2; lia]. }
  clear Hm. induction Hr as [|n reqs Hn Hr IH]; intros b Hwf; cbn [fetch_all foldr].
  { exists b. split; [done|]. destruct Hwf. lia. }
  assert (0 <= foldr Z.add 0 reqs) as Hsum by (clear - Hr; induction Hr; simpl; lia).
  destruct (Buffer_fetch_spec n b Hwf Hn) as (b1 & -> & Hwf1 & Hd & Hs & Ho).
  destruct (IH b1 Hwf1) as (b2 & -> & Ho2). simpl. exists b2.
  destruct Hwf as [Hw1 Hw2 _]. split; [|lia]. do 2 f_equal.
  unfold unread. rewrite Hd, Ho. unfold zlen in *.
  replace (Z.to_nat (offset b + Z.min n (size b - offset b)))
    with (Z.to_nat (offset b) + Z.to_nat (Z.min n (size b - offset b)))%nat by lia.
  rewrite <- drop_drop. set (u := drop (Z.to_nat (offset b)) (data b)).
  assert (length u = Z.to_nat (size b - offset b)) as Hu by (unfold u; rewrite length_drop; lia).
  destruct (decide (n <= size b - offset b)).
  - rewrite Z.min_l by lia. rewrite take_take_drop. f_equal. lia.
  - rewrite Z.min_r by lia. rewrite take_take_drop. rewrite !take_ge by lia. done.
Qed.

Lemma fetch_all_sends_witness :
  exists b', fetch_all [2; 2; 2] (Buffer_init_exist (lit "hello") 5 false) = Some (lit "hello", b')
    /\ offset b' = 5.
Proof.
  destruct (fetch_all_sends [2; 2; 2] (lit "hello")) as (b' & H1 & H2);
    [repeat constructor; vm_compute; congruence|reflexivity|].
  exists b'. split; [exact H1|]. apply H2. vm_compute. congruence.
Defined.
