(* ===== verification/Stack.v ===== *)
(** * common/template/stack.[ch]: an intrusive stack under a spin lock

    Nodes are cells of a heap, linked by [next]; the stack points to the first. The pool of idle
    curl handles is the one stack of the program. *)

From S2P Require Import Prelude Exception Control.
#[local] Open Scope Z_scope.
#[local] Open Scope c_scope.

(** ** Definitions *)

Abbreviation addr := positive.

Record LinkedList := mkNode {
  node_next : option addr;
  node_value : addr;
}.

(** The heap of nodes and the [Stack] itself; [locked] is its spin lock. *)
Record StackMem := mkStackMem {
  heap : gmap addr LinkedList;
  next : option addr;
  stack_size : Z;
  locked : bool;
}.

Definition Stack_init : StackMem := mkStackMem ∅ None 0 false.

(** What the operations need of the program state. *)
Class HasStack (S : Type) := {
  get_stack : S -> StackMem;
  put_stack : StackMem -> S -> S;
  get_put_stack : forall m s, get_stack (put_stack m s) = m;
  put_put_stack : forall m m' s, put_stack m (put_stack m' s) = put_stack m s;
}.

Definition EBUSY : Z := 16.

#[export] Instance HasStack_frame {L G} `{HasStack G} : HasStack (L * G).
Proof.
  refine {| get_stack := fun s => get_stack (snd s); put_stack := fun m s => (fst s, put_stack m (snd s)) |}.
  - intros m [l g]. apply get_put_stack.
  - intros m m' [l g]. simpl. by rewrite put_put_stack.
Defined.

Section Ops.
Context {S R : Type} `{HasEx S, HasStack S}.

Definition upd_stack (f : StackMem -> StackMem) : M S R unit :=
  modify (fun s => put_stack (f (get_stack s)) s).

Definition set_locked (b : bool) (m : StackMem) : StackMem :=
  mkStackMem (heap m) (next m) (stack_size m) b.

Definition spin_lock : M S R unit :=
  b <- gets (fun s => locked (get_stack s)) ;;
  if (b : bool) then stuck Deadlock else upd_stack (set_locked true).

Definition spin_trylock : M S R Z :=
  b <- gets (fun s => locked (get_stack s)) ;;
  if (b : bool) then mret EBUSY else (upd_stack (set_locked true) ;;; mret 0).

Definition spin_unlock : M S R unit := upd_stack (set_locked false).

(** [node->next = p] *)
Definition set_node_next (a : addr) (p : option addr) : M S R unit :=
  n <- gets (fun s => heap (get_stack s) !! a) ;;
  n <- deref n ;;
  upd_stack (fun m => mkStackMem (<[a := mkNode p (node_value n)]> (heap m)) (next m) (stack_size m) (locked m)).

Definition Stack_push (node : addr) : M S R unit :=
  synchronized spin_lock spin_unlock
    (p <- gets (fun s => next (get_stack s)) ;;
     set_node_next node p ;;;
     upd_stack (fun m => mkStackMem (heap m) (Some node) (stack_size m) (locked m)) ;;;
     upd_stack (fun m => mkStackMem (heap m) (next m) (u64 (stack_size m + 1)) (locked m))).

(** [malloc (sizeof (LinkedList))] at the free address [a], and [free]. *)
Definition new_node (a : addr) (value : addr) : M S R unit :=
  upd_stack (fun m => mkStackMem (<[a := mkNode None value]> (heap m)) (next m) (stack_size m) (locked m)).
Definition free_node (a : addr) : M S R unit :=
  upd_stack (fun m => mkStackMem (delete a (heap m)) (next m) (stack_size m) (locked m)).
End Ops.

(** [Stack_pop], with its local [res] as the frame. [fuel] bounds the rounds of the spin. *)
Definition Stack_pop {G} `{HasEx G, HasStack G} (fuel : nat) : M (option addr * G) (option addr) unit :=
  ensure_synchronized fuel spin_trylock spin_unlock
    (p <- gets (fun s => next (get_stack s)) ;;
     set_local p ;;;
     res <- deref p ;;
     n <- gets (fun s => heap (get_stack s) !! res) ;;
     n <- deref n ;;
     upd_stack (fun m => mkStackMem (heap m) (node_next n) (stack_size m) (locked m)) ;;;
     set_node_next res None ;;;
     upd_stack (fun m => mkStackMem (heap m) (next m) (u64 (stack_size m - 1)) (locked m)))
    (p <- gets (fun s => next (get_stack s)) ;;
     when (bool_decide (p = None)) (set_local None ;;; break)) ;;;
  res <- local ;;
  return_ res.

(** ** The stack as a list *)

(** The nodes from [p] on are [l], each with its value. *)
Fixpoint chain (h : gmap addr LinkedList) (p : option addr) (l : list (addr * addr)) : Prop :=
  match l with
  | [] => p = None
  | (a, v) :: l' => p = Some a /\ exists q, h !! a = Some (mkNode q v) /\ chain h q l'
  end.

(** What the pointers and the lock say of it. *)
Record linked (m : StackMem) (l : list (addr * addr)) : Prop := {
  link_chain : chain (heap m) (next m) l;
  link_nodup : NoDup l.*1;
  link_unlocked : locked m = false;
}.

(** The memory represents the list [l] of nodes and values, the lock is free, and no node occurs
    twice. *)
Record stack_rep (m : StackMem) (l : list (addr * addr)) : Prop := {
  rep_chain : chain (heap m) (next m) l;
  rep_nodup : NoDup l.*1;
  rep_size : stack_size m = Z.of_nat (length l);
  rep_bound : Z.of_nat (length l) < 2 ^ 64 - 1;
  rep_unlocked : locked m = false;
}.

(** ** Lemmas *)

Lemma chain_insert_ne (h : gmap addr LinkedList) p l a n :
  a ∉ l.*1 -> chain h p l -> chain (<[a := n]> h) p l.
Proof.
  revert p. induction l as [|[b v] l IH]; intros p Hn; simpl; [done|].
  apply not_elem_of_cons in Hn as [Hne Hn].
  intros (-> & q & Hq & Hc). split; [done|]. exists q. rewrite lookup_insert_ne by done. eauto.
Qed.

Lemma chain_delete_ne (h : gmap addr LinkedList) p l a :
  a ∉ l.*1 -> chain h p l -> chain (delete a h) p l.
Proof.
  revert p. induction l as [|[b v] l IH]; intros p Hn; simpl; [done|].
  apply not_elem_of_cons in Hn as [Hne Hn].
  intros (-> & q & Hq & Hc). split; [done|]. exists q. rewrite lookup_delete_ne by done. eauto.
Qed.

(** Run the primitives of this file on a known stack memory. *)
Ltac run_stack :=
  repeat (unfold bind, gets, when, skip, mret, deref, upd_stack, modify, set_node_next, break,
          local, set_local, return_ in *; simpl; rewrite ?get_put_stack, ?put_put_stack).

Section OpsSpec.
Context {S R : Type} `{HasEx S, HasStack S}.

Lemma Stack_push_run (s : S) (l : list (addr * addr)) (a v : addr) (q : option addr) :
  linked (get_stack s) l -> heap (get_stack s) !! a = Some (mkNode q v) -> a ∉ l.*1 ->
  exists m, (Stack_push a : M S R unit) s = (Next tt, put_stack m s)
    /\ linked m ((a, v) :: l) /\ dom (heap m) = dom (heap (get_stack s))
    /\ stack_size m = u64 (stack_size (get_stack s) + 1).
Proof.
  intros [Hc Hd Hl] Ha Hn. unfold Stack_push, synchronized.
  set (m1 := set_locked true (get_stack s)).
  rewrite (with_test_run _ _ _ _ _ s s (put_stack m1 s) (put_stack m1 s) tt true
    (fun s => put_stack (set_locked false (get_stack s)) s)); [|done| |done|done].
  2: { unfold spin_lock. run_stack. by rewrite Hl. }
  run_stack. rewrite Ha. run_stack. eexists. split; [reflexivity|]. split; [|split].
  - split; simpl.
    + split; [done|]. eexists. rewrite lookup_insert_eq. split; [done|]. by apply chain_insert_ne.
    + by apply NoDup_cons.
    + done.
  - simpl. rewrite dom_insert_lookup_L; [done|by eexists].
  - done.
Qed.

(** C36: pushing a node that is not on the stack is [cons]: the node comes first, the rest is
    untouched, the count grows by one, no node is allocated or lost and the lock is free
    again. *)
Theorem Stack_push_refines_cons (s : S) (l : list (addr * addr)) (a v : addr) (q : option addr) :
  stack_rep (get_stack s) l -> heap (get_stack s) !! a = Some (mkNode q v) -> a ∉ l.*1 ->
  Z.of_nat (length l) < 2 ^ 64 - 2 ->
  exists m, (Stack_push a : M S R unit) s = (Next tt, put_stack m s)
    /\ stack_rep m ((a, v) :: l) /\ dom (heap m) = dom (heap (get_stack s)).
Proof.
  intros [Hc Hd Hs Hb Hl] Ha Hn Hbound.
  destruct (Stack_push_run s l a v q) as (m & Hr & [Hc' Hd' Hl'] & Hdom & Hsz); [by split|done..|].
  exists m. split; [exact Hr|]. split; [|done].
  split; [done|done| |simpl; lia|done]. rewrite Hsz, u64_id; simpl; lia.
Qed.
End OpsSpec.

Lemma Stack_pop_run {G} `{HasEx G, HasStack G} (g : G) (l : list (addr * addr)) (fuel : nat) :
  linked (get_stack g) l ->
  exists m, Stack_pop (Datatypes.S fuel) (None, g)
    = (Ret (head l.*1), (head l.*1, put_stack m g))
    /\ linked m (tail l)
    /\ (forall a v, head l = Some (a, v) -> heap m !! a = Some (mkNode None v))
    /\ dom (heap m) = dom (heap (get_stack g))
    /\ stack_size m = match l with [] => stack_size (get_stack g)
                      | _ => u64 (stack_size (get_stack g) - 1) end.
Proof.
  intros [Hc Hd Hl]. unfold Stack_pop, ensure_synchronized. cbn [ensure_loop].
  unfold spin_trylock, spin_unlock. run_stack. rewrite Hl. run_stack.
  destruct l as [|[a v] l]; simpl in *.
  - rewrite Hc. simpl. run_stack. eexists. split; [reflexivity|]. splits; [by split|done..].
  - destruct Hc as (Hnx & q & Hq & Hc). rewrite Hnx. simpl. rewrite round_do_once. run_stack.
    rewrite Hnx. run_stack. rewrite Hq. run_stack. rewrite Hq. run_stack.
    apply NoDup_cons in Hd as [Hna Hd].
    eexists. split; [reflexivity|]. splits.
    + split; simpl; [by apply chain_insert_ne|done|done].
    + intros a' v' [= <- <-]. simpl. by rewrite lookup_insert_eq.
    + simpl. rewrite dom_insert_lookup_L; [done|by eexists].
    + done.
Qed.

(** C37: popping returns NULL and changes nothing when the stack is empty; otherwise it returns
    the first node, unlinked, and the memory represents the rest: the last node pushed comes
    first. Two rounds of the spin are enough when no other thread holds the lock. *)
Theorem Stack_pop_refines_tail {G} `{HasEx G, HasStack G} (g : G) (l : list (addr * addr)) (fuel : nat) :
  stack_rep (get_stack g) l ->
  exists m, Stack_pop (Datatypes.S fuel) (None, g)
    = (Ret (head l.*1), (head l.*1, put_stack m g))
    /\ stack_rep m (tail l)
    /\ (forall a v, head l = Some (a, v) -> heap m !! a = Some (mkNode None v))
    /\ dom (heap m) = dom (heap (get_stack g)).
Proof.
  intros [Hc Hd Hs Hb Hl].
  destruct (Stack_pop_run g l fuel) as (m & Hr & [Hc' Hd' Hl'] & Hh & Hdom & Hsz); [by split|].
  exists m. split; [exact Hr|]. split; [|done].
  destruct l as [|[a v] l]; simpl in *; split; try done; try lia.
  - by rewrite Hsz.
  - rewrite Hsz, u64_id; lia.
Qed.

(** A state that is only a stack and an exception object. *)
#[local] Instance HasStack_mem : HasStack (StackMem * Exception).
Proof.
  by refine {| get_stack := fst; put_stack := fun (m : StackMem) (s : StackMem * Exception) => (m, snd s) |}.
Defined.

Definition example_stack : StackMem :=
  mkStackMem {[1%positive := mkNode (Some 2%positive) 11%positive;
               2%positive := mkNode None 12%positive; 3%positive := mkNode None 13%positive]}
    (Some 1%positive) 2 false.

Lemma example_stack_rep : stack_rep example_stack [(1, 11); (2, 12)]%positive.
Proof.
  split; simpl.
  - split; [done|]. eexists. split; [reflexivity|]. split; [done|]. eexists. by split.
  - apply (bool_decide_unpack (NoDup [1; 2]%positive)). reflexivity.
  - reflexivity.
  - lia.
  - done.
Qed.

Lemma Stack_push_refines_cons_witness :
  exists m, (Stack_push 3%positive : M (StackMem * Exception) Z unit) (example_stack, ex0)
    = (Next tt, (m, ex0)) /\ stack_rep m [(3, 13); (1, 11); (2, 12)]%positive.
Proof.
  destruct (Stack_push_refines_cons (S := StackMem * Exception) (R := Z) (example_stack, ex0)
    [(1, 11); (2, 12)]%positive 3%positive 13%positive None) as (m & H1 & H2 & _).
  - exact example_stack_rep.
  - reflexivity.
  - apply (bool_decide_unpack (3%positive ∉ [1; 2]%positive)). reflexivity.
  - simpl. lia.
  - exists m. split; [exact H1|exact H2].
Defined.

Lemma Stack_pop_refines_tail_witness :
  exists m, Stack_pop (G := StackMem * Exception) 1 (None, (example_stack, ex0))
    = (Ret (Some 1%positive), (Some 1%positive, (m, ex0))) /\ stack_rep m [(2, 12)]%positive.
Proof.
  destruct (Stack_pop_refines_tail (G := StackMem * Exception) (example_stack, ex0)
    [(1, 11); (2, 12)]%positive 0) as (m & H1 & H2 & _); [exact example_stack_rep|].
  exists m. split; [exact H1|exact H2].
Defined.
