(* ===== verification/State.v ===== *)
(** * The state of the program and its environment

    libcurl, libxml2 and the allocator are parameters: the class [Env] has one operation per call
    the program makes, each taking the state [World] of everything outside the program. The rest
    of the file is the program's own state: common/opts.h, [struct DavServer] of
    proto/dav/method.h, [struct FileLock] of method.c, and the memory they live in. *)

From S2P Require Import Prelude Exception Control Buffer Stack.
#[local] Open Scope Z_scope.

(** ** libcurl's types *)

Abbreviation CURLcode := Z.
Abbreviation CURLUcode := Z.
Definition CURLE_OK : CURLcode := 0.
Definition CURLE_HTTP_RETURNED_ERROR : CURLcode := 22.
Definition CURLE_OUT_OF_MEMORY : CURLcode := 27.
Definition CURLE_BAD_FUNCTION_ARGUMENT : CURLcode := 43.
Definition CURLUE_OK : CURLUcode := 0.

(** The options the program sets. *)
Inductive CURLoption :=
  | CURLOPT_ERRORBUFFER | CURLOPT_URL | CURLOPT_USERNAME | CURLOPT_PASSWORD | CURLOPT_INTERFACE
  | CURLOPT_IPRESOLVE | CURLOPT_PROXY | CURLOPT_PROXYTYPE | CURLOPT_PROXYAUTH
  | CURLOPT_HTTPPROXYTUNNEL | CURLOPT_PROXYUSERPWD | CURLOPT_USE_SSL | CURLOPT_SSLVERSION
  | CURLOPT_SSL_VERIFYHOST | CURLOPT_SSL_VERIFYPEER | CURLOPT_CAINFO | CURLOPT_CAPATH
  | CURLOPT_SSL_CIPHER_LIST | CURLOPT_SSLCERT | CURLOPT_SSLCERTTYPE | CURLOPT_SSLKEY
  | CURLOPT_SSLKEYTYPE | CURLOPT_SSLKEYPASSWD | CURLOPT_TIMEOUT | CURLOPT_CONNECTTIMEOUT
  | CURLOPT_USERAGENT | CURLOPT_FAILONERROR | CURLOPT_FOLLOWLOCATION | CURLOPT_NETRC
  | CURLOPT_CUSTOMREQUEST | CURLOPT_NOBODY | CURLOPT_HTTPHEADER | CURLOPT_RANGE
  | CURLOPT_WRITEDATA | CURLOPT_WRITEFUNCTION | CURLOPT_UPLOAD | CURLOPT_READDATA
  | CURLOPT_READFUNCTION | CURLOPT_INFILESIZE | CURLOPT_HEADERDATA | CURLOPT_HEADERFUNCTION.

#[export] Instance CURLoption_eq_dec : EqDecision CURLoption.
Proof. solve_decision. Defined.

(** The numbers of curl/curl.h, which an exception records. *)
Definition CURLoption_num (o : CURLoption) : Z :=
  match o with
  | CURLOPT_ERRORBUFFER => 10010 | CURLOPT_URL => 10002 | CURLOPT_USERNAME => 10173
  | CURLOPT_PASSWORD => 10174 | CURLOPT_INTERFACE => 10062 | CURLOPT_IPRESOLVE => 113
  | CURLOPT_PROXY => 10004 | CURLOPT_PROXYTYPE => 101 | CURLOPT_PROXYAUTH => 111
  | CURLOPT_HTTPPROXYTUNNEL => 61 | CURLOPT_PROXYUSERPWD => 10006 | CURLOPT_USE_SSL => 119
  | CURLOPT_SSLVERSION => 32 | CURLOPT_SSL_VERIFYHOST => 81 | CURLOPT_SSL_VERIFYPEER => 64
  | CURLOPT_CAINFO => 10065 | CURLOPT_CAPATH => 10097 | CURLOPT_SSL_CIPHER_LIST => 10083
  | CURLOPT_SSLCERT => 10025 | CURLOPT_SSLCERTTYPE => 10086 | CURLOPT_SSLKEY => 10087
  | CURLOPT_SSLKEYTYPE => 10088 | CURLOPT_SSLKEYPASSWD => 10026 | CURLOPT_TIMEOUT => 13
  | CURLOPT_CONNECTTIMEOUT => 78 | CURLOPT_USERAGENT => 10018 | CURLOPT_FAILONERROR => 45
  | CURLOPT_FOLLOWLOCATION => 52 | CURLOPT_NETRC => 51 | CURLOPT_CUSTOMREQUEST => 10036
  | CURLOPT_NOBODY => 44 | CURLOPT_HTTPHEADER => 10023 | CURLOPT_RANGE => 10007
  | CURLOPT_WRITEDATA => 10001 | CURLOPT_WRITEFUNCTION => 20011 | CURLOPT_UPLOAD => 46
  | CURLOPT_READDATA => 10009 | CURLOPT_READFUNCTION => 20012 | CURLOPT_INFILESIZE => 14
  | CURLOPT_HEADERDATA => 10029 | CURLOPT_HEADERFUNCTION => 20079
  end.

Inductive CURLUPart := CURLUPART_URL | CURLUPART_SCHEME | CURLUPART_USER | CURLUPART_PASSWORD
  | CURLUPART_OPTIONS | CURLUPART_HOST | CURLUPART_PORT | CURLUPART_PATH | CURLUPART_QUERY
  | CURLUPART_FRAGMENT.

(** The numbers of curl/urlapi.h. *)
Definition CURLUPart_num (p : CURLUPart) : Z :=
  match p with
  | CURLUPART_URL => 0 | CURLUPART_SCHEME => 1 | CURLUPART_USER => 2 | CURLUPART_PASSWORD => 3
  | CURLUPART_OPTIONS => 4 | CURLUPART_HOST => 5 | CURLUPART_PORT => 6 | CURLUPART_PATH => 7
  | CURLUPART_QUERY => 8 | CURLUPART_FRAGMENT => 9
  end.

Definition CURLU_URLENCODE : Z := 2 ^ 7.
Definition CURL_NETRC_OPTIONAL : Z := 1.
Definition CURLUSESSL_NONE : Z := 0.
Definition CURLUSESSL_ALL : Z := 3.

(** The functions the program gives to libcurl, and the object each is given with it. *)
Inductive callback :=
  | CB_Buffer_append | CB_Buffer_fetch | CB_curl_parse_xml
  | CB_dav_head_callback | CB_dav_lock_callback | CB_dav_options_callback.
Inductive cbdata := AT_error_buf | AT_buf | AT_ctxt | AT_sizep | AT_token | AT_server.

#[export] Instance callback_eq_dec : EqDecision callback.
Proof. solve_decision. Defined.

Inductive optval :=
  | VLong (z : Z)
  | VStr (s : option string)
  | VSlist (l : list string)
  | VFun (f : callback)
  | VData (d : cbdata).

(** The value an option was last set to. *)
Definition last_opt (o : CURLoption) (opts : list (CURLoption * optval)) : option optval :=
  snd <$> last (filter (fun p => p.1 = o) opts).

(** What [curl_easy_getinfo] reports of the last transfer. *)
Record xinfo := mkInfo {
  info_response_code : Z;
  info_effective_url : string;
  info_redirect_url : option string;
}.
Definition no_info : xinfo := mkInfo 0 "" None.

(** A handle: the options set since it was made or reset, oldest first, and the last transfer. *)
Record Easy := mkEasy {
  easy_opts : list (CURLoption * optval);
  easy_info : xinfo;
}.

(** A transfer as its callbacks see it: calls of the header callback with a header line, of the
    write callback with a piece of the body and of the read callback with a size, each with the
    answer the continuation depends on, and in the end the code that [curl_easy_perform]
    returns. *)
Inductive xfer (W : Type) :=
  | XDone (w : W) (code : CURLcode) (info : xinfo)
  | XHeader (line : bytes) (k : Z -> xfer W)
  | XWrite (chunk : bytes) (k : Z -> xfer W)
  | XRead (n : Z) (k : bytes -> xfer W).
Arguments XDone {W} w code info.
Arguments XHeader {W} line k.
Arguments XWrite {W} chunk k.
Arguments XRead {W} n k.

(** ** libxml2's tree *)

(** [xmlNode]: the name, the URI of its namespace when it has one, the text of a text node, the
    attributes with the text of their first child, and the children in order. *)
#[local] Set Warnings "-register-all".
Inductive xmlNode := mkXml {
  xml_name : string;
  xml_ns : option string;
  xml_content : option string;
  xml_properties : list (string * option (option string));
  xml_children : list xmlNode;
}.

(** ** The environment *)

Class Env := {
  World : Type;
  CURLU : Type;
  xmlParserCtxt : Type;
  tm : Type;
  (** the allocator: does the next allocation succeed? *)
  env_malloc : World -> bool * World;
  (** libcurl's easy interface *)
  env_easy_init : World -> bool * World;
  env_easy_setopt : list (CURLoption * optval) -> CURLoption -> optval -> World -> CURLcode * World;
  env_easy_perform : list (CURLoption * optval) -> World -> xfer World;
  env_slist_append : list string -> string -> World -> bool * World;
  env_easy_unescape : string -> World -> option string * World;
  env_easy_strerror : CURLcode -> string;
  (** libcurl's URL interface *)
  env_url : World -> option CURLU * World;
  env_url_dup : CURLU -> World -> option CURLU * World;
  env_url_set : CURLU -> CURLUPart -> option string -> Z -> World -> CURLUcode * CURLU * World;
  env_url_get : CURLU -> CURLUPart -> World -> CURLUcode * option string * World;
  (** libxml2's push parser *)
  env_xml_create : bytes -> World -> option xmlParserCtxt * World;
  env_xml_chunk : xmlParserCtxt -> bytes -> bool -> World -> Z * xmlParserCtxt * World;
  env_xml_root : xmlParserCtxt -> option xmlNode;
  env_xml_wellFormed : xmlParserCtxt -> bool;
  (** libxml2's comparisons, on strings that may be NULL *)
  env_xmlStrcmp : option string -> option string -> Z;
  env_xmlStrncmp : option string -> option string -> Z -> Z;
  (** libc's calendar, which depends on the time zone *)
  env_strptime : string -> string -> option tm;
  env_mktime : tm -> Z;
  env_timezone : Z;
}.

(** ** The program's data *)

(** common/opts.h *)
Record networkfs_opts := mkOpts {
  username : option string;
  password : option string;
  use_ssl : Z;
  ssl_version : Z;
  ip_version : Z;
  uid : Z;
  gid : Z;
  fmask : Z;
  dmask : Z;
  dir_timeout : Z;
  interface : option string;
  timeout : Z;
  connect_timeout : Z;
  initial_timeout : Z;
  no_verify_hostname : bool;
  no_verify_peer : bool;
  cert : option string;
  cert_type : option string;
  key : option string;
  key_type : option string;
  key_password : option string;
  engine : option string;
  cacert : option string;
  capath : option string;
  ciphers : option string;
  proxy : option string;
  proxy_userpwd : option string;
  proxytype : Z;
  proxyauth : Z;
  proxytunnel : bool;
  use_lock : bool;
}.

(** method.h: the list DAV_METHOD. *)
Inductive DavMethod :=
  | OPTIONS | GET | HEAD | POST | PUT | DELETE | TRACE | COPY | MOVE | MKCOL | PROPFIND
  | PROPPATCH | LOCK | UNLOCK | ORDERPATCH.

Definition DAV_METHOD : list (string * DavMethod) :=
  [("OPTIONS", OPTIONS); ("GET", GET); ("HEAD", HEAD); ("POST", POST); ("PUT", PUT);
   ("DELETE", DELETE); ("TRACE", TRACE); ("COPY", COPY); ("MOVE", MOVE); ("MKCOL", MKCOL);
   ("PROPFIND", PROPFIND); ("PROPPATCH", PROPPATCH); ("LOCK", LOCK); ("UNLOCK", UNLOCK);
   ("ORDERPATCH", ORDERPATCH)].

#[export] Instance DavMethod_eq_dec : EqDecision DavMethod.
Proof. solve_decision. Defined.

(** The position of a method in the list. *)
Definition DavMethod_num (m : DavMethod) : nat :=
  match m with
  | OPTIONS => 0 | GET => 1 | HEAD => 2 | POST => 3 | PUT => 4 | DELETE => 5 | TRACE => 6
  | COPY => 7 | MOVE => 8 | MKCOL => 9 | PROPFIND => 10 | PROPPATCH => 11 | LOCK => 12
  | UNLOCK => 13 | ORDERPATCH => 14
  end.

#[export] Instance DavMethod_countable : Countable DavMethod.
Proof.
  refine (inj_countable DavMethod_num (fun n => snd <$> DAV_METHOD !! n) _). by intros [].
Defined.

(** The part of [struct stat] the program fills. *)
Record Stat := mkStat {
  st_mode : Z;
  st_nlink : Z;
  st_uid : Z;
  st_gid : Z;
  st_rdev : Z;
  st_size : Z;
  st_atime : Z;
  st_mtime : Z;
  st_ctime : Z;
}.

(** [struct FileLock] in memory; a NULL member is [None]. *)
Record FileLock := mkFileLock {
  lock_path : option string;
  lock_token : option string;
  lock_cnt : Z;
}.

(** A pthread read-write lock: its readers and its writer. *)
Record RWLock := mkRWLock {
  readers : nat;
  writer : bool;
}.

(** [struct DavServer]: the search tree holds the FileLock objects under their paths, and the
    flags [OPTIONS], ..., [ORDERPATCH] are the set of the methods allowed. *)
Record DavServer `{E : Env} := mkDavServer {
  baseuh : CURLU;
  options : networkfs_opts;
  filelock_tree : gmap string addr;
  server_name : option string;   (* server *)
  version : option string;
  allowed : gset DavMethod;   (* the flags OPTIONS ... ORDERPATCH *)
}.
Arguments mkDavServer {E}.

Section DavServerSetters.
Context `{E : Env}.

Definition set_baseuh (v : CURLU) (r : DavServer) : DavServer :=
mkDavServer v (options r) (filelock_tree r) (server_name r) (version r) (allowed r).
Definition set_filelock_tree (v : gmap string addr) (r : DavServer) : DavServer :=
mkDavServer (baseuh r) (options r) v (server_name r) (version r) (allowed r).
Definition set_server_name (v : option string) (r : DavServer) : DavServer :=
mkDavServer (baseuh r) (options r) (filelock_tree r) v (version r) (allowed r).
Definition set_version (v : option string) (r : DavServer) : DavServer :=
mkDavServer (baseuh r) (options r) (filelock_tree r) (server_name r) v (allowed r).
Definition set_allowed (v : gset DavMethod) (r : DavServer) : DavServer :=
mkDavServer (baseuh r) (options r) (filelock_tree r) (server_name r) (version r) v.
End DavServerSetters.

(** The global state; [g_sent] and [g_next] are bookkeeping of the model. *)
Record G `{E : Env} := mkG {
  g_ex : Exception;   (* the thread's exception object *)
  g_stack : StackMem;   (* curl_handler_stack and its nodes *)
  g_handles : gmap addr Easy;   (* the live curl handles *)
  g_next : addr;   (* the next fresh address *)
  g_server : DavServer;   (* dav.c's static server *)
  g_locks : gmap addr FileLock;   (* the allocated FileLock objects *)
  g_rwlock : RWLock;   (* server.filelock_tree_lock *)
  g_sent : list (list (CURLoption * optval));   (* every transfer so far, by its options *)
  g_dirbuf : list (string * option Stat);   (* what FUSE's filler received *)
  g_stbuf : option Stat;   (* the caller's struct stat, once written *)
  g_world : World;   (* the rest of the world *)
}.
Arguments mkG {E}.

Section GSetters.
Context `{E : Env}.

Definition set_g_ex (v : Exception) (r : G) : G :=
mkG v (g_stack r) (g_handles r) (g_next r) (g_server r) (g_locks r) (g_rwlock r) (g_sent r) (g_dirbuf r) (g_stbuf r) (g_world r).
Definition set_g_stack (v : StackMem) (r : G) : G :=
mkG (g_ex r) v (g_handles r) (g_next r) (g_server r) (g_locks r) (g_rwlock r) (g_sent r) (g_dirbuf r) (g_stbuf r) (g_world r).
Definition set_g_handles (v : gmap addr Easy) (r : G) : G :=
mkG (g_ex r) (g_stack r) v (g_next r) (g_server r) (g_locks r) (g_rwlock r) (g_sent r) (g_dirbuf r) (g_stbuf r) (g_world r).
Definition set_g_next (v : addr) (r : G) : G :=
mkG (g_ex r) (g_stack r) (g_handles r) v (g_server r) (g_locks r) (g_rwlock r) (g_sent r) (g_dirbuf r) (g_stbuf r) (g_world r).
Definition set_g_server (v : DavServer) (r : G) : G :=
mkG (g_ex r) (g_stack r) (g_handles r) (g_next r) v (g_locks r) (g_rwlock r) (g_sent r) (g_dirbuf r) (g_stbuf r) (g_world r).
Definition set_g_locks (v : gmap addr FileLock) (r : G) : G :=
mkG (g_ex r) (g_stack r) (g_handles r) (g_next r) (g_server r) v (g_rwlock r) (g_sent r) (g_dirbuf r) (g_stbuf r) (g_world r).
Definition set_g_rwlock (v : RWLock) (r : G) : G :=
mkG (g_ex r) (g_stack r) (g_handles r) (g_next r) (g_server r) (g_locks r) v (g_sent r) (g_dirbuf r) (g_stbuf r) (g_world r).
Definition set_g_sent (v : list (list (CURLoption * optval))) (r : G) : G :=
mkG (g_ex r) (g_stack r) (g_handles r) (g_next r) (g_server r) (g_locks r) (g_rwlock r) v (g_dirbuf r) (g_stbuf r) (g_world r).
Definition set_g_dirbuf (v : list (string * option Stat)) (r : G) : G :=
mkG (g_ex r) (g_stack r) (g_handles r) (g_next r) (g_server r) (g_locks r) (g_rwlock r) (g_sent r) v (g_stbuf r) (g_world r).
Definition set_g_stbuf (v : option Stat) (r : G) : G :=
mkG (g_ex r) (g_stack r) (g_handles r) (g_next r) (g_server r) (g_locks r) (g_rwlock r) (g_sent r) (g_dirbuf r) v (g_world r).
Definition set_g_world (v : World) (r : G) : G :=
mkG (g_ex r) (g_stack r) (g_handles r) (g_next r) (g_server r) (g_locks r) (g_rwlock r) (g_sent r) (g_dirbuf r) (g_stbuf r) v.
End GSetters.

(** The local variables of the functions of method.c; each function uses some of them. *)
Record Frame `{E : Env} := mkFrame {
  f_list : list string;   (* struct curl_slist *list; NULL is [] *)
  f_buf : option Buffer;   (* Buffer buf *)
  f_ctxt : option xmlParserCtxt;   (* xmlParserCtxtPtr ctxt *)
  f_token : option string;   (* SimpleString *token *)
  f_size : option Z;   (* *sizep, when sizep is given *)
  f_url : option CURLU;   (* CURLU *path_uh *)
  f_path_url : option string;   (* curl_char *path_url *)
  f_filelock : option addr;   (* struct FileLock *filelock *)
  f_res : option Z;   (* int res; None while it is not set *)
}.
Arguments mkFrame {E}.

Section FrameSetters.
Context `{E : Env}.

Definition set_f_list (v : list string) (r : Frame) : Frame :=
mkFrame v (f_buf r) (f_ctxt r) (f_token r) (f_size r) (f_url r) (f_path_url r) (f_filelock r) (f_res r).
Definition set_f_buf (v : option Buffer) (r : Frame) : Frame :=
mkFrame (f_list r) v (f_ctxt r) (f_token r) (f_size r) (f_url r) (f_path_url r) (f_filelock r) (f_res r).
Definition set_f_ctxt (v : option xmlParserCtxt) (r : Frame) : Frame :=
mkFrame (f_list r) (f_buf r) v (f_token r) (f_size r) (f_url r) (f_path_url r) (f_filelock r) (f_res r).
Definition set_f_token (v : option string) (r : Frame) : Frame :=
mkFrame (f_list r) (f_buf r) (f_ctxt r) v (f_size r) (f_url r) (f_path_url r) (f_filelock r) (f_res r).
Definition set_f_size (v : option Z) (r : Frame) : Frame :=
mkFrame (f_list r) (f_buf r) (f_ctxt r) (f_token r) v (f_url r) (f_path_url r) (f_filelock r) (f_res r).
Definition set_f_url (v : option CURLU) (r : Frame) : Frame :=
mkFrame (f_list r) (f_buf r) (f_ctxt r) (f_token r) (f_size r) v (f_path_url r) (f_filelock r) (f_res r).
Definition set_f_path_url (v : option string) (r : Frame) : Frame :=
mkFrame (f_list r) (f_buf r) (f_ctxt r) (f_token r) (f_size r) (f_url r) v (f_filelock r) (f_res r).
Definition set_f_filelock (v : option addr) (r : Frame) : Frame :=
mkFrame (f_list r) (f_buf r) (f_ctxt r) (f_token r) (f_size r) (f_url r) (f_path_url r) v (f_res r).
Definition set_f_res (v : option Z) (r : Frame) : Frame :=
mkFrame (f_list r) (f_buf r) (f_ctxt r) (f_token r) (f_size r) (f_url r) (f_path_url r) (f_filelock r) v.
End FrameSetters.

(** A fresh frame: no local is set. *)
Definition frame0 `{E : Env} : Frame := mkFrame [] None None None None None None None None.

#[export] Instance HasEx_G `{E : Env} : HasEx G.
Proof.
  by refine {| get_ex := g_ex; put_ex := set_g_ex |}; [..|intros []].
Defined.

#[export] Instance HasStack_G `{E : Env} : HasStack G.
Proof. by refine {| get_stack := g_stack; put_stack := set_g_stack |}. Defined.

(** ** What input and output keep *)

(** A relation on the shared state that does not look at the outside world and the next fresh
    address; an exception may become pending. *)
Class WorldRel `{E : Env} (Rel : G -> G -> Prop) := {
  world_keep :: KeepRel Rel;
  io_next : forall g, Rel g (set_g_next (Pos.succ (g_next g)) g);
  io_world : forall v g, Rel g (set_g_world v g);
}.

(** Nor at what curl.c touches: the handles and their pool. *)
Class IORel `{E : Env} (Rel : G -> G -> Prop) := {
  io_rel :: WorldRel Rel;
  io_stack : forall v g, Rel g (set_g_stack v g);
  io_handles : forall v g, Rel g (set_g_handles v g);
}.

(** Nor at what the callbacks of a transfer touch: what an OPTIONS response says about the
    server. *)
Class CallbackRel `{E : Env} (Rel : G -> G -> Prop) := {
  callback_rel :: WorldRel Rel;
  xfer_allowed : forall v g, Rel g (set_g_server (set_allowed v (g_server g)) g);
  xfer_server_name : forall v g, Rel g (set_g_server (set_server_name v (g_server g)) g);
  xfer_version : forall v g, Rel g (set_g_server (set_version v (g_server g)) g);
}.

(** Nor at anything a transfer touches. *)
Class XferRel `{E : Env} (Rel : G -> G -> Prop) := {
  xfer_io :: IORel Rel;
  xfer_callback :: CallbackRel Rel;
  xfer_sent : forall v g, Rel g (set_g_sent v g);
}.

(** The lock table: the lock, the tree and the objects. *)
Definition same_locks `{E : Env} (g g' : G) : Prop :=
  g_rwlock g' = g_rwlock g /\ g_locks g' = g_locks g
  /\ filelock_tree (g_server g') = filelock_tree (g_server g).

(** The lock alone. *)
Definition same_rwlock `{E : Env} (g g' : G) : Prop := g_rwlock g' = g_rwlock g.

(** The transfers so far. *)
Definition same_sent `{E : Env} (g g' : G) : Prop := g_sent g' = g_sent g.

(** A pending exception stays pending. *)
Definition stays_pending `{E : Env} (g g' : G) : Prop :=
  Exception_has (g_ex g) = true -> Exception_has (g_ex g') = true.

#[export] Instance same_locks_keep `{E : Env} : KeepEx same_locks.
Proof.
  split; [split; unfold same_locks|done].
  - done.
  - intros ??? (? & ? & ?) (? & ? & ?); splits; congruence.
  - done.
Qed.
#[export] Instance same_rwlock_keep `{E : Env} : KeepEx same_rwlock.
Proof. split; [split; unfold same_rwlock; [done|congruence|done]|done]. Qed.
#[export] Instance same_sent_keep `{E : Env} : KeepEx same_sent.
Proof. split; [split; unfold same_sent; [done|congruence|done]|done]. Qed.
#[export] Instance stays_pending_keep `{E : Env} : KeepRel stays_pending.
Proof. split; unfold stays_pending; [done|auto|done]. Qed.

#[export] Instance same_locks_xfer `{E : Env} : XferRel same_locks.
Proof. by repeat (split; try apply _). Qed.
#[export] Instance same_rwlock_xfer `{E : Env} : XferRel same_rwlock.
Proof. by repeat (split; try apply _). Qed.
#[export] Instance same_sent_io `{E : Env} : IORel same_sent.
Proof. by repeat (split; try apply _). Qed.
#[export] Instance stays_pending_xfer `{E : Env} : XferRel stays_pending.
Proof. by repeat (split; try apply _); unfold stays_pending. Qed.
