(* ===== verification/Options.v ===== *)
(** * networkfs.c: the table of the options

    The record [struct _networkfs_opts] with the places of its members, the table that libfuse's parser
    gets, and the texts of [usage] and [show_version]. The parser itself is libfuse's: what it
    documents is that an option without a format sets "an integer (int or unsigned) variable" at the
    offset of the table to the value of the table, and that one with a format stores what scanf stores
    for it. *)

From S2P Require Import Prelude Utils State.
#[local] Open Scope Z_scope.

(** ** The record and its members (LP64) *)

Inductive ctype := C_bool | C_int | C_long | C_double | C_ptr.
#[export] Instance ctype_eq_dec : EqDecision ctype.
Proof. solve_decision. Defined.

(** The size of a type is its alignment, too. *)
Definition csize (t : ctype) : Z :=
  match t with C_bool => 1 | C_int => 4 | C_long | C_double | C_ptr => 8 end.
Definition align (n off : Z) : Z := (off + n - 1) / n * n.

Definition member := (string * ctype)%type.

(** opts.h's [struct networkfs_opts] *)
Definition networkfs_opts_members : list member :=
  [("baseurl", C_ptr); ("username", C_ptr); ("password", C_ptr);
   ("use_ssl", C_long); ("ssl_version", C_long); ("ip_version", C_long);
   ("uid", C_int); ("gid", C_int); ("fmask", C_int); ("dmask", C_int);
   ("dir_timeout", C_double);
   ("interface", C_ptr); ("timeout", C_long); ("connect_timeout", C_long); ("initial_timeout", C_long);
   ("no_verify_hostname", C_bool); ("no_verify_peer", C_bool);
   ("cert", C_ptr); ("cert_type", C_ptr); ("key", C_ptr); ("key_type", C_ptr); ("key_password", C_ptr);
   ("engine", C_ptr); ("cacert", C_ptr); ("capath", C_ptr); ("ciphers", C_ptr);
   ("proxy", C_ptr); ("proxy_userpwd", C_ptr); ("proxytype", C_long); ("proxyauth", C_long);
   ("proxytunnel", C_bool); ("use_lock", C_bool)]%string.

(** What [struct _networkfs_opts] adds to it. *)
Definition own_members : list member :=
  [("scheme", C_ptr); ("port", C_ptr);
   ("proxyanyauth", C_bool); ("proxybasic", C_bool); ("proxydigest", C_bool); ("proxyntlm", C_bool);
   ("uid_set", C_bool); ("gid_set", C_bool); ("set_uid", C_bool); ("set_gid", C_bool);
   ("entry_timeout_set", C_bool); ("negative_timeout_set", C_bool); ("attr_timeout_set", C_bool);
   ("hide_password", C_bool); ("show_help", C_bool)]%string.

(** Where a member is, and its type. *)
Record place := mkPlace { p_name : string; p_off : Z; p_type : ctype }.

Fixpoint layout (off : Z) (ms : list member) : list place :=
  match ms with
  | [] => []
  | (f, t) :: ms' => let o := align (csize t) off in mkPlace f o t :: layout (o + csize t) ms'
  end.

(** The record's own alignment is the one of a pointer. *)
Definition struct_size (ps : list place) : Z :=
  align 8 (match last ps with Some p => p_off p + csize (p_type p) | None => 0 end).

Definition networkfs_opts_places : list place := layout 0 networkfs_opts_members.
Definition options_places : list place :=
  networkfs_opts_places ++ layout (struct_size networkfs_opts_places) own_members.

Definition find_place (f : string) : option place := snd <$> list_find (fun p => p_name p = f) options_places.
Definition offsetof (f : string) : Z := default (- 1) (p_off <$> find_place f).

(** ** The table (fuse_opt.h, curl/curl.h) *)

Record fuse_opt := mkFuseOpt { templ : string; opt_offset : Z; opt_value : Z }.

Definition no_offset : Z := u32 (- 1).
Definition FUSE_OPT_KEY (t : string) (k : Z) : fuse_opt := mkFuseOpt t no_offset k.
Definition NETWORKFS_OPT (t p : string) (v : Z) : fuse_opt := mkFuseOpt t (offsetof p) v.
Definition NETWORKFS_OPT_KEY (t p : string) : fuse_opt := NETWORKFS_OPT t p 1.

Definition KEY_VERSION : Z := 0.
Definition CURL_IPRESOLVE_V4 : Z := 1.
Definition CURL_IPRESOLVE_V6 : Z := 2.
Definition CURLPROXY_HTTP : Z := 0.
Definition CURLPROXY_SOCKS4 : Z := 4.
Definition CURLPROXY_SOCKS5 : Z := 5.
Definition CURLUSESSL_TRY : Z := 1.
Definition CURLUSESSL_CONTROL : Z := 2.
Definition CURL_SSLVERSION_TLSv1 : Z := 1.
Definition CURL_SSLVERSION_SSLv3 : Z := 3.
Definition CURL_SSLVERSION_TLSv1_0 : Z := 4.
Definition CURL_SSLVERSION_TLSv1_1 : Z := 5.
Definition CURL_SSLVERSION_TLSv1_2 : Z := 6.
Definition CURL_SSLVERSION_TLSv1_3 : Z := 7.

Definition option_spec : list fuse_opt :=
  [NETWORKFS_OPT_KEY "scheme=%s" "scheme";
   NETWORKFS_OPT_KEY "port=%s" "port";
   NETWORKFS_OPT_KEY "user=%s" "username";
   NETWORKFS_OPT_KEY "username=%s" "username";
   NETWORKFS_OPT_KEY "password=%s" "password";
   NETWORKFS_OPT "hide_password" "hide_password" 1;
   NETWORKFS_OPT "no_hide_password" "hide_password" 0;
   NETWORKFS_OPT_KEY "use_lock" "use_lock";
   NETWORKFS_OPT_KEY "fmask=%o" "fmask";
   NETWORKFS_OPT_KEY "dmask=%o" "dmask";
   NETWORKFS_OPT_KEY "uid=%d" "uid";
   NETWORKFS_OPT_KEY "gid=%d" "gid";
   NETWORKFS_OPT_KEY "set_uid" "set_uid";
   NETWORKFS_OPT_KEY "set_gid" "set_gid";
   NETWORKFS_OPT_KEY "entry_timeout=" "entry_timeout_set";
   NETWORKFS_OPT_KEY "negative_timeout=" "negative_timeout_set";
   NETWORKFS_OPT_KEY "attr_timeout=" "attr_timeout_set";
   NETWORKFS_OPT_KEY "dir_timeout=%lf" "dir_timeout";
   NETWORKFS_OPT_KEY "interface=%s" "interface";
   NETWORKFS_OPT "ipv4" "ip_version" CURL_IPRESOLVE_V4;
   NETWORKFS_OPT "ipv6" "ip_version" CURL_IPRESOLVE_V6;
   NETWORKFS_OPT_KEY "proxy=%s" "proxy";
   NETWORKFS_OPT_KEY "proxytunnel" "proxytunnel";
   NETWORKFS_OPT_KEY "proxy_anyauth" "proxyanyauth";
   NETWORKFS_OPT_KEY "proxy_basic" "proxybasic";
   NETWORKFS_OPT_KEY "proxy_digest" "proxydigest";
   NETWORKFS_OPT_KEY "proxy_ntlm" "proxyntlm";
   NETWORKFS_OPT "httpproxy" "proxytype" CURLPROXY_HTTP;
   NETWORKFS_OPT "socks4" "proxytype" CURLPROXY_SOCKS4;
   NETWORKFS_OPT "socks5" "proxytype" CURLPROXY_SOCKS5;
   NETWORKFS_OPT_KEY "proxy_user=%s" "proxy_userpwd";
   NETWORKFS_OPT "ssl" "use_ssl" CURLUSESSL_ALL;
   NETWORKFS_OPT "ssl_control" "use_ssl" CURLUSESSL_CONTROL;
   NETWORKFS_OPT "ssl_try" "use_ssl" CURLUSESSL_TRY;
   NETWORKFS_OPT_KEY "timeout=%ld" "timeout";
   NETWORKFS_OPT_KEY "connect_timeout=%ld" "connect_timeout";
   NETWORKFS_OPT_KEY "initial_timeout=%ld" "initial_timeout";
   NETWORKFS_OPT "tlsv1.3" "ssl_version" CURL_SSLVERSION_TLSv1_3;
   NETWORKFS_OPT "tlsv1.2" "ssl_version" CURL_SSLVERSION_TLSv1_2;
   NETWORKFS_OPT "tlsv1.1" "ssl_version" CURL_SSLVERSION_TLSv1_1;
   NETWORKFS_OPT "tlsv1.0" "ssl_version" CURL_SSLVERSION_TLSv1_0;
   NETWORKFS_OPT "tlsv1" "ssl_version" CURL_SSLVERSION_TLSv1;
   NETWORKFS_OPT "sslv3" "ssl_version" CURL_SSLVERSION_SSLv3;
   NETWORKFS_OPT_KEY "no_verify_hostname" "no_verify_hostname";
   NETWORKFS_OPT_KEY "no_verify_peer" "no_verify_peer";
   NETWORKFS_OPT_KEY "cert=%s" "cert";
   NETWORKFS_OPT_KEY "cert_type=%s" "cert_type";
   NETWORKFS_OPT_KEY "key=%s" "key";
   NETWORKFS_OPT_KEY "key_type=%s" "key_type";
   NETWORKFS_OPT_KEY "pass=%s" "key_password";
   NETWORKFS_OPT_KEY "engine=%s" "engine";
   NETWORKFS_OPT_KEY "cacert=%s" "cacert";
   NETWORKFS_OPT_KEY "capath=%s" "capath";
   NETWORKFS_OPT_KEY "ciphers=%s" "ciphers";
   NETWORKFS_OPT_KEY "-h" "show_help";
   NETWORKFS_OPT_KEY "--help" "show_help";
   FUSE_OPT_KEY "-V" KEY_VERSION;
   FUSE_OPT_KEY "--version" KEY_VERSION].

(** ** The texts *)

Definition LF : string := String (ascii_of_nat 10) EmptyString.

Definition usage_lines : list string :=
  ["NetworkFS options:";
   "    -o scheme=STR          set/override server scheme";
   "    -o port=STR            set/override server port";
   "    -o user=STR            set/override server username";
   "    -o username=STR        set/override server username";
   "    -o password=STR        set/override server password";
   "    -o (no_)hide_password  (do not) hide password from ps (yes)";
   "    -o use_lock            use WebDAV lock";
   "    -o set_uid             override existing uid";
   "    -o set_gid             override existing gid";
   "    -o fmask=M             set file permissions (octal, 0133)";
   "    -o dmask=M             set file permissions (octal, 0022)";
   "    -o entry_timeout=T     cache timeout for names (30.0s)";
   "    -o negative_timeout=T  cache timeout for deleted names (10.0s)";
   "    -o attr_timeout=T      cache timeout for attributes (30.0s)";
   "    -o dir_timeout=T       cache timeout for dir list (10.0s)";
   "    -o interface=STR       specify network interface/address to use";
   "    -o ipv4                resolve name to IPv4 address";
   "    -o ipv6                resolve name to IPv6 address";
   "    -o proxy=STR           use host:port HTTP proxy";
   "    -o proxytunnel         operate through a HTTP proxy tunnel (using CONNECT)";
   "    -o proxy_anyauth       pick " +:+ DQ +:+ "any" +:+ DQ +:+ " proxy authentication method";
   "    -o proxy_basic         use Basic authentication on the proxy";
   "    -o proxy_digest        use Digest authentication on the proxy";
   "    -o proxy_ntlm          use NTLM authentication on the proxy";
   "    -o httpproxy           use a HTTP proxy (default)";
   "    -o socks4              use a SOCKS4 proxy";
   "    -o socks5              use a SOCKS5 proxy";
   "    -o proxy_user=STR      set proxy user and password";
   "    -o ssl                 enable SSL/TLS for both control and data connections";
   "    -o ssl_control         enable SSL/TLS only for control connection";
   "    -o ssl_try             try SSL/TLS first but connect anyway";
   "    -o tlsv1.[0|1|2|3]     use TLSv1.[0|1|2|3] (SSL)";
   "    -o tlsv1               use TLSv1 (SSL)";
   "    -o sslv3               use SSLv3 (SSL)";
   "    -o no_verify_hostname  does not verify the hostname (SSL)";
   "    -o no_verify_peer      does not verify the peer (SSL)";
   "    -o cert=STR            client certificate file (SSL)";
   "    -o cert_type=STR       certificate file type (DER/PEM/ENG) (SSL)";
   "    -o key=STR             private key file name (SSL)";
   "    -o key_type=STR        private key file type (DER/PEM/ENG) (SSL)";
   "    -o pass=STR            pass phrase for the private key (SSL)";
   "    -o engine=STR          crypto engine to use (SSL)";
   "    -o cacert=STR          file with CA certificates to verify the peer (SSL)";
   "    -o capath=STR          CA directory to verify peer against (SSL)";
   "    -o ciphers=STR         SSL ciphers to use (SSL)";
   "    -o timeout=T           maximum time allowed for operation in seconds";
   "    -o connect_timeout=T   maximum time allowed for connection in seconds";
   "    -o initial_timeout=T   maximum time allowed for the first connection in";
   "                           seconds (5s)"]%string.

Definition usage (progname : string) : string :=
  "usage: " +:+ progname +:+ " [options] <url> <mountpoint>" +:+ LF +:+ LF
  +:+ foldr (fun l text => l +:+ LF +:+ text) LF usage_lines.

(** The versions are those of libcurl and libfuse; [major] and [minor] are printed numbers. *)
Definition NETWORKFS_VERSION : string := "0.0".
Definition show_version (progname curl_version major minor : string) : string :=
  progname +:+ " " +:+ NETWORKFS_VERSION +:+ " libcurl/" +:+ curl_version
  +:+ " fuse/" +:+ major +:+ "." +:+ minor +:+ LF.

(** ** What the parser stores *)

(** The format of a template, after its [%]. *)
Definition opt_format (o : fuse_opt) : option string :=
  i ← strchr (lit (templ o)) "%"%char; Some (str_of (drop (S i) (lit (templ o)))).

(** The type of the variable that the parser writes: scanf's for the format (a string for "%s"), and
    an integer without one; [None] for an option that calls the callback instead. *)
Definition stored_type (o : fuse_opt) : option ctype :=
  if opt_offset o =? no_offset then None
  else match opt_format o with
       | None => Some C_int
       | Some f => if decide (f = "s"%string) then Some C_ptr
                   else if decide (f = "ld"%string) then Some C_long
                   else if decide (f = "lf"%string) then Some C_double
                   else if decide (f = "d"%string \/ f = "o"%string) then Some C_int
                   else None
       end.

(** The member an option is for. *)
Definition target (o : fuse_opt) : option place :=
  snd <$> list_find (fun p => p_off p = opt_offset o) options_places.

(** The memory of the record, byte by byte. *)
Definition mem := Z -> Z.
Definition read_place (m : mem) (p : place) : list Z :=
  map (fun k => m (p_off p + Z.of_nat k)) (seq 0 (Z.to_nat (csize (p_type p)))).
Definition read_bool (m : mem) (f : string) : bool := negb (m (offsetof f) =? 0).

(** The bytes from [off] on, for [n], may change. *)
Definition writes_only (m m' : mem) (off n : Z) : Prop :=
  forall k, ~ (off <= k < off + n) -> m' k = m k.

(** The members, other than its own, that a store of the option runs into. *)
Definition overlaps (off n : Z) (p : place) : bool :=
  (off <? p_off p + csize (p_type p)) && (p_off p <? off + n).
Definition overwritten (o : fuse_opt) : list string :=
  match stored_type o with
  | None => []
  | Some t => map p_name (filter (fun p => p_off p <> opt_offset o /\ overlaps (opt_offset o) (csize t) p = true)
                            options_places)
  end.

(** ** The table against the record *)

(** The option a line of [usage] is about, up to its [=], and the one a template matches. *)
Fixpoint option_name (b : bytes) : bytes :=
  match b with
  | [] => []
  | c :: b' => if (c =? "=")%char || (c =? " ")%char then [] else c :: option_name b'
  end.
Definition usage_option (line : string) : option string :=
  if decide (take 7 (lit line) = lit "    -o ") then Some (str_of (option_name (drop 7 (lit line)))) else None.
Definition template_name (o : fuse_opt) : string := str_of (option_name (lit (templ o))).

(** [usage] names no option that is not in the table; two of its lines stand for several. *)
Example usage_names_options :
  filter (fun n => n ∉ map template_name option_spec) (omap usage_option usage_lines)
  = ["(no_)hide_password"; "tlsv1.[0|1|2|3]"]%string.
Proof. vm_compute. reflexivity. Qed.

(** The options without a format whose member is a [long]: the parser's [int] is its low half. *)
Definition half_stored : list string :=
  ["ipv4"; "ipv6"; "httpproxy"; "socks4"; "socks5"; "ssl"; "ssl_control"; "ssl_try";
   "tlsv1.3"; "tlsv1.2"; "tlsv1.1"; "tlsv1.0"; "tlsv1"; "sslv3"]%string.

(** How an option fits its member: the type that is stored is the member's; or an [int] is stored to
    a [bool]; or an [int], which has one byte, is stored to a [long]. *)
Inductive fitting (o : fuse_opt) (t : ctype) (p : place) : Prop :=
  | fit_exact : p_type p = t -> overwritten o = [] -> fitting o t p
  | fit_flag : p_type p = C_bool -> t = C_int -> fitting o t p
  | fit_half : p_type p = C_long -> t = C_int -> templ o ∈ half_stored -> opt_format o = None ->
      0 <= opt_value o < 256 -> overwritten o = [] -> fitting o t p.

Definition option_fits (o : fuse_opt) : bool :=
  match stored_type o, target o with
  | None, _ => opt_offset o =? no_offset
  | Some t, Some p =>
      bool_decide (p_type p = t /\ overwritten o = [])
      || bool_decide (p_type p = C_bool /\ t = C_int)
      || bool_decide (p_type p = C_long /\ t = C_int /\ templ o ∈ half_stored /\ opt_format o = None
                      /\ 0 <= opt_value o < 256 /\ overwritten o = [])
  | Some _, None => false
  end.

Lemma all_fit : forallb option_fits option_spec = true.
Proof. vm_compute. reflexivity. Qed.

Lemma option_fitting o t p :
  o ∈ option_spec -> stored_type o = Some t -> target o = Some p -> fitting o t p.
Proof.
  intros Ho Ht Hp. pose proof (proj1 (forallb_forall _ _) all_fit o (proj1 (list_elem_of_In _ _) Ho)) as Hf.
  unfold option_fits in Hf. rewrite Ht, Hp in Hf.
  apply orb_true_iff in Hf as [Hf|(H1 & H2 & H3 & H4 & H5 & H6)%bool_decide_eq_true]; [|by apply fit_half].
  apply orb_true_iff in Hf as [[H1 H2]%bool_decide_eq_true|[H1 H2]%bool_decide_eq_true];
    [by apply fit_exact|by apply fit_flag].
Qed.

Lemma option_target o t :
  o ∈ option_spec -> stored_type o = Some t -> exists p, target o = Some p /\ p_off p = opt_offset o.
Proof.
  intros Ho Ht. pose proof (proj1 (forallb_forall _ _) all_fit o (proj1 (list_elem_of_In _ _) Ho)) as Hf.
  unfold option_fits in Hf. rewrite Ht in Hf. destruct (target o) as [p|] eqn:Hp; [|done].
  exists p. split; [done|]. unfold target in Hp.
  destruct (list_find _ _) as [[i q]|] eqn:Hl; [|done]. simpl in Hp. simplify_eq.
  by apply list_find_Some in Hl as (_ & Hq & _).
Qed.

(** An [int] in memory is four bytes, the low one first; so is a number of any width. *)
Definition stores_int (m m' : mem) (off v : Z) : Prop := forall k,
  m' k = if (off <=? k) && (k <? off + 4) then Z.land (Z.shiftr v (8 * (k - off))) 255 else m k.
Definition number (bs : list Z) : Z := foldr (fun b n => b + 256 * n) 0 bs.

Lemma low_byte_of_small v : 0 <= v < 256 -> Z.land (Z.shiftr v (8 * 0)) 255 = v.
Proof. intros Hv. rewrite Z.shiftr_0_r. change 255 with (Z.ones 8). rewrite Z.land_ones by done. by apply Z.mod_small. Qed.
Lemma high_byte_of_small v i : 0 <= v < 256 -> 0 < i -> Z.land (Z.shiftr v (8 * i)) 255 = 0.
Proof.
  intros Hv Hi. rewrite Z.shiftr_div_pow2 by lia. rewrite Z.div_small; [done|].
  split; [lia|]. apply Z.lt_le_trans with (2 ^ 8); [lia|]. apply Z.pow_le_mono_r; lia.
Qed.

(** The value of one byte in the low half of a [long] whose upper half is zero. *)
Lemma read_half m m' p v :
  p_type p = C_long -> 0 <= v < 256 -> stores_int m m' (p_off p) v ->
  (forall i, 4 <= i < 8 -> m (p_off p + i) = 0) -> number (read_place m' p) = v.
Proof.
  intros Ht Hv Hs Hz. unfold read_place. rewrite Ht. change (seq 0 (Z.to_nat (csize C_long))) with [0; 1; 2; 3; 4; 5; 6; 7]%nat.
  simpl map. unfold number. cbn [foldr].
  change (Z.of_nat 0) with 0. change (Z.of_nat 1) with 1. change (Z.of_nat 2) with 2. change (Z.of_nat 3) with 3.
  change (Z.of_nat 4) with 4. change (Z.of_nat 5) with 5. change (Z.of_nat 6) with 6. change (Z.of_nat 7) with 7.
  assert (forall i, 4 <= i < 8 -> m' (p_off p + i) = 0) as Hhi.
  { intros i Hi. rewrite Hs, (Hz i Hi).
    by assert ((p_off p <=? p_off p + i) && (p_off p + i <? p_off p + 4) = false) as -> by lia. }
  assert (forall i, 0 <= i < 4 -> m' (p_off p + i) = Z.land (Z.shiftr v (8 * i)) 255) as Hlo.
  { intros i Hi. rewrite Hs.
    assert ((p_off p <=? p_off p + i) && (p_off p + i <? p_off p + 4) = true) as -> by lia. by replace (p_off p + i - p_off p) with i by lia. }
  rewrite (Hhi 4), (Hhi 5), (Hhi 6), (Hhi 7), (Hlo 0), (Hlo 1), (Hlo 2), (Hlo 3) by lia.
  rewrite (high_byte_of_small v 1), (high_byte_of_small v 2), (high_byte_of_small v 3), low_byte_of_small by lia. lia.
Qed.

(** The members the flags run into. *)
Example flags_overwrite :
  filter (fun q => q.2 <> []) (map (fun o => (templ o, overwritten o)) option_spec)
  = [("hide_password", ["show_help"]); ("no_hide_password", ["show_help"]);
     ("set_uid", ["set_gid"; "entry_timeout_set"; "negative_timeout_set"]);
     ("set_gid", ["entry_timeout_set"; "negative_timeout_set"; "attr_timeout_set"]);
     ("entry_timeout=", ["negative_timeout_set"; "attr_timeout_set"; "hide_password"]);
     ("negative_timeout=", ["attr_timeout_set"; "hide_password"; "show_help"]);
     ("attr_timeout=", ["hide_password"; "show_help"]);
     ("proxytunnel", ["use_lock"]);
     ("proxy_anyauth", ["proxybasic"; "proxydigest"; "proxyntlm"]);
     ("proxy_basic", ["proxydigest"; "proxyntlm"; "uid_set"]);
     ("proxy_digest", ["proxyntlm"; "uid_set"; "gid_set"]);
     ("proxy_ntlm", ["uid_set"; "gid_set"; "set_uid"]);
     ("no_verify_hostname", ["no_verify_peer"])]%string.
Proof. vm_compute. reflexivity. Qed.

Lemma read_outside m m' off n p :
  writes_only m m' off n -> overlaps off n p = false -> read_place m' p = read_place m p.
Proof.
  intros Hw Ho. apply map_ext_in. intros k Hk%in_seq. apply Hw. unfold overlaps in Ho.
  apply andb_false_iff in Ho. lia.
Qed.

Lemma overwritten_nil o t p :
  stored_type o = Some t -> overwritten o = [] -> p ∈ options_places -> p_off p <> opt_offset o ->
  overlaps (opt_offset o) (csize t) p = false.
Proof.
  intros Ht Ho Hp Hne. unfold overwritten in Ho. rewrite Ht in Ho. apply not_true_is_false. intros Hov.
  apply map_eq_nil in Ho. apply (not_elem_of_nil p). rewrite <- Ho. by apply list_elem_of_filter.
Qed.

(** What a store of an option that fits without overwriting leaves of the other members. *)
Lemma others_unchanged o t p m m' p' :
  stored_type o = Some t -> p_off p = opt_offset o -> overwritten o = [] ->
  writes_only m m' (opt_offset o) (csize t) -> p' ∈ options_places -> p_off p' <> p_off p ->
  read_place m' p' = read_place m p'.
Proof.
  intros Hs Hoff Hn Hw Hp' Hne. apply (read_outside m m' _ _ _ Hw), (overwritten_nil o t); [done..|congruence].
Qed.


(** ** A timeout shows the password *)

Section Flags.
(** An option without a format: an [int] in memory is four bytes, the low one first. *)
Context (set_int : mem -> Z -> Z -> mem).
Context (set_int_bytes : forall m off v k, set_int m off v k =
  if (off <=? k) && (k <? off + 4) then Z.land (Z.shiftr v (8 * (k - off))) 255 else m k).

Definition apply_flag (o : fuse_opt) (m : mem) : mem := set_int m (opt_offset o) (opt_value o).

(** C23: setting the timeout of the names, of the deleted names or of the attributes switches off the
    hiding of the password, which is on by default: the flag of the timeout is a [bool], the parser
    stores an [int] there, and [hide_password] is one of the three bytes behind it. *)
Theorem timeout_shows_password o m :
  o ∈ option_spec -> templ o ∈ ["entry_timeout="; "negative_timeout="; "attr_timeout="]%string ->
  read_bool (apply_flag o m) "hide_password" = false.
Proof.
  intros Ho Ht. unfold option_spec in Ho.
  repeat (apply elem_of_cons in Ho as [->|Ho]; [try (exfalso; revert Ht; clear; vm_compute; set_solver)|]);
    [..|by apply elem_of_nil in Ho]; unfold read_bool, apply_flag; rewrite set_int_bytes; reflexivity.
Qed.
End Flags.

(** ** Witnesses *)

Definition set_int (m : mem) (off v : Z) : mem := fun k =>
  if (off <=? k) && (k <? off + 4) then Z.land (Z.shiftr v (8 * (k - off))) 255 else m k.

(** The record before the options are read: only the password is hidden. *)
Definition hiding : mem := fun k => if k =? offsetof "hide_password" then 1 else 0.


Lemma timeout_shows_password_witness :
  let o := NETWORKFS_OPT_KEY "entry_timeout=" "entry_timeout_set" in
  read_bool hiding "hide_password" = true
  /\ read_bool (apply_flag set_int o hiding) "entry_timeout_set" = true
  /\ read_bool (apply_flag set_int o hiding) "hide_password" = false.
Proof.
  intros o. split; [vm_compute; reflexivity|]. split; [vm_compute; reflexivity|].
  apply (timeout_shows_password set_int).
  - intros. reflexivity.
  - apply (proj2 (list_elem_of_In _ _)). cbv. tauto.
  - apply (proj2 (list_elem_of_In _ _)). cbv. tauto.
Defined.
