(* ===== verification/Wp.v ===== *)
(** * Reasoning about statements

    Two tools shared by the files that prove properties of functions: [orderly], the statements
    that leave their block only by raising, and [wp], the weakest precondition of a statement for
    each of the ways it can end. *)

From S2P Require Import Prelude Exception Control.
#[local] Open Scope Z_scope.
#[local] Open Scope c_scope.

(** ** Statements that leave their block only by raising

    [orderly m]: [m] never returns from the function and never continues a loop, and it breaks
    only with an exception pending. *)

Section Orderly.
Context {S R : Type} `{HasEx S}.

Definition orderly {A} (m : M S R A) : Prop := forall s,
  match m s with
  | (Next _, _) | (Stuck _, _) => True
  | (Brk, s') => Exception_has (get_ex s') = true
  | _ => False
  end.

(** The same for a block that absorbs its breaks. *)
Definition noret (m : M S R unit) : Prop := forall s,
  match m s with (Ret _, _) => False | _ => True end.

Lemma orderly_noret (m : M S R unit) : orderly m -> noret m.
Proof. intros Hm s. specialize (Hm s). by destruct (m s) as [[] ?]. Qed.

Lemma orderly_bind {A B} (m : M S R A) (f : A -> M S R B) :
  orderly m -> (forall a, orderly (f a)) -> orderly (bind m f).
Proof.
  intros Hm Hf s. specialize (Hm s). unfold bind. destruct (m s) as [[a| | | |] s']; try done.
  apply Hf.
Qed.

Lemma orderly_next {A} (m : M S R A) :
  (forall s, match m s with (Next _, _) => True | _ => False end) -> orderly m.
Proof. intros Hm s. specialize (Hm s). by destruct (m s) as [[] ?]. Qed.

Lemma orderly_mret {A} (a : A) : orderly (mret (R := R) a).
Proof. done. Qed.
Lemma orderly_gets {A} (f : S -> A) : orderly (gets (R := R) f).
Proof. done. Qed.
Lemma orderly_modify (f : S -> S) : orderly (modify (R := R) f).
Proof. done. Qed.
Lemma orderly_skip : orderly (skip (R := R)).
Proof. done. Qed.
Lemma orderly_stuck {A} (f : fault) : orderly (stuck (R := R) (A := A) f).
Proof. done. Qed.
Lemma orderly_deref {A} (o : option A) : orderly (deref (R := R) o).
Proof. by destruct o. Qed.
Lemma orderly_when (b : bool) (m : M S R unit) : orderly m -> orderly (when b m).
Proof. by destruct b. Qed.
Lemma orderly_if {A} (b : bool) (m m' : M S R A) :
  orderly m -> orderly m' -> orderly (if b then m else m').
Proof. by destruct b. Qed.

Lemma orderly_check : orderly (check (R := R)).
Proof. intros s. rewrite check_run. by destruct (Exception_has _) eqn:?. Qed.

Lemma orderly_throwable (m : M S R unit) : noret m -> orderly (throwable m).
Proof.
  intros Hm s. rewrite throwable_run. specialize (Hm s).
  destruct (m s) as [[] s']; simpl; try done; by destruct (Exception_has _) eqn:?.
Qed.

Lemma orderly_throwable_as {A} (m : M S R A) : orderly m -> orderly (throwable_as m).
Proof.
  intros Hm. unfold throwable_as. apply orderly_bind; [done|]. intros a.
  apply orderly_bind; [apply orderly_check|by intros].
Qed.

Lemma orderly_throw (m : M S R unit) : noret m -> orderly (throw m).
Proof.
  intros Hm s. rewrite throw_run. specialize (Hm s).
  destruct (m s) as [[] s']; simpl; try done; by rewrite get_put_ex.
Qed.

Lemma orderly_condition_throw (b : bool) (m : M S R unit) :
  noret m -> orderly (condition_throw b m).
Proof. destruct b; [done|apply orderly_throw]. Qed.

(** A [with] whose pieces around the body always fall through only falls through. *)
Lemma orderly_with_test {X} (decl : M S R X) init c cleanup (body : X -> M S R unit) :
  orderly decl -> (forall x, orderly (init x)) -> orderly c -> (forall x, orderly (cleanup x)) ->
  (forall x, noret (body x)) -> noret (with_test decl init c cleanup body).
Proof.
  intros Hd Hi Hc Hcl Hb s. unfold with_test, for_once, do_once, reflow. unfold bind.
  specialize (Hd s). destruct (decl s) as [[x| | | |] s0]; try done.
  specialize (Hi x s0). destruct (init x s0) as [[[]| | | |] s1]; try done.
  specialize (Hc s1). destruct (c s1) as [[b| | | |] s2]; try done.
  destruct b; simpl.
  - rewrite round_do_once. specialize (Hb x s2).
    destruct (body x s2) as [[] s3]; simpl; try done;
      specialize (Hcl x s3); by destruct (cleanup x s3) as [[] ?].
  - specialize (Hcl x s2). by destruct (cleanup x s2) as [[] ?].
Qed.

Lemma noret_with_assign {X} (decl : M S R X) cleanup (body : X -> M S R unit) :
  orderly decl -> (forall x, orderly (cleanup x)) -> (forall x, noret (body x)) ->
  noret (with_assign decl cleanup body).
Proof. intros. by apply orderly_with_test. Qed.

Lemma noret_with_seperated {X} (decl : M S R X) init cleanup (body : X -> M S R unit) :
  orderly decl -> (forall x, orderly (init x)) -> (forall x, orderly (cleanup x)) ->
  (forall x, noret (body x)) -> noret (with_seperated decl init cleanup body).
Proof. intros. by apply orderly_with_test. Qed.

(** A [try] and its handlers absorb the breaks of their bodies. *)
Lemma orderly_onerror_default (m : M S R unit) : noret m -> orderly (onerror_default m).
Proof.
  intros Hm s. specialize (Hm s). rewrite onerror_default_run. by destruct (m s) as [[] ?].
Qed.
Lemma orderly_catch_default (m : M S R unit) : noret m -> orderly (catch_default m).
Proof.
  intros Hm s. rewrite catch_default_run. specialize (Hm (put_ex (with_set EXCEPTION_CATCHED (get_ex s)) s)).
  by destruct (m _) as [[] ?].
Qed.
Lemma orderly_catch_type t (m rest : M S R unit) :
  noret m -> orderly rest -> orderly (catch_type t m rest).
Proof.
  intros Hm Hr. apply orderly_bind; [done|]. intros b. destruct b; [by apply orderly_catch_default|done].
Qed.
Lemma orderly_try (m h : M S R unit) : noret m -> orderly h -> orderly (try_ m h).
Proof.
  intros Hm Hh s. specialize (Hm s). rewrite try_run. destruct (m s) as [[] s']; try done; simpl;
    destruct (Exception_has (get_ex s')); try done; apply Hh.
Qed.
Lemma noret_do_once (m : M S R unit) : noret m -> noret (do_once m).
Proof. intros Hm s. specialize (Hm s). unfold do_once. by destruct (m s) as [[] ?]. Qed.
End Orderly.

Lemma orderly_call {L G L' R R' B} `{HasEx G} (fresh : L') (out : L' -> B)
    (f : M (L' * G) R' unit) :
  orderly (S := L * G) (R := R) (call fresh out f).
Proof. intros [l g]. unfold call. by destruct (f (fresh, g)) as [[] []]. Qed.

Create HintDb orderly.
#[export] Hint Resolve orderly_mret orderly_gets orderly_modify orderly_skip orderly_stuck
  orderly_deref orderly_check orderly_call : orderly.

(** Decide [orderly] and [noret] goals by the shape of the statement. *)
Ltac orderly_step :=
  first
    [ progress intros
    | solve [eauto 2 with orderly]
    | simple apply orderly_condition_throw | simple apply orderly_throwable_as
    | simple apply orderly_throwable | simple apply orderly_throw
    | simple apply orderly_try | simple apply orderly_onerror_default
    | simple apply orderly_catch_default | simple apply orderly_catch_type
    | simple apply noret_with_assign | simple apply noret_with_seperated
    | simple apply orderly_bind | simple apply orderly_when | simple apply orderly_if
    | match goal with
      | |- orderly (match ?x with _ => _ end) => destruct x eqn:?
      | |- noret (bind _ _) => apply orderly_noret
      end
    | apply orderly_noret ].
Ltac orderly := repeat orderly_step.


(** ** Weakest preconditions

    [gwp F m Q B T s]: from [s], [m] falls through with a value and a state in [Q], or breaks in [B],
    or returns from the function in [T]; it does not [continue], and when it is stuck then [F]
    holds. [wp] says nothing of a stuck statement, [twp] excludes it. *)

Section Wp.
Context {S R : Type} `{HasEx S}.

Definition gwp (F : Prop) {A} (m : M S R A) (Q : A -> S -> Prop) (B : S -> Prop) (T : R -> S -> Prop) (s : S)
    : Prop :=
  match m s with
  | (Next a, s') => Q a s'
  | (Brk, s') => B s'
  | (Ret r, s') => T r s'
  | (Stuck _, _) => F
  | (Cont, _) => False
  end.

#[local] Abbreviation wp := (gwp True).
Implicit Types (B : S -> Prop) (T : R -> S -> Prop).

Lemma wp_mono {F : Prop} {A} (m : M S R A) (Q Q' : A -> S -> Prop) B B' T T' s :
  gwp F m Q B T s -> (forall a s', Q a s' -> Q' a s') -> (forall s', B s' -> B' s') ->
  (forall r s', T r s' -> T' r s') -> gwp F m Q' B' T' s.
Proof. unfold gwp. destruct (m s) as [[] ?]; eauto. Qed.

Lemma wp_bind {F : Prop} {A A'} (m : M S R A) (f : A -> M S R A') Q B T s :
  gwp F m (fun a => gwp F (f a) Q B T) B T s -> gwp F (bind m f) Q B T s.
Proof. unfold gwp, bind. by destruct (m s) as [[] ?]. Qed.

Lemma wp_mret {F : Prop} {A} (a : A) (Q : A -> S -> Prop) B T s : Q a s -> gwp F (mret a) Q B T s.
Proof. done. Qed.
Lemma wp_skip {F : Prop} Q B T s : Q tt s -> gwp F skip Q B T s.
Proof. done. Qed.
Lemma wp_gets {F : Prop} {A} (f : S -> A) (Q : A -> S -> Prop) B T s : Q (f s) s -> gwp F (gets f) Q B T s.
Proof. done. Qed.
Lemma wp_modify {F : Prop} f Q B T s : Q tt (f s) -> gwp F (modify f) Q B T s.
Proof. done. Qed.
Lemma wp_break {F : Prop} {A} (Q : A -> S -> Prop) B T s : B s -> gwp F break Q B T s.
Proof. done. Qed.
Lemma wp_return {F : Prop} {A} r (Q : A -> S -> Prop) B T s : T r s -> gwp F (return_ r) Q B T s.
Proof. done. Qed.
Lemma wp_stuck {A} f (Q : A -> S -> Prop) B T s : wp (stuck f) Q B T s.
Proof. done. Qed.
Lemma wp_deref {A} (o : option A) (Q : A -> S -> Prop) B T s :
  (forall a, o = Some a -> Q a s) -> wp (deref o) Q B T s.
Proof. destruct o; [|done]. intros HQ. by apply HQ. Qed.
Lemma wp_when {F : Prop} (b : bool) m Q B T s :
  (b = true -> gwp F m Q B T s) -> (b = false -> Q tt s) -> gwp F (when b m) Q B T s.
Proof. destruct b; intros Ht Hf; [by apply Ht|by apply Hf]. Qed.
Lemma wp_if {F : Prop} {A} (b : bool) (m m' : M S R A) Q B T s :
  (b = true -> gwp F m Q B T s) -> (b = false -> gwp F m' Q B T s) -> gwp F (if b then m else m') Q B T s.
Proof. destruct b; intros Ht Hf; [by apply Ht|by apply Hf]. Qed.
Lemma wp_upd_ex {F : Prop} f Q B T s : Q tt (put_ex (f (get_ex s)) s) -> gwp F (upd_ex f) Q B T s.
Proof. done. Qed.

(** The state after a [throw] of the exception in the object. *)
Definition thrown (s : S) : S := put_ex (with_set 1 (get_ex s)) s.

Lemma wp_throwable {F : Prop} m Q B T s :
  gwp F m (fun _ s' => if Exception_has (get_ex s') then B s' else Q tt s')
       (fun s' => if Exception_has (get_ex s') then B s' else Q tt s') T s ->
  gwp F (throwable m) Q B T s.
Proof.
  unfold gwp. rewrite throwable_run. destruct (m s) as [[] s']; simpl; try done;
    by destruct (Exception_has (get_ex s')).
Qed.

Lemma wp_throwable_same {F : Prop} m (J : S -> Prop) T s :
  gwp F m (fun _ => J) J T s -> gwp F (throwable m) (fun _ => J) J T s.
Proof.
  intros Hm. apply wp_throwable. refine (wp_mono _ _ _ _ _ _ _ _ Hm _ _ _); [..|done].
  - intros _ s' Hs'. by destruct (Exception_has _).
  - intros s' Hs'. by destruct (Exception_has _).
Qed.

Lemma wp_throw {F : Prop} m Q B T s :
  gwp F m (fun _ s' => B (thrown s')) (fun s' => B (thrown s')) T s -> gwp F (throw m) Q B T s.
Proof. unfold gwp. rewrite throw_run. by destruct (m s) as [[] s']. Qed.

Lemma wp_condition_throw {F : Prop} (b : bool) m Q B T s :
  (b = true -> Q tt s) ->
  (b = false -> gwp F m (fun _ s' => B (thrown s')) (fun s' => B (thrown s')) T s) ->
  gwp F (condition_throw b m) Q B T s.
Proof. destruct b; intros Ht Hf; [by apply Ht|]. by apply wp_throw, Hf. Qed.

(** [with]: whatever leaves the body, the cleanup follows. *)
Lemma wp_with_test {F : Prop} {X} (decl : M S R X) init c cleanup (body : X -> M S R unit) Q B T s :
  (let K x := gwp F (cleanup x) (fun _ => Q tt) (Q tt) T in
   gwp F decl (fun x =>
     gwp F (init x) (fun _ =>
       gwp F c (fun (b : bool) s' => if b then gwp F (body x) (fun _ => K x) (K x) T s' else K x s') (Q tt) T)
       (Q tt) T) (Q tt) T s) ->
  gwp F (with_test decl init c cleanup body) Q B T s.
Proof.
  unfold gwp, with_test, for_once, do_once, reflow, bind.
  destruct (decl s) as [[x| | | |] s0]; try done.
  destruct (init x s0) as [[[]| | | |] s1]; try done.
  destruct (c s1) as [[b| | | |] s2]; try done.
  destruct b; simpl.
  - rewrite round_do_once. destruct (body x s2) as [[]s3]; simpl; try done;
      by destruct (cleanup x s3) as [[] ?].
  - by destruct (cleanup x s2) as [[] ?].
Qed.

Lemma wp_try {F : Prop} body handlers Q B T s :
  (let K s' := if Exception_has (get_ex s') then gwp F handlers Q B T s' else Q tt s' in
   gwp F body (fun _ => K) K T s) ->
  gwp F (try_ body handlers) Q B T s.
Proof.
  unfold gwp. rewrite try_run. destruct (body s) as [[] s']; simpl; try done;
    by destruct (Exception_has (get_ex s')).
Qed.

Lemma wp_onerror_default {F : Prop} m Q B T s :
  gwp F m (fun _ => Q tt) (Q tt) T s -> gwp F (onerror_default m) Q B T s.
Proof. unfold gwp. rewrite onerror_default_run. by destruct (m s) as [[] ?]. Qed.

Lemma wp_catch_default {F : Prop} m Q B T s :
  (let K s' := Q tt (if set (get_ex s') =? 1 then s' else put_ex (Exception_destory (get_ex s')) s') in
   gwp F m (fun _ => K) K T (put_ex (with_set EXCEPTION_CATCHED (get_ex s)) s)) ->
  gwp F (catch_default m) Q B T s.
Proof. unfold gwp. rewrite catch_default_run. by destruct (m _) as [[] ?]. Qed.

Lemma wp_catch_type {F : Prop} t m rest Q B T s :
  (issubtype (get_ex s) t = true -> gwp F (catch_default m) Q B T s) ->
  (issubtype (get_ex s) t = false -> gwp F rest Q B T s) -> gwp F (catch_type t m rest) Q B T s.
Proof.
  intros H1 H2. apply wp_bind, wp_gets. by destruct (issubtype (get_ex s) t); [apply H1|apply H2].
Qed.

Lemma wp_do_once {F : Prop} m Q B T s : gwp F m Q (Q tt) T s -> gwp F (do_once m) Q B T s.
Proof. unfold gwp, do_once. by destruct (m s) as [[[]| | | |] ?]. Qed.

(** A statement that keeps a relation. *)
Lemma wp_keeps {A} (Rel : S -> S -> Prop) (m : M S R A) Q B T s :
  keeps Rel m -> orderly m -> (forall a s', Rel s s' -> Q a s') ->
  (forall s', Rel s s' -> Exception_has (get_ex s') = true -> B s') -> wp m Q B T s.
Proof.
  intros Hk Ho HQ HB. specialize (Hk s). specialize (Ho s). unfold gwp.
  destruct (m s) as [[] s']; simpl in *; try done; auto.
Qed.

(** An access through a pointer that is not NULL. *)
Lemma wp_deref_some {F : Prop} {A} (o : option A) a (Q : A -> S -> Prop) B T s :
  o = Some a -> Q a s -> gwp F (deref o) Q B T s.
Proof. by intros ->. Qed.

(** What a run that returned says. *)
Lemma wp_returns {A} (m : M S R A) Q B T s r s' :
  wp m Q B T s -> m s = (Ret r, s') -> T r s'.
Proof. unfold gwp. intros Hw Hm. by rewrite Hm in Hw. Qed.
End Wp.

Abbreviation wp := (gwp True).
Abbreviation twp := (gwp False).

(** A call on a frame of its own: a callee that does not return is stuck. *)
Lemma wp_call {L G L' R R' B} `{HasEx G} (fresh : L') (out : L' -> B)
    (f : M (L' * G) R' unit) (Q : R' * B -> L * G -> Prop) Br (T : R -> L * G -> Prop) l g :
  (forall r s', f (fresh, g) = (Ret r, s') -> Q (r, out s'.1) (l, s'.2)) ->
  wp (call fresh out f) Q Br T (l, g).
Proof.
  intros HQ. unfold gwp, call. destruct (f (fresh, g)) as [[] [l1 g1]]; try done.
  exact (HQ _ _ eq_refl).
Qed.

(** The same for a callee whose precondition is known. *)
Lemma wp_call_wp {F : Prop} {L G L' R R' B} `{HasEx G} (fresh : L') (out : L' -> B)
    (f : M (L' * G) R' unit) (Q : R' * B -> L * G -> Prop) Br (T : R -> L * G -> Prop) l g :
  gwp F f (fun _ _ => False) (fun _ => False) (fun r s' => Q (r, out s'.1) (l, s'.2)) (fresh, g) ->
  gwp F (call fresh out f) Q Br T (l, g).
Proof. unfold gwp, call. by destruct (f (fresh, g)) as [[] [l1 g1]]. Qed.

(** A callback on its caller's variables. *)
Lemma wp_call_in {F : Prop} {S R R'} `{HasEx S} (f : M S R' unit) (Q : R' -> S -> Prop) B
    (T : R -> S -> Prop) s :
  gwp F f (fun _ _ => False) (fun _ => False) (fun r s' => Q r s') s -> gwp F (call_in f) Q B T s.
Proof. unfold gwp, call_in. by destruct (f s) as [[] ?]. Qed.

(** What a run that cannot be stuck does. *)
Lemma twp_result {S R A} `{HasEx S} (m : M S R A) (T : R -> S -> Prop) s :
  twp m (fun _ _ => False) (fun _ => False) T s -> exists r s', m s = (Ret r, s') /\ T r s'.
Proof. unfold gwp. destruct (m s) as [[] ?]; naive_solver. Qed.

(** A way out that is not taken. *)
Definition never {A S} (a : A) (s : S) : Prop := False.

(** ** Invariants of statements

    [gsafe F J T m]: from a state with the invariant [J], [m] comes back with it, unless it returns from
    the function, then in [T], or is stuck, then with [F]. [safe] excludes a stuck statement. *)

Section Safe.
Context {F : Prop} {S R : Type} `{HasEx S} (J : S -> Prop) (T : R -> S -> Prop).

Definition gsafe {A} (m : M S R A) : Prop := forall s, J s -> gwp F m (fun _ => J) J T s.
#[local] Abbreviation safe := gsafe.

Lemma safe_mret {A} (a : A) : safe (mret a).
Proof. intros s Hs. exact Hs. Qed.
Lemma safe_skip : safe (skip (R := R)).
Proof. intros s Hs. exact Hs. Qed.
Lemma safe_break {A} : safe (break (A := A)).
Proof. intros s Hs. exact Hs. Qed.
Lemma safe_return {A} r : (forall s, J s -> T r s) -> safe (return_ (A := A) r).
Proof. intros Hr s Hs. exact (Hr s Hs). Qed.
Lemma safe_gets {A} (f : S -> A) : safe (gets f).
Proof. intros s Hs. exact Hs. Qed.
Lemma safe_modify (f : S -> S) : (forall s, J s -> J (f s)) -> safe (modify f).
Proof. intros Hf s Hs. by apply wp_modify, Hf. Qed.
Lemma safe_bind {A B} (m : M S R A) (f : A -> M S R B) :
  safe m -> (forall a, safe (f a)) -> safe (bind m f).
Proof.
  intros Hm Hf s Hs. apply wp_bind. refine (wp_mono _ _ _ _ _ _ _ _ (Hm s Hs) _ _ _); [|done..].
  intros a s' Hs'. by apply Hf.
Qed.
Lemma safe_when (b : bool) (m : M S R unit) : safe m -> safe (when b m).
Proof. destruct b; [done|intros _; apply safe_skip]. Qed.
Lemma safe_if {A} (b : bool) (m m' : M S R A) : safe m -> safe m' -> safe (if b then m else m').
Proof. by destruct b. Qed.
Lemma safe_do_once (m : M S R unit) : safe m -> safe (do_once m).
Proof. intros Hm s Hs. by apply wp_do_once, Hm. Qed.
Lemma safe_check : safe check.
Proof. intros s Hs. unfold gwp. rewrite check_run. by destruct (Exception_has _). Qed.
Lemma safe_throwable (m : M S R unit) : safe m -> safe (throwable m).
Proof. intros Hm s Hs. by apply wp_throwable_same, Hm. Qed.
Lemma safe_throwable_as {A} (m : M S R A) : safe m -> safe (throwable_as m).
Proof. intros Hm. apply safe_bind; [done|]. intros a. apply safe_bind; [apply safe_check|]. intros _. apply safe_mret. Qed.
Lemma safe_with_test {X} (decl : M S R X) init c cleanup (body : X -> M S R unit) :
  safe decl -> (forall x, safe (init x)) -> safe c -> (forall x, safe (cleanup x)) ->
  (forall x, safe (body x)) -> safe (with_test decl init c cleanup body).
Proof.
  intros Hd Hi Hc Hcl Hb s Hs. apply wp_with_test. cbv zeta.
  refine (wp_mono _ _ _ _ _ _ _ _ (Hd s Hs) _ _ _); [|done..]. intros x s1 H1.
  refine (wp_mono _ _ _ _ _ _ _ _ (Hi x s1 H1) _ _ _); [|done..]. intros _ s2 H2.
  refine (wp_mono _ _ _ _ _ _ _ _ (Hc s2 H2) _ _ _); [|done..]. intros b s3 H3.
  destruct b; [|by apply Hcl].
  refine (wp_mono _ _ _ _ _ _ _ _ (Hb x s3 H3) _ _ _); [|by intros; apply Hcl..|done].
  intros _ s4 H4. by apply Hcl.
Qed.
Lemma safe_no_pending : safe no_pending.
Proof. intros s Hs. exact Hs. Qed.
Lemma safe_with_assign {X} (decl : M S R X) cleanup (body : X -> M S R unit) :
  safe decl -> (forall x, safe (cleanup x)) -> (forall x, safe (body x)) ->
  safe (with_assign decl cleanup body).
Proof. intros. apply safe_with_test; auto using safe_skip, safe_no_pending. Qed.
Lemma safe_with_seperated {X} (decl : M S R X) init cleanup (body : X -> M S R unit) :
  safe decl -> (forall x, safe (init x)) -> (forall x, safe (cleanup x)) -> (forall x, safe (body x)) ->
  safe (with_seperated decl init cleanup body).
Proof. intros. apply safe_with_test; auto using safe_no_pending. Qed.
Lemma safe_try (m h : M S R unit) : safe m -> safe h -> safe (try_ m h).
Proof.
  intros Hm Hh s Hs. apply wp_try. cbv zeta. refine (wp_mono _ _ _ _ _ _ _ _ (Hm s Hs) _ _ _); [..|done].
  - intros _ s' Hs'. destruct (Exception_has _); [by apply Hh|done].
  - intros s' Hs'. destruct (Exception_has _); [by apply Hh|done].
Qed.
Lemma safe_onerror_default (m : M S R unit) : safe m -> safe (onerror_default m).
Proof. intros Hm s Hs. by apply wp_onerror_default, Hm. Qed.

(** An invariant that does not look at the exception object. *)
Hypothesis J_ex : forall e s, J s -> J (put_ex e s).

Lemma safe_upd_ex f : safe (upd_ex f).
Proof. intros s Hs. by apply wp_upd_ex, J_ex. Qed.
Lemma safe_throw (m : M S R unit) : safe m -> safe (throw m).
Proof.
  intros Hm s Hs. apply wp_throw. refine (wp_mono _ _ _ _ _ _ _ _ (Hm s Hs) _ _ _); [..|done].
  - intros _ s' Hs'. by apply J_ex.
  - intros s' Hs'. by apply J_ex.
Qed.
Lemma safe_condition_throw b (m : M S R unit) : safe m -> safe (condition_throw b m).
Proof. destruct b; [intros _; apply safe_skip|apply safe_throw]. Qed.
End Safe.
Arguments gsafe F {S R} J T {A} m.
Abbreviation safe := (gsafe False).

(** Statements that may be stuck. *)
Section Stuck.
Context {S R : Type} `{HasEx S} (J : S -> Prop) (T : R -> S -> Prop).

Lemma safe_stuck {A} f : gsafe True J T (stuck (A := A) f).
Proof. done. Qed.
Lemma safe_deref {A} (o : option A) : gsafe True J T (deref o).
Proof. destruct o; [apply safe_mret|done]. Qed.
Lemma safe_ensure_loop fuel t body test :
  gsafe True J T t -> gsafe True J T body -> gsafe True J T test -> gsafe True J T (ensure_loop fuel t body test).
Proof.
  intros Ht Hb Hs. induction fuel as [|fuel IH]; [apply safe_stuck|]. simpl. apply safe_bind; [done|].
  intros e s HJ. specialize (Hs s HJ). unfold gwp in *. destruct (test s) as [[] s']; try done.
  - destruct (e =? 0); [|by apply IH]. specialize (Hb s' Hs). unfold gwp in Hb. unfold round, do_once, bind.
    by destruct (body s') as [[[]| | | |] ?].
Qed.
End Stuck.

Create HintDb safe.
#[export] Hint Resolve safe_stuck safe_deref safe_mret safe_skip safe_break safe_gets safe_check safe_no_pending : safe.

(** Decide [safe] goals by the shape of the statement. *)
Ltac safe_step :=
  first
    [ progress intros
    | solve [eauto 2 with safe]
    | simple apply safe_throwable | simple apply safe_throwable_as | simple apply safe_try
    | simple apply safe_onerror_default | simple apply safe_do_once
    | simple apply safe_throw; [solve [eauto with safe]|]
    | simple apply safe_condition_throw; [solve [eauto with safe]|]
    | simple apply safe_upd_ex; solve [eauto with safe]
    | simple apply safe_with_assign | simple apply safe_with_seperated
    | simple apply safe_return; solve [eauto 2 with safe]
    | simple apply safe_bind | simple apply safe_when | simple apply safe_if
    | match goal with |- gsafe _ _ _ (match ?x with _ => _ end) => destruct x eqn:? end ].
Ltac safe := repeat safe_step.
