(* ===== verification/Demo.v ===== *)
(** * A concrete environment, for evaluating the definitions

    The witnesses of the theorems run the program against this libcurl: every call succeeds, a URL
    is its text, and a transfer follows a script over a world of the script's own. *)

From S2P Require Import Prelude Utils Exception Control Buffer Stack State.
#[local] Open Scope Z_scope.

(** [perform] is what the server does; the parser context is the document it will yield. *)
Definition demo_env {W : Type} (perform : list (CURLoption * optval) -> W -> xfer W) (root : option xmlNode)
    : Env := {|
  World := W;
  CURLU := string;
  xmlParserCtxt := option xmlNode;
  tm := unit;
  env_malloc := fun w => (true, w);
  env_easy_init := fun w => (true, w);
  env_easy_setopt := fun _ _ _ w => (CURLE_OK, w);
  env_easy_perform := perform;
  env_slist_append := fun _ _ w => (true, w);
  env_easy_unescape := fun s w => (Some s, w);
  env_easy_strerror := fun _ => "error";
  env_url := fun w => (Some ""%string, w);
  env_url_dup := fun u w => (Some u, w);
  env_url_set := fun u p s _ w =>
    (CURLUE_OK, match p, s with
                | CURLUPART_URL, Some s => u +:+ s
                | CURLUPART_SCHEME, Some s => s +:+ ":" +:+ u
                | _, _ => u
                end, w);
  env_url_get := fun u _ w => (CURLUE_OK, Some u, w);
  env_xml_create := fun _ w => (Some root, w);
  env_xml_chunk := fun c _ _ w => (0, c, w);
  env_xml_root := fun c => c;
  env_xml_wellFormed := fun _ => true;
  env_xmlStrcmp := fun s t => if decide (s = t) then 0 else 1;
  env_xmlStrncmp := fun s t n =>
    if n <=? 0 then 0 else
    match s, t with
    | Some s, Some t => strncmp (lit s) (lit t) (Z.to_nat n)
    | None, None => 0
    | _, _ => 1
    end;
  env_strptime := fun _ _ => Some tt;
  env_mktime := fun _ => 0;
  env_timezone := 0;
|}.

Definition demo_info (code : Z) : xinfo := mkInfo code "http://h/" None.

(** A server that answers every request with [code], without headers and body. *)
Definition answers (code : Z) (_ : list (CURLoption * optval)) (w : Z) : xfer Z :=
  XDone w (if code <? 400 then CURLE_OK else CURLE_HTTP_RETURNED_ERROR) (demo_info code).

(** A server that grants locks with the token "tok", and the document it answers. *)
Definition elem (name : string) (content : option string) (children : list xmlNode) : xmlNode :=
  mkXml name (Some "DAV:"%string) content [] children.

Definition lock_document : xmlNode :=
  elem "prop" None [elem "lockdiscovery" None [elem "activelock" None
    [elem "timeout" None [];
     elem "locktoken" None [elem "href" None [elem "text" (Some "tok"%string) []]]]]].

Definition lock_server (opts : list (CURLoption * optval)) (w : Z) : xfer Z :=
  match last_opt CURLOPT_HEADERFUNCTION opts with
  | Some (VFun CB_dav_lock_callback) =>
      XHeader (lit ("Lock-Token: <tok>" +:+ CRLF))
        (fun _ => XWrite (lit "<prop/>") (fun _ => XDone w CURLE_OK (demo_info 200)))
  | _ => XDone w CURLE_OK (demo_info 204)
  end.

Definition demo_opts (lock : bool) : networkfs_opts :=
  mkOpts None None 0 0 0 1000 1000 91 18 10 None 0 0 5 false false None None None None None None
    None None None None None 0 0 false lock.

Section State.
Context {W : Type} (perform : list (CURLoption * optval) -> W -> xfer W) (root : option xmlNode).
#[local] Existing Instance demo_env.

Definition demo_server (lock : bool) (tree : gmap string addr) : @DavServer (demo_env perform root) :=
  @mkDavServer (demo_env perform root) "http://h/"%string (demo_opts lock) tree None None
    (list_to_set [MKCOL; MOVE; LOCK; UNLOCK]).

(** A mounted file system: nothing was sent, and the pool of handles is empty. [locks] are the
    file locks held, each with its path. *)
Definition demo_world (w : W) (lock : bool) (locks : list (string * addr * FileLock)) (e : Exception)
    : @G (demo_env perform root) :=
  @mkG (demo_env perform root) e Stack_init ∅ 100%positive
    (demo_server lock (list_to_map (fst <$> locks)))
    (list_to_map ((fun p => (p.1.2, p.2)) <$> locks)) (mkRWLock 0 false) [] [] None w.
End State.

Definition demo_state (perform : list (CURLoption * optval) -> Z -> xfer Z) (root : option xmlNode)
    (lock : bool) (locks : list (string * addr * FileLock)) (e : Exception) : @G (demo_env perform root) :=
  demo_world perform root 0 lock locks e.

(** An exception that is pending. *)
Definition pending_ex : Exception := with_set 1 (MallocException_init ex0 (Some "demo"%string)).

(** The end of a run, named by projections. *)
Lemma run_eta {A B C} (p : A * (B * C)) : p = (p.1, (p.2.1, p.2.2)).
Proof. by destruct p as [? []]. Qed.

(** The end of a run whose result is known. *)
Lemma run_result {A B} (p : A * B) a : p.1 = a -> p = (a, p.2).
Proof. destruct p. simpl. by intros ->. Qed.

(** The options a transfer was made with, without those every handle gets. *)
Definition own_options (opts : list (CURLoption * optval)) : list (CURLoption * optval) :=
  filter (fun p => negb (bool_decide (p.1 ∈ [CURLOPT_ERRORBUFFER; CURLOPT_USERNAME; CURLOPT_PASSWORD;
    CURLOPT_USERAGENT; CURLOPT_FAILONERROR; CURLOPT_FOLLOWLOCATION; CURLOPT_NETRC]))) opts.
