(* ===== verification/Curl.v ===== *)
(** * common/wrapper/curl.[ch]: exceptions, options and the pool of curl handles *)

From S2P Require Import Prelude Utils Exception Control Buffer Stack State.
#[local] Open Scope Z_scope.
#[local] Open Scope c_scope.

(** ** Exceptions *)

(** [resp] is what [curl_easy_getinfo (handle, CURLINFO_RESPONSE_CODE)] reports. *)
Definition CurlException_init (e : Exception) (code : CURLcode) (action : CURLaction)
    (arg resp : Z) : Exception :=
  let e1 := Exception_init e in
  mkException (set e1) (Some CurlException) (what e1) code
    (if bool_decide (action = CURL_PERFORM) && (code =? CURLE_HTTP_RETURNED_ERROR)
     then resp else response_code e1)
    action (uaction e1)
    (if bool_decide (action = CURL_SETOPT) || bool_decide (action = CURL_INFO)
     then arg else option_or_info e1).

Definition CurlUrlException_init (e : Exception) (code : CURLUcode) (action : CURLUaction)
    (part : Z) : Exception :=
  let e1 := Exception_init e in
  mkException (set e1) (Some CurlUrlException) (what e1) code (response_code e1) (Exception.action e1)
    action
    (if bool_decide (action = CURLU_SET) || bool_decide (action = CURLU_GET)
     then part else option_or_info e1).

(** What the two classes print; [msg] is the curl error buffer or [curl_easy_strerror]. *)
Definition Exception_fputs_curl (e : Exception) (option_text msg : string) : string :=
  match action e with
  | CURL_INIT => "Error init curl
"
  | CURL_SLIST_APPEND => "Error appending to curl list
"
  | CURL_UNESCAPE => "Error esacpe curl URL
"
  | CURL_SETOPT => "Error setting curl " +:+ option_text +:+ ": " +:+ msg +:+ "
"
  | CURL_PERFORM => "Error performing curl: " +:+ msg +:+ "
"
  | CURL_INFO => "Error getting curl info " +:+ option_text +:+ ": " +:+ msg +:+ "
"
  end.

Definition curlu_part_text (part : Z) : string :=
  if part =? 0 then "full url" else if part =? 1 then "scheme" else if part =? 2 then "user"
  else if part =? 3 then "password" else if part =? 4 then "options" else if part =? 5 then "host"
  else if part =? 6 then "port" else if part =? 7 then "path" else if part =? 8 then "query"
  else if part =? 9 then "fragment" else "(Unknown part)".

(** CURLUE_OK, CURLUE_BAD_HANDLE, ... are numbered from 0 in curl/urlapi.h. *)
Definition curlu_code_text (code : CURLUcode) : string :=
  default "Unknown error code"
    (if code <? 0 then None else
     ["OK"; "Bad handle"; "Bad partpointer"; "Malformed input"; "Bad port number";
      "Unsupported scheme"; "URL decode"; "Out of memory"; "User not allowed"; "Unknown part";
      "No scheme"; "No user"; "No password"; "No options"; "No host"; "No port"; "No query";
      "No fragment"] !! Z.to_nat code).

Definition Exception_fputs_curlurl (e : Exception) : string :=
  let print s_action :=
    "Error " +:+ s_action +:+ " URL " +:+ curlu_part_text (option_or_info e) +:+ ": "
    +:+ curlu_code_text (code e) +:+ "
" in
  match uaction e with
  | CURLU_INIT => "Error init URL
"
  | CURLU_DUP => "Error duplicate URL
"
  | CURLU_SET => print "getting"
  | CURLU_GET => print "setting"
  end.

(** ** Calls into the environment *)

Section Curl.
Context `{E : Env} {L R : Type}.

Definition shared {A} (f : G -> A) : M (L * G) R A := gets (fun s => f (snd s)).
Definition upd_shared (f : G -> G) : M (L * G) R unit := modify (fun s => (fst s, f (snd s))).

Definition ext {A} (f : World -> A * World) : M (L * G) R A := fun s =>
  let '(a, w) := f (g_world (snd s)) in (Next a, (fst s, set_g_world w (snd s))).

(** A fresh address. *)
Definition fresh_addr : M (L * G) R addr := fun s =>
  (Next (g_next (snd s)), (fst s, set_g_next (Pos.succ (g_next (snd s))) (snd s))).

(** [malloc], [realloc], [strdup]: whether the result is not NULL. *)
Definition malloc_ok : M (L * G) R bool := ext env_malloc.

Definition handle_opts (h : addr) (g : G) : list (CURLoption * optval) :=
  default [] (easy_opts <$> g_handles g !! h).

(** [curl_easy_setopt]: an option that is accepted is added to the handle's list. *)
Definition curl_easy_setopt (h : option addr) (o : CURLoption) (v : optval) : M (L * G) R CURLcode :=
  match h with
  | None => mret CURLE_BAD_FUNCTION_ARGUMENT
  | Some h =>
      e <- shared (fun g => g_handles g !! h) ;;
      e <- deref e ;;
      code <- ext (env_easy_setopt (easy_opts e) o v) ;;
      when (code =? CURLE_OK)
        (upd_shared (fun g => set_g_handles
           (<[h := mkEasy (easy_opts e ++ [(o, v)]) (easy_info e)]> (g_handles g)) g)) ;;;
      mret code
  end.

(** The calls whose result the program ignores. *)
Definition curl_easy_setopt_ (h : option addr) (o : CURLoption) (v : optval) : M (L * G) R unit :=
  _ <- curl_easy_setopt h o v ;; skip.

Definition curl_easy_getinfo (h : option addr) : M (L * G) R xinfo :=
  match h with
  | None => mret no_info
  | Some h => e <- shared (fun g => g_handles g !! h) ;; e <- deref e ;; mret (easy_info e)
  end.

Definition curl_easy_reset (h : addr) : M (L * G) R unit :=
  e <- shared (fun g => g_handles g !! h) ;;
  e <- deref e ;;
  upd_shared (fun g => set_g_handles (<[h := mkEasy [] (easy_info e)]> (g_handles g)) g).

Definition curl_easy_cleanup (h : option addr) : M (L * G) R unit :=
  match h with
  | None => skip
  | Some h => upd_shared (fun g => set_g_handles (delete h (g_handles g)) g)
  end.

Definition curl_easy_init : M (L * G) R (option addr) :=
  ok <- ext env_easy_init ;;
  if (ok : bool) then
    a <- fresh_addr ;;
    upd_shared (fun g => set_g_handles (<[a := mkEasy [] no_info]> (g_handles g)) g) ;;;
    mret (Some a)
  else mret None.

(** ** Raising exceptions *)

Definition mk_CurlException (code : CURLcode) (action : CURLaction) (arg : Z) (h : option addr)
    : M (L * G) R unit :=
  info <- (if bool_decide (action = CURL_PERFORM) && (code =? CURLE_HTTP_RETURNED_ERROR)
           then curl_easy_getinfo h else mret no_info) ;;
  upd_ex (fun e => CurlException_init e code action arg (info_response_code info)).

Definition mk_CurlUrlException (code : CURLUcode) (action : CURLUaction) (part : Z)
    : M (L * G) R unit :=
  upd_ex (fun e => CurlUrlException_init e code action part).

Definition mk_UnspecifiedException (msg : string) : M (L * G) R unit :=
  ok <- malloc_ok ;; upd_ex (fun e => UnspecifiedException_init e (if (ok : bool) then Some msg else None)).

Definition mk_NetworkFSException (msg : string) : M (L * G) R unit :=
  ok <- malloc_ok ;; upd_ex (fun e => NetworkFSException_init e (if (ok : bool) then Some msg else None)).

Definition mk_MallocException (msg : string) : M (L * G) R unit :=
  upd_ex (fun e => MallocException_init e (Some msg)).

(** malloc.h: [malloc_e]; the address of the new object, or NULL with an exception. *)
Definition malloc_e (name : string) : M (L * G) R (option addr) :=
  ok <- malloc_ok ;;
  if (ok : bool) then a <- fresh_addr ;; mret (Some a)
  else (mk_MallocException name ;;; mret None).

(** ** The wrappers of curl.h *)

Definition curl_do_or_die (expr : M (L * G) R CURLcode) (action : CURLaction) (arg : Z)
    (h : option addr) : M (L * G) R unit :=
  code <- expr ;; condition_throw (code =? CURLE_OK) (mk_CurlException code action arg h).

Definition curl_easy_setopt_or_die (h : option addr) (o : CURLoption) (v : optval)
    : M (L * G) R unit :=
  curl_do_or_die (curl_easy_setopt h o v) CURL_SETOPT (CURLoption_num o) h.

Definition curl_easy_unescape_e (url : string) : M (L * G) R (option string) :=
  ret <- ext (env_easy_unescape url) ;;
  when (negb (not_null ret)) (mk_CurlException 0 CURL_UNESCAPE 0 None) ;;;
  mret ret.

(** A list is its strings, and NULL the empty list. *)
Definition curl_slist_append_weak (l : list string) (s : string) : M (L * G) R (list string) :=
  ok <- ext (env_slist_append l s) ;; mret (if (ok : bool) then l ++ [s] else l).

Definition curl_slist_append_e (l : list string) (s : string) : M (L * G) R (list string) :=
  ok <- ext (env_slist_append l s) ;;
  if (ok : bool) then mret (l ++ [s])
  else (mk_CurlException 0 CURL_SLIST_APPEND 0 None ;;; mret []).

Definition curl_url_dup_e (u : CURLU) : M (L * G) R (option CURLU) :=
  ret <- ext (env_url_dup u) ;;
  when (negb (not_null ret)) (mk_CurlUrlException 0 CURLU_DUP 0) ;;;
  mret ret.

Definition curl_url_e : M (L * G) R (option CURLU) :=
  ret <- ext env_url ;;
  when (negb (not_null ret)) (mk_CurlUrlException 0 CURLU_INIT 0) ;;;
  mret ret.

(** [curl_url_set_or_die] on the handle in the local that [get] reads and [put] writes. *)
Definition curl_url_set_or_die (get : L -> option CURLU) (put : option CURLU -> L -> L)
    (part : CURLUPart) (content : option string) (flags : Z) : M (L * G) R unit :=
  l <- local ;;
  u <- deref (get l) ;;
  r <- ext (env_url_set u part content flags) ;;
  upd_local (put (Some (snd r))) ;;;
  when (negb (fst r =? CURLUE_OK)) (throw (mk_CurlUrlException (fst r) CURLU_SET (CURLUPart_num part))).

(** [curl_url_get_or_die] into the local that [put] writes; it stays NULL on an error. *)
Definition curl_url_get_or_die (u : option CURLU) (part : CURLUPart)
    (put : option string -> L -> L) : M (L * G) R unit :=
  u <- deref u ;;
  r <- ext (env_url_get u part) ;;
  when (fst r =? CURLUE_OK) (upd_local (put (snd r))) ;;;
  when (negb (fst r =? CURLUE_OK)) (throw (mk_CurlUrlException (fst r) CURLU_GET (CURLUPart_num part))).
End Curl.

(** The text of [with_range]: 21 characters and the NUL. The arithmetic is in [size_t] and
    the values are printed as signed. *)
Definition range_text (offset size : Z) : bytes :=
  snprintf (2 + 2 * 10) (fmt_d (i64 offset) ++ lit "-" ++ fmt_d (i64 (u64 (size + offset - 1)))).

(** curl.h: [curl_url_set_ssl] on the scheme alone: the code, and the scheme afterwards when it is
    written. [None] is a write through a NULL pointer. *)
Definition curl_url_set_ssl (malloc_ok : bool) (set_code : string -> CURLUcode) (ssl_version : Z)
    (get_code : CURLUcode) (scheme : string) : option (CURLUcode * option string) :=
  if ssl_version =? 0 then Some (CURLE_OK, None)
  else if negb (get_code =? CURLE_OK) then Some (get_code, None)
  else if bool_decide (last (lit scheme) = Some "s"%char) then Some (0, None)
  else if malloc_ok then Some (CURLE_OUT_OF_MEMORY, None)
  else None.

(** ** The pool of handles *)

(** Rounds of the spin lock; no other thread holds it. *)
Definition SPIN_FUEL : nat := 2.

(** The locals of [curl_easy_init_common]. *)
Record InitFrame `{E : Env} := mkInitFrame {
  this : option addr;
  clean_url : option CURLU;
  s_url : option string;
}.
Arguments mkInitFrame {E}.

Section Handles.
Context `{E : Env}.

Definition set_this (h : option addr) (l : InitFrame) : InitFrame :=
  mkInitFrame h (clean_url l) (s_url l).
Definition set_clean_url (u : option CURLU) (l : InitFrame) : InitFrame :=
  mkInitFrame (this l) u (s_url l).
Definition set_s_url (s : option string) (l : InitFrame) : InitFrame :=
  mkInitFrame (this l) (clean_url l) s.

Abbreviation MI := (M (InitFrame * G) (option addr) unit).

(** A handle from the pool, reset, or a new one. *)
Definition take_handle : MI :=
  node <- call None (fun _ => tt) (Stack_pop SPIN_FUEL) ;;
  match fst node with
  | Some node =>
      n <- shared (fun g => heap (g_stack g) !! node) ;;
      n <- deref n ;;
      upd_local (set_this (Some (node_value n))) ;;;
      free_node node ;;;
      curl_easy_reset (node_value n)
  | None =>
      h <- curl_easy_init ;;
      upd_local (set_this h) ;;;
      condition_throw (not_null h) (mk_CurlException 0 CURL_INIT 0 None)
  end.

(** The URL of [path] under [url]. *)
Definition set_url (url : CURLU) (path : option string) : MI :=
  throwable (with_assign
    (u <- curl_url_dup_e url ;; upd_local (set_clean_url u))
    (fun _ => skip)
    (fun _ =>
       match path with
       | Some path =>
           let path := match path with String "/" p => p | _ => path end in
           when (negb (bool_decide (path = "")))
             (curl_url_set_or_die clean_url set_clean_url CURLUPART_URL (Some path) CURLU_URLENCODE)
       | None => skip
       end ;;;
       throwable (with_seperated
         (upd_local (set_s_url None))
         (fun _ => l <- local ;; curl_url_get_or_die (clean_url l) CURLUPART_URL set_s_url)
         (fun _ => skip)
         (fun _ =>
            l <- local ;;
            curl_easy_setopt_or_die (this l) CURLOPT_URL (VStr (s_url l)))))).

(** [curl_easy_setopt_or_die (this, ...)] and [curl_easy_setopt (this, ...)]. *)
Definition opt_or_die (o : CURLoption) (v : optval) : MI :=
  l <- local ;; curl_easy_setopt_or_die (this l) o v.
Definition opt (o : CURLoption) (v : optval) : MI :=
  l <- local ;; curl_easy_setopt_ (this l) o v.

Definition set_proxy_options (o : networkfs_opts) : MI :=
  when (not_null (proxy o))
    (opt_or_die CURLOPT_PROXY (VStr (proxy o)) ;;;
     when (negb (proxytype o =? 0)) (opt_or_die CURLOPT_PROXYTYPE (VLong (proxytype o))) ;;;
     when (negb (proxyauth o =? 0)) (opt_or_die CURLOPT_PROXYAUTH (VLong (proxyauth o))) ;;;
     when (proxytunnel o) (opt CURLOPT_HTTPPROXYTUNNEL (VLong 1)) ;;;
     opt_or_die CURLOPT_PROXYUSERPWD (VStr (proxy_userpwd o))).

Definition set_ssl_options (o : networkfs_opts) : MI :=
  when (negb (use_ssl o =? 0))
    (opt_or_die CURLOPT_USE_SSL (VLong (use_ssl o)) ;;;
     when (negb (ssl_version o =? 0)) (opt_or_die CURLOPT_SSLVERSION (VLong (ssl_version o))) ;;;
     when (no_verify_hostname o) (opt_or_die CURLOPT_SSL_VERIFYHOST (VLong 1)) ;;;
     when (no_verify_peer o) (opt CURLOPT_SSL_VERIFYPEER (VLong 0)) ;;;
     when (not_null (cacert o)) (opt_or_die CURLOPT_CAINFO (VStr (cacert o))) ;;;
     when (not_null (capath o)) (opt_or_die CURLOPT_CAPATH (VStr (capath o))) ;;;
     when (not_null (ciphers o)) (opt_or_die CURLOPT_SSL_CIPHER_LIST (VStr (ciphers o))) ;;;
     opt_or_die CURLOPT_SSLCERT (VStr (cert o)) ;;;
     opt_or_die CURLOPT_SSLCERTTYPE (VStr (cert_type o)) ;;;
     opt_or_die CURLOPT_SSLKEY (VStr (key o)) ;;;
     opt_or_die CURLOPT_SSLKEYTYPE (VStr (key_type o)) ;;;
     opt_or_die CURLOPT_SSLKEYPASSWD (VStr (key_password o))).

Definition set_options (o : networkfs_opts) : MI :=
  opt_or_die CURLOPT_USERNAME (VStr (username o)) ;;;
  opt_or_die CURLOPT_PASSWORD (VStr (password o)) ;;;
  when (not_null (interface o)) (opt_or_die CURLOPT_INTERFACE (VStr (interface o))) ;;;
  when (negb (ip_version o =? 0)) (opt CURLOPT_IPRESOLVE (VLong (ip_version o))) ;;;
  set_proxy_options o ;;;
  set_ssl_options o ;;;
  when (negb (timeout o =? 0)) (opt_or_die CURLOPT_TIMEOUT (VLong (timeout o))) ;;;
  when (negb (connect_timeout o =? 0)) (opt_or_die CURLOPT_CONNECTTIMEOUT (VLong (connect_timeout o))).

Definition USERAGENT : string := "networkfs/0.0".

Definition curl_easy_init_common (url : CURLU) (path : option string)
    (options : option networkfs_opts) : MI :=
  try_
    (take_handle ;;;
     opt CURLOPT_ERRORBUFFER (VData AT_error_buf) ;;;
     set_url url path ;;;
     match options with Some o => set_options o | None => skip end ;;;
     opt_or_die CURLOPT_USERAGENT (VStr (Some USERAGENT)) ;;;
     opt CURLOPT_FAILONERROR (VLong 1) ;;;
     opt CURLOPT_FOLLOWLOCATION (VLong 1) ;;;
     opt CURLOPT_NETRC (VLong CURL_NETRC_OPTIONAL))
    (onerror_default
       (l <- local ;;
        curl_easy_cleanup (this l) ;;;
        upd_local (set_this None))) ;;;
  l <- local ;;
  return_ (this l).

(** A handle goes back to the pool; without memory for a node it is closed. *)
Definition curl_easy_cleanup_common {L R} (h : option addr) : M (L * G) R unit :=
  match h with
  | None => skip
  | Some h =>
      ok <- malloc_ok ;;
      if (ok : bool) then
        node <- fresh_addr ;;
        new_node node h ;;;
        Stack_push node
      else curl_easy_cleanup (Some h)
  end.

Definition init_frame0 : InitFrame := mkInitFrame None None None.

(** [with_curl (curl, baseuh, path, options) body]. *)
Definition with_curl {L R} (url : CURLU) (path : option string) (options : networkfs_opts)
    (body : option addr -> M (L * G) R unit) : M (L * G) R unit :=
  with_assign
    (r <- call init_frame0 (fun _ => tt) (curl_easy_init_common url path (Some options)) ;;
     mret (fst r))
    curl_easy_cleanup_common body.
End Handles.

(** ** What the wrappers keep *)

Lemma keeps_upd_shared `{E : Env} {L R} (Rel : G -> G -> Prop) (f : G -> G) :
  (forall g, Rel g (f g)) -> keeps (S := L * G) (R := R) (on_shared Rel) (upd_shared f).
Proof. intros Hf. apply keeps_modify. intros [l g]. apply Hf. Qed.

Lemma keeps_shared `{E : Env} {L R A} (Rel : G -> G -> Prop) `{!KeepRel Rel} (f : G -> A) :
  keeps (S := L * G) (R := R) (on_shared Rel) (shared f).
Proof. apply (keeps_gets (on_shared Rel)). Qed.

Section KeepsWorld.
Context `{E : Env} (Rel : G -> G -> Prop) `{!WorldRel Rel}.

Lemma keeps_ext {L R A} (f : World -> A * World) :
  keeps (S := L * G) (R := R) (on_shared Rel) (ext f).
Proof. intros [l g]. unfold ext, on_shared. simpl. destruct (f _). apply io_world. Qed.

Lemma keeps_fresh_addr {L R} : keeps (S := L * G) (R := R) (on_shared Rel) fresh_addr.
Proof. intros [l g]. apply io_next. Qed.

Lemma keeps_malloc_ok {L R} : keeps (S := L * G) (R := R) (on_shared Rel) malloc_ok.
Proof. apply keeps_ext. Qed.
End KeepsWorld.

Section KeepsIO.
Context `{E : Env} (Rel : G -> G -> Prop) `{!IORel Rel}.

Lemma keeps_upd_handles {L R} (f : G -> gmap addr Easy) :
  keeps (S := L * G) (R := R) (on_shared Rel) (upd_shared (fun g => set_g_handles (f g) g)).
Proof. apply keeps_upd_shared. intros g. apply io_handles. Qed.

Lemma keeps_upd_stack {L R} (f : StackMem -> StackMem) :
  keeps (S := L * G) (R := R) (on_shared Rel) (upd_stack f).
Proof. apply keeps_modify. intros [l g]. apply io_stack. Qed.
End KeepsIO.

#[export] Hint Extern 0 (WorldRel _) => apply _ : keeps.
#[export] Hint Extern 0 (IORel _) => apply _ : keeps.
#[export] Hint Resolve keeps_shared keeps_ext keeps_fresh_addr keeps_malloc_ok keeps_upd_handles
  keeps_upd_stack : keeps.

(** Unfold a function and decide the [keeps] goal by its shape. *)
Tactic Notation "keeps_of" reference(f) := unfold f; keeps.

(** The wrappers that do not touch a handle. *)
Section KeepsWrappers.
Context `{E : Env} (Rel : G -> G -> Prop) `{!WorldRel Rel}.
#[local] Abbreviation Keeps m := (keeps (on_shared Rel) m).

Lemma keeps_curl_easy_getinfo {L R} h : Keeps (curl_easy_getinfo (L := L) (R := R) h).
Proof. keeps_of curl_easy_getinfo. Qed.
#[local] Hint Resolve keeps_curl_easy_getinfo : keeps.

Lemma keeps_mk_CurlException {L R} c a v h : Keeps (mk_CurlException (L := L) (R := R) c a v h).
Proof. keeps_of mk_CurlException. Qed.
Lemma keeps_mk_CurlUrlException {L R} c a p : Keeps (mk_CurlUrlException (L := L) (R := R) c a p).
Proof. keeps_of mk_CurlUrlException. Qed.
Lemma keeps_mk_UnspecifiedException {L R} m : Keeps (mk_UnspecifiedException (L := L) (R := R) m).
Proof. keeps_of mk_UnspecifiedException. Qed.
Lemma keeps_mk_MallocException {L R} m : Keeps (mk_MallocException (L := L) (R := R) m).
Proof. keeps_of mk_MallocException. Qed.
#[local] Hint Resolve keeps_mk_CurlException keeps_mk_CurlUrlException
  keeps_mk_UnspecifiedException keeps_mk_MallocException : keeps.

Lemma keeps_malloc_e {L R} n : Keeps (malloc_e (L := L) (R := R) n).
Proof. keeps_of malloc_e. Qed.
Lemma keeps_curl_do_or_die {L R} e a v h :
  Keeps e -> Keeps (curl_do_or_die (L := L) (R := R) e a v h).
Proof. keeps_of curl_do_or_die. Qed.
Lemma keeps_curl_easy_unescape_e {L R} u : Keeps (curl_easy_unescape_e (L := L) (R := R) u).
Proof. keeps_of curl_easy_unescape_e. Qed.
Lemma keeps_curl_slist_append_weak {L R} l s : Keeps (curl_slist_append_weak (L := L) (R := R) l s).
Proof. keeps_of curl_slist_append_weak. Qed.
Lemma keeps_curl_slist_append_e {L R} l s : Keeps (curl_slist_append_e (L := L) (R := R) l s).
Proof. keeps_of curl_slist_append_e. Qed.
Lemma keeps_curl_url_dup_e {L R} u : Keeps (curl_url_dup_e (L := L) (R := R) u).
Proof. keeps_of curl_url_dup_e. Qed.
Lemma keeps_curl_url_set_or_die {L R} g p t c f :
  Keeps (curl_url_set_or_die (L := L) (R := R) g p t c f).
Proof. keeps_of curl_url_set_or_die. Qed.
Lemma keeps_curl_url_get_or_die {L R} u t p : Keeps (curl_url_get_or_die (L := L) (R := R) u t p).
Proof. keeps_of curl_url_get_or_die. Qed.
End KeepsWrappers.

#[export] Hint Resolve keeps_curl_easy_getinfo keeps_mk_CurlException keeps_mk_CurlUrlException
  keeps_mk_UnspecifiedException keeps_mk_MallocException keeps_malloc_e keeps_curl_do_or_die
  keeps_curl_easy_unescape_e keeps_curl_slist_append_weak keeps_curl_slist_append_e
  keeps_curl_url_dup_e keeps_curl_url_set_or_die keeps_curl_url_get_or_die : keeps.

Section KeepsCurl.
Context `{E : Env} (Rel : G -> G -> Prop) `{!IORel Rel}.
#[local] Abbreviation Keeps m := (keeps (on_shared Rel) m).

Lemma keeps_curl_easy_setopt {L R} h o v : Keeps (curl_easy_setopt (L := L) (R := R) h o v).
Proof. keeps_of curl_easy_setopt. Qed.
#[local] Hint Resolve keeps_curl_easy_setopt : keeps.
Lemma keeps_curl_easy_setopt_ {L R} h o v : Keeps (curl_easy_setopt_ (L := L) (R := R) h o v).
Proof. keeps_of curl_easy_setopt_. Qed.
Lemma keeps_curl_easy_reset {L R} h : Keeps (curl_easy_reset (L := L) (R := R) h).
Proof. keeps_of curl_easy_reset. Qed.
Lemma keeps_curl_easy_cleanup {L R} h : Keeps (curl_easy_cleanup (L := L) (R := R) h).
Proof. keeps_of curl_easy_cleanup. Qed.
Lemma keeps_curl_easy_init {L R} : Keeps (curl_easy_init (L := L) (R := R)).
Proof. keeps_of curl_easy_init. Qed.
Lemma keeps_curl_easy_setopt_or_die {L R} h o v :
  Keeps (curl_easy_setopt_or_die (L := L) (R := R) h o v).
Proof. keeps_of curl_easy_setopt_or_die. Qed.
#[local] Hint Resolve keeps_curl_easy_setopt_ keeps_curl_easy_reset keeps_curl_easy_cleanup
  keeps_curl_easy_init keeps_curl_easy_setopt_or_die : keeps.

Lemma keeps_Stack_push {L R} a : Keeps (Stack_push (S := L * G) (R := R) a).
Proof. unfold Stack_push, synchronized, spin_lock, spin_unlock, set_node_next. keeps. Qed.

Lemma keeps_ensure_loop {L R} fuel (t : M (L * G) R Z) body test :
  Keeps t -> Keeps body -> Keeps test -> Keeps (ensure_loop fuel t body test).
Proof.
  intros Ht Hb Hs. induction fuel as [|fuel IH]; simpl; [keeps|].
  apply keeps_bind; [apply _|done|]. intros e s. specialize (Hs s).
  destruct (test s) as [[[]| | |r|f] s']; simpl in *; try done;
    (eapply (keep_trans (Rel := on_shared Rel)); [exact Hs|]);
    (destruct (e =? 0); [|apply IH]);
    revert s' Hs; intros s' _;
    assert (Keeps (round (do_once body);;; mret e)) as Hr by keeps; apply Hr.
Qed.

Lemma keeps_Stack_pop fuel : Keeps (Stack_pop (G := G) fuel).
Proof.
  unfold Stack_pop, ensure_synchronized, spin_trylock, spin_unlock, set_node_next.
  repeat first [apply keeps_ensure_loop | progress keeps].
Qed.
#[local] Hint Resolve keeps_Stack_push keeps_Stack_pop : keeps.

Lemma keeps_curl_easy_init_common u p o : Keeps (curl_easy_init_common u p o).
Proof.
  unfold curl_easy_init_common, take_handle, set_url, set_options, set_proxy_options,
    set_ssl_options, opt_or_die, opt, free_node. keeps.
Qed.

Lemma keeps_curl_easy_cleanup_common {L R} h : Keeps (curl_easy_cleanup_common (L := L) (R := R) h).
Proof. unfold curl_easy_cleanup_common, new_node. keeps. Qed.
#[local] Hint Resolve keeps_curl_easy_init_common keeps_curl_easy_cleanup_common : keeps.

Lemma keeps_with_curl {L R} u p o (body : option addr -> M (L * G) R unit) :
  (forall h, Keeps (body h)) -> Keeps (with_curl u p o body).
Proof. keeps_of with_curl. Qed.
End KeepsCurl.

#[export] Hint Resolve keeps_curl_easy_setopt keeps_curl_easy_setopt_ keeps_curl_easy_setopt_or_die
  keeps_with_curl keeps_curl_easy_init_common keeps_curl_easy_cleanup_common : keeps.
