(* ===== verification/Report.v ===== *)
(** * common/grammar/exception.[ch]: where an exception was raised, and what is printed of it

    Exception.v has the part of the exception object that the program decides by. Here it stands next
    to the rest: the position in the source, the backtrace, and the texts that go to the streams.
    Output is a list of pieces, each with its stream; a call that prints also answers how many
    characters it printed. What glibc knows of the stack is a parameter, and printing never fails. *)

From S2P Require Import Prelude Utils Exception Control Buffer Stack State Curl.
#[local] Open Scope Z_scope.

(** ** The object with its position *)

Definition BT_BUF_SIZE : nat := 32.

(** The members of [BaseException] that Exception.v leaves out; addresses are numbers. *)
Record Position := mkPosition {
  nptrs : Z;
  line : Z;
  file : option string;
  func : option string;
  bt : list Z;
}.

Record Report := mkReport { r_ex : Exception; r_pos : Position }.

(** The thread-local [ex] at the start. *)
Definition report0 : Report := mkReport ex0 (mkPosition 0 0 None None []).

Inductive stream := Stdout | Stderr.
#[export] Instance stream_eq_dec : EqDecision stream.
Proof. solve_decision. Defined.

Definition chunk := (stream * string)%type.
Definition prints := (Z * list chunk)%type.

Definition no_print : prints := (0, []).
Definition fprintf (s : stream) (text : string) : prints := (Z.of_nat (length (lit text)), [(s, text)]).
Definition fputs (text : string) (s : stream) : prints := fprintf s text.
(** [ret += ...] after what was printed before. *)
Definition and_then (p q : prints) : prints := (p.1 + q.1, p.2 ++ q.2).

(** What went to a stream. *)
Definition on_stream (s : stream) (p : prints) : list string := map snd (filter (fun c => c.1 = s) p.2).

Definition NL : string := String "010"%char EmptyString.

(** ** Printing *)

Section Report.
(** The names of return addresses, NULL without memory; the lines that [backtrace_symbols_fd] writes;
    the address NULL and the messages of libcurl in a text. *)
Context (backtrace_symbols : list Z -> option (list string)) (backtrace_symbols_fd : list Z -> string).
Context (null_text : string) (curl_message : Exception -> string).

(** [backtrace]: at most [n] return addresses of the [stack] at the call. *)
Definition backtrace (stack : list Z) (n : nat) : list Z := take n stack.

(** A NULL [bt] stands for the place of the call, without its two innermost frames. *)
Definition Exception_fputs_backtrace_symbols (stack : list Z) (bt : option (list Z)) (size : Z)
    (stream : stream) : prints :=
  let '(bt, size) :=
    match bt with
    | Some bt => (bt, size)
    | None => let cur_bt := backtrace stack (BT_BUF_SIZE + 2) in
              (drop 2 cur_bt, Z.of_nat (length cur_bt) - 2)
    end in
  let frames := take (Z.to_nat size) bt in
  match backtrace_symbols frames with
  | None => let '(r, out) := fprintf stream ("  (backtrace_symbols failed)" +:+ NL) in
            (r, out ++ [(stream, backtrace_symbols_fd frames)])
  | Some funcs => foldl (fun p f => and_then p (fprintf Stdout ("  at " +:+ f +:+ NL))) no_print funcs
  end.

(** The names and the [fputs] methods of the tables declared with [VTABLE_INIT (Exception, ...)]. *)
Definition name_method (t : ExnType) : string :=
  match t with
  | CurlException => "CurlException"
  | CurlUrlException => "CurlUrlException"
  | MallocException => "MallocException"
  | UnspecifiedException => "UnspecifiedException"
  | NetworkFSException => "NetworkFSException"
  end.

Definition fputs_method (t : ExnType) : option (Exception -> string) :=
  match t with
  | CurlException => Some (fun e => Exception_fputs_curl e (str_of (fmt_d (option_or_info e))) (curl_message e))
  | CurlUrlException => Some Exception_fputs_curlurl
  | MallocException => Some Exception_fputs_malloc
  | UnspecifiedException => Some Exception_fputs_what
  | NetworkFSException => None
  end.

Definition typename (e : Exception) : string :=
  match vtable e with
  | Some t => name_method t
  | None => str_of (snprintf 37 (lit ("UnknownException(" +:+ null_text +:+ ")")))
  end.

Definition Exception_fputs (stack : list Z) (e : option Report) (stream : stream) : prints :=
  match e with
  | None => no_print
  | Some (mkReport e pos) =>
      and_then (and_then (and_then (and_then (and_then
        (fprintf stream ("Exception at file " +:+ DQ +:+ default "(unknown)" (file pos) +:+ DQ
           +:+ ", line " +:+ str_of (fmt_d (i32 (line pos))) +:+ ", in "
           +:+ default "(unknown)" (func pos) +:+ NL))
        (Exception_fputs_backtrace_symbols stack (Some (bt pos)) (nptrs pos) stream))
        (fprintf stream ("Printed at:" +:+ NL)))
        (Exception_fputs_backtrace_symbols stack None 0 stream))
        (fprintf stream (typename e +:+ ": ")))
        match t ← vtable e; fputs_method t with
        | None => fputs ("(no fputs for exception)" +:+ NL) stream
        | Some e_fputs => fputs (e_fputs e) stream
        end
  end.

(** ** Raising and ending *)

(** The position goes, but neither the backtrace nor its length. *)
Definition report_destory (r : Report) : Report :=
  mkReport (Exception_destory (r_ex r)) (mkPosition (nptrs (r_pos r)) 0 None None (bt (r_pos r))).

Definition dirty_message (e : Exception) : string :=
  if set e =? 1 then "Warning: Exception not cleaned before another coming. The previous is:" +:+ NL
  else if set e =? EXCEPTION_CATCHED then
    "During handling of the below exception another exception occurred. The previous is:" +:+ NL
  else "Error: e->set unknown. The previous is:" +:+ NL.

Definition report_dirtydestory (stack : list Z) (r : Report) : Report * list chunk :=
  (report_destory r,
   (and_then (fputs (dirty_message (r_ex r)) Stderr) (Exception_fputs stack (Some r) Stderr)).2).

(** [backtrace (e->bt - 1, BT_BUF_SIZE + 1) - 1]: the innermost frame, which goes to the word before the
    array, is the function that raises; that word is [func], which is set afterwards. *)
Definition report_init (stack : list Z) (r : Report) (f fn : string) (ln : Z) (no_bt : bool)
    : Report * list chunk :=
  let '(r, out) := if set (r_ex r) =? 0 then (r, []) else report_dirtydestory stack r in
  let cur := backtrace stack (BT_BUF_SIZE + 1) in
  (mkReport (Exception_init (r_ex r))
     (mkPosition (if no_bt then nptrs (r_pos r) else Z.of_nat (length cur) - 1) ln (Some f) (Some fn)
        (if no_bt then bt (r_pos r) else drop 1 cur)), out).

(** curl.c's [CurlException_init]: the test for an HTTP error comes before the members are set, so it
    looks at what the object held before. Its [code] lies where the classes with a text have their
    pointer, so what is said below starts from an exception of libcurl's. *)
Definition curl_no_bt (e : Exception) : bool :=
  bool_decide (action e = CURL_PERFORM) && (code e =? CURLE_HTTP_RETURNED_ERROR).

Definition report_curl_init (stack : list Z) (r : Report) (f fn : string) (ln : Z)
    (code : CURLcode) (action : CURLaction) (arg resp : Z) : Report * list chunk :=
  let '(r1, out) := report_init stack r f fn ln (curl_no_bt (r_ex r)) in
  (mkReport (CurlException_init (r_ex r) code action arg resp) (r_pos r1), out).

(** The destructor of the program, run when it ends. *)
Definition Exception_destructor (stack : list Z) (r : Report) : Report * list chunk :=
  if set (r_ex r) =? 0 then (r, [])
  else (report_destory r,
        (and_then (fprintf Stderr "Unhandled ") (Exception_fputs stack (Some r) Stderr)).2).

(** ** Lemmas *)

(** The part that the program decides by is as in Exception.v and Curl.v. *)
Lemma report_init_ex stack r f fn ln no_bt :
  r_ex (report_init stack r f fn ln no_bt).1 = Exception_init (r_ex r).
Proof. unfold report_init, Exception_init. by destruct (set (r_ex r) =? 0) eqn:Hs; simpl; rewrite ?Hs. Qed.

Lemma report_init_frames stack r f fn ln :
  bt (r_pos (report_init stack r f fn ln false).1) = drop 1 (take 33 stack).
Proof. unfold report_init. by destruct (set (r_ex r) =? 0). Qed.

Lemma report_curl_init_ex stack r f fn ln c a arg resp :
  r_ex (report_curl_init stack r f fn ln c a arg resp).1 = CurlException_init (r_ex r) c a arg resp.
Proof. unfold report_curl_init. by destruct (report_init _ _ _ _ _ _). Qed.

Lemma report_curl_init_pos stack r f fn ln c a arg resp :
  r_pos (report_curl_init stack r f fn ln c a arg resp).1
  = r_pos (report_init stack r f fn ln (curl_no_bt (r_ex r))).1.
Proof. unfold report_curl_init. by destruct (report_init _ _ _ _ _ _). Qed.

(** An exception without frames of its own keeps those of the last one that had some. *)
Lemma report_init_stale stack r f fn ln :
  let p := r_pos (report_init stack r f fn ln true).1 in
  bt p = bt (r_pos r) /\ nptrs p = nptrs (r_pos r) /\ func p = Some fn /\ line p = ln.
Proof. unfold report_init. by destruct (set (r_ex r) =? 0). Qed.

(** The exception after an HTTP error names its own place, but has the frames of the HTTP error,
    which took them unless the exception before it was an HTTP error, too. *)
Theorem http_error_leaves_frames st1 st2 r f1 fn1 ln1 arg1 resp1 f fn ln c a arg resp :
  let r1 := (report_curl_init st1 r f1 fn1 ln1 CURLE_HTTP_RETURNED_ERROR CURL_PERFORM arg1 resp1).1 in
  let p := r_pos (report_curl_init st2 (report_destory r1) f fn ln c a arg resp).1 in
  (curl_no_bt (r_ex r) = false -> bt (r_pos r1) = drop 1 (take 33 st1))
  /\ bt p = bt (r_pos r1) /\ nptrs p = nptrs (r_pos r1) /\ func p = Some fn /\ line p = ln.
Proof.
  intros r1 p. split.
  - intros Hn. unfold r1. rewrite report_curl_init_pos, Hn. apply report_init_frames.
  - unfold p. rewrite report_curl_init_pos.
    assert (curl_no_bt (r_ex (report_destory r1)) = true) as ->; [|exact (report_init_stale st2 (report_destory r1) f fn ln)].
    simpl. unfold r1. by rewrite report_curl_init_ex.
Qed.

(** Pieces on a stream. *)
Definition frame_line (name : string) : string := "  at " +:+ name +:+ NL.

Lemma on_stream_and_then s p q : on_stream s (and_then p q) = on_stream s p ++ on_stream s q.
Proof. unfold on_stream, and_then. simpl. by rewrite filter_app, map_app. Qed.
Lemma on_stream_fprintf s s' t : on_stream s (fprintf s' t) = if decide (s' = s) then [t] else [].
Proof. unfold on_stream, fprintf. cbn [snd]. rewrite filter_cons. cbn [fst]. by destruct (decide (s' = s)). Qed.

Lemma frames_on s funcs : forall p,
  on_stream s (foldl (fun p f => and_then p (fprintf Stdout (frame_line f))) p funcs)
  = on_stream s p ++ if decide (Stdout = s) then map frame_line funcs else [].
Proof.
  induction funcs as [|f funcs IH]; intros p; simpl.
  - destruct (decide _); by rewrite app_nil_r.
  - rewrite IH, on_stream_and_then, on_stream_fprintf. destruct (decide _); by rewrite <- ?app_assoc, ?app_nil_r.
Qed.

Lemma backtrace_on stack bt size st funcs s :
  backtrace_symbols (match bt with Some bt => take (Z.to_nat size) bt | None => drop 2 (take 34 stack) end)
    = Some funcs ->
  on_stream s (Exception_fputs_backtrace_symbols stack bt size st)
  = if decide (Stdout = s) then map frame_line funcs else [].
Proof.
  intros Hf. unfold Exception_fputs_backtrace_symbols.
  destruct bt as [bt|]; [rewrite Hf; apply (frames_on s funcs no_print)|].
  rewrite (take_ge (drop 2 _)); [|rewrite length_drop; unfold backtrace, BT_BUF_SIZE; lia].
  change (backtrace stack (BT_BUF_SIZE + 2)) with (take 34 stack). rewrite Hf. apply (frames_on s funcs no_print).
Qed.

(** The texts of a report: where it was raised, where it is printed, and what it says. *)
Definition report_texts (r : Report) : list string :=
  [("Exception at file " +:+ DQ +:+ default "(unknown)" (file (r_pos r)) +:+ DQ
    +:+ ", line " +:+ str_of (fmt_d (i32 (line (r_pos r)))) +:+ ", in "
    +:+ default "(unknown)" (func (r_pos r)) +:+ NL)%string;
   ("Printed at:" +:+ NL)%string;
   (typename (r_ex r) +:+ ": ")%string;
   match t ← vtable (r_ex r); fputs_method t with
   | Some e_fputs => e_fputs (r_ex r)
   | None => ("(no fputs for exception)" +:+ NL)%string
   end].

(** C33: a report to the error stream puts its texts there, but the frames, both those of the exception
    and those of the place that prints it, on the standard output: the loop over the frames prints
    without naming the stream. *)
Theorem report_splits_streams stack r own here :
  backtrace_symbols (take (Z.to_nat (nptrs (r_pos r))) (bt (r_pos r))) = Some own ->
  backtrace_symbols (drop 2 (take 34 stack)) = Some here ->
  let p := Exception_fputs stack (Some r) Stderr in
  on_stream Stderr p = report_texts r /\ on_stream Stdout p = map frame_line (own ++ here).
Proof.
  intros Ho Hh. destruct r as [e pos]. cbn [r_ex r_pos] in *. unfold Exception_fputs, report_texts, fputs. cbn [r_ex r_pos].
  destruct (t ← vtable e; fputs_method t) as [text|]; rewrite !on_stream_and_then, !on_stream_fprintf,
    !(backtrace_on stack (Some (bt pos)) _ _ own), !(backtrace_on stack None _ _ here) by done;
    (split; [done|]); simpl; by rewrite map_app, !app_nil_r.
Qed.
End Report.

(** vtable.c's [print_trace]: an array of 32 addresses, and room for as many as it has bytes. [None] is
    a store outside the array. *)
Definition print_trace (stack : list Z) : option (list Z) :=
  let cur := backtrace stack (8 * 32) in
  if decide (length cur <= 32)%nat then Some (drop 3 cur) else None.

(** The trace of a crash that is more than 32 calls deep runs over the array. *)
Lemma print_trace_overflow stack : (32 < length stack)%nat -> print_trace stack = None.
Proof.
  intros Hs. unfold print_trace, backtrace. rewrite decide_False; [done|]. rewrite length_take. lia.
Qed.

(** ** Witness *)

Definition some_symbols (frames : list Z) : option (list string) :=
  Some (map (fun a => str_of (fmt_d a)) frames).

(** A failed setting of an option, reported by its caller. *)
Definition demo_report : Report :=
  (report_curl_init some_symbols (fun _ => EmptyString) "(nil)" (fun _ => "Unknown option"%string)
     [11; 12; 13] report0 "curl.c" "curl_easy_init_common" 280 48 CURL_SETOPT 10023 0).1.

Lemma report_splits_streams_witness :
  let p := Exception_fputs some_symbols (fun _ => EmptyString) "(nil)" (fun _ => "Unknown option"%string)
             [21; 22; 23; 24] (Some demo_report) Stderr in
  nth 3 (on_stream Stderr p) EmptyString = ("Error setting curl 10023: Unknown option" +:+ NL)%string
  /\ on_stream Stdout p = map frame_line ["12"; "13"; "23"; "24"]%string.
Proof.
  destruct (report_splits_streams some_symbols (fun _ => EmptyString) "(nil)" (fun _ => "Unknown option"%string)
    [21; 22; 23; 24] demo_report ["12"; "13"]%string ["23"; "24"]%string) as [H1 H2].
  - vm_compute. reflexivity.
  - vm_compute. reflexivity.
  - split; [|exact H2]. rewrite H1. vm_compute. reflexivity.
Defined.
