(* ===== verification/Rules.v ===== *)
(** * Rules for the calls of the program

    The weakest preconditions of the calls that the functions of the program are made of, on a
    frame of locals next to the shared state. *)

From S2P Require Import Prelude Utils Exception Control Buffer Stack State Wp Curl.
#[local] Open Scope Z_scope.
#[local] Open Scope c_scope.

(** The value an option was last set to. *)
Lemma last_opt_same o v opts : last_opt o (opts ++ [(o, v)]) = Some v.
Proof.
  unfold last_opt. rewrite filter_app, filter_cons_True by done. by rewrite filter_nil, last_snoc.
Qed.

Lemma last_opt_other o o' v opts : o' <> o -> last_opt o (opts ++ [(o', v)]) = last_opt o opts.
Proof.
  intros Hne. unfold last_opt. rewrite filter_app, filter_cons_False by done.
  by rewrite app_nil_r.
Qed.

Section Rules.
Context `{E : Env} {F : Prop} {L R : Type}.
Implicit Types (l : L) (g : G) (B : L * G -> Prop) (T : R -> L * G -> Prop).

Lemma wp_ext {A} (f : World -> A * World) l g Q B T :
  Q (f (g_world g)).1 (l, set_g_world (f (g_world g)).2 g) -> gwp F (ext f) Q B T (l, g).
Proof. unfold gwp, ext. simpl. by destruct (f (g_world g)). Qed.

Lemma wp_ext_world {A} (f : World -> A * World) l g Q B T :
  (forall a w, Q a (l, set_g_world w g)) -> gwp F (ext f) Q B T (l, g).
Proof. intros HQ. apply wp_ext, HQ. Qed.

Lemma wp_shared {A} (f : G -> A) l g Q B T : Q (f g) (l, g) -> gwp F (shared f) Q B T (l, g).
Proof. done. Qed.
Lemma wp_upd_shared f l g Q B T : Q tt (l, f g) -> gwp F (upd_shared f) Q B T (l, g).
Proof. done. Qed.
Lemma wp_local l g Q B T : Q l (l, g) -> gwp F local Q B T (l, g).
Proof. done. Qed.
Lemma wp_upd_local f l g Q B T : Q tt (f l, g) -> gwp F (upd_local f) Q B T (l, g).
Proof. done. Qed.

Lemma wp_fresh_addr l g Q B T :
  Q (g_next g) (l, set_g_next (Pos.succ (g_next g)) g) -> gwp F fresh_addr Q B T (l, g).
Proof. done. Qed.

(** The exceptions; their text needs memory. *)
Lemma wp_mk_UnspecifiedException msg l g Q B T :
  (forall e w, Q tt (l, set_g_ex e (set_g_world w g))) ->
  gwp F (mk_UnspecifiedException msg) Q B T (l, g).
Proof. intros HQ. apply wp_bind, wp_ext, wp_upd_ex, HQ. Qed.

Lemma wp_mk_NetworkFSException msg l g Q B T :
  (forall e w, Exception_has e = true -> Q tt (l, set_g_ex e (set_g_world w g))) ->
  gwp F (mk_NetworkFSException msg) Q B T (l, g).
Proof.
  intros HQ. apply wp_bind, wp_ext, wp_upd_ex, HQ. simpl.
  unfold NetworkFSException_init, Exception_init_what. by destruct (env_malloc (g_world g)) as [[] ?].
Qed.

(** [with], when its pieces around the body only fall through. *)
Lemma wp_with_seperated {X} (decl : M (L * G) R X) init cleanup body Q B T (s : L * G) :
  (let K x := gwp F (cleanup x) (fun _ => Q tt) (Q tt) T in
   gwp F decl (fun x =>
     gwp F (init x) (fun _ s' =>
       if Exception_has (get_ex s') then K x s' else gwp F (body x) (fun _ => K x) (K x) T s')
       (Q tt) T) (Q tt) T s) ->
  gwp F (with_seperated decl init cleanup body) Q B T s.
Proof.
  intros H. apply wp_with_test. refine (wp_mono _ _ _ _ _ _ _ _ H _ _ _); [|done..].
  intros x s' H'. refine (wp_mono _ _ _ _ _ _ _ _ H' _ _ _); [|done..].
  intros _ s'' H''. unfold no_pending, has_ex. apply wp_bind, wp_gets, wp_mret.
  by destruct (Exception_has (get_ex s'')).
Qed.

Lemma wp_with_assign {X} (decl : M (L * G) R X) cleanup body Q B T (s : L * G) :
  (let K x := gwp F (cleanup x) (fun _ => Q tt) (Q tt) T in
   gwp F decl (fun x s' =>
     if Exception_has (get_ex s') then K x s' else gwp F (body x) (fun _ => K x) (K x) T s')
     (Q tt) T s) ->
  gwp F (with_assign decl cleanup body) Q B T s.
Proof. exact (wp_with_seperated decl (fun _ => skip) cleanup body Q B T s). Qed.

(** [throwable x = e] *)
Lemma wp_throwable_as {A} (m : M (L * G) R A) (Q : A -> L * G -> Prop) B T (s : L * G) :
  gwp F m (fun a s' => if Exception_has (get_ex s') then B s' else Q a s') B T s ->
  gwp F (throwable_as m) Q B T s.
Proof.
  intros H. apply wp_bind. refine (wp_mono _ _ _ _ _ _ _ _ H _ _ _); [|done..].
  intros a s' H'. apply wp_bind. unfold check, has_ex. apply wp_bind, wp_gets. unfold gwp.
  by destruct (Exception_has (get_ex s')).
Qed.

(** [curl_easy_setopt] on a live handle: the option is added, when libcurl takes it. *)
Lemma wp_setopt_live h e o v l g Q B T :
  g_handles g !! h = Some e ->
  (forall code, code = (env_easy_setopt (easy_opts e) o v (g_world g)).1 ->
     let g' := set_g_world (env_easy_setopt (easy_opts e) o v (g_world g)).2 g in
     Q code (l, if code =? CURLE_OK
                then set_g_handles (<[h := mkEasy (easy_opts e ++ [(o, v)]) (easy_info e)]> (g_handles g)) g'
                else g')) ->
  gwp F (curl_easy_setopt (Some h) o v) Q B T (l, g).
Proof.
  intros He HQ. simpl. apply wp_bind, wp_shared, wp_bind, (wp_deref_some _ e); [done|].
  apply wp_bind, wp_ext, wp_bind. specialize (HQ _ eq_refl). cbv zeta in HQ.
  destruct (env_easy_setopt (easy_opts e) o v (g_world g)) as [code w]. simpl in *.
  destruct (code =? CURLE_OK); simpl; [apply wp_upd_shared|apply wp_skip]; by apply wp_mret.
Qed.

Lemma wp_mk_CurlException_live c a v h l g Q B T :
  (forall a, h = Some a -> is_Some (g_handles g !! a)) ->
  (forall e, Exception_has e = true -> Q tt (l, set_g_ex e g)) ->
  gwp F (mk_CurlException c a v h) Q B T (l, g).
Proof.
  intros Hh HQ. unfold mk_CurlException. apply wp_bind. destruct (_ && _).
  - destruct h as [h|]; simpl; [|by apply wp_mret, wp_upd_ex, HQ].
    destruct (Hh h eq_refl) as [e He]. apply wp_bind, wp_shared, wp_bind, (wp_deref_some _ e); [done|].
    by apply wp_mret, wp_upd_ex, HQ.
  - by apply wp_mret, wp_upd_ex, HQ.
Qed.

(** A URL handle that is there; what is thrown is a CurlUrlException. *)
Definition url_thrown (e : Exception) : Prop := Exception_has e = true /\ issubtype e CurlException = false.

Lemma wp_url_set get put part c f u l g Q B T :
  get l = Some u ->
  (let r := env_url_set u part c f (g_world g) in
   (r.1.1 = CURLUE_OK -> Q tt (put (Some r.1.2) l, set_g_world r.2 g))
   /\ (r.1.1 <> CURLUE_OK -> forall e, url_thrown e -> B (put (Some r.1.2) l, set_g_ex e (set_g_world r.2 g)))) ->
  gwp F (curl_url_set_or_die get put part c f) Q B T (l, g).
Proof.
  intros Hu [HQ HB]. apply wp_bind, wp_local, wp_bind, (wp_deref_some _ u); [done|].
  apply wp_bind, wp_ext, wp_bind, wp_upd_local.
  destruct (Z.eqb_spec (env_url_set u part c f (g_world g)).1.1 CURLUE_OK) as [H0|H0]; simpl.
  - by apply HQ.
  - by apply wp_throw, wp_upd_ex, (HB H0 (with_set 1 _)).
Qed.

Lemma wp_url_get u part put l g Q B T :
  (let r := env_url_get u part (g_world g) in
   (r.1.1 = CURLUE_OK -> Q tt (put r.1.2 l, set_g_world r.2 g))
   /\ (r.1.1 <> CURLUE_OK -> forall e, url_thrown e -> B (l, set_g_ex e (set_g_world r.2 g)))) ->
  gwp F (curl_url_get_or_die (Some u) part put) Q B T (l, g).
Proof.
  intros [HQ HB]. apply wp_bind, (wp_deref_some _ u); [done|]. apply wp_bind, wp_ext, wp_bind.
  destruct (Z.eqb_spec (env_url_get u part (g_world g)).1.1 CURLUE_OK) as [H0|H0]; simpl.
  - by apply wp_upd_local, HQ.
  - by apply wp_throw, wp_upd_ex, (HB H0 (with_set 1 _)).
Qed.

(** What a failing call of libcurl throws. *)
Lemma wp_do_or_die (expr : M (L * G) R CURLcode) a v h l g Q B T :
  gwp F expr (fun code s =>
    if code =? CURLE_OK then Q tt s
    else (forall x, h = Some x -> is_Some (g_handles s.2 !! x))
         /\ forall e, Exception_has e = true -> B (s.1, set_g_ex e s.2)) B T (l, g) ->
  gwp F (curl_do_or_die expr a v h) Q B T (l, g).
Proof.
  intros H. apply wp_bind. refine (wp_mono _ _ _ _ _ _ _ _ H _ _ _); [|done..].
  intros code [l1 g1] H1. apply wp_condition_throw; intros Hc; rewrite Hc in H1; [done|].
  destruct H1 as [Hh HB]. apply wp_mk_CurlException_live; [done|]. intros e He.
  apply (HB (with_set 1 e)). done.
Qed.
End Rules.
