(* ===== verification/Method.v ===== *)
(** * proto/dav/method.c: the WebDAV requests

    One definition per function. The server is the static object of dav.c, so it is part of the
    shared state; the other arguments and the locals are as in the source. *)

From S2P Require Import Prelude Utils Exception Control Buffer Stack State Curl.
#[local] Open Scope Z_scope.
#[local] Open Scope c_scope.

Definition CONTENT_TYPE_XML : string :=
  "Content-Type: application/xml; charset=" +:+ DQ +:+ "utf-8" +:+ DQ.
Definition PREFER_MINIMAL : string := "Prefer: return=minimal".
Definition NETWORKFS_XML_NS : string := "NETWORKFS:".

Inductive LockType := RW_LOCK_NONE | RW_LOCK_READ | RW_LOCK_WRITE.
#[export] Instance LockType_eq_dec : EqDecision LockType.
Proof. solve_decision. Defined.

(** ** Header texts *)

(** [snprintf] into an array of the size the source declares. *)
Definition if_header (token : string) : string :=
  str_of (snprintf (9 + length (lit token)) (lit "If: (<" ++ lit token ++ lit ">)")).
Definition dest_header (path_url : string) : string :=
  str_of (snprintf (14 + length (lit path_url)) (lit "Destination: " ++ lit path_url)).
Definition token_header (token : string) : string :=
  str_of (snprintf (15 + length (lit token)) (lit "Lock-Token: <" ++ lit token ++ lit ">")).
Definition depth_header (depth : Z) : string := str_of (snprintf 32 (lit "Depth: " ++ fmt_d depth)).

(** The five conversions of the PROPPATCH template, and the text around them. *)
Definition proppatch_pieces : list string :=
  ["<?xml version=" +:+ DQ +:+ "1.0" +:+ DQ +:+ " encoding=" +:+ DQ +:+ "utf-8" +:+ DQ +:+ "?>" +:+ CRLF
   +:+ "<D:propertyupdate xmlns:D=" +:+ DQ +:+ "DAV:" +:+ DQ +:+ " xmlns:N=" +:+ DQ
   +:+ NETWORKFS_XML_NS +:+ DQ +:+ ">" +:+ CRLF +:+ "<D:";
   ">" +:+ CRLF +:+ "<D:prop><"; ">"; "</"; ">" +:+ CRLF +:+ "</D:prop>" +:+ CRLF +:+ "</D:";
   ">" +:+ CRLF +:+ "</D:propertyupdate>" +:+ CRLF].

(** The format string and its arguments, interleaved. *)
Fixpoint fill (pieces args : list string) : bytes :=
  match pieces, args with
  | p :: ps, a :: args' => lit p ++ lit a ++ fill ps args'
  | p :: ps, [] => lit p ++ fill ps []
  | [], _ => []
  end.

(** [sizeof (proppatch_body_template)]: the text, five "%s" and the NUL. *)
Definition sizeof_proppatch_template : nat := length (fill proppatch_pieces []) + 2 * 5 + 1.

Definition proppatch_args (key : string) (value : option string) : list string :=
  let action := match value with Some _ => "set" | None => "remove" end in
  [action; key; default "" value; key; action].

Definition proppatch_body (key : string) (value : option string) : bytes :=
  snprintf (sizeof_proppatch_template - 2 * 5 + length (lit "remove") * 2 + length (lit key) * 2
            + match value with Some v => length (lit v) | None => 0 end)
    (fill proppatch_pieces (proppatch_args key value)).

(** ** Callbacks on header lines *)

(** The new [*sizep], when the line is a Content-Length. *)
Definition dav_head_size (buffer : bytes) : option Z :=
  if strscmp buffer (lit "Content-Length:") =? 0
  then Some (u64 (strtol (strlstrip (drop 15 buffer)) 10).1)
  else None.

(** The token of a Lock-Token line: [None] when it is another line; the inner [None] is a store
    outside the buffer. *)
Definition dav_lock_token (buffer : bytes) (nitems : nat) : option (option string) :=
  if strscmp buffer (lit "Lock-Token:") =? 0
  then Some (b ← strnrstrip buffer nitems;
             let b := cstr (strlstrip (drop 11 b)) in
             Some (str_of (match b with
                           | "<"%char :: b' => take (length b' - 1) b'
                           | _ => b
                           end)))
  else None.

(** [strcmp (option, # o) == 0] over the list of the methods. *)
Definition method_of (tok : bytes) : option DavMethod :=
  (fun p => p.2.2) <$> list_find (fun p => lit p.1 = tok) DAV_METHOD.

(** The flags set by an Allow line. *)
Definition allow_methods (value : bytes) : gset DavMethod :=
  list_to_set (omap method_of (strtok value (lit ", "))).

(** What an OPTIONS response line does to the server record. *)
Inductive options_line :=
  | OptAllow (ms : gset DavMethod)
  | OptServer (name version : bytes)
  | OptOther
  | OptFault (f : fault).

Definition dav_options_line (buffer : bytes) (nitems : nat) : options_line :=
  if strscmp buffer (lit "Allow:") =? 0 then
    match strnrstrip buffer (nitems - 2) with
    | None => OptFault OutOfBounds
    | Some b => OptAllow (allow_methods (strlstrip (drop 6 b)))
    end
  else if strscmp buffer (lit "Server:") =? 0 then
    match strnrstrip buffer (nitems - 2) with
    | None => OptFault OutOfBounds
    | Some b =>
        let b := strlstrip (drop 7 b) in
        match strchr b "/"%char with
        | None => OptFault NullDeref      (* [*version = 0] through strchr's NULL *)
        | Some i => OptServer (take i b) (cstr (drop (S i) b))
        end
    end
  else OptOther.

(** ** Transfers *)

Section Transfers.
Context `{E : Env} {R : Type}.

Abbreviation MF := (M (Frame * G) R).

Definition upd_server (f : DavServer -> DavServer) : MF unit :=
  upd_shared (fun g => set_g_server (f (g_server g)) g).

(** simple_string.h: [SimpleString_new]. Without memory the result is NULL; with an exception
    pending the bytes are not copied and the string is unspecified, here empty. *)
Definition SimpleString_new (s : string) : MF (option string) :=
  this <- malloc_e "SimpleString" ;;
  pending <- has_ex ;;
  mret (match this with
        | None => None
        | Some _ => Some (if (pending : bool) then "" else s)
        end).

Definition __dav_head_callback (buffer : bytes) : MF Z :=
  match dav_head_size buffer with
  | Some n => upd_local (set_f_size (Some n))
  | None => skip
  end ;;;
  mret (zlen buffer).

Definition __dav_lock_callback (buffer : bytes) : MF Z :=
  l <- local ;;
  when (negb (not_null (f_token l)))
    match dav_lock_token buffer (length buffer) with
    | None => skip
    | Some None => stuck OutOfBounds
    | Some (Some token) => t <- SimpleString_new token ;; upd_local (set_f_token t)
    end ;;;
  mret (zlen buffer).

Definition strdup (b : bytes) : MF (option string) :=
  ok <- malloc_ok ;; mret (if (ok : bool) then Some (str_of b) else None).

Definition __dav_options_callback (buffer : bytes) : MF Z :=
  match dav_options_line buffer (length buffer) with
  | OptAllow ms => upd_server (fun s => set_allowed (allowed s ∪ ms) s)
  | OptServer name ver =>
      n <- strdup name ;; v <- strdup ver ;;
      upd_server (set_server_name n) ;;; upd_server (set_version v)
  | OptOther => skip
  | OptFault f => stuck f
  end ;;;
  mret (zlen buffer).

(** Buffer.v's callbacks on the local [buf]. *)
Definition do_Buffer_append (ptr : bytes) : MF Z :=
  l <- local ;;
  ok <- (match f_buf l with
         | Some b => if extensible b then malloc_ok else mret true
         | None => mret true
         end) ;;
  e <- gets get_ex ;;
  match Buffer_append ok ptr (zlen ptr) (f_buf l) e with
  | None => stuck OutOfBounds
  | Some (n, b, e') => upd_local (set_f_buf b) ;;; upd_ex (fun _ => e') ;;; mret n
  end.

Definition do_Buffer_fetch (nitems : Z) : MF bytes :=
  l <- local ;;
  match Buffer_fetch nitems (f_buf l) with
  | None => stuck OutOfBounds
  | Some (_, out, b) => upd_local (set_f_buf b) ;;; mret out
  end.

(** parser.c: [curl_parse_xml] on the local [ctxt]; 0 tells libcurl to stop. *)
Definition curl_parse_xml (ptr : bytes) : M (Frame * G) Z unit :=
  when (zlen ptr =? 0) (return_ (zlen ptr)) ;;;
  try_
    (l <- local ;;
     match f_ctxt l with
     | None =>
         c <- ext (env_xml_create ptr) ;;
         upd_local (set_f_ctxt c) ;;;
         condition_throw (not_null c) (mk_MallocException "xmlCreatePushParserCtxt")
     | Some c =>
         r <- ext (env_xml_chunk c ptr false) ;;
         upd_local (set_f_ctxt (Some r.2)) ;;;
         when (negb (r.1 =? 0)) (mk_MallocException "xmlParseChunk")
     end)
    (onerror_default (return_ 0)) ;;;
  return_ (zlen ptr).

(** The functions libcurl calls for a header line, a piece of the body and a request for data,
    by the options of the handle. A function it was given with an object of another type is an
    invalid access; without a function libcurl uses its own, which takes everything and
    sends nothing. *)
Definition header_callback (opts : list (CURLoption * optval)) (line : bytes) : MF Z :=
  match last_opt CURLOPT_HEADERFUNCTION opts, last_opt CURLOPT_HEADERDATA opts with
  | Some (VFun CB_dav_head_callback), Some (VData AT_sizep) => __dav_head_callback line
  | Some (VFun CB_dav_lock_callback), Some (VData AT_token) => __dav_lock_callback line
  | Some (VFun CB_dav_options_callback), Some (VData AT_server) => __dav_options_callback line
  | None, _ => mret (zlen line)
  | _, _ => stuck NullDeref
  end.

Definition write_callback (opts : list (CURLoption * optval)) (chunk : bytes) : MF Z :=
  match last_opt CURLOPT_WRITEFUNCTION opts, last_opt CURLOPT_WRITEDATA opts with
  | Some (VFun CB_Buffer_append), Some (VData AT_buf) => do_Buffer_append chunk
  | Some (VFun CB_curl_parse_xml), Some (VData AT_ctxt) => call_in (curl_parse_xml chunk)
  | None, _ => mret (zlen chunk)
  | _, _ => stuck NullDeref
  end.

Definition read_callback (opts : list (CURLoption * optval)) (n : Z) : MF bytes :=
  match last_opt CURLOPT_READFUNCTION opts, last_opt CURLOPT_READDATA opts with
  | Some (VFun CB_Buffer_fetch), Some (VData AT_buf) => do_Buffer_fetch n
  | None, _ => mret []
  | _, _ => stuck NullDeref
  end.

(** Run a transfer: every event calls the function that the options name. *)
Fixpoint run_xfer (h : addr) (opts : list (CURLoption * optval)) (x : xfer World) : MF CURLcode :=
  match x with
  | XDone w code info =>
      upd_shared (set_g_world w) ;;;
      upd_shared (fun g => set_g_handles (<[h := mkEasy opts info]> (g_handles g)) g) ;;;
      mret code
  | XHeader line k => r <- header_callback opts line ;; run_xfer h opts (k r)
  | XWrite chunk k => r <- write_callback opts chunk ;; run_xfer h opts (k r)
  | XRead n k => r <- read_callback opts n ;; run_xfer h opts (k r)
  end.

Definition curl_easy_perform (h : option addr) : MF CURLcode :=
  match h with
  | None => mret CURLE_BAD_FUNCTION_ARGUMENT
  | Some h =>
      e <- shared (fun g => g_handles g !! h) ;;
      e <- deref e ;;
      upd_shared (fun g => set_g_sent (g_sent g ++ [easy_opts e]) g) ;;;
      w <- shared g_world ;;
      run_xfer h (easy_opts e) (env_easy_perform (easy_opts e) w)
  end.

Definition curl_easy_perform_or_die (h : option addr) : MF unit :=
  curl_do_or_die (curl_easy_perform h) CURL_PERFORM 0 h.

(** ** The lock table *)

Definition upd_rwlock (f : RWLock -> RWLock) : MF unit :=
  upd_shared (fun g => set_g_rwlock (f (g_rwlock g)) g).

(** [while (pthread_rwlock_rdlock (...));] and [while (pthread_rwlock_wrlock (...));]: a lock
    that the holder never releases is never granted. *)
Definition rdlock : MF unit :=
  k <- shared g_rwlock ;;
  if writer k then stuck Deadlock else upd_rwlock (fun k => mkRWLock (S (readers k)) false).

Definition wrlock : MF unit :=
  k <- shared g_rwlock ;;
  if writer k || negb (readers k =? 0)%nat then stuck Deadlock
  else upd_rwlock (fun _ => mkRWLock 0 true).

Definition unlock : MF unit :=
  k <- shared g_rwlock ;;
  if writer k then upd_rwlock (fun k => mkRWLock (readers k) false)
  else match readers k with
       | O => stuck BadUnlock
       | S n => upd_rwlock (fun _ => mkRWLock n false)
       end.

(** search.h on the tree of the server, keyed by the path. *)
Definition tfind (path : string) : MF (option addr) :=
  shared (fun g => filelock_tree (g_server g) !! path).
Definition tdelete (path : string) : MF unit :=
  upd_server (fun s => set_filelock_tree (delete path (filelock_tree s)) s).

Definition get_filelock (a : addr) : MF FileLock :=
  fl <- shared (fun g => g_locks g !! a) ;; deref fl.
Definition put_filelock (a : addr) (fl : FileLock) : MF unit :=
  upd_shared (fun g => set_g_locks (<[a := fl]> (g_locks g)) g).

(** [delete (FileLock) p]: [FileLock_destory] reads the members it frees. *)
Definition FileLock_free (a : addr) : MF unit :=
  _ <- get_filelock a ;; upd_shared (fun g => set_g_locks (delete a (g_locks g)) g).
End Transfers.

(** ** The requests *)

Section Requests.
Context `{E : Env}.

Abbreviation MZ := (M (Frame * G) Z).

Definition use_locks {R} : M (Frame * G) R bool := shared (fun g => use_lock (options (g_server g))).

(** [return TEST_SUCCESS]: 1 when an exception is pending. *)
Definition return_status {L} : M (L * G) Z unit := e <- gets get_ex ;; return_ (TEST_SUCCESS e).

(** [with_curl (curl, server->baseuh, path, server->options) body] *)
Definition with_server_curl {R} (path : option string) (body : option addr -> M (Frame * G) R unit)
    : M (Frame * G) R unit :=
  srv <- shared g_server ;; with_curl (baseuh srv) path (options srv) body.

(** [scope (curl_slist, list) body] and [scope (curl_slist, list, first) body]. *)
Definition scope_slist {R} (body : M (Frame * G) R unit) : M (Frame * G) R unit :=
  with_assign (upd_local (set_f_list [])) (fun _ => skip) (fun _ => body).
Definition scope_slist1 {R} (first : string) (body : M (Frame * G) R unit) : M (Frame * G) R unit :=
  with_assign (l <- curl_slist_append_e [] first ;; upd_local (set_f_list l))
    (fun _ => skip) (fun _ => body).

(** [list = curl_slist_append_weak (list, s)] *)
Definition append_weak {R} (s : string) : M (Frame * G) R unit :=
  l <- local ;; l' <- curl_slist_append_weak (f_list l) s ;; upd_local (set_f_list l').

(** [curl_easy_setopt (curl, CURLOPT_HTTPHEADER, list)] *)
Definition set_headers {R} (curl : option addr) : M (Frame * G) R unit :=
  l <- local ;; curl_easy_setopt_ curl CURLOPT_HTTPHEADER (VSlist (f_list l)).

(** [Buffer (&buf, data, size, false)] in a [with]. *)
Definition with_buffer {R} (data : bytes) (size : Z) (body : M (Frame * G) R unit)
    : M (Frame * G) R unit :=
  with_seperated skip (fun _ => upd_local (set_f_buf (Some (Buffer_init_exist data size false))))
    (fun _ => skip) (fun _ => body).

(** [throwable with_range (range, offset, size) { curl_easy_setopt_or_die (...RANGE, range) }] *)
Definition set_range (curl : option addr) (offset size : Z) : MZ unit :=
  throwable (with_seperated (mret (str_of (range_text offset size))) (fun _ => skip)
    (fun _ => skip)
    (fun range => curl_easy_setopt_or_die curl CURLOPT_RANGE (VStr (Some range)))).

(** [list = __dav_header_if (server, list, path, lock_type)]: the function on its own frame, where
    [f_list] is its parameter [list]. *)
Definition __dav_header_if (path : string) (lock_type : LockType)
    : M (Frame * G) (list string) unit :=
  p <- tfind path ;;
  match p with
  | Some filelock =>
      do_once
        (fl <- get_filelock filelock ;;
         token <- deref (lock_token fl) ;;
         l <- local ;;
         list' <- curl_slist_append_e (f_list l) (if_header token) ;;
         upd_local (set_f_list list') ;;;
         when (bool_decide (list' = [])) break ;;;
         when (bool_decide (lock_type = RW_LOCK_WRITE))
           (tdelete path ;;; FileLock_free filelock))
  | None => skip
  end ;;;
  l <- local ;;
  return_ (f_list l).

(** [throwable list = __dav_header_if (server, list, path, lock_type)] *)
Definition add_header_if (path : string) (lock_type : LockType) : MZ unit :=
  throwable
    (l <- local ;;
     r <- call (set_f_list (f_list l) frame0) (fun _ => tt) (__dav_header_if path lock_type) ;;
     upd_local (set_f_list (fst r))).

Definition __dav_method (path method : string) (lock_type : LockType) : MZ unit :=
  with_server_curl (Some path) (fun curl =>
    ul <- use_locks ;;
    let locking := ul && negb (bool_decide (lock_type = RW_LOCK_NONE)) in
    when locking
      match lock_type with
      | RW_LOCK_NONE => skip
      | RW_LOCK_READ => rdlock
      | RW_LOCK_WRITE => wrlock
      end ;;;
    throwable (scope_slist
      (when locking (add_header_if path lock_type ;;; set_headers curl) ;;;
       curl_easy_setopt_or_die curl CURLOPT_CUSTOMREQUEST (VStr (Some method)) ;;;
       curl_easy_setopt_ curl CURLOPT_NOBODY (VLong 1) ;;;
       curl_easy_perform_or_die curl)) ;;;
    when locking unlock) ;;;
  return_status.

Definition dav_mkcol (path : string) : MZ unit := __dav_method path "MKCOL" RW_LOCK_NONE.
Definition dav_put_simple (path : string) : MZ unit := __dav_method path "PUT" RW_LOCK_READ.
Definition dav_delete (path : string) : MZ unit := __dav_method path "DELETE" RW_LOCK_WRITE.

(** [want_size]: the caller gave a [sizep]; the size is left in [f_size]. *)
Definition dav_head (path : string) (want_size : bool) : MZ unit :=
  with_server_curl (Some path) (fun curl =>
    curl_easy_setopt_or_die curl CURLOPT_CUSTOMREQUEST (VStr (Some "HEAD")) ;;;
    curl_easy_setopt_ curl CURLOPT_NOBODY (VLong 1) ;;;
    when want_size
      (upd_local (set_f_size (Some 0)) ;;;
       curl_easy_setopt_ curl CURLOPT_HEADERDATA (VData AT_sizep) ;;;
       curl_easy_setopt_ curl CURLOPT_HEADERFUNCTION (VFun CB_dav_head_callback)) ;;;
    curl_easy_perform_or_die curl) ;;;
  return_status.

(** [data] is the caller's memory of [size] bytes; what was received is left in [f_buf]. The
    result goes through an [int]. *)
Definition dav_get (path : string) (data : bytes) (size offset : Z) : MZ unit :=
  with_buffer data size
    (with_server_curl (Some path) (fun curl =>
       when (negb (offset =? 0) || negb (size =? 0)) (set_range curl offset size) ;;;
       curl_easy_setopt_ curl CURLOPT_WRITEDATA (VData AT_buf) ;;;
       curl_easy_setopt_ curl CURLOPT_WRITEFUNCTION (VFun CB_Buffer_append) ;;;
       curl_easy_perform_or_die curl) ;;;
     e <- gets get_ex ;;
     l <- local ;;
     b <- deref (f_buf l) ;;
     upd_local (set_f_res (Some (if TEST_SUCCESS e =? 0 then i32 (Buffer.offset b) else - TEST_SUCCESS e)))) ;;;
  l <- local ;;
  match f_res l with Some res => return_ res | None => stuck Uninit end.

Definition dav_put (path : string) (data : bytes) (size offset : Z) : MZ unit :=
  with_buffer data size
    (throwable (with_server_curl (Some path) (fun curl =>
       throwable (scope_slist
         (ul <- use_locks ;;
          when ul (rdlock ;;; add_header_if path RW_LOCK_READ ;;; set_headers curl) ;;;
          curl_easy_setopt_ curl CURLOPT_UPLOAD (VLong 1) ;;;
          curl_easy_setopt_ curl CURLOPT_READDATA (VData AT_buf) ;;;
          curl_easy_setopt_ curl CURLOPT_READFUNCTION (VFun CB_Buffer_fetch) ;;;
          set_range curl offset size ;;;
          curl_easy_setopt_ curl CURLOPT_INFILESIZE (VLong (i64 size)) ;;;
          curl_easy_perform_or_die curl ;;;
          when ul unlock))))) ;;;
  return_status.

(** On its own frame, where [f_list] is the parameter [list]; the result NULL is []. *)
Definition __dav_header_destination (path : string) : M (Frame * G) (list string) unit :=
  try_
    (srv <- shared g_server ;;
     throwable (with_assign
       (u <- curl_url_dup_e (baseuh srv) ;; upd_local (set_f_url u))
       (fun _ => skip)
       (fun _ =>
          let path := match path with String "/" p => p | _ => path end in
          curl_url_set_or_die f_url set_f_url CURLUPART_URL (Some path) CURLU_URLENCODE ;;;
          throwable (with_seperated
            (upd_local (set_f_path_url None))
            (fun _ => l <- local ;; curl_url_get_or_die (f_url l) CURLUPART_URL set_f_path_url)
            (fun _ => skip)
            (fun _ =>
               l <- local ;;
               path_url <- deref (f_path_url l) ;;
               throwable
                 (l' <- curl_slist_append_e (f_list l) (dest_header path_url) ;;
                  upd_local (set_f_list l')))))))
    (onerror_default (return_ [])) ;;;
  l <- local ;;
  return_ (f_list l).

(** [throwable list = __dav_header_destination (server, list, to)] *)
Definition add_header_destination (to : string) : MZ unit :=
  throwable
    (l <- local ;;
     r <- call (set_f_list (f_list l) frame0) (fun _ => tt) (__dav_header_destination to) ;;
     upd_local (set_f_list (fst r))).

Definition __dav_move (from to : string) (nooverwrite : bool) : MZ unit :=
  with_server_curl (Some from) (fun curl =>
    throwable (scope_slist
      (add_header_destination to ;;;
       when nooverwrite
         (throwable (l <- local ;; l' <- curl_slist_append_e (f_list l) "Overwrite: F" ;;
                     upd_local (set_f_list l'))) ;;;
       ul <- use_locks ;;
       when ul
         (rdlock ;;;
          p <- tfind from ;;
          when (not_null p) (unlock ;;; wrlock ;;; add_header_if from RW_LOCK_WRITE) ;;;
          add_header_if to RW_LOCK_READ) ;;;
       set_headers curl ;;;
       curl_easy_setopt_or_die curl CURLOPT_CUSTOMREQUEST (VStr (Some "MOVE")) ;;;
       curl_easy_setopt_ curl CURLOPT_NOBODY (VLong 1) ;;;
       curl_easy_perform_or_die curl ;;;
       when ul unlock))) ;;;
  return_status.

Definition dav_move (from to : string) : MZ unit := __dav_move from to false.
Definition dav_move_nooverwrite (from to : string) : MZ unit := __dav_move from to true.

Definition dav_copy (from to : string) : MZ unit :=
  with_server_curl (Some from) (fun curl =>
    throwable (scope_slist
      (add_header_destination to ;;;
       ul <- use_locks ;;
       when ul (rdlock ;;; add_header_if to RW_LOCK_READ) ;;;
       set_headers curl ;;;
       curl_easy_setopt_or_die curl CURLOPT_CUSTOMREQUEST (VStr (Some "COPY")) ;;;
       curl_easy_setopt_ curl CURLOPT_NOBODY (VLong 1) ;;;
       curl_easy_perform_or_die curl ;;;
       when ul unlock))) ;;;
  return_status.

Definition dav_proppatch (path key : string) (value : option string) : MZ unit :=
  let body := proppatch_body key value in
  with_buffer body (zlen body)
    (throwable (with_server_curl (Some path) (fun curl =>
       throwable (scope_slist1 CONTENT_TYPE_XML
         (append_weak PREFER_MINIMAL ;;;
          set_headers curl ;;;
          curl_easy_setopt_ curl CURLOPT_UPLOAD (VLong 1) ;;;
          curl_easy_setopt_ curl CURLOPT_READDATA (VData AT_buf) ;;;
          curl_easy_setopt_ curl CURLOPT_READFUNCTION (VFun CB_Buffer_fetch) ;;;
          curl_easy_setopt_ curl CURLOPT_INFILESIZE (VLong (zlen body)) ;;;
          curl_easy_setopt_or_die curl CURLOPT_CUSTOMREQUEST (VStr (Some "PROPPATCH")) ;;;
          curl_easy_perform_or_die curl))))) ;;;
  return_status.
End Requests.

(** ** What the requests keep *)

#[export] Hint Extern 0 (XferRel _) => apply _ : keeps.

Lemma keeps_upd_server_io `{E : Env} {R} (Rel : G -> G -> Prop) (f : DavServer -> DavServer) :
  (forall g, Rel g (set_g_server (f (g_server g)) g)) ->
  keeps (S := Frame * G) (R := R) (on_shared Rel) (upd_server f).
Proof. intros Hf. apply keeps_upd_shared. exact Hf. Qed.

(** The callbacks. *)
Section KeepsCallbacks.
Context `{E : Env} (Rel : G -> G -> Prop) `{!CallbackRel Rel}.
#[local] Abbreviation Keeps m := (keeps (on_shared Rel) m).

Lemma keeps_SimpleString_new {R} s : Keeps (SimpleString_new (R := R) s).
Proof. keeps_of SimpleString_new. Qed.
Lemma keeps_strdup {R} b : Keeps (strdup (R := R) b).
Proof. keeps_of strdup. Qed.
#[local] Hint Resolve keeps_SimpleString_new keeps_strdup : keeps.

Lemma keeps_dav_head_callback {R} b : Keeps (__dav_head_callback (R := R) b).
Proof. keeps_of __dav_head_callback. Qed.
Lemma keeps_dav_lock_callback {R} b : Keeps (__dav_lock_callback (R := R) b).
Proof. keeps_of __dav_lock_callback. Qed.
Lemma keeps_dav_options_callback {R} b : Keeps (__dav_options_callback (R := R) b).
Proof.
  unfold __dav_options_callback. keeps;
    apply keeps_upd_server_io; intros; by first [apply xfer_allowed | apply xfer_server_name | apply xfer_version].
Qed.
Lemma keeps_do_Buffer_append {R} p : Keeps (do_Buffer_append (R := R) p).
Proof.
  unfold do_Buffer_append. apply keeps_bind; [apply _|keeps|]. intros l.
  apply keeps_bind; [apply _|destruct (f_buf l) as [b|]; keeps|]. intros ok [l' g].
  unfold bind, gets. simpl.
  destruct (Buffer_append ok p (zlen p) (f_buf l) (g_ex g)) as [[[n b] e']|] eqn:Hb;
    simpl; [|apply (keep_refl (Rel := Rel))].
  destruct (Buffer_append_ex _ _ _ _ _ _ _ _ Hb) as [->|He];
    [|exact (keep_raise (Rel := Rel) e' g He)].
  unfold on_shared. simpl. change (set_g_ex (g_ex g) g) with (put_ex (get_ex g) g).
  rewrite put_get_ex. apply (keep_refl (Rel := Rel)).
Qed.
Lemma keeps_do_Buffer_fetch {R} n : Keeps (do_Buffer_fetch (R := R) n).
Proof. keeps_of do_Buffer_fetch. Qed.
Lemma keeps_curl_parse_xml p : Keeps (curl_parse_xml p).
Proof. keeps_of curl_parse_xml. Qed.
#[local] Hint Resolve keeps_dav_head_callback keeps_dav_lock_callback keeps_dav_options_callback
  keeps_do_Buffer_append keeps_do_Buffer_fetch keeps_curl_parse_xml : keeps.

Lemma keeps_header_callback {R} o b : Keeps (header_callback (R := R) o b).
Proof. keeps_of header_callback. Qed.
Lemma keeps_write_callback {R} o b : Keeps (write_callback (R := R) o b).
Proof. keeps_of write_callback. Qed.
Lemma keeps_read_callback {R} o n : Keeps (read_callback (R := R) o n).
Proof. keeps_of read_callback. Qed.
End KeepsCallbacks.

(** The parts of the requests that touch neither a handle nor the table. *)
Section KeepsParts.
Context `{E : Env} (Rel : G -> G -> Prop) `{!WorldRel Rel}.
#[local] Abbreviation Keeps m := (keeps (on_shared Rel) m).

Lemma keeps_return_status {L} : Keeps (return_status (L := L)).
Proof. keeps_of return_status. Qed.
Lemma keeps_scope_slist {R} (body : M (Frame * G) R unit) : Keeps body -> Keeps (scope_slist body).
Proof. keeps_of scope_slist. Qed.
Lemma keeps_scope_slist1 {R} s (body : M (Frame * G) R unit) : Keeps body -> Keeps (scope_slist1 s body).
Proof. keeps_of scope_slist1. Qed.
Lemma keeps_append_weak {R} s : Keeps (append_weak (R := R) s).
Proof. keeps_of append_weak. Qed.
Lemma keeps_with_buffer {R} d n (body : M (Frame * G) R unit) : Keeps body -> Keeps (with_buffer d n body).
Proof. keeps_of with_buffer. Qed.
Lemma keeps_use_locks {R} : Keeps (use_locks (R := R)).
Proof. keeps_of use_locks. Qed.
Lemma keeps_tfind {R} p : Keeps (tfind (R := R) p).
Proof. keeps_of tfind. Qed.
Lemma keeps_get_filelock {R} a : Keeps (get_filelock (R := R) a).
Proof. keeps_of get_filelock. Qed.
Lemma keeps_header_destination p : Keeps (__dav_header_destination p).
Proof. keeps_of __dav_header_destination. Qed.
#[local] Hint Resolve keeps_header_destination : keeps.
Lemma keeps_add_header_destination p : Keeps (add_header_destination p).
Proof. keeps_of add_header_destination. Qed.
End KeepsParts.

#[export] Hint Extern 0 (CallbackRel _) => apply _ : keeps.
#[export] Hint Resolve keeps_strdup keeps_header_callback keeps_write_callback keeps_read_callback
  keeps_return_status keeps_scope_slist keeps_scope_slist1 keeps_append_weak keeps_with_buffer
  keeps_use_locks keeps_tfind keeps_get_filelock keeps_add_header_destination : keeps.

Section KeepsTransfers.
Context `{E : Env} (Rel : G -> G -> Prop) `{!XferRel Rel}.
#[local] Abbreviation Keeps m := (keeps (on_shared Rel) m).

Lemma keeps_run_xfer {R} h o x : Keeps (run_xfer (R := R) h o x).
Proof.
  induction x as [w c i|b k IH|b k IH|n k IH]; simpl.
  - apply keeps_bind; [apply _|apply keeps_upd_shared, io_world|]. keeps.
  - keeps.
  - keeps.
  - keeps.
Qed.
#[local] Hint Resolve keeps_run_xfer : keeps.

Lemma keeps_curl_easy_perform {R} h : Keeps (curl_easy_perform (R := R) h).
Proof.
  unfold curl_easy_perform. keeps. apply keeps_upd_shared. intros. apply xfer_sent.
Qed.
#[local] Hint Resolve keeps_curl_easy_perform : keeps.
Lemma keeps_curl_easy_perform_or_die {R} h : Keeps (curl_easy_perform_or_die (R := R) h).
Proof. keeps_of curl_easy_perform_or_die. Qed.
Lemma keeps_with_server_curl {R} p (body : option addr -> M (Frame * G) R unit) :
  (forall h, Keeps (body h)) -> Keeps (with_server_curl p body).
Proof. keeps_of with_server_curl. Qed.
Lemma keeps_set_headers {R} h : Keeps (set_headers (R := R) h).
Proof. keeps_of set_headers. Qed.
Lemma keeps_set_range h o n : Keeps (set_range h o n).
Proof. keeps_of set_range. Qed.
End KeepsTransfers.

#[export] Hint Resolve keeps_curl_easy_perform_or_die keeps_curl_easy_perform
  keeps_with_server_curl keeps_set_headers keeps_set_range : keeps.

Section KeepsRequests.
Context `{E : Env} (Rel : G -> G -> Prop) `{!XferRel Rel}.
#[local] Abbreviation Keeps m := (keeps (on_shared Rel) m).

(** Requests that never touch the lock table. *)
Lemma keeps_dav_mkcol p : Keeps (dav_mkcol p).
Proof.
  unfold dav_mkcol, __dav_method. apply keeps_bind; [apply _| |keeps].
  apply keeps_with_server_curl; [done|]. intros h. apply keeps_bind; [apply _|keeps|].
  intros ul. rewrite bool_decide_true, andb_false_r by done. keeps.
Qed.
Lemma keeps_dav_head p b : Keeps (dav_head p b).
Proof. keeps_of dav_head. Qed.
Lemma keeps_dav_get p d n o : Keeps (dav_get p d n o).
Proof. keeps_of dav_get. Qed.
Lemma keeps_dav_proppatch p k v : Keeps (dav_proppatch p k v).
Proof. keeps_of dav_proppatch. Qed.
End KeepsRequests.
