(* ===== verification/MethodSpec.v ===== *)
(** * What the requests of method.c do to the lock table and to the network *)

From S2P Require Import Prelude Utils Exception Control Buffer Stack State Curl Method Wp Demo.
#[local] Open Scope Z_scope.
#[local] Open Scope c_scope.

(** ** Taking a [with_curl] block apart *)

Section WithCurl.
Context `{E : Env}.

(** A step that touches only what curl.c touches. *)
Definition io_step (g g' : G) : Prop := forall Rel, IORel Rel -> Rel g g'.

(** The cleanup of a handle neither raises nor clears an exception and leaves the caller's
    variables alone. *)
Lemma cleanup_common_inv {L R} (h : option addr) (l : L) (g : G) (c : ctl R unit) (s' : L * G) :
  curl_easy_cleanup_common h (l, g) = (c, s') ->
  s'.1 = l /\ g_ex s'.2 = g_ex g /\ (c = Next tt \/ exists f, c = Stuck f).
Proof.
  unfold curl_easy_cleanup_common, skip, mret. destruct h as [h|]; simpl; [|intros H; simplify_eq; splits; [done..|by left]].
  unfold malloc_ok, curl_easy_cleanup, upd_shared, modify. unfold bind at 1. unfold ext. simpl.
  destruct (env_malloc (g_world g)) as [[] w]; simpl;
    [|intros H; simplify_eq; splits; [done..|by left]].
  unfold Stack_push, synchronized, with_test, for_once, reflow, round, do_once, new_node,
    fresh_addr, spin_lock, spin_unlock, set_node_next, upd_stack, modify, gets, stuck, skip.
  unfold bind, mret, when, deref. simpl.
  destruct (locked (g_stack g)); simpl.
  - intros H; simplify_eq. splits; [done..|]. right. by eexists.
  - rewrite (lookup_insert_eq (heap (g_stack g))). simpl.
    intros H; simplify_eq. splits; [done..|by left].
Qed.

(** A [with_curl] block either skips its body, with an exception pending, or runs it from a
    state without one; what it adds around the body is a [io_step]. *)
Inductive curl_run {R} (body : option addr -> M (Frame * G) R unit) (l : Frame) (g : G)
    : ctl R unit -> Frame -> G -> Prop :=
  | curl_stuck f g' : io_step g g' -> curl_run body l g (Stuck f) l g'
  | curl_skipped g' :
      io_step g g' -> Exception_has (g_ex g') = true -> curl_run body l g (Next tt) l g'
  | curl_left h g1 l2 g2 c :
      io_step g g1 -> Exception_has (g_ex g) = false -> Exception_has (g_ex g1) = false ->
      body h (l, g1) = (c, (l2, g2)) -> (forall c', absorb (c, (l2, g2)) <> (Next tt, c')) ->
      curl_run body l g c l2 g2
  | curl_done h g1 l2 g2 c g' c' :
      io_step g g1 -> Exception_has (g_ex g) = false -> Exception_has (g_ex g1) = false ->
      body h (l, g1) = (c, (l2, g2)) -> absorb (c, (l2, g2)) = (Next tt, (l2, g2)) ->
      io_step g2 g' -> g_ex g' = g_ex g2 -> (c' = Next tt \/ exists f, c' = Stuck f) ->
      curl_run body l g c' l2 g'.

Lemma with_curl_run {R} url path o (body : option addr -> M (Frame * G) R unit) l g c l' g' :
  with_curl url path o body (l, g) = (c, (l', g')) -> curl_run body l g c l' g'.
Proof.
  unfold with_curl, with_assign, with_test, for_once, do_once.
  assert (forall Rel, IORel Rel -> Rel g (curl_easy_init_common url path (Some o) (init_frame0, g)).2.2)
    as Hi by (intros Rel ?; exact (keeps_curl_easy_init_common Rel url path (Some o) (init_frame0, g))).
  unfold bind at 1. unfold bind at 1. unfold call.
  destruct (curl_easy_init_common url path (Some o) (init_frame0, g)) as [ci [li g1]].
  simpl in Hi. destruct ci as [a| | |h|f]; simpl; try (intros; simplify_eq; by apply curl_stuck).
  unfold reflow, no_pending, has_ex, gets. unfold bind, skip, mret, when, break; simpl.
  destruct (Exception_has (g_ex g1)) eqn:He1; simpl.
  - destruct (curl_easy_cleanup_common h (l, g1)) as [c2 [l2 g2]] eqn:Hc.
    assert (io_step g g2) as Hg2.
    { intros Rel HR. apply (keep_trans (Rel := Rel)) with g1; [by apply Hi|].
      pose proof (keeps_curl_easy_cleanup_common Rel h (R := R) (l, g1)) as H. by rewrite Hc in H. }
    apply cleanup_common_inv in Hc as (Hl & Hx & Hn). simpl in *. subst l2.
    destruct Hn as [->|[f ->]]; intros; simplify_eq; [|by apply curl_stuck].
    apply curl_skipped; [done|congruence].
  - assert (Exception_has (g_ex g) = false) as He.
    { destruct (Exception_has (g_ex g)) eqn:He; [|done].
      pose proof (Hi stays_pending _ He). congruence. }
    rewrite round_do_once. destruct (body h (l, g1)) as [c2 [l2 g2]] eqn:Hb.
    destruct (absorb (c2, (l2, g2))) as [c3 s3] eqn:Ha.
    destruct (curl_easy_cleanup_common (R := R) h (l2, g2)) as [c4 [l4 g4]] eqn:Hc.
    assert (io_step g2 g4) as Hg4.
    { intros Rel HR. pose proof (keeps_curl_easy_cleanup_common Rel h (R := R) (l2, g2)) as H.
      by rewrite Hc in H. }
    apply cleanup_common_inv in Hc as Hx. simpl in Hx. destruct Hx as (-> & Hx & Hn).
    destruct c2 as [[]| | |r|f]; simpl in Ha; simplify_eq; simpl; rewrite ?Hc; simpl.
    4, 5: intros H; simplify_eq; eapply curl_left; [exact Hi|done|done|exact Hb|done].
    all: destruct Hn as [->|[? ->]]; intros H; simplify_eq;
      (eapply curl_done; [exact Hi|done|done|exact Hb|done|done|done|eauto]).
Qed.
End WithCurl.

(** ** The statements of the requests leave their block only by raising *)

Section OrderlyRequests.
Context `{E : Env}.

Lemma orderly_ext {L R A} (f : World -> A * World) : orderly (S := L * G) (R := R) (ext f).
Proof. intros [l g]. unfold ext. by destruct (f _). Qed.
#[local] Hint Resolve orderly_ext : orderly.
Lemma orderly_upd_shared {L R} (f : G -> G) : orderly (S := L * G) (R := R) (upd_shared f).
Proof. done. Qed.
Lemma orderly_upd_ex {S R} `{HasEx S} (f : Exception -> Exception) : orderly (R := R) (upd_ex f).
Proof. done. Qed.
Lemma orderly_has_ex {S R} `{HasEx S} : orderly (has_ex (R := R)).
Proof. done. Qed.
Lemma orderly_upd_local {L R} (f : L -> L) : orderly (S := L * G) (R := R) (upd_local f).
Proof. done. Qed.
Lemma orderly_local {L R} : orderly (S := L * G) (R := R) local.
Proof. done. Qed.
Lemma orderly_shared {L R A} (f : G -> A) : orderly (S := L * G) (R := R) (shared f).
Proof. done. Qed.
#[local] Hint Resolve orderly_upd_shared orderly_upd_ex orderly_upd_local orderly_local
  orderly_shared orderly_has_ex : orderly.

Lemma orderly_call_in {S R R'} `{HasEx S} (f : M S R' unit) : orderly (R := R) (call_in f).
Proof. intros s. unfold call_in. by destruct (f s) as [[] ?]. Qed.
#[local] Hint Resolve orderly_call_in : orderly.

Lemma orderly_curl_easy_setopt {L R} h o v : orderly (curl_easy_setopt (L := L) (R := R) h o v).
Proof. unfold curl_easy_setopt. orderly. Qed.
#[local] Hint Resolve orderly_curl_easy_setopt : orderly.
Lemma orderly_curl_easy_setopt_ {L R} h o v : orderly (curl_easy_setopt_ (L := L) (R := R) h o v).
Proof. unfold curl_easy_setopt_. orderly. Qed.
Lemma orderly_curl_easy_getinfo {L R} h : orderly (curl_easy_getinfo (L := L) (R := R) h).
Proof. unfold curl_easy_getinfo. orderly. Qed.
#[local] Hint Resolve orderly_curl_easy_getinfo : orderly.
Lemma orderly_mk_CurlException {L R} c a v h : orderly (mk_CurlException (L := L) (R := R) c a v h).
Proof. unfold mk_CurlException. orderly. Qed.
#[local] Hint Resolve orderly_mk_CurlException : orderly.
Lemma orderly_mk_UnspecifiedException {L R} m :
  orderly (mk_UnspecifiedException (L := L) (R := R) m).
Proof. unfold mk_UnspecifiedException, malloc_ok. orderly. Qed.
Lemma orderly_mk_MallocException {L R} m : orderly (mk_MallocException (L := L) (R := R) m).
Proof. done. Qed.
Lemma orderly_curl_do_or_die {L R} e a v h :
  orderly e -> orderly (curl_do_or_die (L := L) (R := R) e a v h).
Proof. unfold curl_do_or_die. orderly. Qed.
Lemma orderly_curl_easy_setopt_or_die {L R} h o v :
  orderly (curl_easy_setopt_or_die (L := L) (R := R) h o v).
Proof. apply orderly_curl_do_or_die. orderly. Qed.
Lemma orderly_curl_slist_append_e {L R} l s : orderly (curl_slist_append_e (L := L) (R := R) l s).
Proof. unfold curl_slist_append_e. orderly. Qed.
Lemma orderly_curl_slist_append_weak {L R} l s :
  orderly (curl_slist_append_weak (L := L) (R := R) l s).
Proof. unfold curl_slist_append_weak. orderly. Qed.
Lemma orderly_fresh_addr {L R} : orderly (fresh_addr (L := L) (R := R)).
Proof. done. Qed.
#[local] Hint Resolve orderly_fresh_addr : orderly.
Lemma orderly_malloc_e {L R} n : orderly (malloc_e (L := L) (R := R) n).
Proof. unfold malloc_e, malloc_ok, mk_MallocException. orderly. Qed.
#[local] Hint Resolve orderly_curl_easy_setopt_ orderly_curl_easy_setopt_or_die
  orderly_curl_slist_append_e orderly_curl_slist_append_weak orderly_malloc_e : orderly.

Lemma orderly_header_callback {R} o b : orderly (header_callback (R := R) o b).
Proof.
  unfold header_callback, __dav_head_callback, __dav_lock_callback, __dav_options_callback,
    SimpleString_new, strdup, upd_server. orderly.
Qed.
Lemma orderly_write_callback {R} o b : orderly (write_callback (R := R) o b).
Proof. unfold write_callback, do_Buffer_append. orderly. Qed.
Lemma orderly_read_callback {R} o n : orderly (read_callback (R := R) o n).
Proof. unfold read_callback, do_Buffer_fetch. orderly. Qed.
#[local] Hint Resolve orderly_header_callback orderly_write_callback orderly_read_callback : orderly.

Lemma orderly_run_xfer {R} h o x : orderly (run_xfer (R := R) h o x).
Proof. induction x as [w c i|b k IH|b k IH|n k IH]; simpl; orderly. Qed.
#[local] Hint Resolve orderly_run_xfer : orderly.

Lemma orderly_curl_easy_perform_or_die {R} h : orderly (curl_easy_perform_or_die (R := R) h).
Proof. apply orderly_curl_do_or_die. unfold curl_easy_perform. orderly. Qed.

Lemma orderly_use_locks {R} : orderly (use_locks (R := R)).
Proof. done. Qed.
Lemma orderly_append_weak {R} s : orderly (append_weak (R := R) s).
Proof. unfold append_weak. orderly. Qed.
Lemma orderly_set_headers {R} h : orderly (set_headers (R := R) h).
Proof. unfold set_headers. orderly. Qed.
Lemma orderly_set_range h o n : orderly (set_range h o n).
Proof. unfold set_range. orderly. Qed.
Lemma orderly_add_header_if p t : orderly (add_header_if p t).
Proof. unfold add_header_if. orderly. Qed.
Lemma orderly_add_header_destination p : orderly (add_header_destination p).
Proof. unfold add_header_destination. orderly. Qed.
Lemma orderly_rdlock {R} : orderly (rdlock (R := R)).
Proof. unfold rdlock, upd_rwlock. orderly. Qed.
Lemma orderly_wrlock {R} : orderly (wrlock (R := R)).
Proof. unfold wrlock, upd_rwlock. orderly. Qed.
Lemma orderly_unlock {R} : orderly (unlock (R := R)).
Proof. unfold unlock, upd_rwlock. orderly. Qed.
Lemma orderly_tfind {R} p : orderly (tfind (R := R) p).
Proof. done. Qed.
Lemma noret_scope_slist {R} (body : M (Frame * G) R unit) : noret body -> noret (scope_slist body).
Proof. unfold scope_slist. orderly. Qed.
Lemma noret_scope_slist1 {R} f (body : M (Frame * G) R unit) : noret body -> noret (scope_slist1 f body).
Proof. unfold scope_slist1. orderly. Qed.
Lemma noret_with_buffer {R} d n (body : M (Frame * G) R unit) : noret body -> noret (with_buffer d n body).
Proof. unfold with_buffer. orderly. Qed.
End OrderlyRequests.

#[export] Hint Resolve orderly_ext orderly_upd_shared orderly_upd_ex orderly_upd_local
  orderly_local orderly_shared orderly_has_ex orderly_call_in orderly_curl_easy_setopt
  orderly_curl_easy_setopt_ orderly_curl_easy_getinfo orderly_mk_CurlException
  orderly_mk_UnspecifiedException orderly_mk_MallocException orderly_fresh_addr
  orderly_curl_easy_setopt_or_die orderly_curl_slist_append_e orderly_curl_slist_append_weak
  orderly_malloc_e orderly_curl_easy_perform_or_die orderly_use_locks orderly_append_weak
  orderly_set_headers orderly_set_range orderly_add_header_if orderly_add_header_destination
  orderly_rdlock orderly_wrlock orderly_unlock orderly_tfind : orderly.

(** ** Every request, and what they share *)

(** The requests that answer with a status. *)
Inductive request :=
  | Rmkcol (path : string)
  | Rput_simple (path : string)
  | Rdelete (path : string)
  | Rhead (path : string) (want_size : bool)
  | Rput (path : string) (data : bytes) (size offset : Z)
  | Rmove (from to : string)
  | Rmove_nooverwrite (from to : string)
  | Rcopy (from to : string)
  | Rproppatch (path key : string) (value : option string).

Section Requests.
Context `{E : Env}.

Definition run_request (r : request) : M (Frame * G) Z unit :=
  match r with
  | Rmkcol p => dav_mkcol p
  | Rput_simple p => dav_put_simple p
  | Rdelete p => dav_delete p
  | Rhead p b => dav_head p b
  | Rput p d n o => dav_put p d n o
  | Rmove a b => dav_move a b
  | Rmove_nooverwrite a b => dav_move_nooverwrite a b
  | Rcopy a b => dav_copy a b
  | Rproppatch p k v => dav_proppatch p k v
  end.

Lemma with_server_curl_run {R} p (body : option addr -> M (Frame * G) R unit) l g c l' g' :
  with_server_curl p body (l, g) = (c, (l', g')) -> curl_run body l g c l' g'.
Proof. unfold with_server_curl. intros H. by apply with_curl_run in H. Qed.

Lemma io_step_pending g g' :
  io_step g g' -> Exception_has (g_ex g) = true -> Exception_has (g_ex g') = true.
Proof. intros H. exact (H stays_pending _). Qed.

Lemma orderly_cleanup_common {L R} h : orderly (curl_easy_cleanup_common (L := L) (R := R) h).
Proof.
  intros [l g]. destruct (curl_easy_cleanup_common h (l, g)) as [c s'] eqn:Hc.
  by destruct (cleanup_common_inv h l g c s' Hc) as (_ & _ & [->|[f ->]]).
Qed.

Lemma noret_with_server_curl {R} p (body : option addr -> M (Frame * G) R unit) :
  (forall h, noret (body h)) -> noret (with_server_curl p body).
Proof.
  intros Hb s. unfold with_server_curl. unfold bind, shared, gets. simpl.
  apply (noret_with_assign (S := Frame * G)); [|apply orderly_cleanup_common|done].
  orderly.
Qed.

(** With an exception pending, a request's block touches nothing but what curl.c touches. *)
Definition idle {R} (m : M (Frame * G) R unit) : Prop := forall l g c l' g',
  Exception_has (g_ex g) = true -> m (l, g) = (c, (l', g')) ->
  io_step g g' /\ (c = Next tt \/ exists f, c = Stuck f).

Lemma idle_with_server_curl {R} p body : idle (with_server_curl (R := R) p body).
Proof.
  intros l g c l' g' He Hr%with_server_curl_run.
  inversion Hr; simplify_eq; eauto; congruence.
Qed.

Lemma idle_with_buffer {R} d n body : idle (with_buffer (R := R) d n body).
Proof.
  intros l g c l' g' He. unfold with_buffer, with_seperated, with_test, for_once, do_once, reflow.
  unfold no_pending, has_ex, gets, upd_local, modify, bind, skip, mret, break. simpl. rewrite He.
  simpl. intros H. simplify_eq. split; [|by left]. intros Rel ?. apply (keep_refl (Rel := Rel)).
Qed.

Lemma pending_request_idle (r : request) l g c l' g' :
  Exception_has (g_ex g) = true -> run_request r (l, g) = (c, (l', g')) ->
  same_sent g g' /\ same_locks g g' /\ Exception_has (g_ex g') = true
  /\ (c = Ret 1 \/ exists f, c = Stuck f).
Proof.
  intros He Hr.
  assert (exists m, idle m /\ run_request r = bind m (fun _ => return_status)) as (m & Hm & Heq)
    by (destruct r; eexists; (split; [|reflexivity]);
        (apply idle_with_server_curl || apply idle_with_buffer)).
  rewrite Heq in Hr. unfold bind in Hr. destruct (m (l, g)) as [c1 [l1 g1]] eqn:Hm1.
  destruct (Hm _ _ _ _ _ He Hm1) as [Hs Hc].
  assert (Exception_has (g_ex g1) = true) as He1 by eauto using io_step_pending.
  destruct Hc as [->|[f ->]].
  - unfold return_status, bind, gets, return_ in Hr. simpl in Hr. simplify_eq.
    splits; [exact (Hs same_sent _)|exact (Hs same_locks _)|done|]. left. unfold TEST_SUCCESS. by rewrite He1.
  - simplify_eq. splits; [exact (Hs same_sent _)|exact (Hs same_locks _)|done|eauto].
Qed.

End Requests.

(** ** A Hoare logic for orderly statements

    [triple P m Q B]: from a shared state in [P], [m] falls through into [Q], or breaks into [B]
    with an exception pending, or is stuck. *)

Section Triples.
Context `{E : Env} {R : Type}.
Implicit Types P Q B : G -> Prop.

Definition triple {A} P (m : M (Frame * G) R A) Q B : Prop := forall l g,
  P g ->
  match m (l, g) with
  | (Next _, s') => Q s'.2
  | (Brk, s') => Exception_has (get_ex s') = true /\ B s'.2
  | (Stuck _, _) => True
  | _ => False
  end.

Lemma triple_conseq {A} P P' Q Q' B B' (m : M (Frame * G) R A) :
  triple P' m Q' B' -> (forall g, P g -> P' g) -> (forall g, Q' g -> Q g) ->
  (forall g, B' g -> B g) -> triple P m Q B.
Proof.
  intros Ht HP HQ HB l g Hg. specialize (Ht l g (HP g Hg)).
  destruct (m (l, g)) as [[] [? ?]]; simpl in *; eauto. destruct Ht; eauto.
Qed.

Lemma triple_bind {A A'} P Q I B (m : M (Frame * G) R A) (f : A -> M (Frame * G) R A') :
  triple P m I B -> (forall a, triple I (f a) Q B) -> triple P (bind m f) Q B.
Proof.
  intros Hm Hf l g Hg. specialize (Hm l g Hg). unfold bind.
  destruct (m (l, g)) as [[a| | | |] [l1 g1]]; try done. by apply Hf.
Qed.

(** A statement that keeps a relation keeps what the relation keeps. *)
Lemma triple_keeps {A} (Rel : G -> G -> Prop) P B (m : M (Frame * G) R A) :
  orderly m -> keeps (on_shared Rel) m -> (forall g g', P g -> Rel g g' -> P g') ->
  (forall g, P g -> B g) -> triple P m P B.
Proof.
  intros Ho Hk HP HB l g Hg. specialize (Ho (l, g)). specialize (Hk (l, g)).
  unfold on_shared in Hk. destruct (m (l, g)) as [[] [l1 g1]]; simpl in *; try done; eauto.
Qed.

Lemma triple_when P Q B (b : bool) (m : M (Frame * G) R unit) :
  (b = true -> triple P m Q B) -> (b = false -> forall g, P g -> Q g) -> triple P (when b m) Q B.
Proof. destruct b; intros Ht Hf; [by apply Ht|]. intros l g Hg. simpl. by apply Hf. Qed.

(** A block in a [throwable] [with] breaks exactly when an exception is pending after it. *)
Lemma triple_throwable P Q B (m : M (Frame * G) R unit) :
  (forall l g, P g -> match absorb (m (l, g)) with
                      | (Next _, s') => if Exception_has (get_ex s') then B s'.2 else Q s'.2
                      | (Stuck _, _) => True
                      | _ => False
                      end) ->
  triple P (throwable m) Q B.
Proof.
  intros Hm l g Hg. specialize (Hm l g Hg). rewrite throwable_run.
  destruct (absorb (m (l, g))) as [[] [l1 g1]]; simpl in *; try done.
  by destruct (Exception_has (g_ex g1)) eqn:?.
Qed.
End Triples.

Section ScopeTriples.
Context `{E : Env}.
Implicit Types P Q B : G -> Prop.

Lemma absorb_next {S R} (r : ctl R unit * S) : absorb (absorb r) = absorb r.
Proof. by destruct r as [[[]| | | |] ?]. Qed.

Lemma scope_slist_run {R} (body : M (Frame * G) R unit) l g :
  scope_slist body (l, g)
  = if Exception_has (g_ex g) then (Next tt, (set_f_list [] l, g))
    else absorb (body (set_f_list [] l, g)).
Proof.
  unfold scope_slist.
  rewrite (with_assign_run _ _ _ (l, g) (set_f_list [] l, g) tt (fun s => s)) by done.
  simpl. destruct (Exception_has (g_ex g)); [done|]. by destruct (body _) as [[[]| | | |] ?].
Qed.

(** The usual body of a request: a header list around the rest. *)
Lemma triple_scope {R} P Q B (body : M (Frame * G) R unit) :
  (forall g, P g -> B g) -> (forall g, Q g -> B g) ->
  triple P body Q B -> triple P (throwable (scope_slist body)) Q B.
Proof.
  intros HPB HQB Hb. apply triple_throwable. intros l g Hg.
  rewrite scope_slist_run. destruct (Exception_has (g_ex g)) eqn:He; simpl; [rewrite He; auto|].
  rewrite absorb_next. specialize (Hb (set_f_list [] l) g Hg).
  destruct (body (set_f_list [] l, g)) as [[[]| | | |] [l1 g1]]; simpl in *; try done.
  - destruct (Exception_has (g_ex g1)); eauto.
  - destruct Hb as [He1 HB]. by rewrite He1.
Qed.

(** A block under [with_server_curl], and the status of the request that ends after it. *)
Lemma request_triple P Q B p body l g c l' g' :
  (forall g1, io_step g g1 -> Exception_has (g_ex g1) = false -> P g1) ->
  (forall h, triple P (body h) Q B) ->
  (forall g1 g2, io_step g1 g2 -> Q g1 -> Q g2) -> (forall g1 g2, io_step g1 g2 -> B g1 -> B g2) ->
  bind (with_server_curl p body) (fun _ => return_status) (l, g) = (c, (l', g')) ->
  (c = Ret 0 /\ Q g') \/ (c = Ret 1 /\ (Q g' \/ B g' \/ io_step g g')) \/ exists f, c = Stuck f.
Proof.
  intros HP Hb HQ HB. unfold bind.
  destruct (with_server_curl p body (l, g)) as [c1 [l1 g1]] eqn:Hr.
  apply with_server_curl_run in Hr.
  unfold return_status, bind, gets, return_. simpl.
  inversion Hr as [f ? Hs|? Hs He|h gi l2 g2 ? Hi He0 He1 Hbody Ha|h gi l2 g2 ci ? ? Hi He0 He1 Hbody Ha Ho Hx Hc];
    simplify_eq; simpl.
  - intros; simplify_eq. eauto.
  - intros; simplify_eq. unfold TEST_SUCCESS. rewrite He. eauto 6.
  - specialize (Hb h l gi (HP _ Hi He1)). rewrite Hbody in Hb.
    destruct c1 as [[]| | | |]; try done.
    + by destruct (Ha (l1, g1)).
    + by destruct (Ha (l1, g1)).
    + intros; simplify_eq. eauto.
  - specialize (Hb h l gi (HP _ Hi He1)). rewrite Hbody in Hb. simpl in Hb.
    destruct Hc as [->|[f ->]]; [|intros; simplify_eq; eauto].
    intros; simplify_eq. unfold TEST_SUCCESS. rewrite Hx.
    destruct ci as [[]| | | |]; try done.
    + destruct (Exception_has (g_ex g2)); simpl; eauto 6.
    + destruct Hb as [-> HB2]. eauto 8.
Qed.
End ScopeTriples.

(** ** The lock around a request *)

Section LockTriples.
Context `{E : Env}.

(** The lock after it was taken for [lock_type]. *)
Definition taken (lock_type : LockType) (k k' : RWLock) : Prop :=
  match lock_type with
  | RW_LOCK_NONE => False
  | RW_LOCK_READ => writer k = false /\ k' = mkRWLock (S (readers k)) false
  | RW_LOCK_WRITE => writer k = false /\ readers k = O /\ k' = mkRWLock 0 true
  end.

(** It was left taken, for reading or for writing. *)
Definition leaked (k k' : RWLock) : Prop := exists lock_type, taken lock_type k k'.

Implicit Types k : RWLock.
Definition at_lock k (g : G) : Prop := g_rwlock g = k.
Definition held lt k (g : G) : Prop := taken lt k (g_rwlock g).
Definition left_held k (g : G) : Prop := g_rwlock g = k \/ leaked k (g_rwlock g).

Lemma triple_rdlock {R} k B : triple (R := R) (at_lock k) rdlock (held RW_LOCK_READ k) B.
Proof.
  intros l g Hg. unfold rdlock, bind, shared, gets, stuck, upd_rwlock, upd_shared, modify. simpl.
  unfold at_lock in Hg. rewrite Hg. destruct (writer k) eqn:Hw; [done|]. simpl.
  unfold held. simpl. rewrite Hg. done.
Qed.

Lemma triple_wrlock {R} k B : triple (R := R) (at_lock k) wrlock (held RW_LOCK_WRITE k) B.
Proof.
  intros l g Hg. unfold wrlock, bind, shared, gets, stuck, upd_rwlock, upd_shared, modify. simpl.
  unfold at_lock in Hg. rewrite Hg. destruct k as [[|n] []]; done.
Qed.

Lemma triple_unlock {R} lt k B : triple (R := R) (held lt k) unlock (at_lock k) B.
Proof.
  intros l g Hg. unfold unlock, bind, shared, gets, stuck, upd_rwlock, upd_shared, modify. simpl.
  unfold held in Hg. destruct k as [n w], lt; simpl in Hg; [done|..].
  - destruct Hg as [-> Hg]. by rewrite Hg.
  - destruct Hg as (-> & -> & Hg). rewrite Hg. unfold at_lock. simpl. by rewrite Hg.
Qed.

Lemma keeps_upd_server_tree {R} (f : DavServer -> DavServer) :
  keeps (S := Frame * G) (R := R) (on_shared same_rwlock) (upd_server f).
Proof. apply keeps_upd_shared. intros g. exact eq_refl. Qed.
Lemma keeps_upd_locks {R} (f : G -> gmap addr FileLock) :
  keeps (S := Frame * G) (R := R) (on_shared same_rwlock) (upd_shared (fun g => set_g_locks (f g) g)).
Proof. apply keeps_upd_shared. intros g. exact eq_refl. Qed.
#[local] Hint Resolve keeps_upd_server_tree keeps_upd_locks : keeps.

Lemma keeps_add_header_if p t : keeps (on_shared same_rwlock) (add_header_if p t).
Proof.
  unfold add_header_if, __dav_header_if, tdelete, FileLock_free. keeps.
Qed.

(** While the lock is held, and while it is not. *)
Lemma triple_held {A R} lt k (m : M (Frame * G) R A) :
  orderly m -> keeps (on_shared same_rwlock) m -> triple (held lt k) m (held lt k) (left_held k).
Proof.
  intros. apply (triple_keeps same_rwlock); [done..| |].
  - unfold held, same_rwlock. by intros ?? ? ->.
  - intros g1 Hg. right. by exists lt.
Qed.

Lemma triple_at {A R} k (m : M (Frame * G) R A) :
  orderly m -> keeps (on_shared same_rwlock) m -> triple (at_lock k) m (at_lock k) (left_held k).
Proof.
  intros. apply (triple_keeps same_rwlock); [done..| |].
  - unfold at_lock, same_rwlock. by intros ?? ? ->.
  - intros g1 Hg. by left.
Qed.

Lemma at_left_held k g : at_lock k g -> left_held k g.
Proof. by left. Qed.
Lemma held_left_held lt k g : held lt k g -> left_held k g.
Proof. right. by exists lt. Qed.
End LockTriples.

#[export] Hint Resolve at_left_held held_left_held : nfs.
#[export] Hint Resolve keeps_add_header_if : keeps.

Section Balance.
Context `{E : Env}.

(** Blocks that do not use the lock, and blocks that take it around the rest. *)
Definition balanced k (m : M (Frame * G) Z unit) : Prop :=
  triple (at_lock k) m (at_lock k) (left_held k).

Lemma balanced_body_method k path method lt h :
  balanced k
    (ul <- use_locks ;;
     let locking := ul && negb (bool_decide (lt = RW_LOCK_NONE)) in
     when locking
       match lt with
       | RW_LOCK_NONE => skip
       | RW_LOCK_READ => rdlock
       | RW_LOCK_WRITE => wrlock
       end ;;;
     throwable (scope_slist
       (when locking (add_header_if path lt ;;; set_headers h) ;;;
        curl_easy_setopt_or_die h CURLOPT_CUSTOMREQUEST (VStr (Some method)) ;;;
        curl_easy_setopt_ h CURLOPT_NOBODY (VLong 1) ;;;
        curl_easy_perform_or_die h)) ;;;
     when locking unlock).
Proof.
  unfold balanced.
  apply triple_bind with (at_lock k); [apply triple_at; [orderly|keeps]|]. intros ul.
  destruct (ul && negb (bool_decide (lt = RW_LOCK_NONE))) eqn:Hl; simpl.
  - apply triple_bind with (held lt k).
    { destruct lt; [by rewrite andb_false_r in Hl|apply triple_rdlock|apply triple_wrlock]. }
    intros _. apply triple_bind with (held lt k); [|intros _; apply triple_unlock].
    apply triple_scope; [eauto with nfs..|]. apply triple_held; [orderly|keeps].
  - apply triple_bind with (at_lock k); [apply triple_at; [orderly|keeps]|]. intros _.
    apply triple_bind with (at_lock k); [|intros _; apply triple_at; [orderly|keeps]].
    apply triple_scope; [eauto with nfs..|]. apply triple_at; [orderly|keeps].
Qed.

(** Statements one after the other that keep the lock in the state [I]. *)
Ltac stay I :=
  repeat (simple apply triple_bind with I;
          [first [apply triple_held; [solve [orderly]|solve [keeps]]
                 |apply triple_at; [solve [orderly]|solve [keeps]]]|intros ?]).

Lemma balanced_body_put k path size offset h :
  balanced k
    (throwable (scope_slist
       (ul <- use_locks ;;
        when ul (rdlock ;;; add_header_if path RW_LOCK_READ ;;; set_headers h) ;;;
        curl_easy_setopt_ h CURLOPT_UPLOAD (VLong 1) ;;;
        curl_easy_setopt_ h CURLOPT_READDATA (VData AT_buf) ;;;
        curl_easy_setopt_ h CURLOPT_READFUNCTION (VFun CB_Buffer_fetch) ;;;
        set_range h offset size ;;;
        curl_easy_setopt_ h CURLOPT_INFILESIZE (VLong (i64 size)) ;;;
        curl_easy_perform_or_die h ;;;
        when ul unlock))).
Proof.
  unfold balanced. apply triple_scope; [eauto with nfs..|]. stay (at_lock k).
  destruct a; simpl.
  - apply triple_bind with (held RW_LOCK_READ k).
    { apply triple_bind with (held RW_LOCK_READ k); [apply triple_rdlock|intros _].
      apply triple_held; [orderly|keeps]. }
    intros _. stay (held RW_LOCK_READ k). apply triple_unlock.
  - stay (at_lock k). apply triple_at; [orderly|keeps].
Qed.

Lemma balanced_body_move k from to nooverwrite h :
  balanced k
    (throwable (scope_slist
      (add_header_destination to ;;;
       when nooverwrite
         (throwable (l <- local ;; l' <- curl_slist_append_e (f_list l) "Overwrite: F" ;;
                     upd_local (set_f_list l'))) ;;;
       ul <- use_locks ;;
       when ul
         (rdlock ;;;
          p <- tfind from ;;
          when (not_null p) (unlock ;;; wrlock ;;; add_header_if from RW_LOCK_WRITE) ;;;
          add_header_if to RW_LOCK_READ) ;;;
       set_headers h ;;;
       curl_easy_setopt_or_die h CURLOPT_CUSTOMREQUEST (VStr (Some "MOVE")) ;;;
       curl_easy_setopt_ h CURLOPT_NOBODY (VLong 1) ;;;
       curl_easy_perform_or_die h ;;;
       when ul unlock))).
Proof.
  unfold balanced. apply triple_scope; [eauto with nfs..|]. stay (at_lock k).
  destruct a1; simpl.
  - apply triple_bind with (fun g => exists lt, held lt k g).
    { apply triple_bind with (held RW_LOCK_READ k); [apply triple_rdlock|intros _].
      stay (held RW_LOCK_READ k). destruct a1 as [p|]; simpl.
      - apply triple_bind with (held RW_LOCK_WRITE k).
        + apply triple_bind with (at_lock k); [apply triple_unlock|intros _].
          apply triple_bind with (held RW_LOCK_WRITE k); [apply triple_wrlock|intros _].
          apply triple_held; [orderly|keeps].
        + intros _. eapply triple_conseq; [apply (triple_held RW_LOCK_WRITE k)|..];
            [orderly|keeps|done|eauto|done].
      - stay (held RW_LOCK_READ k).
        eapply triple_conseq; [apply (triple_held RW_LOCK_READ k)|..];
          [orderly|keeps|done|eauto|done]. }
    intros _ l g [lt Hg]. revert l g Hg.
    change (triple (R := Z) (held lt k) (set_headers h ;;;
       curl_easy_setopt_or_die h CURLOPT_CUSTOMREQUEST (VStr (Some "MOVE")) ;;;
       curl_easy_setopt_ h CURLOPT_NOBODY (VLong 1) ;;;
       curl_easy_perform_or_die h ;;; unlock) (at_lock k) (left_held k)).
    stay (held lt k). apply triple_unlock.
  - stay (at_lock k). apply triple_at; [orderly|keeps].
Qed.

Lemma balanced_body_copy k to h :
  balanced k
    (throwable (scope_slist
      (add_header_destination to ;;;
       ul <- use_locks ;;
       when ul (rdlock ;;; add_header_if to RW_LOCK_READ) ;;;
       set_headers h ;;;
       curl_easy_setopt_or_die h CURLOPT_CUSTOMREQUEST (VStr (Some "COPY")) ;;;
       curl_easy_setopt_ h CURLOPT_NOBODY (VLong 1) ;;;
       curl_easy_perform_or_die h ;;;
       when ul unlock))).
Proof.
  unfold balanced. apply triple_scope; [eauto with nfs..|]. stay (at_lock k).
  destruct a0; simpl.
  - apply triple_bind with (held RW_LOCK_READ k).
    { apply triple_bind with (held RW_LOCK_READ k); [apply triple_rdlock|intros _].
      apply triple_held; [orderly|keeps]. }
    intros _. stay (held RW_LOCK_READ k). apply triple_unlock.
  - stay (at_lock k). apply triple_at; [orderly|keeps].
Qed.

Lemma io_step_rwlock g g' : io_step g g' -> g_rwlock g' = g_rwlock g.
Proof. intros H. exact (H same_rwlock _). Qed.

(** A request whose block is balanced. *)
Lemma balanced_request p body l g c l' g' :
  (forall h, balanced (g_rwlock g) (body h)) ->
  bind (with_server_curl p body) (fun _ => return_status) (l, g) = (c, (l', g')) ->
  (c = Ret 0 /\ g_rwlock g' = g_rwlock g)
  \/ (c = Ret 1 /\ (g_rwlock g' = g_rwlock g \/ leaked (g_rwlock g) (g_rwlock g')))
  \/ exists f, c = Stuck f.
Proof.
  intros Hb Hr. apply (request_triple _ _ _ _ _ _ _ _ _ _
    (fun g1 Hi _ => io_step_rwlock g g1 Hi) Hb) in Hr as [[-> Hq]|[(-> & Hq)|Hf]].
  - auto.
  - right; left. split; [done|]. destruct Hq as [Hq|[Hq|Hq]]; [by left|done|].
    left. by apply io_step_rwlock.
  - auto.
  - intros g1 g2 Hi%io_step_rwlock Hq. unfold at_lock in *. congruence.
  - intros g1 g2 Hi%io_step_rwlock Hq. unfold left_held in *. by rewrite Hi.
Qed.

(** [with_buffer] around a request is the request on a frame with the buffer. *)
Lemma buffer_request d n p body l g :
  Exception_has (g_ex g) = false ->
  bind (with_buffer d n (throwable (with_server_curl p body))) (fun _ => return_status) (l, g)
  = bind (with_server_curl p body) (fun _ => return_status)
      (set_f_buf (Some (Buffer_init_exist d n false)) l, g).
Proof.
  intros He. unfold bind at 1. unfold with_buffer, with_seperated.
  rewrite (with_test_run _ _ _ _ _ (l, g) (l, g)
    (set_f_buf (Some (Buffer_init_exist d n false)) l, g)
    (set_f_buf (Some (Buffer_init_exist d n false)) l, g) tt true (fun s => s)).
  2, 3, 5: done. 2: unfold no_pending, has_ex, bind, gets, mret; simpl; by rewrite He.
  rewrite throwable_run. unfold bind.
  destruct (with_server_curl p body _) as [c1 [l1 g1]] eqn:Hr.
  apply with_server_curl_run in Hr.
  inversion Hr as [| |? ? ? ? ? ? ? ? ? Ha|? ? ? ? ? ? ? ? ? ? ? ? ? ? Hc]; simplify_eq; simpl.
  - done.
  - destruct (Exception_has (g_ex g1)); reflexivity.
  - destruct c1 as [[]| | | |]; try done; by destruct (Ha (l1, g1)).
  - destruct Hc as [->|[f ->]]; simpl; [|done]. destruct (Exception_has (g_ex g1)); reflexivity.
Qed.

(** How the requests leave the lock. *)
Lemma request_lock_balanced (r : request) l g c l' g' :
  run_request r (l, g) = (c, (l', g')) ->
  (c = Ret 0 /\ g_rwlock g' = g_rwlock g)
  \/ (c = Ret 1 /\ (g_rwlock g' = g_rwlock g \/ leaked (g_rwlock g) (g_rwlock g')))
  \/ exists f, c = Stuck f.
Proof.
  intros Hr. destruct (Exception_has (g_ex g)) eqn:He.
  { destruct (pending_request_idle _ _ _ _ _ _ He Hr) as (_ & (Hk & _) & _ & [->|Hf]); auto 6. }
  destruct r as [p|p|p|p b|p d n o|a b|a b|a b|p k v]; simpl in Hr.
  - exact (balanced_request _ _ _ _ _ _ _ (balanced_body_method _ p "MKCOL" RW_LOCK_NONE) Hr).
  - exact (balanced_request _ _ _ _ _ _ _ (balanced_body_method _ p "PUT" RW_LOCK_READ) Hr).
  - exact (balanced_request _ _ _ _ _ _ _ (balanced_body_method _ p "DELETE" RW_LOCK_WRITE) Hr).
  - refine (balanced_request _ _ _ _ _ _ _ _ Hr). intros h. apply triple_at; [orderly|keeps].
  - unfold dav_put in Hr. rewrite buffer_request in Hr by done.
    exact (balanced_request _ _ _ _ _ _ _ (balanced_body_put _ p n o) Hr).
  - exact (balanced_request _ _ _ _ _ _ _ (balanced_body_move _ a b false) Hr).
  - exact (balanced_request _ _ _ _ _ _ _ (balanced_body_move _ a b true) Hr).
  - exact (balanced_request _ _ _ _ _ _ _ (balanced_body_copy _ b) Hr).
  - unfold dav_proppatch in Hr. rewrite buffer_request in Hr by done.
    refine (balanced_request _ _ _ _ _ _ _ _ Hr). intros h.
    apply triple_at; [apply orderly_throwable, noret_scope_slist1; orderly|keeps].
Qed.

(** C6: a request that succeeds leaves the lock of the lock table as it found it. One that fails
    may leave it taken, because [throwable scope (...)] leaves the block before the unlock; and
    these are the only ways a request ends. *)
Theorem request_lock_balance (r : request) l g c l' g' :
  run_request r (l, g) = (c, (l', g')) ->
  (c = Ret 0 /\ g_rwlock g' = g_rwlock g)
  \/ (c = Ret 1 /\ (g_rwlock g' = g_rwlock g \/ leaked (g_rwlock g) (g_rwlock g')))
  \/ exists f, c = Stuck f.
Proof. apply request_lock_balanced. Qed.
End Balance.

(** ** The lock after a failed transfer *)

(** The transfer fails whatever the callbacks answer. *)
Inductive xfer_fails {W} : xfer W -> Prop :=
  | fails_done w code info : code <> CURLE_OK -> xfer_fails (XDone w code info)
  | fails_header line k : (forall n, xfer_fails (k n)) -> xfer_fails (XHeader line k)
  | fails_write chunk k : (forall n, xfer_fails (k n)) -> xfer_fails (XWrite chunk k)
  | fails_read n k : (forall b, xfer_fails (k b)) -> xfer_fails (XRead n k).

(** The requests that take the lock when the file system is mounted with [use_lock]; the two moves
    and the copy are left out. *)
Definition takes_lock (r : request) : bool :=
  match r with Rput_simple _ | Rdelete _ | Rput _ _ _ _ => true | _ => false end.

Section Leak.
Context `{E : Env}.
Implicit Types P Q B : G -> Prop.

Definition uses_locks (g : G) : Prop := use_lock (options (g_server g)) = true.
Definition same_server (g g' : G) : Prop := g_server g' = g_server g.
#[export] Instance same_server_io : IORel same_server.
Proof. by repeat (split; unfold same_server; try congruence). Qed.

Lemma io_step_uses_locks g g' : io_step g g' -> uses_locks g -> uses_locks g'.
Proof. intros H. unfold uses_locks. by rewrite (H same_server _). Qed.
Lemma io_step_sent g g' : io_step g g' -> g_sent g' = g_sent g.
Proof. intros H. exact (H same_sent _). Qed.

(** The value of [use_locks] is known. *)
Lemma triple_use_locks P Q B (f : bool -> M (Frame * G) Z unit) :
  (forall g, P g -> uses_locks g) -> triple P (f true) Q B ->
  triple P (bind use_locks f) Q B.
Proof.
  intros HP Hf l g Hg. unfold bind, use_locks, shared, gets. simpl. rewrite (HP g Hg). by apply Hf.
Qed.

Lemma run_xfer_fails {R} h o x l g c s' :
  xfer_fails x -> run_xfer (R := R) h o x (l, g) = (Next c, s') -> c <> CURLE_OK.
Proof.
  intros Hx. revert l g. induction Hx as [w code info Hc|line k Hk IH|ch k Hk IH|n k Hk IH];
    intros l g; simpl.
  - unfold bind, upd_shared, modify, mret. intros H. by simplify_eq.
  - unfold bind. destruct (header_callback _ _ _) as [[] [l1 g1]]; intros H; simplify_eq; eauto.
  - unfold bind. destruct (write_callback _ _ _) as [[] [l1 g1]]; intros H; simplify_eq; eauto.
  - unfold bind. destruct (read_callback _ _ _) as [[] [l1 g1]]; intros H; simplify_eq; eauto.
Qed.

(** Nothing follows a transfer that fails. *)
Lemma triple_perform_fails {R} P h :
  (forall o w, xfer_fails (env_easy_perform o w)) ->
  (forall g g', P g -> same_rwlock g g' -> P g') ->
  triple (R := R) P (curl_easy_perform_or_die h) (fun _ => False) P.
Proof.
  intros Hf HP l g Hg.
  pose proof (orderly_curl_easy_perform_or_die (R := R) h (l, g)) as Ho.
  pose proof (keeps_curl_easy_perform_or_die same_rwlock (R := R) h (l, g)) as Hk.
  assert (forall a s', curl_easy_perform_or_die (R := R) h (l, g) <> (Next a, s')) as Hn.
  { intros a s' H. unfold curl_easy_perform_or_die, curl_do_or_die in H.
    unfold bind at 1 in H. destruct (curl_easy_perform h (l, g)) as [cp [l1 g1]] eqn:Hp.
    destruct cp as [code| | | |]; try done.
    assert (code <> CURLE_OK) as Hc.
    { unfold curl_easy_perform in Hp. destruct h as [h|]; [|by injection Hp as <-].
      unfold bind, shared, gets, upd_shared, modify in Hp. simpl in Hp.
      destruct (g_handles g !! h) as [e|]; [|done]. simpl in Hp.
      eapply run_xfer_fails, Hp. apply Hf. }
    apply Z.eqb_neq in Hc. rewrite Hc in H. simpl in H. rewrite throw_run in H.
    by destruct (absorb _) as [[] ?]. }
  unfold on_shared in Hk.
  destruct (curl_easy_perform_or_die h (l, g)) as [[] [l1 g1]] eqn:Hr; simpl in *; try done.
  - by destruct (Hn a (l1, g1)).
  - eauto.
Qed.

(** Before the lock is requested. *)
Definition fresh_req k n (g : G) : Prop := g_rwlock g = k /\ g_sent g = n /\ uses_locks g.
(** At the end of a failed request: nothing was sent, or the lock is still taken. *)
Definition wedged k n (g : G) : Prop :=
  (g_rwlock g = k /\ g_sent g = n) \/ leaked k (g_rwlock g).

Lemma triple_wedge_held {A R} lt k n (m : M (Frame * G) R A) :
  orderly m -> keeps (on_shared same_rwlock) m -> triple (held lt k) m (held lt k) (wedged k n).
Proof.
  intros. apply (triple_keeps same_rwlock); [done..| |].
  - unfold held, same_rwlock. by intros ?? ? ->.
  - intros g1 Hg. right. by exists lt.
Qed.

Ltac stay lt k :=
  simple apply triple_bind with (held lt k);
  [apply triple_wedge_held; [solve [orderly]|solve [keeps]]|intros ?].

Lemma triple_wedge_end {R} lt k n h :
  (forall o w, xfer_fails (env_easy_perform o w)) ->
  triple (R := R) (held lt k) (curl_easy_perform_or_die h) (fun _ => False) (wedged k n).
Proof.
  intros Hf. eapply triple_conseq; [apply (triple_perform_fails (held lt k)); [done|]|done..|].
  - unfold held, same_rwlock. by intros ?? ? ->.
  - intros g Hg. right. by exists lt.
Qed.

Lemma triple_false {A R} Q B (m : M (Frame * G) R A) : triple (fun _ => False) m Q B.
Proof. by intros l g []. Qed.

Lemma wedged_body_method k n path method lt h :
  (forall o w, xfer_fails (env_easy_perform o w)) -> lt <> RW_LOCK_NONE ->
  triple (fresh_req k n)
    (ul <- use_locks ;;
     let locking := ul && negb (bool_decide (lt = RW_LOCK_NONE)) in
     when locking
       match lt with
       | RW_LOCK_NONE => skip
       | RW_LOCK_READ => rdlock
       | RW_LOCK_WRITE => wrlock
       end ;;;
     throwable (scope_slist
       (when locking (add_header_if path lt ;;; set_headers h) ;;;
        curl_easy_setopt_or_die h CURLOPT_CUSTOMREQUEST (VStr (Some method)) ;;;
        curl_easy_setopt_ h CURLOPT_NOBODY (VLong 1) ;;;
        curl_easy_perform_or_die h)) ;;;
     when locking unlock) (fun _ => False) (wedged k n).
Proof.
  intros Hf Hlt. apply triple_use_locks; [by intros g (_ & _ & ?)|].
  rewrite bool_decide_false by done. simpl.
  apply triple_bind with (held lt k).
  { apply triple_conseq with (at_lock k) (held lt k) (wedged k n); [|by intros g []|done..].
    destruct lt; [done|apply triple_rdlock|apply triple_wrlock]. }
  intros _. apply triple_bind with (fun _ => False); [|intros _; apply triple_false].
  apply triple_scope; [intros g Hg; right; by exists lt|done|].
  repeat stay lt k. by apply triple_wedge_end.
Qed.

Lemma wedged_body_put k n path size offset h :
  (forall o w, xfer_fails (env_easy_perform o w)) ->
  triple (fresh_req k n)
    (throwable (scope_slist
       (ul <- use_locks ;;
        when ul (rdlock ;;; add_header_if path RW_LOCK_READ ;;; set_headers h) ;;;
        curl_easy_setopt_ h CURLOPT_UPLOAD (VLong 1) ;;;
        curl_easy_setopt_ h CURLOPT_READDATA (VData AT_buf) ;;;
        curl_easy_setopt_ h CURLOPT_READFUNCTION (VFun CB_Buffer_fetch) ;;;
        set_range h offset size ;;;
        curl_easy_setopt_ h CURLOPT_INFILESIZE (VLong (i64 size)) ;;;
        curl_easy_perform_or_die h ;;;
        when ul unlock))) (fun _ => False) (wedged k n).
Proof.
  intros Hf. apply triple_scope; [by intros g (? & ? & _); left|done|].
  apply triple_use_locks; [by intros g (_ & _ & ?)|]. simpl.
  apply triple_bind with (held RW_LOCK_READ k).
  { apply triple_bind with (held RW_LOCK_READ k).
    { apply triple_conseq with (at_lock k) (held RW_LOCK_READ k) (wedged k n);
        [apply triple_rdlock|by intros g []|done..]. }
    intros _. apply triple_wedge_held; [orderly|keeps]. }
  intros _. do 5 stay RW_LOCK_READ k.
  apply triple_bind with (fun _ => False); [by apply triple_wedge_end|].
  intros _. apply triple_false.
Qed.

(** A request of such a block. *)
Lemma wedged_request p body l g c l' g' :
  uses_locks g -> (forall h, triple (fresh_req (g_rwlock g) (g_sent g)) (body h) (fun _ => False)
                               (wedged (g_rwlock g) (g_sent g))) ->
  bind (with_server_curl p body) (fun _ => return_status) (l, g) = (c, (l', g')) ->
  (c = Ret 1 /\ wedged (g_rwlock g) (g_sent g) g') \/ exists f, c = Stuck f.
Proof.
  intros Hu Hb Hr. eapply request_triple in Hr; [| |exact Hb|done|].
  - destruct Hr as [[_ []]|[(-> & [[]|[Hw|Hi]])|Hf]]; [by left| |by right].
    left. split; [done|]. left. split; [by apply io_step_rwlock|by apply io_step_sent].
  - intros g1 Hi _. unfold fresh_req. splits; eauto using io_step_rwlock, io_step_sent, io_step_uses_locks.
  - intros g1 g2 Hi. unfold wedged.
    by rewrite (io_step_rwlock _ _ Hi), (io_step_sent _ _ Hi).
Qed.

(** C7: on a mount with [use_lock], when the server cannot be reached or answers with an error,
    a PUT or a DELETE that was put on the network fails and leaves the lock of the lock table
    taken. *)
Theorem failed_transfer_leaks_lock (r : request) l g c l' g' :
  (forall o w, xfer_fails (env_easy_perform o w)) -> takes_lock r = true -> uses_locks g ->
  run_request r (l, g) = (c, (l', g')) -> (forall f, c <> Stuck f) ->
  c = Ret 1 /\ (g_sent g' <> g_sent g -> leaked (g_rwlock g) (g_rwlock g')).
Proof.
  intros Hf Ht Hu Hr Hns. destruct (Exception_has (g_ex g)) eqn:He.
  { destruct (pending_request_idle _ _ _ _ _ _ He Hr) as (Hs & _ & _ & [->|[f Hf']]);
      [|by destruct (Hns f)]. split; [done|]. by intros []. }
  assert ((c = Ret 1 /\ wedged (g_rwlock g) (g_sent g) g') \/ exists f, c = Stuck f) as Hw.
  { destruct r; try done; simpl in Hr.
    - exact (wedged_request _ _ _ _ _ _ _ Hu
        (fun h => wedged_body_method _ _ path "PUT" RW_LOCK_READ h Hf ltac:(done)) Hr).
    - exact (wedged_request _ _ _ _ _ _ _ Hu
        (fun h => wedged_body_method _ _ path "DELETE" RW_LOCK_WRITE h Hf ltac:(done)) Hr).
    - unfold dav_put in Hr. rewrite buffer_request in Hr by done.
      exact (wedged_request _ _ _ _ _ _ _ Hu
        (fun h => wedged_body_put _ _ path size offset h Hf) Hr). }
  destruct Hw as [[-> [[_ Hs]|Hl]]|[f ->]]; [by split|by split|by destruct (Hns f)].
Qed.

(** C8: once the lock was left taken, no later DELETE succeeds, whatever the server answers: the
    write lock is never granted again. *)
Theorem leaked_lock_blocks_delete k path l g c l' g' :
  uses_locks g -> leaked k (g_rwlock g) -> run_request (Rdelete path) (l, g) = (c, (l', g')) ->
  c <> Ret 0.
Proof.
  intros Hu Hl Hr ->. simpl in Hr. unfold dav_delete, __dav_method in Hr.
  eapply (request_triple (fun g1 => uses_locks g1 /\ leaked k (g_rwlock g1)) (fun _ => False)
    (fun _ => True)) in Hr; [| | |done..].
  - destruct Hr as [[_ []]|[(? & _)|[f ?]]]; congruence.
  - intros g1 Hi _. split; [by eapply io_step_uses_locks|]. by rewrite (io_step_rwlock _ _ Hi).
  - intros h. apply triple_use_locks; [by intros ? []|]. simpl.
    apply triple_bind with (fun _ => False); [|intros _; apply triple_false].
    intros l1 g1 [_ [lt Ht]]. unfold wrlock, bind, shared, gets, stuck. simpl.
    destruct lt; simpl in Ht; [done|destruct Ht as [_ ->]|destruct Ht as (_ & _ & ->)]; done.
Qed.
End Leak.

(** ** Witnesses *)

Definition demo_lock : string * addr * FileLock :=
  ("/a"%string, 5%positive, mkFileLock (Some "/a"%string) (Some "tok"%string) 1).

(** A run of a request against a server that answers with [code]. *)
Definition demo_g (code : Z) (e : Exception) : @G (demo_env (answers code) None) :=
  demo_state (answers code) None true [demo_lock] e.
Definition demo_l (code : Z) : @Frame (demo_env (answers code) None) := @frame0 _.
#[local] Abbreviation demo_run code e r :=
  (run_request (E := demo_env (answers code) None) r (demo_l code, demo_g code e)).

Lemma request_lock_balance_witness :
  (demo_run 500 ex0 (Rput "/a" (lit "x") 1 0)).1 = Ret 1
  /\ leaked (mkRWLock 0 false) (g_rwlock (demo_run 500 ex0 (Rput "/a" (lit "x") 1 0)).2.2).
Proof.
  destruct (request_lock_balance (E := demo_env (answers 500) None) (Rput "/a" (lit "x") 1 0)
    (demo_l 500) (demo_g 500 ex0) _ _ _
    (run_eta (demo_run 500 ex0 (Rput "/a" (lit "x") 1 0)))) as [[Hc _]|[[Hc [He|Hl]]|[f Hf]]].
  - vm_compute in Hc. discriminate.
  - vm_compute in He. discriminate.
  - exact (conj Hc Hl).
  - vm_compute in Hf. discriminate.
Defined.

Lemma answers_fails (code : Z) o w : 400 <= code -> xfer_fails (answers code o w).
Proof.
  intros. unfold answers. apply fails_done. by rewrite (proj2 (Z.ltb_ge code 400)) by done.
Qed.

Lemma failed_transfer_leaks_lock_witness :
  (demo_run 404 ex0 (Rdelete "/a")).1 = Ret 1
  /\ leaked (mkRWLock 0 false) (g_rwlock (demo_run 404 ex0 (Rdelete "/a")).2.2).
Proof.
  destruct (failed_transfer_leaks_lock (E := demo_env (answers 404) None) (Rdelete "/a")
    (demo_l 404) (demo_g 404 ex0) _ _ _ (fun o w => answers_fails 404 o w ltac:(lia)) eq_refl eq_refl
    (run_eta (demo_run 404 ex0 (Rdelete "/a"))) ltac:(vm_compute; discriminate)) as [Hc Hl].
  split; [exact Hc|]. apply Hl. vm_compute. discriminate.
Defined.

(** The lock as a failed PUT left it. *)
Definition demo_leaked : @G (demo_env (answers 200) None) :=
  set_g_rwlock (mkRWLock 1 false) (demo_g 200 ex0).

Lemma leaked_lock_blocks_delete_witness :
  (run_request (E := demo_env (answers 200) None) (Rdelete "/a")
     (demo_l 200, demo_leaked)).1 <> Ret 0.
Proof.
  refine (leaked_lock_blocks_delete (E := demo_env (answers 200) None) (mkRWLock 0 false) "/a"
    (demo_l 200) demo_leaked _ _ _ eq_refl _ (run_eta _)).
  exists RW_LOCK_READ. split; reflexivity.
Defined.
