(* ===== verification/Pool.v ===== *)
(** * The pool of curl handles

    Between two requests every live handle is in the pool, once; a request borrows one and gives it
    back, or closes it. A [with_curl] block is never stuck by itself: neither the functions of the
    pool nor those of the handle go through a pointer that is NULL or to an object that is gone. *)

From S2P Require Import Prelude Utils Exception Control Buffer Stack State Wp Demo Curl Rules Method MethodSpec.
#[local] Open Scope Z_scope.
#[local] Open Scope c_scope.

(** A statement with a known relation to its start. *)
Lemma wp_and_keeps {S R A} `{HasEx S} {F : Prop} (Rel : S -> S -> Prop) (m : M S R A) Q B (T : R -> S -> Prop) s :
  keeps Rel m ->
  gwp F m (fun a s' => Rel s s' -> Q a s') (fun s' => Rel s s' -> B s') (fun r s' => Rel s s' -> T r s') s ->
  gwp F m Q B T s.
Proof. intros Hk. specialize (Hk s). unfold gwp. destruct (m s) as [[] s']; simpl in *; auto. Qed.

Section Pool.
Context `{E : Env}.
Implicit Types (g : G) (h : addr).

(** [borrowed] are the handles that requests hold. The nodes of the pool are the live nodes, and the handles
    in it and the borrowed ones are the live handles, each once; every address was handed
    out before. *)
Definition pool (borrowed : list addr) (g : G) : Prop :=
  exists l, linked (g_stack g) l
    /\ dom (heap (g_stack g)) = list_to_set l.*1
    /\ NoDup (borrowed ++ l.*2)
    /\ dom (g_handles g) = list_to_set (borrowed ++ l.*2)
    /\ forall a, a ∈ borrowed ++ l.*1 ++ l.*2 -> (a < g_next g)%positive.

Lemma pool_same b g g' :
  g_stack g' = g_stack g -> dom (g_handles g') = dom (g_handles g) -> (g_next g <= g_next g')%positive ->
  pool b g -> pool b g'.
Proof.
  intros Hs Hh Hn (l & ? & ? & ? & ? & Ha). exists l. rewrite Hs, Hh. splits; try done.
  intros a Hin. specialize (Ha a Hin). lia.
Qed.

Lemma pool_world b g w : pool b g -> pool b (set_g_world w g).
Proof. by apply pool_same. Qed.
Lemma pool_ex b g e : pool b g -> pool b (set_g_ex e g).
Proof. by apply pool_same. Qed.
Lemma pool_update b g h e n :
  g_handles g !! h = Some e -> pool b g -> pool b (set_g_handles (<[h := n]> (g_handles g)) g).
Proof.
  intros He. apply pool_same; [done| |simpl; lia]. simpl. rewrite dom_insert_lookup_L; eauto.
Qed.

(** A borrowed handle is live. *)
Lemma pool_live h b g : pool (h :: b) g -> is_Some (g_handles g !! h).
Proof.
  intros (l & _ & _ & _ & Hd & _). apply elem_of_dom. rewrite Hd. set_solver.
Qed.

(** A handle without functions of the program. *)
Definition plain_opts (opts : list (CURLoption * optval)) : Prop :=
  last_opt CURLOPT_HEADERFUNCTION opts = None /\ last_opt CURLOPT_WRITEFUNCTION opts = None
  /\ last_opt CURLOPT_READFUNCTION opts = None.
Definition plain h g : Prop := exists e, g_handles g !! h = Some e /\ plain_opts (easy_opts e).

Definition is_function (o : CURLoption) : bool :=
  match o with
  | CURLOPT_HEADERFUNCTION | CURLOPT_WRITEFUNCTION | CURLOPT_READFUNCTION => true
  | _ => false
  end.

Lemma plain_add o v opts : is_function o = false -> plain_opts opts -> plain_opts (opts ++ [(o, v)]).
Proof. intros Ho (H1 & H2 & H3). unfold plain_opts. rewrite !last_opt_other; [done|by intros ->..]. Qed.
End Pool.

(** ** Making a handle ready *)

Section Init.
Context `{E : Env}.
Implicit Types (g : G) (h : addr).

(** The handle in the local [this] is borrowed, and no function of the program is set on it; [P] says
    more of the locals. *)
Definition holds (P : InitFrame -> Prop) (s : InitFrame * G) : Prop :=
  P s.1 /\ exists h, this s.1 = Some h /\ pool [h] s.2 /\ plain h s.2.

Section Holds.
Variable P : InitFrame -> Prop.

Lemma holds_ex e s : holds P s -> holds P (put_ex e s).
Proof. intros (HP & h & Ht & Hp & Hq). split; [done|]. exists h. splits; [done|by apply pool_ex|done]. Qed.
Lemma holds_world (l : InitFrame) g w : holds P (l, g) -> holds P (l, set_g_world w g).
Proof. intros (HP & h & Ht & Hp & Hq). split; [done|]. exists h. splits; [done|by apply pool_world|done]. Qed.
#[local] Hint Resolve holds_ex : safe.

Lemma safe_ext {A} (f : World -> A * World) : gsafe (R := option addr) False (holds P) never (ext f).
Proof. intros [l g] Hs. by apply wp_ext, holds_world. Qed.
Lemma safe_upd_frame (f : InitFrame -> InitFrame) :
  (forall l, P l -> P (f l) /\ this (f l) = this l) -> gsafe (R := option addr) False (holds P) never (upd_local f).
Proof.
  intros Hf [l g] (HP & h & Ht & Hp). apply wp_upd_local. destruct (Hf l HP) as [HP' Ht'].
  split; [done|]. exists h. simpl. by rewrite Ht'.
Qed.
Lemma safe_local : gsafe (R := option addr) False (holds P) never local.
Proof. apply safe_gets. Qed.
#[local] Hint Resolve safe_ext safe_local : safe.

Lemma holds_setopt (l : InitFrame) g h e o v code w :
  P l -> is_function o = false -> this l = Some h -> pool [h] g -> g_handles g !! h = Some e ->
  plain_opts (easy_opts e) ->
  holds P (l, if code =? CURLE_OK
            then set_g_handles (<[h := mkEasy (easy_opts e ++ [(o, v)]) (easy_info e)]> (g_handles g)) (set_g_world w g)
            else set_g_world w g).
Proof.
  intros HP Ho Ht Hp He Hpl. split; [done|]. exists h. destruct (code =? CURLE_OK); simpl.
  - splits; [done|by eapply (pool_update _ (set_g_world w g)); [|apply pool_world]|].
    eexists. simpl. rewrite lookup_insert_eq. split; [done|]. by apply plain_add.
  - splits; [done|by apply pool_world|by exists e].
Qed.

Lemma safe_opt o v : is_function o = false -> safe (holds P) never (opt o v).
Proof.
  intros Ho [l g] (HP & h & Ht & Hp & e & He & Hpl). simpl in *.
  apply wp_bind, wp_local, wp_bind. rewrite Ht.
  apply (wp_setopt_live _ e); [done|]. intros code _ g'. apply wp_skip. by apply holds_setopt.
Qed.

Lemma safe_setopt_or_die l g o v :
  is_function o = false -> holds P (l, g) ->
  twp (curl_easy_setopt_or_die (R := option addr) (this l) o v) (fun _ => holds P) (holds P)
    never (l, g).
Proof.
  intros Ho (HP & h & Ht & Hp & e & He & Hpl). simpl in *.
  apply wp_do_or_die. rewrite Ht. apply (wp_setopt_live _ e); [done|]. intros code _ g'.
  pose proof (holds_setopt l g h e o v code (g_world g') HP Ho Ht Hp He Hpl) as Hn.
  destruct (code =? CURLE_OK); [exact Hn|]. split.
  - intros x [= <-]. by exists e.
  - intros ex _. by apply (holds_ex ex (l, g')).
Qed.

Lemma safe_opt_or_die o v : is_function o = false -> safe (holds P) never (opt_or_die o v).
Proof. intros Ho [l g] Hs. by apply wp_bind, wp_local, safe_setopt_or_die. Qed.
#[local] Hint Resolve safe_opt safe_opt_or_die : safe.

Lemma safe_set_options o : safe (holds P) never (set_options o).
Proof. unfold set_options, set_proxy_options, set_ssl_options. safe. Qed.
End Holds.

#[local] Hint Resolve holds_ex safe_ext safe_local safe_opt safe_opt_or_die safe_set_options : safe.

Definition has_url (l : InitFrame) : Prop := is_Some (clean_url l).

Lemma safe_url_set part c f :
  gsafe (R := option addr) False (holds has_url) never (curl_url_set_or_die clean_url set_clean_url part c f).
Proof.
  intros [l g] [[u Hu] Hh].
  assert (forall u' w, holds has_url (set_clean_url (Some u') l, set_g_world w g)) as Hs.
  { intros. apply holds_world. split; [by eexists|done]. }
  apply (wp_url_set _ _ _ _ _ u); [done|]. split; [by intros _|]. intros _ e _. exact (holds_ex has_url e _ (Hs _ _)).
Qed.

Lemma safe_url_get part l g :
  holds has_url (l, g) ->
  gwp (R := option addr) False (curl_url_get_or_die (clean_url l) part set_s_url) (fun _ => holds has_url)
    (holds has_url) never (l, g).
Proof.
  intros [[u Hu] Hh]. simpl in Hu. rewrite Hu. apply wp_url_get. split.
  - intros _. apply holds_world. split; [by eexists|done].
  - intros _ e _. apply (holds_ex has_url e (l, set_g_world _ g)), holds_world. split; [by eexists|done].
Qed.

Definition any (l : InitFrame) : Prop := True.
Lemma holds_any P s : holds P s -> holds any s.
Proof. by intros [_ Hs]. Qed.

Lemma safe_set_url u path : safe (holds any) never (set_url u path).
Proof.
  assert (gsafe (R := option addr) False (holds has_url) never
    (match path with
       | Some path =>
           let path := match path with String "/" p => p | _ => path end in
           when (negb (bool_decide (path = EmptyString)))
             (curl_url_set_or_die clean_url set_clean_url CURLUPART_URL (Some path) CURLU_URLENCODE)
       | None => skip
       end ;;;
       throwable (with_seperated
         (upd_local (set_s_url None))
         (fun _ => l <- local ;; curl_url_get_or_die (clean_url l) CURLUPART_URL set_s_url)
         (fun _ => skip)
         (fun _ =>
            l <- local ;;
            curl_easy_setopt_or_die (this l) CURLOPT_URL (VStr (s_url l)))))) as Hbody.
  { apply safe_bind; [destruct path; safe; apply safe_url_set|]. intros _. apply safe_throwable.
    apply safe_with_seperated; [by apply safe_upd_frame|..|safe|].
    - intros _ [l g] Hs. by apply wp_bind, wp_local, safe_url_get.
    - intros _ [l g] Hs. by apply wp_bind, wp_local, safe_setopt_or_die. }
  apply safe_throwable. intros [l g] Hs. apply wp_with_assign. do 2 apply wp_bind. apply wp_ext, wp_bind.
  pose proof (holds_world _ _ _ (env_url_dup u (g_world g)).2 Hs) as Hs1.
  set (g1 := set_g_world _ g) in *. destruct (env_url_dup u (g_world g)).1 as [u1|]; simpl.
  - apply wp_skip, wp_mret, wp_upd_local.
    assert (holds has_url (set_clean_url (Some u1) l, g1)) as H1.
    { destruct Hs1 as [_ Hs1]. split; [by eexists|exact Hs1]. }
    destruct (Exception_has _); [by apply (holds_any has_url)|].
    refine (wp_mono _ _ _ _ _ _ _ _ (Hbody _ H1) _ _ _); [intros; by eapply holds_any..|done].
  - apply wp_upd_ex, wp_mret, wp_upd_local. apply wp_skip. simpl.
    exact (holds_ex any _ (set_clean_url None l, g1) Hs1).
Qed.

#[local] Hint Resolve safe_set_url : safe.

(** What [curl_easy_init_common] returns with: a borrowed handle, or none and an exception. *)
Definition ready (r : option addr) g : Prop :=
  match r with
  | Some h => pool [h] g /\ plain h g
  | None => pool [] g /\ Exception_has (g_ex g) = true
  end.

Lemma reset_twp h e (l : InitFrame) g Q B T :
  g_handles g !! h = Some e ->
  Q tt (l, set_g_handles (<[h := mkEasy [] (easy_info e)]> (g_handles g)) g) ->
  gwp (R := option addr) False (curl_easy_reset h) Q B T (l, g).
Proof.
  intros He HQ. apply wp_bind, wp_shared, wp_bind, (wp_deref_some _ e); [done|]. by apply wp_upd_shared.
Qed.

(** A handle leaves the pool: its node goes, its options are forgotten. *)
Lemma pool_take g m a h l e :
  linked m l -> heap m !! a = Some (mkNode None h) -> dom (heap m) = list_to_set (a :: l.*1) ->
  a ∉ l.*1 -> NoDup (h :: l.*2) -> g_handles g !! h = Some e -> dom (g_handles g) = list_to_set (h :: l.*2) ->
  (forall x, x ∈ (a :: l.*1) ++ h :: l.*2 -> (x < g_next g)%positive) ->
  g_stack g = mkStackMem (delete a (heap m)) (next m) (stack_size m) (locked m) ->
  let g' := set_g_handles (<[h := mkEasy [] (easy_info e)]> (g_handles g)) g in
  pool [h] g' /\ plain h g'.
Proof.
  intros Hl Ha Hdm Hna Hn He Hh Hlt Hs. split.
  - exists l. simpl. rewrite Hs. splits.
    + destruct Hl as [Hc Hd Hu]. split; simpl; [by apply chain_delete_ne|done|done].
    + simpl. rewrite dom_delete_L, Hdm. simpl.
      apply set_eq. intros x. rewrite elem_of_difference, elem_of_union, elem_of_list_to_set, elem_of_singleton.
      split; [tauto|]. intros Hx. split; [by right|]. by intros ->.
    + done.
    + by rewrite dom_insert_lookup_L by (by eexists).
    + intros x Hx. apply Hlt. set_solver.
  - eexists. simpl. by rewrite lookup_insert_eq.
Qed.

(** A new handle. *)
Lemma pool_open g :
  pool [] g ->
  let g' := set_g_handles (<[g_next g := mkEasy [] no_info]> (g_handles g)) (set_g_next (Pos.succ (g_next g)) g) in
  pool [g_next g] g' /\ plain (g_next g) g'.
Proof.
  intros (l & Hl & Hd & Hn & Hh & Ha). split.
  - exists l. simpl in *. splits; [done..| | |].
    + apply NoDup_cons. split; [|done]. intros Hin. specialize (Ha (g_next g)).
      assert (g_next g < g_next g)%positive by (apply Ha; set_solver). lia.
    + by rewrite dom_insert_L, Hh.
    + intros a Hin. apply elem_of_cons in Hin as [->|Hin]; [lia|]. specialize (Ha a Hin). lia.
  - eexists. simpl. by rewrite lookup_insert_eq.
Qed.

Lemma take_handle_twp g :
  pool [] g -> twp take_handle (fun _ => holds any)
    (fun s => this s.1 = None /\ pool [] s.2 /\ Exception_has (g_ex s.2) = true) (fun _ _ => False)
    (init_frame0, g).
Proof.
  intros (l & Hl & Hd & Hn & Hh & Ha). apply wp_bind, wp_call_wp.
  destruct (Stack_pop_run g l 1) as (m & Hr & Hl' & Hhd & Hdm & _); [exact Hl|].
  unfold gwp at 1. unfold SPIN_FUEL. rewrite Hr. cbn [fst snd].
  change (put_stack m g) with (set_g_stack m g). set (g1 := set_g_stack m g).
  destruct l as [|[a h] l]; cbn [fmap list_fmap fst snd head tail] in *.
  - assert (pool [] g1) as Hp by (exists []; simpl in *; rewrite Hdm; done).
    apply wp_bind, wp_bind, wp_ext. apply (pool_world _ _ (env_easy_init (g_world g1)).2) in Hp.
    set (g2 := set_g_world _ g1) in *. destruct (env_easy_init (g_world g1)).1.
    + apply wp_bind, wp_fresh_addr, wp_bind, wp_upd_shared, wp_mret, wp_bind, wp_upd_local, wp_skip.
      split; [done|]. exists (g_next g2). split; [done|]. by apply pool_open.
    + apply wp_mret, wp_bind, wp_upd_local, wp_throw, wp_upd_ex. split; [done|]. split; [|done]. by do 2 apply pool_ex.
  - apply wp_bind, wp_shared, wp_bind, (wp_deref_some _ (mkNode None h)); [by apply Hhd|].
    apply wp_bind, wp_upd_local, wp_bind, wp_modify. cbn [node_value].
    assert (is_Some (g_handles g !! h)) as [e He] by (apply elem_of_dom; rewrite Hh; set_solver).
    apply (reset_twp h e); [exact He|]. split; [done|]. exists h. split; [done|].
    assert (a ∉ l.*1) as Hna by (pose proof (link_nodup _ _ Hl) as Hnd; by apply NoDup_cons in Hnd as [? _]).
    refine (pool_take (set_g_stack (mkStackMem (delete a (heap m)) (next m) (stack_size m) (locked m)) g)
      m a h l e Hl' _ _ Hna Hn He Hh Ha eq_refl); [by apply Hhd|by rewrite Hdm].
Qed.

(** Closing a handle. *)
Lemma pool_close h g : pool [h] g -> pool [] (set_g_handles (delete h (g_handles g)) g).
Proof.
  intros (l & Hl & Hd & Hn & Hh & Ha). simpl in *. apply NoDup_cons in Hn as [Hni Hn].
  exists l. simpl. splits; [done..| |].
  - rewrite dom_delete_L, Hh. simpl. apply set_eq. intros x.
    rewrite elem_of_difference, elem_of_union, !elem_of_list_to_set, elem_of_singleton.
    split; [tauto|]. intros Hx. split; [by right|]. by intros ->.
  - intros a Hin. apply Ha. set_solver.
Qed.

(** Putting a handle back, on a new node. *)
Lemma pool_return h g m l :
  linked m ((g_next g, h) :: l) -> dom (heap (g_stack g)) = list_to_set l.*1 -> NoDup (h :: l.*2) ->
  dom (g_handles g) = list_to_set (h :: l.*2) ->
  (forall a, a ∈ h :: l.*1 ++ l.*2 -> (a < g_next g)%positive) ->
  dom (heap m) = {[g_next g]} ∪ dom (heap (g_stack g)) ->
  pool [] (set_g_stack m (set_g_next (Pos.succ (g_next g)) g)).
Proof.
  intros Hl Hd Hn Hh Ha Hdm. exists ((g_next g, h) :: l). simpl in *. splits.
  - done.
  - rewrite Hdm, Hd. done.
  - done.
  - done.
  - intros a Hin. apply elem_of_cons in Hin as [->|Hin]; [lia|].
    assert (a < g_next g)%positive by (apply Ha; set_solver). lia.
Qed.

Lemma cleanup_common_twp {L R} h (l : L) g Q B (T : R -> L * G -> Prop) :
  pool [h] g ->
  (forall g', pool [] g' -> Q tt (l, g')) ->
  gwp False (curl_easy_cleanup_common (Some h)) Q B T (l, g).
Proof.
  intros Hp HQ. apply wp_bind, wp_ext. apply (pool_world _ _ (env_malloc (g_world g)).2) in Hp.
  set (g1 := set_g_world _ g) in *. destruct (env_malloc (g_world g)).1.
  - apply wp_bind, wp_fresh_addr, wp_bind, wp_modify.
    set (s1 := put_stack _ _).
    assert (forall x, linked (g_stack g1) x -> g_next g1 ∉ x.*1 -> linked (get_stack s1) x) as Hadd.
    { intros x [Hc Hd Hu] Hx. split; [by apply chain_insert_ne|done|done]. }
    destruct Hp as (x & Hx & Hd & Hn & Hh & Ha).
    assert (g_next g1 ∉ x.*1) as Hfresh.
    { intros Hin. assert (g_next g1 < g_next g1)%positive by (apply Ha; set_solver). lia. }
    destruct (Stack_push_run (R := R) s1 x (g_next g1) h None) as (m & Hr & Hl & Hdm & _);
      [by apply Hadd|by apply lookup_insert_eq|done|].
    unfold gwp. rewrite Hr. apply (HQ (set_g_stack m (set_g_next (Pos.succ (g_next g1)) g1))).
    apply (pool_return h g1 m x); [done..|].
    rewrite Hdm. apply dom_insert_L.
  - by apply wp_upd_shared, HQ, pool_close.
Qed.

Lemma init_common_twp url path options g :
  pool [] g ->
  twp (curl_easy_init_common url path options) (fun _ _ => False) (fun _ => False)
    (fun r s => ready r s.2) (init_frame0, g).
Proof.
  intros Hg. apply wp_bind, wp_try. cbv zeta.
  set (K := fun s' : InitFrame * G => if Exception_has (get_ex s') then _ else _).
  assert (forall s, holds any s -> K s) as HK.
  { intros [l g'] [_ (h & Ht & Hp & Hpl)]. unfold K. destruct (Exception_has _) eqn:He.
    - apply wp_onerror_default, wp_bind, wp_local, wp_bind. simpl in *. rewrite Ht.
      apply wp_upd_shared, wp_upd_local, wp_bind, wp_local, wp_return. split; [by apply pool_close|done].
    - apply wp_bind, wp_local, wp_return. simpl in *. by rewrite Ht. }
  apply wp_bind. refine (wp_mono _ _ _ _ _ _ _ _ (take_handle_twp g Hg) _ _ _); [|..|done].
  - intros _ s Hs. assert (forall m : M _ _ unit, safe (holds any) never m -> twp m (fun _ => K) K (fun r s => ready r s.2) s) as Hrest.
    { intros m Hm. by refine (wp_mono _ _ _ _ _ _ _ _ (Hm s Hs) (fun _ => HK) HK _). }
    apply Hrest. safe.
  - intros [l g'] (Ht & Hp & He). unfold K. simpl in *. rewrite He.
    apply wp_onerror_default, wp_bind, wp_local, wp_bind. simpl. rewrite Ht.
    by apply wp_skip, wp_upd_local, wp_bind, wp_local, wp_return.
Qed.
End Init.

(** ** A block with a handle *)

Section WithCurl.
Context `{E : Env} {L R : Type}.
Implicit Types (g : G) (h : addr).

Lemma keeps_init_step url path options :
  keeps (on_shared io_step) (curl_easy_init_common url path options).
Proof. intros s Rel HR. apply (keeps_curl_easy_init_common Rel). Qed.

Lemma keeps_cleanup_step (h : option addr) : keeps (S := L * G) (R := R) (on_shared io_step) (curl_easy_cleanup_common h).
Proof. intros s Rel HR. apply (keeps_curl_easy_cleanup_common Rel). Qed.

(** A predicate that curl.c cannot change. *)
Definition io_stable (I : L * G -> Prop) : Prop := forall l g g', I (l, g) -> io_step g g' -> I (l, g').

(** [with_curl] is never stuck by itself; it borrows a handle, runs the body without an exception
    pending, and the handle goes back whatever the body did. *)
Lemma with_curl_twp url path options (body : option addr -> M (L * G) R unit) (I I' : L * G -> Prop) l g :
  io_stable I -> io_stable I' -> (forall s, I s -> Exception_has (get_ex s) = true -> I' s) ->
  (forall h s, Exception_has (get_ex s) = false -> pool [h] s.2 -> plain h s.2 -> I s ->
     twp (body (Some h)) (fun _ s' => pool [h] s'.2 /\ I' s') (fun s' => pool [h] s'.2 /\ I' s') never s) ->
  pool [] g -> I (l, g) ->
  twp (with_curl url path options body) (fun _ s' => pool [] s'.2 /\ I' s') (fun _ => False) never (l, g).
Proof.
  intros HI HI' Hii Hbody Hg Hig. apply wp_with_assign, wp_bind, wp_call_wp.
  apply (wp_and_keeps _ _ _ _ _ _ (keeps_init_step _ _ _)).
  refine (wp_mono _ _ _ _ _ _ _ _ (init_common_twp _ _ _ _ Hg) _ _ _); [done..|].
  intros r [l1 g1] Hr Hstep. unfold on_shared in Hstep. cbn [fst snd] in *. apply wp_mret.
  destruct r as [h|]; cbn [ready] in Hr.
  - destruct Hr as [Hp Hpl].
    assert (forall s' : L * G, pool [h] s'.2 /\ I' s' ->
      gwp False (curl_easy_cleanup_common (R := R) (Some h)) (fun _ s' => pool [] s'.2 /\ I' s')
        (fun s' => pool [] s'.2 /\ I' s') never s') as HK.
    { intros [l2 g2] [Hp2 Hi2]. apply (wp_and_keeps _ _ _ _ _ _ (keeps_cleanup_step _)).
      apply cleanup_common_twp; [done|]. intros g' Hp' Hs'. split; [done|]. by apply HI' with g2. }
    assert (I (l, g1)) as Hi1 by by apply HI with g.
    destruct (Exception_has _) eqn:He; [apply HK; eauto|].
    refine (wp_mono _ _ _ _ _ _ _ _ (Hbody h (l, g1) He Hp Hpl Hi1) _ _ _); [|auto|done].
    intros _ s'. apply HK.
  - destruct Hr as [Hp He]. simpl. rewrite He. split; [done|]. apply Hii; [by apply HI with g|done].
Qed.
End WithCurl.

(** ** Requests with an exception pending *)

Section Pending.
Context `{E : Env}.
Implicit Types (g : G).

Definition pending (s : Frame * G) : Prop := Exception_has (get_ex s) = true.

(** Such a block takes a handle or none, runs nothing, and gives the handle back. *)
Lemma pending_block_twp p body l g :
  pool [] g -> pending (l, g) ->
  twp (with_server_curl (R := Z) p body) (fun _ s => pool [] s.2 /\ pending s) (fun _ => False) never (l, g).
Proof.
  intros Hp He. apply wp_bind, wp_shared.
  assert (io_stable (L := Frame) pending) as Hio by (intros l1 g1 g2 H1 Hs; by eapply io_step_pending).
  apply (with_curl_twp _ _ _ _ pending); [done..| |done|done].
  intros h s Hn _ _ Hy. unfold pending in Hy. congruence.
Qed.

Lemma pending_status_twp (s : Frame * G) :
  pool [] s.2 /\ pending s ->
  twp return_status (fun _ _ => False) (fun _ => False) (fun v s' => v = 1 /\ pool [] s'.2) s.
Proof.
  intros [Hp He]. apply wp_bind, wp_gets, wp_return. split; [|done].
  change (TEST_SUCCESS (get_ex s) = 1). unfold TEST_SUCCESS. by rewrite He.
Qed.

Lemma pending_request_twp (r : request) l g :
  pool [] g -> pending (l, g) ->
  twp (run_request r) (fun _ _ => False) (fun _ => False) (fun v s => v = 1 /\ pool [] s.2) (l, g).
Proof.
  intros Hp He.
  assert (exists m, run_request r = bind m (fun _ => return_status) /\
    twp m (fun (_ : unit) s => pool [] s.2 /\ pending s) (fun _ => False) never (l, g)) as (m & -> & Hm).
  { destruct r; eexists; (split; [reflexivity|]); try by apply pending_block_twp.
    all: apply wp_with_seperated; cbv zeta; apply wp_skip, wp_upd_local.
    all: change (get_ex _) with (get_ex (l, g)); by rewrite He. }
  apply wp_bind. refine (wp_mono _ _ _ _ _ _ _ _ Hm _ _ _); [|done..].
  intros _ s. apply pending_status_twp.
Qed.

(** C5: a request that starts with an exception pending returns 1: it is not stuck, for any URL,
    frame and answers of libcurl, whatever the lock of the table is. It puts nothing on the network and touches
    neither the lock nor the table of file locks; the exception stays pending and every handle is
    back in the pool or closed. So a failed step makes every later request of the same operation
    fail too, until somebody handles the exception. *)
Theorem pending_request_is_idle (r : request) l g :
  Exception_has (g_ex g) = true -> pool [] g ->
  exists l' g', run_request r (l, g) = (Ret 1, (l', g'))
    /\ same_sent g g' /\ same_locks g g' /\ Exception_has (g_ex g') = true /\ pool [] g'.
Proof.
  intros He Hp.
  destruct (twp_result _ _ _ (pending_request_twp r l g Hp He)) as (v & [l' g'] & Hrun & -> & Hp').
  destruct (pending_request_idle _ _ _ _ _ _ He Hrun) as (? & ? & ? & _). by exists l', g'.
Qed.
End Pending.

(** ** Witness *)

(** The pool of a fresh program is empty. *)
Lemma pool_empty `{E : Env} g :
  linked (g_stack g) [] -> heap (g_stack g) = ∅ -> g_handles g = ∅ -> pool [] g.
Proof.
  intros Hl Hh Hd. exists []. rewrite Hh, Hd.
  splits; [done|done|apply NoDup_nil_2|done|]. intros a []%elem_of_nil.
Qed.

Lemma pending_request_is_idle_witness :
  exists l' g', run_request (E := demo_env (answers 200) None) (Rmkcol "/a")
      (demo_l 200, demo_g 200 pending_ex) = (Ret 1, (l', g')) /\ g_sent g' = [] /\ pool [] g'.
Proof.
  destruct (pending_request_is_idle (E := demo_env (answers 200) None) (Rmkcol "/a") (demo_l 200)
    (demo_g 200 pending_ex)) as (l' & g' & Hr & Hs & _ & _ & Hp).
  - reflexivity.
  - apply pool_empty; [|reflexivity..]. split; [reflexivity|apply NoDup_nil_2|reflexivity].
  - exists l', g'. split; [exact Hr|]. split; [exact Hs|exact Hp].
Defined.
