(* ===== verification/Progress.v ===== *)
(** * Requests always come back

    The requests of the type [request] (MKCOL, PUT, DELETE, HEAD, MOVE, COPY, PROPPATCH) are never
    stuck: from a state between two requests, with a lock table that names live objects, each
    returns 0 or 1 and leaves such a state; so does the download of [get_settles]. The hypotheses
    are what libcurl documents: the options for objects are always accepted, a URL that was read is
    there, and a transfer asks for no more than [2 ^ 62] bytes at once. *)

From S2P Require Import Prelude Utils Exception Control Buffer Stack State Wp Demo Curl Rules Method MethodSpec Pool.
#[local] Open Scope Z_scope.
#[local] Open Scope c_scope.

(** ** Total triples *)

Section Hoare.
Context `{E : Env} {R : Type}.
Implicit Types P Q B : Frame * G -> Prop.

(** [hoare P m Q B]: from [P], [m] falls through into [Q] or raises in [B]; it is never stuck. *)
Definition hoare {A} P (m : M (Frame * G) R A) Q B : Prop := forall s, P s ->
  twp m (fun _ => Q) (fun s' => Exception_has (get_ex s') = true /\ B s') never s.

Lemma hoare_conseq {A} P P' Q Q' B (m : M (Frame * G) R A) :
  hoare P' m Q' B -> (forall s, P s -> P' s) -> (forall s, Q' s -> Q s) -> hoare P m Q B.
Proof.
  intros Hm HP HQ s Hs. by refine (wp_mono _ _ _ _ _ _ _ _ (Hm s (HP s Hs)) (fun _ => HQ) _ _).
Qed.

Lemma hoare_bind {A A'} P Q I B (m : M (Frame * G) R A) (f : A -> M (Frame * G) R A') :
  hoare P m I B -> (forall a, hoare I (f a) Q B) -> hoare P (bind m f) Q B.
Proof.
  intros Hm Hf s Hs. apply wp_bind. refine (wp_mono _ _ _ _ _ _ _ _ (Hm s Hs) _ _ _); [|done..].
  intros a s' Hs'. by apply Hf.
Qed.

Lemma hoare_when P Q B (b : bool) (m : M (Frame * G) R unit) :
  (b = true -> hoare P m Q B) -> (b = false -> forall s, P s -> Q s) -> hoare P (when b m) Q B.
Proof. intros Ht Hf s Hs. apply wp_when; intros Hb; [by apply Ht|by apply Hf]. Qed.

Lemma hoare_gets {A} P B (f : Frame * G -> A) : hoare P (gets f) P B.
Proof. by intros s Hs. Qed.

Lemma hoare_modify P Q B f : (forall s, P s -> Q (f s)) -> hoare P (modify f) Q B.
Proof. intros Hf s Hs. by apply Hf. Qed.

Lemma hoare_throwable P Q B (m : M (Frame * G) R unit) :
  (forall s, Q s -> B s) -> hoare P m Q B -> hoare P (throwable m) Q B.
Proof.
  intros HQB Hm s Hs. apply wp_throwable. refine (wp_mono _ _ _ _ _ _ _ _ (Hm s Hs) _ _ _); [..|done].
  - intros _ s' Hs'. destruct (Exception_has _) eqn:He; eauto.
  - intros s' [He Hs']. by rewrite He.
Qed.

(** A [throwable] block whose pieces around the body raise at most. *)
Lemma hoare_with {X} P Q B (decl : M (Frame * G) R X) init (body : X -> M (Frame * G) R unit) I :
  (forall s, I s -> B s) -> (forall s, Q s -> B s) ->
  hoare P decl I B -> (forall x, hoare I (init x) I B) -> (forall x, hoare I (body x) Q B) ->
  hoare P (throwable (with_seperated decl init (fun _ => skip) body)) Q B.
Proof.
  intros HIB HQB Hd Hi Hb s Hs. apply wp_throwable, wp_with_seperated. cbv zeta.
  refine (wp_mono _ _ _ _ _ _ _ _ (Hd s Hs) _ _ _); [|intros s' [He Hs']; by rewrite He|done].
  intros x s1 H1. refine (wp_mono _ _ _ _ _ _ _ _ (Hi x s1 H1) _ _ _);
    [|intros s' [He Hs']; by rewrite He|done].
  intros _ s2 H2. destruct (Exception_has (get_ex s2)) eqn:He2; [apply wp_skip; rewrite He2; eauto|].
  refine (wp_mono _ _ _ _ _ _ _ _ (Hb x s2 H2) _ _ _); [..|done].
  - intros _ s3 H3. apply wp_skip. destruct (Exception_has (get_ex s3)) eqn:He; eauto.
  - intros s3 [He H3]. apply wp_skip. by rewrite He.
Qed.

(** A property of the frame that the statement keeps. *)
Definition frame_keeps (X : Frame -> Prop) (s s' : Frame * G) : Prop := X s.1 -> X s'.1.

#[export] Instance frame_keeps_ex X : KeepEx (frame_keeps X).
Proof. by repeat (split; unfold frame_keeps; auto). Qed.

Lemma keeps_frame_ext X {A} (f : World -> A * World) :
  keeps (frame_keeps X) (ext (L := Frame) (R := R) f).
Proof. intros [l g] Hx. unfold ext. by destruct (f _). Qed.
Lemma keeps_frame_shared X f : keeps (frame_keeps X) (upd_shared (L := Frame) (R := R) f).
Proof. apply keeps_modify. by intros s Hs. Qed.
Lemma keeps_frame_fresh X : keeps (frame_keeps X) (fresh_addr (L := Frame) (R := R)).
Proof. by intros [l g] Hs. Qed.
Lemma keeps_frame_local (X : Frame -> Prop) f :
  (forall l, X l -> X (f l)) -> keeps (frame_keeps X) (upd_local (G := G) (R := R) f).
Proof. intros Hf. apply keeps_modify. intros [l g]. exact (Hf l). Qed.

Lemma hoare_keep {A} X P Q B (m : M (Frame * G) R A) :
  keeps (frame_keeps X) m -> hoare P m Q B -> hoare (fun s => P s /\ X s.1) m (fun s => Q s /\ X s.1) B.
Proof.
  intros Hk Hm s [Hs HX]. apply (wp_and_keeps _ _ _ _ _ _ Hk).
  refine (wp_mono _ _ _ _ _ _ _ _ (Hm s Hs) _ _ _); [|by intros s' [? ?]|done].
  intros _ s' Hs' Hkeep. split; [done|]. by apply Hkeep.
Qed.

Lemma hoare_scope P Q B (body : M (Frame * G) R unit) :
  (forall s, P s -> B s) -> (forall s, Q s -> B s) -> (forall l g, P (l, g) -> P (set_f_list [] l, g)) ->
  hoare P body Q B -> hoare P (throwable (scope_slist body)) Q B.
Proof.
  intros HPB HQB HP Hb. apply (hoare_with P Q B _ (fun _ => skip) _ P); [done..| | |by intros _].
  - apply hoare_modify. intros [l g]. apply HP.
  - by intros _ s Hs.
Qed.
End Hoare.
#[export] Hint Resolve keeps_frame_ext keeps_frame_shared keeps_frame_fresh : keeps.

(** ** What holds in the middle of a request *)

(** What is fixed during a request: whether the mount uses locks, the size and the length of the
    memory behind the local [buf], when the request has one, and what is known of every parser context
    that libxml2 makes from what it is fed. *)
Class Setting `{E : Env} := {
  locking : bool;
  the_buf : option (Z * Z);
  documents : xmlParserCtxt -> Prop;
  documents_create : forall chunk w c, (env_xml_create chunk w).1 = Some c -> documents c;
  documents_chunk : forall c chunk b w, documents c -> documents (env_xml_chunk c chunk b w).1.2;
}.

(** The cursor is inside the allocation; a buffer may be larger than it says. *)
Record fits (b : Buffer) : Prop := {
  fits_offset : 0 <= offset b <= size b;
  fits_size : size b <= zlen (data b);
  fits_bound : size b < 2 ^ 62;
}.

Lemma fits_wf b : Buffer_wf b -> fits b.
Proof. intros [? ? ?]. split; lia. Qed.

(** The same memory, with another cursor or other bytes. *)
Definition same_memory (b b' : Buffer) : Prop :=
  size b' = size b /\ zlen (data b') = zlen (data b) /\ extensible b' = extensible b.

Lemma fetch_fits n b : fits b -> 0 <= n < 2 ^ 62 ->
  exists k out b', Buffer_fetch n (Some b) = Some (k, out, Some b') /\ fits b' /\ same_memory b b'.
Proof.
  intros [Ho Hs Hb] Hn. unfold Buffer_fetch. destruct (Z.eqb_spec n 0) as [->|Hn0]; [by exists 0, [], b|].
  rewrite u64_id by lia. set (k := if size b <? offset b + n then _ else _).
  assert (0 <= k /\ offset b + k <= size b) as [Hk0 Hk].
  { unfold k. destruct (Z.ltb_spec (size b) (offset b + n)); [rewrite u64_id by lia|]; lia. }
  unfold mem_read. rewrite bool_decide_true by lia. simpl.
  eexists _, _, _. split; [reflexivity|]. split; [split; simpl; lia|done].
Qed.

Lemma append_fits ok ptr b e : fits b -> extensible b = false -> zlen ptr < 2 ^ 62 ->
  exists k b', Buffer_append ok ptr (zlen ptr) (Some b) e = Some (k, Some b', e) /\ fits b' /\ same_memory b b'.
Proof.
  intros [Ho Hs Hb] Hx Hn. pose proof (zlen_nonneg ptr).
  unfold Buffer_append, Buffer_resize. destruct (Z.eqb_spec (zlen ptr) 0); [by exists (zlen ptr), b|].
  rewrite u64_id by lia. rewrite Hx.
  assert (exists k, (if size b <? offset b + zlen ptr then (u64 (size b - offset b), b, e) else (zlen ptr, b, e))
    = (k, b, e) /\ 0 <= k <= zlen ptr /\ offset b + k <= size b) as (k & -> & Hk & Hfit).
  { destruct (Z.ltb_spec (size b) (offset b + zlen ptr)).
    - exists (size b - offset b). rewrite u64_id by lia. split; [done|lia].
    - exists (zlen ptr). split; [done|lia]. }
  rewrite mem_read_prefix by lia. simpl.
  destruct (mem_write_in (data b) (take (Z.to_nat k) ptr) (offset b)) as (d & -> & Hl & _);
    [lia|rewrite zlen_take by lia; lia|].
  simpl. eexists _, _. split; [reflexivity|]. split; [split; simpl; lia|]. by rewrite Hx.
Qed.

Section Middle.
Context `{E : Env} {ST : Setting} {R : Type}.
Implicit Types (g : G) (h : addr) (D : list (CURLoption * optval) -> Prop).

(** The table names live objects with a token, no object under two paths. *)
Record live_table g : Prop := {
  live_entry : forall p a, filelock_tree (g_server g) !! p = Some a ->
    exists fl, g_locks g !! a = Some fl /\ is_Some (lock_token fl);
  live_inj : forall p p' a, filelock_tree (g_server g) !! p = Some a ->
    filelock_tree (g_server g) !! p' = Some a -> p = p';
}.

Lemma live_same g g' : same_locks g g' -> live_table g -> live_table g'.
Proof. intros (_ & Hl & Ht) [H1 H2]. split; rewrite ?Hl, Ht; [exact H1|exact H2]. Qed.

(** The functions of the program that a transfer calls get the objects they are for. *)
Record good (opts : list (CURLoption * optval)) : Prop := {
  good_write : last_opt CURLOPT_WRITEFUNCTION opts = None
    \/ last_opt CURLOPT_WRITEFUNCTION opts = Some (VFun CB_Buffer_append)
       /\ last_opt CURLOPT_WRITEDATA opts = Some (VData AT_buf) /\ is_Some the_buf
    \/ last_opt CURLOPT_WRITEFUNCTION opts = Some (VFun CB_curl_parse_xml)
       /\ last_opt CURLOPT_WRITEDATA opts = Some (VData AT_ctxt);
  good_header : last_opt CURLOPT_HEADERFUNCTION opts = None
    \/ last_opt CURLOPT_HEADERFUNCTION opts = Some (VFun CB_dav_head_callback)
       /\ last_opt CURLOPT_HEADERDATA opts = Some (VData AT_sizep);
  good_read : last_opt CURLOPT_READFUNCTION opts = None
    \/ last_opt CURLOPT_READFUNCTION opts = Some (VFun CB_Buffer_fetch)
       /\ last_opt CURLOPT_READDATA opts = Some (VData AT_buf);
}.
Definition good_with o v opts : Prop := good opts /\ last_opt o opts = Some v.

(** The options that name functions and objects of the program. *)
Definition is_object (o : CURLoption) : bool :=
  match o with
  | CURLOPT_HEADERFUNCTION | CURLOPT_HEADERDATA | CURLOPT_WRITEFUNCTION | CURLOPT_WRITEDATA
  | CURLOPT_READFUNCTION | CURLOPT_READDATA => true
  | _ => false
  end.

Lemma good_plain opts : plain_opts opts -> good opts.
Proof. intros (? & ? & ?). split; auto. Qed.

Lemma good_add o v opts : is_object o = false -> good opts -> good (opts ++ [(o, v)]).
Proof.
  intros Ho [H1 H2 H3]. split; rewrite !last_opt_other; try done; by intros ->.
Qed.

Lemma good_with_add o v o' v' opts :
  is_object o = false -> o <> o' -> good_with o' v' opts -> good_with o' v' (opts ++ [(o, v)]).
Proof. intros Ho Hne [Hg Hl]. split; [by apply good_add|]. by rewrite last_opt_other. Qed.

(** The buffer and the parser context of the request. *)
Record buf_ok (l : Frame) : Prop := {
  buf_fits : forall b, f_buf l = Some b -> fits b;
  buf_the : forall n len, the_buf = Some (n, len) ->
    exists b, f_buf l = Some b /\ size b = n /\ zlen (data b) = len /\ extensible b = false;
  buf_ctxt : forall c, f_ctxt l = Some c -> documents c;
}.

Lemma buf_ok_step l b b' : buf_ok l -> f_buf l = Some b -> fits b' -> same_memory b b' ->
  buf_ok (set_f_buf (Some b') l).
Proof.
  intros [_ H2 H3] Hb Hf (Hs & Hd & Hx). split; [by intros ? [= <-]| |done].
  intros n len Hn. destruct (H2 n len Hn) as (b0 & Hb0 & ? & ? & ?). exists b'. simpl.
  rewrite Hb in Hb0. simplify_eq. split_and!; congruence.
Qed.

(** The lock of the table is [k]; a mount without locks never takes it. *)
Definition free_lock : RWLock := mkRWLock 0 false.
Definition lock_ok (k : RWLock) g : Prop :=
  g_rwlock g = k /\ use_lock (options (g_server g)) = locking /\ (locking = false -> k = free_lock).

(** A handle [h] is borrowed, with options in [D]; the table is good, its lock is [k], and the
    buffer of the request is well formed. *)

Record middle h D (k : RWLock) (s : Frame * G) : Prop := {
  mid_buf : buf_ok s.1;
  mid_pool : pool [h] s.2;
  mid_opts : exists e, g_handles s.2 !! h = Some e /\ D (easy_opts e);
  mid_table : live_table s.2;
  mid_lock : lock_ok k s.2;
}.

(** What is left when the block ends. *)
Definition settled g : Prop :=
  live_table g /\ use_lock (options (g_server g)) = locking /\ (locking = false -> g_rwlock g = free_lock).
Definition left_with h (s : Frame * G) : Prop := pool [h] s.2 /\ buf_ok s.1 /\ settled s.2.

Lemma middle_left h D k s : middle h D k s -> left_with h s.
Proof. intros [? ? ? ? (Hk & ? & Hf)]. do 4 (split; [done|]). intros Hl. by rewrite Hk, Hf. Qed.

Lemma middle_ex h D k e s : middle h D k s -> middle h D k (put_ex e s).
Proof. destruct s as [l g]. intros [? ? ? ? ?]. split; [done|by apply pool_ex|done|by apply (live_same g)|done]. Qed.
Lemma middle_world h D k l g w : middle h D k (l, g) -> middle h D k (l, set_g_world w g).
Proof. intros [? ? ? ? ?]. split; [done|by apply pool_world|done|by apply (live_same g)|done]. Qed.
Lemma middle_local h D k l l' g :
  f_buf l' = f_buf l /\ f_ctxt l' = f_ctxt l -> middle h D k (l, g) -> middle h D k (l', g).
Proof. intros [Hb Hc] [[? ? ?] ? ? ? ?]. split; try done. split; simpl; by rewrite ?Hb, ?Hc. Qed.
Lemma middle_ctxt h D k l c g :
  (forall c', c = Some c' -> documents c') -> middle h D k (l, g) -> middle h D k (set_f_ctxt c l, g).
Proof. intros Hc [[? ? ?] ? ? ? ?]. by split. Qed.
End Middle.
#[export] Hint Resolve middle_ex middle_world : safe.

(** What libcurl documents. *)
Inductive sane_xfer {W} : xfer W -> Prop :=
  | sane_done w code info : sane_xfer (XDone w code info)
  | sane_header line k : (forall n, sane_xfer (k n)) -> sane_xfer (XHeader line k)
  | sane_write chunk k : zlen chunk < 2 ^ 62 -> (forall n, sane_xfer (k n)) -> sane_xfer (XWrite chunk k)
  | sane_read n k : 0 <= n < 2 ^ 62 -> (forall b, sane_xfer (k b)) -> sane_xfer (XRead n k).

Record sane_env `{E : Env} : Prop := {
  sane_setopt : forall opts o v w, is_object o = true -> (env_easy_setopt opts o v w).1 = CURLE_OK;
  sane_url_get : forall u part w, (env_url_get u part w).1.1 = CURLUE_OK ->
    is_Some (env_url_get u part w).1.2;
  sane_perform : forall opts w, sane_xfer (env_easy_perform opts w);
}.

(** ** The statements of a request *)

Section Statements.
Context `{E : Env} {ST : Setting} (sane : sane_env) {R : Type}.
Implicit Types (g : G) (h : addr) (k : RWLock) (D : list (CURLoption * optval) -> Prop).

(** An option that keeps [D], or an object that leads to [D']. *)
Definition leads_to o v D D' : Prop :=
  (forall opts, D opts -> D' (opts ++ [(o, v)])) /\ (is_object o = true \/ forall opts, D opts -> D' opts).

Lemma wp_middle_setopt h D D' k o v l g (Q : CURLcode -> Frame * G -> Prop) B (T : R -> Frame * G -> Prop) :
  leads_to o v D D' -> middle h D k (l, g) ->
  (forall code g', (code = CURLE_OK \/ is_object o = false) -> middle h D' k (l, g') ->
     is_Some (g_handles g' !! h) -> Q code (l, g')) ->
  gwp False (curl_easy_setopt (Some h) o v) Q B T (l, g).
Proof.
  intros [Hadd Hkeep] [Hb Hp (e & He & HD) Ht Hk] HQ.
  apply (wp_setopt_live h e); [done|]. intros code Hc g1.
  pose proof (sane_setopt sane (easy_opts e) o v (g_world g)) as Hok. rewrite <- Hc in Hok.
  destruct (Z.eqb_spec code CURLE_OK) as [H0|H0]; apply HQ.
  - by left.
  - split; [done| | |by apply (live_same g)|done].
    + eapply (pool_update _ g1); [done|]. by apply pool_world.
    + eexists. simpl. rewrite lookup_insert_eq. eauto.
  - simpl. rewrite lookup_insert_eq. eauto.
  - right. destruct (is_object o); [|done]. by destruct H0; apply Hok.
  - destruct Hkeep as [Ho|Hkeep]; [by destruct H0; apply Hok|].
    split; [done|by apply pool_world|by eauto|by apply (live_same g)|done].
  - by eexists.
Qed.

Lemma hoare_setopt_ h D D' k o v B :
  leads_to o v D D' ->
  hoare (R := R) (middle h D k) (curl_easy_setopt_ (Some h) o v) (middle h D' k) B.
Proof.
  intros Ho [l g] Hs. apply wp_bind, (wp_middle_setopt h D D' k); [done..|].
  intros code g' _ Hs' _. by apply wp_skip.
Qed.

Lemma hoare_setopt_or_die h D D' k o v :
  leads_to o v D D' ->
  hoare (R := R) (middle h D k) (curl_easy_setopt_or_die (Some h) o v) (middle h D' k) (left_with h).
Proof.
  intros Ho [l g] Hs. apply wp_do_or_die, (wp_middle_setopt h D D' k); [done..|].
  intros code g' _ Hs' Hh. destruct (code =? CURLE_OK); [done|]. split; [by intros x [= <-]|].
  intros e He. split; [done|]. apply (middle_left _ D' k). by apply (middle_ex _ _ _ e (l, g')).
Qed.

(** The callbacks of a transfer. *)
Lemma hoare_header_callback h k opts line B :
  good opts -> hoare (R := R) (middle h (eq opts) k) (header_callback opts line) (middle h (eq opts) k) B.
Proof.
  intros Hg. unfold header_callback. destruct (good_header _ Hg) as [->|[-> ->]]; [by intros s Hs|].
  apply hoare_bind with (middle h (eq opts) k); [|by intros _ s Hs].
  destruct (dav_head_size line); [|by intros s Hs].
  apply hoare_modify. intros [l g]. by apply middle_local.
Qed.

(** The XML callback sets the parser context, or asks libcurl to stop. *)
Lemma parse_xml_twp h D k chunk s :
  middle h D k s ->
  twp (curl_parse_xml chunk) (fun _ _ => False) (fun _ => False)
    (fun n s' => middle h D k s' /\ (is_Some (f_ctxt s.1) -> is_Some (f_ctxt s'.1))
       /\ (n = 0 \/ n = zlen chunk /\ (chunk <> [] -> is_Some (f_ctxt s'.1)))) s.
Proof.
  destruct s as [l g]. intros Hs. apply wp_bind. destruct (Z.eqb_spec (zlen chunk) 0) as [H0|Hn0].
  { apply wp_return. split_and!; [done..|]. left. done. }
  apply wp_skip, wp_bind, wp_try. cbv zeta.
  set (K := fun s' : Frame * G => _).
  assert (forall s', middle h D k s' -> is_Some (f_ctxt s'.1) -> K s') as HK.
  { intros s' Hs' Hc. unfold K. destruct (Exception_has _).
    - apply wp_onerror_default, wp_return. auto.
    - apply wp_return. split_and!; [done..|]. right. auto. }
  assert (forall l' g', middle h D k (l', g') -> (is_Some (f_ctxt l) -> is_Some (f_ctxt l')) ->
    Exception_has (g_ex g') = true -> K (l', g')) as HK'.
  { intros l' g' Hs' Hc He. unfold K. change (get_ex (l', g')) with (g_ex g'). rewrite He.
    apply wp_onerror_default, wp_return. auto. }
  apply wp_bind, wp_local. destruct (f_ctxt l) as [c|] eqn:Hl.
  - apply wp_bind, wp_ext. destruct (env_xml_chunk c chunk false (g_world g)) as [[r c'] w] eqn:Hx; simpl.
    apply wp_bind, wp_upd_local.
    assert (middle h D k (set_f_ctxt (Some c') l, set_g_world w g)) as Hm.
    { apply middle_ctxt; [|by apply middle_world]. intros ? [= <-].
      pose proof (documents_chunk c chunk false (g_world g) (buf_ctxt _ (mid_buf _ _ _ _ Hs) c Hl)) as Hd.
      by rewrite Hx in Hd. }
    apply wp_when; intros _; [|by apply HK].
    apply wp_upd_ex, HK; [by apply middle_ex|by eexists].
  - apply wp_bind, wp_ext. destruct (env_xml_create chunk (g_world g)) as [c w] eqn:Hx; simpl.
    apply wp_bind, wp_upd_local.
    assert (middle h D k (set_f_ctxt c l, set_g_world w g)) as Hm.
    { apply middle_ctxt; [|by apply middle_world]. intros c' ->.
      by apply (documents_create chunk (g_world g)); rewrite Hx. }
    apply wp_condition_throw; intros Hc.
    + apply HK; [done|]. simpl. by destruct c.
    + apply wp_upd_ex, HK'; [|by intros []|done].
      by apply (middle_ex _ _ _ _ (set_f_ctxt c l, set_g_world w g)).
Qed.

Lemma hoare_write_callback h k opts chunk B :
  good opts -> zlen chunk < 2 ^ 62 ->
  hoare (R := R) (middle h (eq opts) k) (write_callback opts chunk) (middle h (eq opts) k) B.
Proof.
  intros Hg Hn. unfold write_callback. destruct (good_write _ Hg) as [->|[(-> & -> & [[n len] Ht])|[-> ->]]];
    [by intros s Hs| |].
  2: { intros s Hs. apply wp_call_in.
    refine (wp_mono _ _ _ _ _ _ _ _ (parse_xml_twp h (eq opts) k chunk s Hs) _ _ _); [done..|]. by intros n s' [? _]. }
  intros [l g] Hs. destruct (mid_buf _ _ _ _ Hs) as [Hf Hb _].
  destruct (Hb n len Ht) as (b & Hlb & _ & _ & Hx). simpl in Hlb.
  apply wp_bind, wp_local, wp_bind. rewrite Hlb, Hx. apply wp_mret, wp_bind, wp_gets.
  destruct (append_fits true chunk b (g_ex g)) as (k' & b' & Hr & Hf' & Hm); [by apply Hf|done..|].
  change (get_ex (l, g)) with (g_ex g). rewrite Hr. apply wp_bind, wp_upd_local, wp_bind, wp_upd_ex, wp_mret.
  apply (middle_ex _ _ _ (g_ex g) (set_f_buf (Some b') l, g)).
  pose proof (buf_ok_step l b b' (mid_buf _ _ _ _ Hs) Hlb Hf' Hm). by destruct Hs; split.
Qed.

Lemma hoare_read_callback h k opts n B :
  good opts -> 0 <= n < 2 ^ 62 ->
  hoare (R := R) (middle h (eq opts) k) (read_callback opts n) (middle h (eq opts) k) B.
Proof.
  intros Hg Hn. unfold read_callback. destruct (good_read _ Hg) as [->|[-> ->]]; [by intros s Hs|].
  intros [l g] Hs. apply wp_bind, wp_local. destruct (f_buf l) as [b|] eqn:Hb.
  - destruct (fetch_fits n b) as (k' & out & b' & -> & Hf & Hm); [by apply (buf_fits _ (mid_buf _ _ _ _ Hs))|done|].
    apply wp_bind, wp_upd_local, wp_mret.
    pose proof (buf_ok_step l b b' (mid_buf _ _ _ _ Hs) Hb Hf Hm). by destruct Hs; split.
  - apply wp_bind, wp_upd_local, wp_mret. apply (middle_local _ _ _ l); [|done]. by rewrite Hb.
Qed.

Lemma hoare_run_xfer h k opts x B :
  good opts -> sane_xfer x ->
  hoare (R := R) (middle h (eq opts) k) (run_xfer h opts x) (middle h (eq opts) k) B.
Proof.
  intros Hg. induction 1 as [w code info|line c _ IH|chunk c Hn _ IH|n c Hn _ IH]; cbn [run_xfer].
  - intros [l g] Hs. apply wp_bind, wp_upd_shared, wp_bind, wp_upd_shared, wp_mret.
    apply (middle_world _ _ _ _ _ w) in Hs as [Hb Hp (e & He & _) Ht Hk].
    split; [done|by eapply pool_update| |by apply (live_same (set_g_world w g))|done].
    eexists. simpl. by rewrite lookup_insert_eq.
  - eapply hoare_bind; [by apply hoare_header_callback|exact IH].
  - eapply hoare_bind; [by apply hoare_write_callback|exact IH].
  - eapply hoare_bind; [by apply hoare_read_callback|exact IH].
Qed.

Lemma hoare_perform h D k :
  (forall opts, D opts -> good opts) ->
  hoare (R := R) (middle h D k) (curl_easy_perform_or_die (Some h)) (middle h D k) (left_with h).
Proof.
  intros HD [l g] [Hb Hp (e & He & Ho) Ht Hk]. apply wp_do_or_die.
  apply wp_bind, wp_shared, wp_bind, (wp_deref_some _ e); [done|].
  apply wp_bind, wp_upd_shared, wp_bind, wp_shared.
  refine (wp_mono _ _ _ _ _ _ _ _ (hoare_run_xfer h k (easy_opts e) _ (fun _ => False) (HD _ Ho)
    (sane_perform sane _ _) _ _) _ _ _); [split; try done; [by eauto|by apply (live_same g)]|..|done].
  - intros code [l1 g1] Hs1.
    assert (middle h D k (l1, g1)) as Hm.
    { destruct Hs1 as [? ? (e1 & He1 & Heq) ? ?]. split; try done. exists e1. by rewrite <- Heq. }
    destruct (code =? CURLE_OK); [done|]. split.
    + intros x [= <-]. destruct (mid_opts _ _ _ _ Hm) as (e1 & He1 & _). by exists e1.
    + intros ex Hex. split; [done|]. apply (middle_left _ D k). by apply (middle_ex _ _ _ ex (l1, g1)).
  - by intros s' [_ []].
Qed.

(** The lock of the table. *)
Definition taken (lt : LockType) : RWLock :=
  match lt with RW_LOCK_WRITE => mkRWLock 0 true | RW_LOCK_READ => mkRWLock 1 false | RW_LOCK_NONE => free_lock end.

Lemma middle_rwlock h D k k' l g :
  (locking = false -> k' = free_lock) -> middle h D k (l, g) -> middle h D k' (l, set_g_rwlock k' g).
Proof. intros Hk' [? ? ? [H1 H2] (? & ? & ?)]. by split. Qed.

Lemma hoare_rdlock h D B :
  locking = true -> hoare (R := R) (middle h D free_lock) rdlock (middle h D (taken RW_LOCK_READ)) B.
Proof.
  intros Hl [l g] Hs. destruct (mid_lock _ _ _ _ Hs) as [Hk _]. simpl in Hk.
  apply wp_bind, wp_shared. rewrite Hk. apply wp_upd_shared. simpl. rewrite Hk.
  apply (middle_rwlock _ _ free_lock); [congruence|done].
Qed.

Lemma hoare_wrlock h D B :
  locking = true -> hoare (R := R) (middle h D free_lock) wrlock (middle h D (taken RW_LOCK_WRITE)) B.
Proof.
  intros Hl [l g] Hs. destruct (mid_lock _ _ _ _ Hs) as [Hk _]. simpl in Hk.
  apply wp_bind, wp_shared. rewrite Hk. apply wp_upd_shared. apply (middle_rwlock _ _ free_lock); [congruence|done].
Qed.

Lemma hoare_unlock h D lt B :
  lt <> RW_LOCK_NONE -> hoare (R := R) (middle h D (taken lt)) unlock (middle h D free_lock) B.
Proof.
  intros Hlt [l g] Hs. destruct (mid_lock _ _ _ _ Hs) as [Hk _]. simpl in Hk.
  apply wp_bind, wp_shared. rewrite Hk.
  destruct lt; [done|..]; simpl; apply wp_upd_shared; rewrite ?Hk; by eapply middle_rwlock.
Qed.

(** The lists of headers. *)
Lemma wp_slist_append_e {L R'} ls t (l : L) g (Q : list string -> L * G -> Prop) B (T : R' -> L * G -> Prop) :
  (forall w, Q (ls ++ [t]) (l, set_g_world w g)) ->
  (forall w e, Exception_has e = true -> Q [] (l, set_g_ex e (set_g_world w g))) ->
  gwp False (curl_slist_append_e ls t) Q B T (l, g).
Proof.
  intros H1 H2. apply wp_bind, wp_ext. destruct (env_slist_append ls t (g_world g)) as [[] w]; simpl.
  - apply wp_mret, H1.
  - by apply wp_bind, wp_upd_ex, wp_mret, H2.
Qed.

Lemma hoare_append_weak h D k t B :
  hoare (R := R) (middle h D k) (append_weak t) (middle h D k) B.
Proof.
  intros [l g] Hs. apply wp_bind, wp_local, wp_bind, wp_bind, wp_ext, wp_mret, wp_upd_local.
  apply (middle_local _ _ _ l); [done|]. by apply middle_world.
Qed.

Lemma leads_to_good o v : is_object o = false -> leads_to o v good good.
Proof. intros Ho. split; [intros opts; by apply good_add|by right]. Qed.

(** The table after an object left it. *)
Lemma live_delete g p a :
  filelock_tree (g_server g) !! p = Some a -> live_table g ->
  let g' := set_g_server (set_filelock_tree (delete p (filelock_tree (g_server g))) (g_server g)) g in
  live_table (set_g_locks (delete a (g_locks g')) g').
Proof.
  intros Hp [H1 H2]. split; simpl.
  - intros p' a' [Hne Hp']%lookup_delete_Some. destruct (H1 p' a' Hp') as (fl & Hfl & Ht).
    exists fl. rewrite lookup_delete_ne; [done|]. intros ->. by destruct Hne; apply (H2 p p' a').
  - intros p' p'' a' [_ Hp']%lookup_delete_Some [_ Hp'']%lookup_delete_Some. by apply (H2 p' p'' a').
Qed.

Lemma header_if_twp path lt h D k l l1 g :
  middle h D k (l, g) ->
  twp (__dav_header_if path lt) (fun _ _ => False) (fun _ => False)
    (fun _ s' => middle h D k (l, s'.2)) (l1, g).
Proof.
  intros Hs. apply wp_bind, wp_gets, wp_bind. cbn [snd].
  set (K := fun s' : Frame * G => middle h D k (l, s'.2)).
  assert (forall s', K s' -> twp (l <- local ;; return_ (f_list l)) (fun (_ : unit) _ => False)
    (fun _ => False) (fun _ => K) s') as HK by (intros [l2 g2] Hs2; by apply wp_bind, wp_local, wp_return).
  destruct (filelock_tree (g_server g) !! path) as [a|] eqn:Hp; [|by apply wp_skip, HK].
  destruct (live_entry _ (mid_table _ _ _ _ Hs) path a Hp) as (fl & Hfl & [tok Htok]). cbn [snd] in Hfl.
  apply wp_do_once, wp_bind, wp_bind, wp_gets, (wp_deref_some _ fl); [exact Hfl|].
  apply wp_bind, (wp_deref_some _ tok); [done|]. apply wp_bind, wp_local, wp_bind, wp_slist_append_e.
  - intros w. apply wp_bind, wp_upd_local, wp_bind, wp_when; intros _; [by apply wp_break, HK, middle_world|].
    apply wp_when; intros _; [|by apply HK, middle_world].
    apply wp_bind, wp_upd_shared. unfold FileLock_free. apply wp_bind, wp_bind, wp_gets, (wp_deref_some _ fl); [exact Hfl|].
    apply wp_upd_shared, HK. apply (middle_world _ _ _ _ _ w) in Hs as [? ? ? Ht ?]. split; try done.
    by apply (live_delete (set_g_world w g)).
  - intros w e He. apply wp_bind, wp_upd_local, wp_bind, wp_when; intros Hn; [|done].
    apply wp_break, HK. apply (middle_ex _ _ _ e (l, set_g_world w g)). by apply middle_world.
Qed.

Lemma hoare_add_header_if path lt h D k :
  hoare (middle h D k) (add_header_if path lt) (middle h D k) (left_with h).
Proof.
  apply hoare_throwable; [apply middle_left|]. intros [l g] Hs. apply wp_bind, wp_local, wp_bind, wp_call_wp.
  refine (wp_mono _ _ _ _ _ _ _ _ (header_if_twp path lt h D k l _ g Hs) _ _ _); [done..|].
  intros r [l1 g1] Hs1. apply wp_upd_local. by apply (middle_local _ _ _ l).
Qed.

(** A function on its own frame, called in the middle. *)
Definition inside h D k l (s : Frame * G) : Prop := middle h D k (l, s.2).

Lemma inside_world h D k l l1 l2 g w : inside h D k l (l1, g) -> inside h D k l (l2, set_g_world w g).
Proof. exact (middle_world h D k l g w). Qed.
Lemma inside_raise h D k l l1 l2 g w e :
  inside h D k l (l1, g) -> inside h D k l (l2, set_g_ex e (set_g_world w g)).
Proof. intros Hs. exact (middle_ex h D k e (l, set_g_world w g) (middle_world h D k l g w Hs)). Qed.

Lemma destination_text_twp h D k l (T : list string -> Frame * G -> Prop) u l1 g :
  f_url l1 = Some u -> inside h D k l (l1, g) ->
  let J := inside h D k l in
  twp (throwable (with_seperated
        (upd_local (set_f_path_url None))
        (fun _ => l <- local ;; curl_url_get_or_die (f_url l) CURLUPART_URL set_f_path_url)
        (fun _ => skip)
        (fun _ =>
           l <- local ;;
           path_url <- deref (f_path_url l) ;;
           throwable
             (l' <- curl_slist_append_e (f_list l) (dest_header path_url) ;;
              upd_local (set_f_list l'))))) (fun _ => J) J T (l1, g).
Proof.
  intros Hu Hs J. apply wp_throwable_same, wp_with_seperated. cbv zeta.
  apply wp_upd_local, wp_bind, wp_local. cbn [f_url set_f_path_url]. rewrite Hu. apply wp_url_get. split.
  - intros Hok. destruct (sane_url_get sane _ _ _ Hok) as [t Ht]. rewrite Ht.
    destruct (Exception_has _); [apply wp_skip; by apply (inside_world _ _ _ _ l1)|].
    apply wp_bind, wp_local, wp_bind, (wp_deref_some _ t); [done|].
    refine (wp_throwable_same _ J T _ _). apply wp_bind, wp_slist_append_e.
    + intros w. apply wp_upd_local. apply (inside_world _ _ _ _ l1). by apply (inside_world _ _ _ _ l1).
    + intros w e _. apply wp_upd_local. apply (inside_raise _ _ _ _ l1). by apply (inside_world _ _ _ _ l1).
  - intros _ e _. by apply (inside_raise _ _ _ _ l1).
Qed.

Lemma header_destination_twp to h D k l l1 g :
  inside h D k l (l1, g) ->
  twp (__dav_header_destination to) (fun _ _ => False) (fun _ => False) (fun _ => inside h D k l) (l1, g).
Proof.
  intros Hs. set (J := inside h D k l) in *. apply wp_bind, wp_try. cbv zeta.
  set (K := fun s' : Frame * G => if Exception_has (get_ex s') then _ else _).
  assert (forall s, J s -> K s) as HK.
  { intros [l2 g2] H2. unfold K. destruct (Exception_has _).
    - by apply wp_onerror_default, wp_return.
    - by apply wp_bind, wp_local, wp_return. }
  assert (forall m : M (Frame * G) (list string) unit, twp m (fun _ => J) J (fun _ => J) (l1, g) ->
    twp m (fun _ => K) K (fun _ => J) (l1, g)) as Hrest.
  { intros m Hm. by refine (wp_mono _ _ _ _ _ _ _ _ Hm (fun _ => HK) HK _). }
  apply Hrest. apply wp_bind, wp_shared, wp_throwable_same, wp_with_assign. cbv zeta.
  do 2 apply wp_bind. apply wp_ext, wp_bind.
  destruct (env_url_dup (baseuh (g_server g)) (g_world g)) as [[u|] w]; simpl.
  - apply wp_skip, wp_mret, wp_upd_local. destruct (Exception_has _); [apply wp_skip; by apply (inside_world _ _ _ _ l1)|].
    apply wp_bind, (wp_url_set _ _ _ _ _ u); [done|]. split.
    + intros _. eapply (destination_text_twp h D k l); [done|].
      apply (inside_world _ _ _ _ l1). by apply (inside_world _ _ _ _ l1).
    + intros _ e _. apply wp_skip. apply (inside_raise _ _ _ _ l1). by apply (inside_world _ _ _ _ l1).
  - apply wp_upd_ex, wp_mret, wp_upd_local, wp_skip. by apply (inside_raise _ _ _ _ l1).
Qed.

Lemma hoare_add_header_destination to h D k :
  hoare (middle h D k) (add_header_destination to) (middle h D k) (left_with h).
Proof.
  apply hoare_throwable; [apply middle_left|]. intros [l g] Hs. apply wp_bind, wp_local, wp_bind, wp_call_wp.
  refine (wp_mono _ _ _ _ _ _ _ _ (header_destination_twp to h D k l _ g Hs) _ _ _); [done..|].
  intros r [l1 g1] Hs1. apply wp_upd_local. by apply (middle_local _ _ _ l).
Qed.

End Statements.

Section More.
Context `{E : Env} {ST : Setting} (sane : sane_env).
Implicit Types (g : G) (h : addr) (k : RWLock) (D : list (CURLoption * optval) -> Prop).

Lemma hoare_append_e {R} h D k t :
  hoare (R := R) (middle h D k)
    (throwable (l <- local ;; l' <- curl_slist_append_e (f_list l) t ;; upd_local (set_f_list l')))
    (middle h D k) (left_with h).
Proof.
  apply hoare_throwable; [apply middle_left|]. intros [l g] Hs.
  apply wp_bind, wp_local, wp_bind, wp_slist_append_e; intros.
  - apply wp_upd_local, (middle_local _ _ _ l); [done|]. by apply middle_world.
  - apply wp_upd_local, (middle_local _ _ _ l); [done|].
    apply (middle_ex _ _ _ e (l, set_g_world w g)). by apply middle_world.
Qed.

Lemma hoare_set_headers {R} h D k B :
  (forall v, leads_to CURLOPT_HTTPHEADER v D D) ->
  hoare (R := R) (middle h D k) (set_headers (Some h)) (middle h D k) B.
Proof. intros HD. apply hoare_bind with (middle h D k); [apply hoare_gets|intros l]. by apply hoare_setopt_. Qed.

Lemma hoare_set_range h D k offset size :
  (forall v, leads_to CURLOPT_RANGE v D D) ->
  hoare (middle h D k) (set_range (Some h) offset size) (middle h D k) (left_with h).
Proof.
  intros HD. apply (hoare_with _ _ _ _ _ _ (middle h D k)); [apply middle_left..| | |].
  - by intros s Hs.
  - by intros _ s Hs.
  - intros t. by apply hoare_setopt_or_die.
Qed.

Lemma hoare_use_locks {R} h D k Q (f : bool -> M (Frame * G) R unit) :
  hoare (middle h D k) (f locking) Q (left_with h) ->
  hoare (middle h D k) (bind use_locks f) Q (left_with h).
Proof.
  intros Hf s Hs. apply wp_bind, wp_gets. destruct s as [l g].
  destruct (mid_lock _ _ _ _ Hs) as (_ & Hu & _). cbn [snd] in *. rewrite Hu. by apply Hf.
Qed.

(** An object, then the function for it. *)
Ltac other_options :=
  rewrite ?(last_opt_other CURLOPT_READFUNCTION), ?(last_opt_other CURLOPT_WRITEFUNCTION),
    ?(last_opt_other CURLOPT_HEADERFUNCTION), ?(last_opt_other CURLOPT_HEADERDATA),
    ?(last_opt_other CURLOPT_READDATA), ?(last_opt_other CURLOPT_WRITEDATA), ?last_opt_same by done.

Lemma leads_to_readdata : leads_to CURLOPT_READDATA (VData AT_buf) good (good_with CURLOPT_READDATA (VData AT_buf)).
Proof.
  split; [|by left]. intros opts [H1 H2 H3]. split; [|apply last_opt_same].
  split; other_options; try done. destruct H3 as [H3|[H3 _]]; auto.
Qed.
Lemma leads_to_read : leads_to CURLOPT_READFUNCTION (VFun CB_Buffer_fetch) (good_with CURLOPT_READDATA (VData AT_buf)) good.
Proof. split; [|by left]. intros opts [[H1 H2 H3] Hd]. split; other_options; auto. Qed.
Lemma leads_to_headerdata : leads_to CURLOPT_HEADERDATA (VData AT_sizep) good (good_with CURLOPT_HEADERDATA (VData AT_sizep)).
Proof.
  split; [|by left]. intros opts [H1 H2 H3]. split; [|apply last_opt_same].
  split; other_options; try done. destruct H2 as [H2|[H2 _]]; auto.
Qed.
Lemma leads_to_head : leads_to CURLOPT_HEADERFUNCTION (VFun CB_dav_head_callback) (good_with CURLOPT_HEADERDATA (VData AT_sizep)) good.
Proof. split; [|by left]. intros opts [[H1 H2 H3] Hd]. split; other_options; auto. Qed.
(** Between the object for a body and its function. *)
Record good_but_write v opts : Prop := {
  gbw_header : last_opt CURLOPT_HEADERFUNCTION opts = None
    \/ last_opt CURLOPT_HEADERFUNCTION opts = Some (VFun CB_dav_head_callback)
       /\ last_opt CURLOPT_HEADERDATA opts = Some (VData AT_sizep);
  gbw_read : last_opt CURLOPT_READFUNCTION opts = None
    \/ last_opt CURLOPT_READFUNCTION opts = Some (VFun CB_Buffer_fetch)
       /\ last_opt CURLOPT_READDATA opts = Some (VData AT_buf);
  gbw_data : last_opt CURLOPT_WRITEDATA opts = Some v;
}.

Lemma leads_to_writedata v : leads_to CURLOPT_WRITEDATA v good (good_but_write v).
Proof. split; [|by left]. intros opts [H1 H2 H3]. by split; other_options. Qed.
Lemma leads_to_write : is_Some the_buf ->
  leads_to CURLOPT_WRITEFUNCTION (VFun CB_Buffer_append) (good_but_write (VData AT_buf)) good.
Proof. intros Hb. split; [|by left]. intros opts [H2 H3 Hd]. split; other_options; auto. Qed.

(** The body goes to the XML parser. *)
Definition good_xml opts : Prop :=
  good opts /\ last_opt CURLOPT_WRITEFUNCTION opts = Some (VFun CB_curl_parse_xml)
  /\ last_opt CURLOPT_WRITEDATA opts = Some (VData AT_ctxt).
Lemma leads_to_parse :
  leads_to CURLOPT_WRITEFUNCTION (VFun CB_curl_parse_xml) (good_but_write (VData AT_ctxt)) good_xml.
Proof. split; [|by left]. intros opts [H2 H3 Hd]. split_and!; [split| |]; other_options; auto. Qed.

Lemma leads_to_same o v D :
  (forall opts, D opts -> D (opts ++ [(o, v)])) -> leads_to o v D D.
Proof. intros HD. split; [exact HD|by right]. Qed.
End More.

(** One statement of a block, or a block that leaves the lock and the options' description alone. *)
Ltac mid_option := intros; apply leads_to_good; reflexivity.
Ltac mid_statement :=
  lazymatch goal with
  | |- hoare _ (gets _) _ _ => apply hoare_gets
  | |- hoare _ (tfind _) _ _ => apply hoare_gets
  | |- hoare _ (curl_easy_setopt_or_die _ _ _) _ _ => apply hoare_setopt_or_die; [done|]; mid_option
  | |- hoare _ (curl_easy_setopt_ _ _ _) _ _ => apply hoare_setopt_; [done|]; mid_option
  | |- hoare _ (add_header_if _ _) _ _ => apply hoare_add_header_if
  | |- hoare _ (add_header_destination _) _ _ => apply hoare_add_header_destination; done
  | |- hoare _ (curl_easy_perform_or_die _) _ _ => apply hoare_perform; [done|done]
  | |- hoare _ (append_weak _) _ _ => apply hoare_append_weak
  | |- hoare _ (set_headers _) _ _ => apply hoare_set_headers; [done|]; mid_option
  | |- hoare _ (set_range _ _ _) _ _ => apply hoare_set_range; [done|]; mid_option
  | |- hoare _ rdlock _ _ => apply hoare_rdlock; done
  | |- hoare _ wrlock _ _ => apply hoare_wrlock; done
  | |- hoare _ unlock _ _ => apply hoare_unlock; discriminate
  | |- hoare _ (throwable _) _ _ => apply hoare_append_e
  | |- hoare ?P (bind _ _) ?P _ => apply (hoare_bind P P P); [mid_statement|intros ?; mid_statement]
  | |- hoare ?P (when _ _) ?P _ => apply hoare_when; [intros ?; mid_statement|done]
  | |- hoare ?P skip ?P _ => by intros s Hs
  end.
(** The next statement, after which the lock is [k] and [D] holds of the options. *)
Ltac mid h D k := simple apply hoare_bind with (middle h D k); [mid_statement|intros ?].
(** The last one. *)
Ltac mid_last :=
  match goal with |- hoare ?P _ _ _ => eapply (hoare_conseq P P); [mid_statement|done|apply middle_left] end.

(** ** The requests *)

Section Bodies.
Context `{E : Env} {ST : Setting} (sane : sane_env).
Implicit Types (h : addr).

(** A body: from a borrowed handle and the free lock. *)
Definition body_ok (body : option addr -> M (Frame * G) Z unit) : Prop :=
  forall h, hoare (middle h good free_lock) (body (Some h)) (left_with h) (left_with h).

(** One that also leaves a frame with [want], unless it raises. *)
Definition body_gives (want : Frame -> Prop) (body : option addr -> M (Frame * G) Z unit) : Prop :=
  forall h, hoare (middle h good free_lock) (body (Some h)) (fun s => left_with h s /\ want s.1) (left_with h).

Lemma body_ok_gives body : body_ok body -> body_gives (fun _ => True) body.
Proof. intros Hb h. by eapply hoare_conseq; [apply (Hb h)|..]. Qed.

Lemma hoare_scope_left h D k Q (body : M (Frame * G) Z unit) :
  (forall s, Q s -> left_with h s) -> hoare (middle h D k) body Q (left_with h) ->
  hoare (middle h D k) (throwable (scope_slist body)) Q (left_with h).
Proof.
  intros HQ. apply hoare_scope; [apply middle_left|done|]. intros l g. by apply middle_local.
Qed.

(** The lock is taken, one way or the other. *)
Definition some_lock h (s : Frame * G) : Prop :=
  exists lt, lt <> RW_LOCK_NONE /\ middle h good (taken lt) s.
Lemma hoare_some_lock {A} h (m : M (Frame * G) Z A) Q B :
  (forall lt, lt <> RW_LOCK_NONE -> hoare (middle h good (taken lt)) m Q B) -> hoare (some_lock h) m Q B.
Proof. intros Hm s (lt & Hlt & Hs). by apply (Hm lt). Qed.

Lemma body_method path method lt :
  body_ok (fun curl =>
    ul <- use_locks ;;
    let locking := ul && negb (bool_decide (lt = RW_LOCK_NONE)) in
    when locking
      match lt with
      | RW_LOCK_NONE => skip
      | RW_LOCK_READ => rdlock
      | RW_LOCK_WRITE => wrlock
      end ;;;
    throwable (scope_slist
      (when locking (add_header_if path lt ;;; set_headers curl) ;;;
       curl_easy_setopt_or_die curl CURLOPT_CUSTOMREQUEST (VStr (Some method)) ;;;
       curl_easy_setopt_ curl CURLOPT_NOBODY (VLong 1) ;;;
       curl_easy_perform_or_die curl)) ;;;
    when locking unlock).
Proof.
  intros h. apply hoare_use_locks. cbv zeta.
  destruct (locking && negb (bool_decide (lt = RW_LOCK_NONE))) eqn:Hl; cbn [when].
  - apply andb_true_iff in Hl as [Hl Hlt%negb_true_iff%bool_decide_eq_false].
    apply hoare_bind with (middle h good (taken lt)).
    { destruct lt; [done|by apply hoare_rdlock|by apply hoare_wrlock]. }
    intros _. apply hoare_bind with (middle h good (taken lt)).
    + apply hoare_scope_left; [apply middle_left|]. mid_statement.
    + intros _. eapply hoare_conseq; [by apply hoare_unlock|done|apply middle_left].
  - apply hoare_bind with (middle h good free_lock); [by intros s Hs|]. intros _.
    apply hoare_bind with (middle h good free_lock); [|intros _ s Hs; by eapply middle_left].
    apply hoare_scope_left; [apply middle_left|]. mid_statement.
Qed.

Lemma body_put path size offset :
  body_ok (fun curl =>
    throwable (scope_slist
      (ul <- use_locks ;;
       when ul (rdlock ;;; add_header_if path RW_LOCK_READ ;;; set_headers curl) ;;;
       curl_easy_setopt_ curl CURLOPT_UPLOAD (VLong 1) ;;;
       curl_easy_setopt_ curl CURLOPT_READDATA (VData AT_buf) ;;;
       curl_easy_setopt_ curl CURLOPT_READFUNCTION (VFun CB_Buffer_fetch) ;;;
       set_range curl offset size ;;;
       curl_easy_setopt_ curl CURLOPT_INFILESIZE (VLong (i64 size)) ;;;
       curl_easy_perform_or_die curl ;;;
       when ul unlock))).
Proof.
  intros h. apply hoare_scope_left; [done|]. apply hoare_use_locks.
  set (k := if locking then taken RW_LOCK_READ else free_lock).
  apply hoare_bind with (middle h good k).
  { unfold k. destruct locking eqn:Hl; [|by intros s Hs]. cbn [when]. mid h good (taken RW_LOCK_READ). mid_statement. }
  intros _. mid h good k.
  apply hoare_bind with (middle h (good_with CURLOPT_READDATA (VData AT_buf)) k).
  { apply hoare_setopt_; [done|]. apply leads_to_readdata. }
  intros _. apply hoare_bind with (middle h good k).
  { apply hoare_setopt_; [done|]. apply leads_to_read. }
  intros _. do 3 mid h good k. unfold k. destruct locking; cbn [when]; [mid_last|exact (middle_left h _ _)].
Qed.

Lemma body_move from to nooverwrite :
  body_ok (fun curl =>
    throwable (scope_slist
      (add_header_destination to ;;;
       when nooverwrite
         (throwable (l <- local ;; l' <- curl_slist_append_e (f_list l) "Overwrite: F" ;;
                     upd_local (set_f_list l'))) ;;;
       ul <- use_locks ;;
       when ul
         (rdlock ;;;
          p <- tfind from ;;
          when (not_null p) (unlock ;;; wrlock ;;; add_header_if from RW_LOCK_WRITE) ;;;
          add_header_if to RW_LOCK_READ) ;;;
       set_headers curl ;;;
       curl_easy_setopt_or_die curl CURLOPT_CUSTOMREQUEST (VStr (Some "MOVE"%string)) ;;;
       curl_easy_setopt_ curl CURLOPT_NOBODY (VLong 1) ;;;
       curl_easy_perform_or_die curl ;;;
       when ul unlock))).
Proof.
  intros h. apply hoare_scope_left; [done|]. mid h good free_lock. mid h good free_lock.
  apply hoare_use_locks. destruct locking eqn:Hl; cbn [when].
  - apply hoare_bind with (some_lock h).
    + mid h good (taken RW_LOCK_READ). mid h good (taken RW_LOCK_READ).
      apply hoare_bind with (some_lock h).
      * apply hoare_when; [intros _|intros _ s Hs; by exists RW_LOCK_READ].
        mid h good free_lock. mid h good (taken RW_LOCK_WRITE).
        eapply hoare_conseq; [apply hoare_add_header_if|done|]. intros s Hs. by exists RW_LOCK_WRITE.
      * intros _. apply hoare_some_lock. intros lt Hlt.
        eapply hoare_conseq; [apply hoare_add_header_if|done|]. intros s Hs. by exists lt.
    + intros _. apply hoare_some_lock. intros lt Hlt. do 4 mid h good (taken lt).
      eapply hoare_conseq; [by apply hoare_unlock|done|apply middle_left].
  - apply hoare_bind with (middle h good free_lock); [by intros s Hs|]. intros _.
    do 4 mid h good free_lock. exact (middle_left h _ _).
Qed.

Lemma body_copy to :
  body_ok (fun curl =>
    throwable (scope_slist
      (add_header_destination to ;;;
       ul <- use_locks ;;
       when ul (rdlock ;;; add_header_if to RW_LOCK_READ) ;;;
       set_headers curl ;;;
       curl_easy_setopt_or_die curl CURLOPT_CUSTOMREQUEST (VStr (Some "COPY"%string)) ;;;
       curl_easy_setopt_ curl CURLOPT_NOBODY (VLong 1) ;;;
       curl_easy_perform_or_die curl ;;;
       when ul unlock))).
Proof.
  intros h. apply hoare_scope_left; [done|]. mid h good free_lock.
  apply hoare_use_locks. set (k := if locking then taken RW_LOCK_READ else free_lock).
  apply hoare_bind with (middle h good k).
  { unfold k. destruct locking eqn:Hl; [|by intros s Hs]. cbn [when]. mid h good (taken RW_LOCK_READ). mid_statement. }
  intros _. do 4 mid h good k. unfold k. destruct locking; cbn [when]; [mid_last|exact (middle_left h _ _)].
Qed.

(** [f_size] holds what the header lines said. *)
Definition size_set (l : Frame) : Prop := exists z, f_size l = Some z /\ 0 <= z.

Abbreviation keeps_size m := (keeps (frame_keeps size_set) m).
#[local] Hint Extern 1 (keeps _ (upd_local _)) => by apply keeps_frame_local : keeps.

Lemma dav_head_size_range line n : dav_head_size line = Some n -> 0 <= n.
Proof. unfold dav_head_size. case_match; [|done]. intros [= <-]. apply u64_range. Qed.

Lemma keeps_size_header {R} opts line : keeps_size (header_callback (R := R) opts line).
Proof.
  unfold header_callback, __dav_head_callback, __dav_lock_callback, __dav_options_callback, SimpleString_new,
    strdup, malloc_ok, upd_server. keeps.
  apply keeps_modify. intros [l g] _. eexists. split; [done|]. by eapply dav_head_size_range.
Qed.
Lemma keeps_size_write {R} opts chunk : keeps_size (write_callback (R := R) opts chunk).
Proof.
  unfold write_callback, do_Buffer_append, curl_parse_xml, malloc_ok, mk_MallocException, malloc_ok. keeps.
Qed.
Lemma keeps_size_read {R} opts n : keeps_size (read_callback (R := R) opts n).
Proof. unfold read_callback, do_Buffer_fetch. keeps. Qed.
#[local] Hint Resolve keeps_size_header keeps_size_write keeps_size_read : keeps.

Lemma keeps_size_xfer {R} h opts x : keeps_size (run_xfer (R := R) h opts x).
Proof. induction x; cbn [run_xfer]; keeps. Qed.
#[local] Hint Resolve keeps_size_xfer : keeps.

Lemma keeps_size_setopt {R} (h : option addr) o v : keeps_size (curl_easy_setopt (L := Frame) (R := R) h o v).
Proof. unfold curl_easy_setopt. keeps. Qed.
Lemma keeps_size_perform {R} (h : option addr) : keeps_size (curl_easy_perform (R := R) h).
Proof. unfold curl_easy_perform. keeps. Qed.
#[local] Hint Resolve keeps_size_setopt keeps_size_perform : keeps.

Lemma keeps_size_perform_or_die {R} (h : option addr) : keeps_size (curl_easy_perform_or_die (R := R) h).
Proof. unfold curl_easy_perform_or_die, curl_do_or_die, mk_CurlException, curl_easy_getinfo, malloc_ok. keeps. Qed.
Lemma keeps_size_setopt_ {R} (h : option addr) o v : keeps_size (curl_easy_setopt_ (L := Frame) (R := R) h o v).
Proof. unfold curl_easy_setopt_. keeps. Qed.

Lemma body_head want_size :
  body_ok (fun curl =>
    curl_easy_setopt_or_die curl CURLOPT_CUSTOMREQUEST (VStr (Some "HEAD"%string)) ;;;
    curl_easy_setopt_ curl CURLOPT_NOBODY (VLong 1) ;;;
    when want_size
      (upd_local (set_f_size (Some 0)) ;;;
       curl_easy_setopt_ curl CURLOPT_HEADERDATA (VData AT_sizep) ;;;
       curl_easy_setopt_ curl CURLOPT_HEADERFUNCTION (VFun CB_dav_head_callback)) ;;;
    curl_easy_perform_or_die curl).
Proof.
  intros h. do 2 mid h good free_lock. apply hoare_bind with (middle h good free_lock); [|intros _; mid_last].
  apply hoare_when; [intros _|done]. apply hoare_bind with (middle h good free_lock).
  { apply hoare_modify. intros [l g]. by apply middle_local. }
  intros _. apply hoare_bind with (middle h (good_with CURLOPT_HEADERDATA (VData AT_sizep)) free_lock).
  - apply hoare_setopt_; [done|]. apply leads_to_headerdata.
  - intros _. apply hoare_setopt_; [done|]. apply leads_to_head.
Qed.

(** The HEAD that asks for the size sets it. *)
Lemma body_head_size :
  body_gives size_set (fun curl =>
    curl_easy_setopt_or_die curl CURLOPT_CUSTOMREQUEST (VStr (Some "HEAD"%string)) ;;;
    curl_easy_setopt_ curl CURLOPT_NOBODY (VLong 1) ;;;
    when true
      (upd_local (set_f_size (Some 0)) ;;;
       curl_easy_setopt_ curl CURLOPT_HEADERDATA (VData AT_sizep) ;;;
       curl_easy_setopt_ curl CURLOPT_HEADERFUNCTION (VFun CB_dav_head_callback)) ;;;
    curl_easy_perform_or_die curl).
Proof.
  intros h. do 2 mid h good free_lock. cbn [when].
  apply hoare_bind with (fun s => middle h good free_lock s /\ size_set s.1).
  - apply hoare_bind with (fun s => middle h good free_lock s /\ size_set s.1).
    { apply hoare_modify. intros [l g] Hs. split; [by apply (middle_local _ _ _ l)|by exists 0]. }
    intros _. apply hoare_bind with (fun s => middle h (good_with CURLOPT_HEADERDATA (VData AT_sizep)) free_lock s /\ size_set s.1).
    + apply hoare_keep; [apply keeps_size_setopt_|]. apply hoare_setopt_; [done|]. apply leads_to_headerdata.
    + intros _. apply hoare_keep; [apply keeps_size_setopt_|]. apply hoare_setopt_; [done|]. apply leads_to_head.
  - intros _. apply hoare_keep; [apply keeps_size_perform_or_die|]. mid_last.
Qed.

(** The download into the buffer of the request. *)
Lemma body_get size offset :
  is_Some the_buf ->
  body_ok (fun curl =>
    when (negb (offset =? 0) || negb (size =? 0)) (set_range curl offset size) ;;;
    curl_easy_setopt_ curl CURLOPT_WRITEDATA (VData AT_buf) ;;;
    curl_easy_setopt_ curl CURLOPT_WRITEFUNCTION (VFun CB_Buffer_append) ;;;
    curl_easy_perform_or_die curl).
Proof.
  intros Hb h. mid h good free_lock.
  apply hoare_bind with (middle h (good_but_write (VData AT_buf)) free_lock).
  { apply hoare_setopt_; [done|]. apply leads_to_writedata. }
  intros _. apply hoare_bind with (middle h good free_lock); [|intros _; mid_last].
  apply hoare_setopt_; [done|]. by apply leads_to_write.
Qed.

Lemma body_proppatch size :
  body_ok (fun curl =>
    throwable (scope_slist1 CONTENT_TYPE_XML
      (append_weak PREFER_MINIMAL ;;;
       set_headers curl ;;;
       curl_easy_setopt_ curl CURLOPT_UPLOAD (VLong 1) ;;;
       curl_easy_setopt_ curl CURLOPT_READDATA (VData AT_buf) ;;;
       curl_easy_setopt_ curl CURLOPT_READFUNCTION (VFun CB_Buffer_fetch) ;;;
       curl_easy_setopt_ curl CURLOPT_INFILESIZE (VLong size) ;;;
       curl_easy_setopt_or_die curl CURLOPT_CUSTOMREQUEST (VStr (Some "PROPPATCH"%string)) ;;;
       curl_easy_perform_or_die curl))).
Proof.
  intros h. apply (hoare_with _ _ _ _ (fun _ => skip) _ (middle h good free_lock)).
  - apply middle_left.
  - done.
  - intros [l g] Hs. apply wp_bind, wp_slist_append_e; intros; apply wp_upd_local;
      (apply (middle_local _ _ _ l); [done|]).
    + by apply middle_world.
    + apply (middle_ex _ _ _ e (l, set_g_world w g)). by apply middle_world.
  - by intros _ s Hs.
  - intros _. do 3 mid h good free_lock.
    apply hoare_bind with (middle h (good_with CURLOPT_READDATA (VData AT_buf)) free_lock).
    { apply hoare_setopt_; [done|]. apply leads_to_readdata. }
    intros _. apply hoare_bind with (middle h good free_lock).
    { apply hoare_setopt_; [done|]. apply leads_to_read. }
    intros _. do 2 mid h good free_lock. mid_last.
Qed.

(** ** Every request *)

(** Between two requests: every handle is in the pool, the table is good, and its lock is free. *)
Record quiescent g : Prop := {
  qui_pool : pool [] g;
  qui_table : live_table g;
  qui_lock : g_rwlock g = free_lock;
}.

(** What a block leaves: a buffer as it was, and the mount between two requests, but for the lock. *)
Definition finished (s : Frame * G) : Prop := buf_ok s.1 /\ pool [] s.2 /\ settled s.2.

(** From where it starts. *)
Record ready_for (s : Frame * G) : Prop := {
  rdy_buf : buf_ok s.1;
  rdy_quiet : quiescent s.2;
  rdy_locking : use_lock (options (g_server s.2)) = locking;
}.

Lemma io_settled g g' : settled g -> io_step g g' -> settled g'.
Proof.
  intros (Ht & Hu & Hf) Hs. split; [exact (live_same g g' (Hs same_locks _) Ht)|].
  by rewrite (Hs same_server _), (Hs same_rwlock _).
Qed.

(** A frame with [want], unless an exception is pending. *)
Definition gives (want : Frame -> Prop) (s : Frame * G) : Prop := Exception_has (get_ex s) = false -> want s.1.

Lemma block_twp want p body s :
  (forall h s, middle h good free_lock s -> twp (body (Some h)) (fun _ s' => left_with h s' /\ gives want s')
     (fun s' => left_with h s' /\ gives want s') never s) ->
  ready_for s ->
  twp (with_server_curl (R := Z) p body) (fun _ s => finished s /\ gives want s) (fun _ => False) never s.
Proof.
  destruct s as [l g]. intros Hb [Hl [Hp Ht Hk] Hu]. cbn [fst snd] in *. apply wp_bind, wp_shared.
  refine (wp_mono _ _ _ _ _ _ _ _ (with_curl_twp _ _ _ _
    (fun s => buf_ok s.1 /\ settled s.2 /\ g_rwlock s.2 = free_lock)
    (fun s => buf_ok s.1 /\ settled s.2 /\ gives want s) l g _ _ _ _ Hp _) _ _ _); try done.
  - intros l1 g1 g2 (? & ? & Hk1) Hs. split_and!; [done|by apply io_settled with g1|]. cbn [snd] in *.
    by rewrite (Hs same_rwlock _).
  - intros l1 g1 g2 (? & ? & Hw) Hs. split_and!; [done|by apply io_settled with g1|].
    intros He. apply Hw. pose proof (Hs stays_pending _) as Hst. unfold stays_pending in Hst. simpl in *.
    destruct (Exception_has (g_ex g1)); [|done]. by rewrite Hst in He.
  - intros s (? & ? & _) He. split_and!; [done..|]. unfold gives. by rewrite He.
  - intros h [l1 g1] _ Hp1 (e & He & Hpl) (Hl1 & (Ht1 & Hu1 & _) & Hk1).
    refine (wp_mono _ _ _ _ _ _ _ _ (Hb h (l1, g1) _) _ _ _); [| | |done].
    + split; try done. exists e. split; [done|]. by apply good_plain.
    + by intros _ s [(? & ? & ?) ?].
    + by intros s [(? & ? & ?) ?].
  - by intros _ s (? & ? & ? & ?).
Qed.

Lemma block_gives want p body s :
  body_gives want body -> ready_for s ->
  twp (with_server_curl p body) (fun _ s => finished s /\ gives want s) (fun _ => False) never s.
Proof.
  intros Hb. apply block_twp. intros h s' Hs'.
  refine (wp_mono _ _ _ _ _ _ _ _ (Hb h s' Hs') _ _ _); [intros _ s1 [? ?]; by split; [|intros _]| |done].
  intros s1 (He & Hl). split; [done|]. unfold gives. by rewrite He.
Qed.

Lemma block_ok p body s :
  body_ok body -> ready_for s ->
  twp (with_server_curl p body) (fun _ s => finished s) (fun _ => False) never s.
Proof.
  intros Hb%body_ok_gives Hs.
  refine (wp_mono _ _ _ _ _ _ _ _ (block_gives _ p body s Hb Hs) _ _ _); [by intros _ s' [? _]|done..].
Qed.

Lemma status_ok (s : Frame * G) : finished s ->
  twp return_status (fun _ _ => False) (fun _ => False) (fun v s' => (v = 0 \/ v = 1) /\ finished s') s.
Proof.
  intros Hs. apply wp_bind, wp_gets, wp_return. split; [|done].
  unfold TEST_SUCCESS. destruct (Exception_has _); auto.
Qed.

Lemma request_ok p body s :
  body_ok body -> ready_for s ->
  twp (with_server_curl p body ;;; return_status) (fun _ _ => False) (fun _ => False)
    (fun v s => (v = 0 \/ v = 1) /\ finished s) s.
Proof.
  intros Hb Hs. apply wp_bind.
  refine (wp_mono _ _ _ _ _ _ _ _ (block_ok p body s Hb Hs) _ _ _); [|done..].
  intros _ s'. apply status_ok.
Qed.
End Bodies.

(** A request with a buffer over the caller's memory, which may be larger than [n]. *)
Section Buffered.
Context `{E : Env} (sane : sane_env).

Definition setting_of (buf : option (Z * Z)) (g : G) : Setting :=
  {| locking := use_lock (options (g_server g)); the_buf := buf; documents := fun _ => True;
     documents_create := fun _ _ _ _ => I; documents_chunk := fun _ _ _ _ _ => I |}.

Lemma ready_none l g : (forall b, f_buf l = Some b -> fits b) -> quiescent g ->
  ready_for (ST := setting_of None g) (l, g).
Proof. intros Hl Hg. by split; [split| |]. Qed.

Lemma ready_buffer {ST : Setting} d n l g :
  0 <= n <= zlen d -> n < 2 ^ 62 -> quiescent g ->
  locking = use_lock (options (g_server g)) -> the_buf = Some (n, zlen d) ->
  (forall c, f_ctxt l = Some c -> documents c) ->
  ready_for (set_f_buf (Some (mkBuffer d n 0 false)) l, g).
Proof.
  intros Hn Hb Hg Hl Hbuf Hc. split; [|done|done]. split; [| |done].
  - intros b [= <-]. split; simpl; lia.
  - rewrite Hbuf. intros n' len [= <- <-]. by eexists.
Qed.

(** What is left, whatever the buffer was. *)
Record returned (g g' : G) : Prop := {
  ret_pool : pool [] g';
  ret_table : live_table g';
  ret_uses : use_lock (options (g_server g')) = use_lock (options (g_server g));
  ret_free : use_lock (options (g_server g)) = false -> g_rwlock g' = free_lock;
}.

Lemma finished_returned {ST : Setting} g s :
  finished s -> locking = use_lock (options (g_server g)) -> returned g s.2.
Proof. intros (_ & Hp & Ht & Hu & Hf) Hl. rewrite Hl in *. by split. Qed.

Lemma buffer_request_ok d n p body l g :
  0 <= n <= zlen d -> n < 2 ^ 62 -> body_ok (ST := setting_of (Some (n, zlen d)) g) body -> quiescent g ->
  twp (with_buffer d n (throwable (with_server_curl p body)) ;;; return_status)
    (fun _ _ => False) (fun _ => False) (fun v s => (v = 0 \/ v = 1) /\ returned g s.2) (l, g).
Proof.
  intros Hn Hd Hb Hq. set (ST := setting_of (Some (n, zlen d)) g) in *.
  assert (forall s : Frame * G, returned g s.2 -> twp return_status (fun _ _ => False) (fun _ => False)
    (fun (v : Z) (s' : Frame * G) => (v = 0 \/ v = 1) /\ returned g s'.2) s) as Hst.
  { intros s Hs. apply wp_bind, wp_gets, wp_return. split; [|done].
    unfold TEST_SUCCESS. destruct (Exception_has _); auto. }
  apply wp_bind, wp_with_seperated. cbv zeta. apply wp_skip, wp_upd_local.
  destruct (Exception_has _); [apply wp_skip, Hst; by destruct Hq; split|].
  apply wp_throwable_same.
  refine (wp_mono _ _ _ _ _ _ _ _ (block_ok p body _ Hb (ready_buffer d n l g Hn Hd Hq eq_refl eq_refl (fun _ _ => I))) _ _ _); [|done..].
  intros _ s Hs. by apply Hst, finished_returned.
Qed.

(** The caller's memory is as large as it says. *)
Definition sized (r : request) : Prop :=
  match r with
  | Rput _ d n _ => 0 <= n <= zlen d /\ n < 2 ^ 62
  | Rproppatch _ k v => zlen (proppatch_body k v) < 2 ^ 62
  | _ => True
  end.

Lemma request_settles (r : request) l g :
  sized r -> (forall b, f_buf l = Some b -> fits b) -> quiescent g ->
  twp (run_request r) (fun _ _ => False) (fun _ => False) (fun v s => (v = 0 \/ v = 1) /\ returned g s.2) (l, g).
Proof.
  intros Hr Hl Hq. pose proof (ready_none l g Hl Hq) as Hs.
  assert (forall p body, body_ok (ST := setting_of None g) body ->
    twp (with_server_curl p body ;;; return_status) (fun _ _ => False) (fun _ => False)
      (fun v s => (v = 0 \/ v = 1) /\ returned g s.2) (l, g)) as Hok.
  { intros p body Hb. refine (wp_mono _ _ _ _ _ _ _ _ (request_ok p body (l, g) Hb Hs) _ _ _); [done..|].
    intros v s [Hv Hf]. split; [done|by apply (finished_returned (ST := setting_of None g))]. }
  destruct r as [p|p|p|p b|p d n o|a b|a b|a b|p k v]; cbn [run_request sized] in *.
  - apply Hok, (body_method sane p "MKCOL" RW_LOCK_NONE).
  - apply Hok, (body_method sane p "PUT" RW_LOCK_READ).
  - apply Hok, (body_method sane p "DELETE" RW_LOCK_WRITE).
  - by apply Hok, body_head.
  - destruct Hr as [? ?]. apply buffer_request_ok; [done..|by apply body_put|done].
  - apply Hok, (body_move sane a b false).
  - apply Hok, (body_move sane a b true).
  - by apply Hok, body_copy.
  - pose proof (zlen_nonneg (proppatch_body k v)). apply buffer_request_ok; [lia|done|by apply body_proppatch|done].
Qed.

(** The result of a request. *)
Lemma request_result (r : request) l g :
  sized r -> (forall b, f_buf l = Some b -> fits b) -> quiescent g ->
  exists v l' g', run_request r (l, g) = (Ret v, (l', g')) /\ (v = 0 \/ v = 1) /\ returned g g'.
Proof.
  intros Hr Hl Hq. destruct (twp_result _ _ _ (request_settles r l g Hr Hl Hq)) as (v & [l' g'] & Hrun & Hv).
  by exists v, l', g'.
Qed.

(** The HEAD that succeeds hands out a size. *)
Lemma head_size_settles p l g :
  (forall b, f_buf l = Some b -> fits b) -> quiescent g ->
  twp (dav_head p true) (fun _ _ => False) (fun _ => False)
    (fun v s => returned g s.2 /\ (v = 0 -> size_set s.1)) (l, g).
Proof.
  intros Hl Hq. pose proof (ready_none l g Hl Hq) as Hs. apply wp_bind.
  refine (wp_mono _ _ _ _ _ _ _ _ (block_gives size_set _ _ _ (body_head_size sane) Hs) _ _ _); [|done..].
  intros _ [l' g'] [Hf Hw]. apply wp_bind, wp_gets, wp_return. split; [by apply (finished_returned (ST := setting_of None g))|].
  intros He%TEST_SUCCESS_0. by apply Hw.
Qed.

(** The download answers -1, or how much of the caller's memory it filled, which keeps its length. *)
Lemma get_settles p d n o l g :
  0 <= n <= zlen d -> n < 2 ^ 62 -> quiescent g -> Exception_has (g_ex g) = false ->
  twp (dav_get p d n o) (fun _ _ => False) (fun _ => False)
    (fun v s => returned g s.2 /\ v <= n /\ exists b, f_buf s.1 = Some b /\ zlen (data b) = zlen d) (l, g).
Proof.
  intros Hn Hb Hq Hc. set (ST := setting_of (Some (n, zlen d)) g).
  apply wp_bind, wp_with_seperated. cbv zeta. apply wp_skip, wp_upd_local.
  change (get_ex _) with (g_ex g). rewrite Hc. apply wp_bind.
  refine (wp_mono _ _ _ _ _ _ _ _ (block_ok _ _ _ (body_get sane _ _ ltac:(by eexists))
    (ready_buffer d n l g Hn Hb Hq eq_refl eq_refl (fun _ _ => I))) _ _ _); [|done..].
  intros _ [l' g'] Hf. pose proof (finished_returned g _ Hf eq_refl) as Hr. destruct Hf as [[Hfits Hbuf _] _].
  destruct (Hbuf n (zlen d) eq_refl) as (b & Hl' & Hs & Hd & _). cbn [fst snd] in *.
  destruct (Hfits b Hl') as [Ho _ _].
  apply wp_bind, wp_gets, wp_bind, wp_local, wp_bind, (wp_deref_some _ b); [done|]. apply wp_upd_local, wp_skip.
  apply wp_bind, wp_local. cbn [f_res set_f_res]. apply wp_return. cbn [fst snd]. split; [done|]. split; [|by exists b].
  destruct (TEST_SUCCESS _ =? 0) eqn:Ht; [pose proof (i32_le (Buffer.offset b)); lia|].
  unfold TEST_SUCCESS. case_match; lia.
Qed.

(** C3: the requests of the type [request], that is MKCOL, PUT with and without data, DELETE, HEAD,
    MOVE, COPY and PROPPATCH, are never stuck: between two requests such a request returns 0 or 1,
    whatever libcurl, the server and the memory allocator do within what libcurl documents.
    Afterwards every handle is back in the pool or closed and the lock table names live objects; the
    lock is free again after success. Nothing is said here of GET, PROPFIND, LOCK, UNLOCK and
    OPTIONS; a PROPFIND and a LOCK that are answered without a body do go through NULL
    ([empty_answer_is_fatal] in OperSpec.v). *)
Theorem request_returns (r : request) l g :
  sized r -> (forall b, f_buf l = Some b -> Buffer_wf b) -> quiescent g ->
  exists v l' g', run_request r (l, g) = (Ret v, (l', g')) /\ (v = 0 \/ v = 1)
    /\ pool [] g' /\ live_table g' /\ (v = 0 -> quiescent g').
Proof.
  intros Hr Hl Hq.
  destruct (request_result r l g Hr (fun b Hb => fits_wf b (Hl b Hb)) Hq) as (v & l' & g' & Hrun & Hv & [Hp Ht _ _]).
  exists v, l', g'. do 4 (split; [done|]). intros ->. split; [done..|].
  destruct (request_lock_balanced _ _ _ _ _ _ Hrun) as [[_ Hk]|[[[=] _]|[f [=]]]].
  rewrite Hk. apply Hq.
Qed.
End Buffered.

(** ** Witness *)

Lemma demo_sane code : sane_env (E := demo_env (answers code) None).
Proof.
  split.
  - done.
  - intros u part w _. by exists u.
  - intros opts w. apply sane_done.
Qed.

(** A file is locked, and the pool is empty. *)
Lemma demo_quiescent code : quiescent (E := demo_env (answers code) None) (demo_g code ex0).
Proof.
  split; [|split|done].
  - exists []. splits; [by split; [|apply NoDup_nil_2|]|done|apply NoDup_nil_2|done|]. intros a []%elem_of_nil.
  - intros p a Hp. unfold demo_g, demo_state in *. simpl in *.
    apply lookup_insert_Some in Hp as [[<- <-]|[_ Hp]]; [|done].
    eexists. split; [done|]. by eexists.
  - intros p p' a Hp Hp'. unfold demo_g, demo_state in *. simpl in *.
    apply lookup_insert_Some in Hp as [[<- _]|[_ Hp]]; [|done].
    by apply lookup_insert_Some in Hp' as [[<- _]|[_ Hp']].
Qed.

Lemma request_returns_witness :
  exists v l' g', run_request (E := demo_env (answers 200) None) (Rdelete "/a")
      (demo_l 200, demo_g 200 ex0) = (Ret v, (l', g'))
    /\ (v = 0 \/ v = 1) /\ pool [] g' /\ filelock_tree (g_server g') = ∅.
Proof.
  destruct (request_returns (E := demo_env (answers 200) None) (demo_sane 200) (Rdelete "/a")
    (demo_l 200) (demo_g 200 ex0)) as (v & l' & g' & Hr & Hv & Hp & _).
  - exact I.
  - intros b Hb. discriminate Hb.
  - apply demo_quiescent.
  - exists v, l', g'. split; [exact Hr|]. split; [exact Hv|]. split; [exact Hp|].
    assert (g' = (run_request (E := demo_env (answers 200) None) (Rdelete "/a")
      (demo_l 200, demo_g 200 ex0)).2.2) as -> by (by rewrite Hr).
    vm_compute. reflexivity.
Defined.
