(* ===== verification/Sends.v ===== *)
(** * What a request puts on the network

    A request that succeeds has made exactly one transfer, with the method it stands for among the
    options of the handle; a request that fails has made at most one. *)

From S2P Require Import Prelude Utils Exception Control Buffer Stack State Wp Demo Curl Rules Method MethodSpec.
#[local] Open Scope Z_scope.
#[local] Open Scope c_scope.

(** ** The rule for a block under a handle *)

Section WithCurl.
Context `{E : Env}.

(** The block runs from a state without an exception, or not at all with one pending; around it only
    what curl.c touches changes. *)
Lemma wp_with_server_curl {R} p (body : option addr -> M (Frame * G) R unit) l g Q B
    (T : R -> Frame * G -> Prop) :
  (forall g1, io_step g g1 -> Exception_has (g_ex g1) = true -> Q tt (l, g1)) ->
  (forall h g1, io_step g g1 -> Exception_has (g_ex g1) = false ->
     let K (s : Frame * G) := forall g3, io_step s.2 g3 -> g_ex g3 = g_ex s.2 -> Q tt (s.1, g3) in
     wp (body h) (fun _ => K) K T (l, g1)) ->
  wp (with_server_curl p body) Q B T (l, g).
Proof.
  intros Hs Hb. unfold gwp. destruct (with_server_curl p body (l, g)) as [c [l' g']] eqn:Hr.
  apply with_server_curl_run in Hr.
  inversion Hr as [f ? Hi|? Hi He|h gi l2 g2 ? Hi He0 He1 Hbody Ha|h gi l2 g2 ci ? ? Hi He0 He1 Hbody Ha Ho Hx Hc];
    simplify_eq; simpl; try done; auto.
  - specialize (Hb h gi Hi He1). unfold gwp in Hb. rewrite Hbody in Hb.
    destruct c as [[]| | | |]; try done; by destruct (Ha (l', g')).
  - specialize (Hb h gi Hi He1). unfold gwp in Hb. rewrite Hbody in Hb.
    destruct Hc as [->|[f ->]]; [|done]. destruct ci as [[]| | | |]; try done; by apply Hb.
Qed.
End WithCurl.

(** ** The stages of a request *)

Section Wire.
Context `{E : Env}.
Implicit Types (n : list (list (CURLoption * optval))) (g : G).

(** Nothing was sent yet. *)
Definition unsent n g : Prop := g_sent g = n.
(** The option is set on the handle. *)
Definition ready (h : option addr) o v n g : Prop :=
  g_sent g = n /\ exists a e, h = Some a /\ g_handles g !! a = Some e /\ last_opt o (easy_opts e) = Some v.
(** One transfer was made, with the option. *)
Definition sent_with o v n g : Prop :=
  exists opts, g_sent g = n ++ [opts] /\ last_opt o opts = Some v.
Definition at_most_one n g : Prop := g_sent g = n \/ exists opts, g_sent g = n ++ [opts].

Lemma unsent_at_most n g : unsent n g -> at_most_one n g.
Proof. by left. Qed.
Lemma ready_at_most h o v n g : ready h o v n g -> at_most_one n g.
Proof. intros [? _]. by left. Qed.
Lemma sent_at_most o v n g : sent_with o v n g -> at_most_one n g.
Proof. intros (opts & ? & _). right. eauto. Qed.
#[local] Hint Resolve unsent_at_most ready_at_most sent_at_most : nfs.

(** A step that leaves the handles and the record of transfers alone. *)
Definition same_wire g g' : Prop := g_handles g' = g_handles g /\ g_sent g' = g_sent g.

#[export] Instance same_wire_world : WorldRel same_wire.
Proof.
  split; [split; unfold same_wire|..]; [done| |done..]. intros ??? [? ?] [? ?]. split; congruence.
Qed.
#[export] Instance same_wire_callback : CallbackRel same_wire.
Proof. split; [apply _|done..]. Qed.
#[export] Instance same_sent_callback : CallbackRel same_sent.
Proof. split; [apply _|done..]. Qed.

(** [curl_easy_setopt]: the option is added, when libcurl takes it. *)
Lemma wp_curl_easy_setopt {R} h o v l g Q B (T : R -> Frame * G -> Prop) :
  (h = None -> Q CURLE_BAD_FUNCTION_ARGUMENT (l, g)) ->
  (forall a e w code, h = Some a -> g_handles g !! a = Some e ->
     Q code (l, if code =? CURLE_OK
                then set_g_handles (<[a := mkEasy (easy_opts e ++ [(o, v)]) (easy_info e)]> (g_handles g))
                       (set_g_world w g)
                else set_g_world w g)) ->
  wp (curl_easy_setopt h o v) Q B T (l, g).
Proof.
  intros Hn Hs. destruct h as [a|]; simpl; [|by apply wp_mret, Hn].
  apply wp_bind, wp_gets, wp_bind, wp_deref. intros e He.
  apply wp_bind, wp_ext_world. intros code w. apply wp_bind. specialize (Hs a e w code eq_refl He).
  destruct (code =? CURLE_OK); simpl; [apply wp_modify|apply wp_skip]; by apply wp_mret.
Qed.

Lemma triple_wp {A R} P Q B (m : M (Frame * G) R A) :
  (forall l g, P g -> wp m (fun _ s => Q s.2) (fun s => Exception_has (g_ex s.2) = true /\ B s.2)
                        (fun _ _ => False) (l, g)) -> triple P m Q B.
Proof.
  intros Hm l g Hg. specialize (Hm l g Hg). unfold gwp in Hm.
  by destruct (m (l, g)) as [[] ?].
Qed.

(** An exception is thrown in a state that keeps [B]. *)
Lemma throw_at_most n (l : Frame) g :
  at_most_one n g -> Exception_has (g_ex (thrown (l, g)).2) = true /\ at_most_one n (thrown (l, g)).2.
Proof. intros Hg. by split. Qed.

Lemma wp_mk_CurlException {R} c a v h l g Q B (T : R -> Frame * G -> Prop) :
  (forall e, Q tt (l, set_g_ex e g)) -> wp (mk_CurlException c a v h) Q B T (l, g).
Proof.
  intros HQ. unfold mk_CurlException. apply wp_bind. destruct (_ && _).
  - destruct h as [h|]; simpl; [|apply wp_mret, wp_upd_ex, HQ].
    apply wp_bind, wp_gets, wp_bind, wp_deref. intros e _. apply wp_mret, wp_upd_ex, HQ.
  - apply wp_mret, wp_upd_ex, HQ.
Qed.

(** What a failing call of libcurl does. *)
Lemma wp_curl_do_or_die {R} (expr : M (Frame * G) R CURLcode) a v h l g n (Q : unit -> Frame * G -> Prop) T :
  wp expr (fun code s => if code =? CURLE_OK then Q tt s else at_most_one n s.2)
    (fun s => Exception_has (g_ex s.2) = true /\ at_most_one n s.2) T (l, g) ->
  wp (curl_do_or_die expr a v h) Q (fun s => Exception_has (g_ex s.2) = true /\ at_most_one n s.2) T (l, g).
Proof.
  intros He. apply wp_bind. eapply wp_mono; [exact He| |done..].
  intros code [l1 g1] Hc. apply wp_condition_throw; intros Hok; rewrite Hok in Hc; [done|].
  apply wp_mk_CurlException. intros e. by apply throw_at_most.
Qed.

(** A triple, with a relation that the statement keeps. *)
Lemma wp_triple_keeps {A R} (Rel : Frame * G -> Frame * G -> Prop) P Q B (m : M (Frame * G) R A) l g QQ BB T :
  triple P m Q B -> keeps Rel m -> P g ->
  (forall a s', Q s'.2 -> Rel (l, g) s' -> QQ a s') -> (forall s', Exception_has (get_ex s') = true -> BB s') ->
  wp m QQ BB T (l, g).
Proof.
  intros Hm Hk HP HQ HB. specialize (Hm l g HP). specialize (Hk (l, g)). unfold gwp.
  destruct (m (l, g)) as [[] s']; simpl in *; try done; [by apply HQ|by apply HB, Hm].
Qed.

(** Set an option or fail; after it the handle is ready. *)
Lemma triple_set {R} h o v n :
  triple (R := R) (unsent n) (curl_easy_setopt_or_die h o v) (ready h o v n) (at_most_one n).
Proof.
  apply triple_wp. intros l g Hg. apply wp_curl_do_or_die, wp_curl_easy_setopt.
  - intros ->. by left.
  - intros a e w code -> He. destruct (code =? CURLE_OK); [|by left].
    split; [exact Hg|]. exists a. eexists. simpl. rewrite lookup_insert_eq.
    split; [done|]. split; [done|]. apply last_opt_same.
Qed.

(** Another option leaves the handle ready. *)
Lemma ready_other h o v n a e w (code : Z) o' v' g :
  o' <> o -> h = Some a -> g_handles g !! a = Some e -> ready h o v n g ->
  ready h o v n (if code =? CURLE_OK
                 then set_g_handles (<[a := mkEasy (easy_opts e ++ [(o', v')]) (easy_info e)]> (g_handles g))
                        (set_g_world w g)
                 else set_g_world w g).
Proof.
  intros Hne -> He (Hn & b & e1 & [= <-] & He1 & Hl). rewrite He in He1. simplify_eq.
  split; [by destruct (code =? CURLE_OK)|]. exists a.
  destruct (code =? CURLE_OK); simpl; [|by eauto].
  eexists. rewrite lookup_insert_eq. split; [done|]. split; [done|]. simpl. by rewrite last_opt_other.
Qed.

Lemma triple_setopt_ {R} h o v n o' v' :
  o' <> o -> triple (R := R) (ready h o v n) (curl_easy_setopt_ h o' v') (ready h o v n) (at_most_one n).
Proof.
  intros Hne. apply triple_wp. intros l g Hg. apply wp_bind, wp_curl_easy_setopt.
  - intros _. by apply wp_skip.
  - intros a e w code Ha He. apply wp_skip. by apply ready_other.
Qed.

Lemma triple_setopt_or_die {R} h o v n o' v' :
  o' <> o ->
  triple (R := R) (ready h o v n) (curl_easy_setopt_or_die h o' v') (ready h o v n) (at_most_one n).
Proof.
  intros Hne. apply triple_wp. intros l g Hg. apply wp_curl_do_or_die, wp_curl_easy_setopt.
  - intros _. simpl. eauto with nfs.
  - intros a e w code Ha He. pose proof (ready_other h o v n a e w code o' v' g Hne Ha He Hg) as Hr.
    destruct (code =? CURLE_OK); simpl; eauto with nfs.
Qed.

(** The transfer. *)
Lemma keeps_run_xfer_sent {R} h opts x : keeps (R := R) (on_shared same_sent) (run_xfer h opts x).
Proof.
  induction x as [w c i|b k IH|b k IH|m k IH]; simpl.
  - apply keeps_bind; [apply _|by apply keeps_upd_shared|]. intros _.
    apply keeps_bind; [apply _|by apply keeps_upd_shared|]. keeps.
  - keeps.
  - keeps.
  - keeps.
Qed.

Lemma triple_perform {R} h o v n :
  triple (R := R) (ready h o v n) (curl_easy_perform_or_die h) (sent_with o v n) (at_most_one n).
Proof.
  apply triple_wp. intros l g (Hn & a & e & -> & He & Hl). apply wp_curl_do_or_die.
  apply wp_bind, wp_gets, wp_bind. simpl. rewrite He. apply wp_mret, wp_bind, wp_modify. simpl.
  apply wp_bind, wp_gets. apply (wp_keeps (on_shared same_sent)).
  - apply keeps_run_xfer_sent.
  - apply orderly_run_xfer.
  - intros code [l1 g1] Hs. unfold on_shared, same_sent in Hs. simpl in Hs.
    assert (sent_with o v n g1) as Hq by (exists (easy_opts e); by rewrite Hs, Hn).
    destruct (code =? CURLE_OK); simpl; eauto with nfs.
  - intros [l1 g1] Hs Hx. split; [done|]. right. exists (easy_opts e). simpl.
    unfold on_shared, same_sent in Hs. simpl in Hs. by rewrite Hs, Hn.
Qed.

(** *** Statements around the transfer *)

Lemma triple_unsent {A R} n (m : M (Frame * G) R A) :
  orderly m -> keeps (on_shared same_sent) m -> triple (unsent n) m (unsent n) (at_most_one n).
Proof.
  intros. apply (triple_keeps same_sent); [done..| |].
  - unfold unsent, same_sent. congruence.
  - intros g. apply unsent_at_most.
Qed.

Lemma triple_ready {A R} h o v n (m : M (Frame * G) R A) :
  orderly m -> keeps (on_shared same_wire) m -> triple (ready h o v n) m (ready h o v n) (at_most_one n).
Proof.
  intros. apply (triple_keeps same_wire); [done..| |].
  - intros g g' [Hn (a & e & Ha & He & Hl)] [Hh Hs]. split; [congruence|]. exists a, e.
    by rewrite Hh.
  - intros g. apply ready_at_most.
Qed.

Lemma triple_sent {A R} o v n (m : M (Frame * G) R A) :
  orderly m -> keeps (on_shared same_sent) m -> triple (sent_with o v n) m (sent_with o v n) (at_most_one n).
Proof.
  intros. apply (triple_keeps same_sent); [done..| |].
  - intros g g' (opts & Hs & Hl) Hq. exists opts. by rewrite Hq.
  - intros g. apply sent_at_most.
Qed.

(** The operations on the lock and the table leave the record of transfers alone. *)
Lemma sent_rdlock {R} : keeps (R := R) (on_shared same_sent) rdlock.
Proof. unfold rdlock, upd_rwlock. keeps; by apply keeps_upd_shared. Qed.
Lemma sent_wrlock {R} : keeps (R := R) (on_shared same_sent) wrlock.
Proof. unfold wrlock, upd_rwlock. keeps; by apply keeps_upd_shared. Qed.
Lemma sent_unlock {R} : keeps (R := R) (on_shared same_sent) unlock.
Proof. unfold unlock, upd_rwlock. keeps; by apply keeps_upd_shared. Qed.
Lemma sent_header_if p t : keeps (on_shared same_sent) (add_header_if p t).
Proof.
  unfold add_header_if, __dav_header_if, tdelete, upd_server, FileLock_free. keeps;
    by apply keeps_upd_shared.
Qed.
End Wire.

#[export] Hint Resolve unsent_at_most ready_at_most sent_at_most : nfs.
#[export] Hint Resolve sent_rdlock sent_wrlock sent_unlock sent_header_if : keeps.

(** A block of statements: nothing sent before the option is set, then ready, then sent. *)
Ltac wire n h o v :=
  repeat first
    [ simple apply triple_bind with (ready h o v n);
      [first [apply triple_set|apply triple_setopt_; discriminate]|intros ?]
    | simple apply triple_bind with (unsent n);
      [apply triple_unsent; [solve [orderly]|solve [keeps]]|intros ?]
    | simple apply triple_bind with (sent_with o v n);
      [first [apply triple_perform|apply triple_sent; [solve [orderly]|solve [keeps]]]|intros ?] ];
  first [apply triple_perform|apply triple_sent; [solve [orderly]|solve [keeps]]].

(** ** Every request *)

Section Requests.
Context `{E : Env}.
Implicit Types (n : list (list (CURLoption * optval))) (g : G).

(** The option that tells what a request is: the method, and the range for a PUT. *)
Definition request_option (r : request) : CURLoption * optval :=
  match r with
  | Rmkcol _ => (CURLOPT_CUSTOMREQUEST, VStr (Some "MKCOL"%string))
  | Rput_simple _ => (CURLOPT_CUSTOMREQUEST, VStr (Some "PUT"%string))
  | Rdelete _ => (CURLOPT_CUSTOMREQUEST, VStr (Some "DELETE"%string))
  | Rhead _ _ => (CURLOPT_CUSTOMREQUEST, VStr (Some "HEAD"%string))
  | Rput _ _ size offset => (CURLOPT_RANGE, VStr (Some (str_of (range_text offset size))))
  | Rmove _ _ | Rmove_nooverwrite _ _ => (CURLOPT_CUSTOMREQUEST, VStr (Some "MOVE"%string))
  | Rcopy _ _ => (CURLOPT_CUSTOMREQUEST, VStr (Some "COPY"%string))
  | Rproppatch _ _ _ => (CURLOPT_CUSTOMREQUEST, VStr (Some "PROPPATCH"%string))
  end.

Definition sends {R} o v n (m : M (Frame * G) R unit) : Prop :=
  triple (unsent n) m (sent_with o v n) (at_most_one n).

Lemma sends_method n path method lt h :
  sends (R := Z) CURLOPT_CUSTOMREQUEST (VStr (Some method)) n
    (ul <- use_locks ;;
     let locking := ul && negb (bool_decide (lt = RW_LOCK_NONE)) in
     when locking
       match lt with
       | RW_LOCK_NONE => skip
       | RW_LOCK_READ => rdlock
       | RW_LOCK_WRITE => wrlock
       end ;;;
     throwable (scope_slist
       (when locking (add_header_if path lt ;;; set_headers h) ;;;
        curl_easy_setopt_or_die h CURLOPT_CUSTOMREQUEST (VStr (Some method)) ;;;
        curl_easy_setopt_ h CURLOPT_NOBODY (VLong 1) ;;;
        curl_easy_perform_or_die h)) ;;;
     when locking unlock).
Proof.
  unfold sends. apply triple_bind with (unsent n); [apply triple_unsent; [orderly|keeps]|intros ul].
  cbv zeta. destruct (ul && negb (bool_decide (lt = RW_LOCK_NONE))).
  all: apply triple_bind with (unsent n); [apply triple_unsent; [by destruct lt; orderly|by destruct lt; keeps]|intros _].
  all: apply triple_bind with (sent_with CURLOPT_CUSTOMREQUEST (VStr (Some method)) n);
    [|intros _; apply triple_sent; [orderly|keeps]].
  all: apply triple_scope; [eauto with nfs..|].
  all: wire n h CURLOPT_CUSTOMREQUEST (VStr (Some method)).
Qed.

(** A [with] block whose pieces around the body change nothing: it is skipped with an exception
    pending, and otherwise its breaks stay inside. *)
Lemma triple_with {R X} P Q B (m : M (Frame * G) R X) (body : M (Frame * G) R unit) :
  (forall g g', P g -> same_wire g g' -> P g') -> (forall g, P g -> B g) -> (forall g, Q g -> B g) ->
  orderly m -> keeps (on_shared same_wire) m ->
  triple P body Q B -> triple P (throwable (with_assign m (fun _ => skip) (fun _ => body))) Q B.
Proof.
  intros HP HPB HQB Ho Hk Hb. apply triple_wp. intros l g Hg. apply wp_throwable, wp_with_test.
  cbv zeta. apply (wp_keeps (on_shared same_wire)); [done..| |].
  - intros _ [l1 g1] Hs. assert (P g1) as Hg1 by by eapply HP.
    apply wp_skip, wp_bind, wp_gets, wp_mret. simpl.
    destruct (Exception_has (g_ex g1)) eqn:He; simpl.
    + apply wp_skip. simpl. rewrite He. auto.
    + specialize (Hb l1 g1 Hg1). unfold gwp. destruct (body (l1, g1)) as [[[]| | | |] [l2 g2]]; try done;
        simpl in Hb |- *.
      * destruct (Exception_has (g_ex g2)) eqn:He2; eauto.
      * destruct Hb as [He2 HB]. rewrite He2. eauto.
  - intros [l1 g1] Hs He. simpl in He. simpl. rewrite He. eauto.
Qed.

Lemma wire_unsent n g g' : unsent n g -> same_wire g g' -> unsent n g'.
Proof. unfold unsent. intros <- [_ ->]. done. Qed.

Lemma triple_set_range n h offset size :
  triple (unsent n) (set_range h offset size)
    (ready h CURLOPT_RANGE (VStr (Some (str_of (range_text offset size)))) n) (at_most_one n).
Proof.
  unfold set_range, with_seperated.
  change (triple (R := Z) (unsent n)
    (throwable (with_assign (X := unit) skip (fun _ => skip) (fun _ =>
       curl_easy_setopt_or_die h CURLOPT_RANGE (VStr (Some (str_of (range_text offset size)))))))
    (ready h CURLOPT_RANGE (VStr (Some (str_of (range_text offset size)))) n) (at_most_one n)).
  apply triple_with; [apply wire_unsent|eauto with nfs..|done|by intros s|apply triple_set].
Qed.

Lemma triple_scope1 {R} n f Q (body : M (Frame * G) R unit) :
  (forall g, Q g -> at_most_one n g) -> triple (unsent n) body Q (at_most_one n) ->
  triple (unsent n) (throwable (scope_slist1 f body)) Q (at_most_one n).
Proof.
  intros HQ Hb. unfold scope_slist1. apply triple_with; eauto using wire_unsent with nfs; [orderly|].
  keeps.
Qed.

Lemma sends_put n path size offset h :
  sends CURLOPT_RANGE (VStr (Some (str_of (range_text offset size)))) n
    (throwable (scope_slist
       (ul <- use_locks ;;
        when ul (rdlock ;;; add_header_if path RW_LOCK_READ ;;; set_headers h) ;;;
        curl_easy_setopt_ h CURLOPT_UPLOAD (VLong 1) ;;;
        curl_easy_setopt_ h CURLOPT_READDATA (VData AT_buf) ;;;
        curl_easy_setopt_ h CURLOPT_READFUNCTION (VFun CB_Buffer_fetch) ;;;
        set_range h offset size ;;;
        curl_easy_setopt_ h CURLOPT_INFILESIZE (VLong (i64 size)) ;;;
        curl_easy_perform_or_die h ;;;
        when ul unlock))).
Proof.
  apply triple_scope; [eauto with nfs..|]. set (v := VStr _).
  do 5 (simple apply triple_bind with (unsent n); [apply triple_unsent; [solve [orderly]|solve [keeps]]|intros ?]).
  apply triple_bind with (ready h CURLOPT_RANGE v n); [apply triple_set_range|intros _].
  wire n h CURLOPT_RANGE v.
Qed.

Lemma sends_move n from to nooverwrite h :
  sends CURLOPT_CUSTOMREQUEST (VStr (Some "MOVE"%string)) n
    (throwable (scope_slist
      (add_header_destination to ;;;
       when nooverwrite
         (throwable (l <- local ;; l' <- curl_slist_append_e (f_list l) "Overwrite: F" ;;
                     upd_local (set_f_list l'))) ;;;
       ul <- use_locks ;;
       when ul
         (rdlock ;;;
          p <- tfind from ;;
          when (not_null p) (unlock ;;; wrlock ;;; add_header_if from RW_LOCK_WRITE) ;;;
          add_header_if to RW_LOCK_READ) ;;;
       set_headers h ;;;
       curl_easy_setopt_or_die h CURLOPT_CUSTOMREQUEST (VStr (Some "MOVE"%string)) ;;;
       curl_easy_setopt_ h CURLOPT_NOBODY (VLong 1) ;;;
       curl_easy_perform_or_die h ;;;
       when ul unlock))).
Proof.
  apply triple_scope; [eauto with nfs..|]. wire n h CURLOPT_CUSTOMREQUEST (VStr (Some "MOVE"%string)).
Qed.

Lemma sends_copy n to h :
  sends CURLOPT_CUSTOMREQUEST (VStr (Some "COPY"%string)) n
    (throwable (scope_slist
      (add_header_destination to ;;;
       ul <- use_locks ;;
       when ul (rdlock ;;; add_header_if to RW_LOCK_READ) ;;;
       set_headers h ;;;
       curl_easy_setopt_or_die h CURLOPT_CUSTOMREQUEST (VStr (Some "COPY"%string)) ;;;
       curl_easy_setopt_ h CURLOPT_NOBODY (VLong 1) ;;;
       curl_easy_perform_or_die h ;;;
       when ul unlock))).
Proof.
  apply triple_scope; [eauto with nfs..|]. wire n h CURLOPT_CUSTOMREQUEST (VStr (Some "COPY"%string)).
Qed.

Lemma io_step_same_sent g g' : io_step g g' -> g_sent g' = g_sent g.
Proof. intros H. exact (H same_sent _). Qed.

Lemma sends_request p o v body l g c l' g' :
  (forall h, sends (R := Z) o v (g_sent g) (body h)) ->
  bind (with_server_curl p body) (fun _ => return_status) (l, g) = (c, (l', g')) ->
  (c = Ret 0 /\ sent_with o v (g_sent g) g') \/ (c = Ret 1 /\ at_most_one (g_sent g) g')
  \/ exists f, c = Stuck f.
Proof.
  intros Hb Hr. apply (request_triple _ _ _ _ _ _ _ _ _ _
    (fun g1 Hi _ => io_step_same_sent g g1 Hi) Hb) in Hr as [[-> Hq]|[(-> & Hq)|Hf]]; auto.
  - right; left. split; [done|]. destruct Hq as [Hq|[Hq|Hq]]; eauto with nfs.
    left. by apply io_step_same_sent.
  - intros g1 g2 Hi%io_step_same_sent (opts & Hs & Hl). exists opts. by rewrite Hi.
  - intros g1 g2 Hi%io_step_same_sent Hq. unfold at_most_one. by rewrite Hi.
Qed.

(** What a request adds to the transfers that were made. *)
Lemma request_sends (r : request) l g c l' g' :
  run_request r (l, g) = (c, (l', g')) ->
  (c = Ret 0 /\ sent_with (request_option r).1 (request_option r).2 (g_sent g) g')
  \/ (c = Ret 1 /\ at_most_one (g_sent g) g')
  \/ exists f, c = Stuck f.
Proof.
  intros Hr. destruct (Exception_has (g_ex g)) eqn:He.
  { destruct (pending_request_idle _ _ _ _ _ _ He Hr) as (Hs & _ & _ & [->|Hf]); [|auto].
    right; left. split; [done|]. by left. }
  destruct r as [p|p|p|p b|p d n o|a b|a b|a b|p k v]; simpl in Hr |- *.
  - exact (sends_request _ _ _ _ _ _ _ _ _ (sends_method _ p "MKCOL" RW_LOCK_NONE) Hr).
  - exact (sends_request _ _ _ _ _ _ _ _ _ (sends_method _ p "PUT" RW_LOCK_READ) Hr).
  - exact (sends_request _ _ _ _ _ _ _ _ _ (sends_method _ p "DELETE" RW_LOCK_WRITE) Hr).
  - refine (sends_request _ _ _ _ _ _ _ _ _ _ Hr). intros h. unfold sends.
    set (R := ready h CURLOPT_CUSTOMREQUEST (VStr (Some "HEAD"%string)) (g_sent g)).
    apply triple_bind with R; [apply triple_set|intros _].
    apply triple_bind with R; [by apply triple_setopt_|intros _].
    apply triple_bind with R; [|intros _; apply triple_perform].
    apply triple_when; [intros _|done].
    apply triple_bind with R; [apply triple_ready; [orderly|keeps]|intros _].
    apply triple_bind with R; [by apply triple_setopt_|intros _]. by apply triple_setopt_.
  - unfold dav_put in Hr. rewrite buffer_request in Hr by done.
    exact (sends_request _ _ _ _ _ _ _ _ _ (sends_put _ p n o) Hr).
  - exact (sends_request _ _ _ _ _ _ _ _ _ (sends_move _ a b false) Hr).
  - exact (sends_request _ _ _ _ _ _ _ _ _ (sends_move _ a b true) Hr).
  - exact (sends_request _ _ _ _ _ _ _ _ _ (sends_copy _ b) Hr).
  - unfold dav_proppatch in Hr. rewrite buffer_request in Hr by done.
    refine (sends_request _ _ _ _ _ _ _ _ _ _ Hr). intros h. unfold sends.
    apply triple_scope1; [eauto with nfs|].
    wire (g_sent g) h CURLOPT_CUSTOMREQUEST (VStr (Some "PROPPATCH"%string)).
Qed.
End Requests.

(** ** Witnesses *)

#[local] Abbreviation demo_run code e r :=
  (run_request (E := demo_env (answers code) None) r (demo_l code, demo_g code e)).

