(* ===== verification/Locks.v ===== *)
(** * proto/dav/method.c: LOCK, UNLOCK, OPTIONS and the teardown

    The table of file locks counts the open files of each path; the first open sends a LOCK, the
    last close an UNLOCK. *)

From S2P Require Import Prelude Utils Exception Control Buffer Stack State Curl Method.
#[local] Open Scope Z_scope.
#[local] Open Scope c_scope.

Definition NETWORKFS_URL : string := "https://github.com/yangfl/networkfs/".

Definition lock_body : string :=
  "<?xml version=" +:+ DQ +:+ "1.0" +:+ DQ +:+ " encoding=" +:+ DQ +:+ "utf-8" +:+ DQ +:+ "?>" +:+ CRLF
  +:+ "<D:lockinfo xmlns:D=" +:+ DQ +:+ "DAV:" +:+ DQ +:+ ">" +:+ CRLF
  +:+ "<D:lockscope><D:exclusive/></D:lockscope>" +:+ CRLF
  +:+ "<D:locktype><D:write/></D:locktype>" +:+ CRLF
  +:+ "<D:owner>" +:+ CRLF
  +:+ "<D:href>" +:+ NETWORKFS_URL +:+ "</D:href>" +:+ CRLF
  +:+ "</D:owner>" +:+ CRLF
  +:+ "</D:lockinfo>" +:+ CRLF.

(** ** Reading the answer to a LOCK *)

Section Xml.
Context `{E : Env}.

(** [xmlStrcmp (n->name, s) == 0] and [xmlStrscmp (c, s) == 0]. *)
Definition name_is (n : xmlNode) (s : string) : bool :=
  env_xmlStrcmp (Some (xml_name n)) (Some s) =? 0.
Definition xmlStrscmp (c : option string) (s : string) : Z :=
  env_xmlStrncmp c (Some s) (Z.of_nat (strlen (lit s))).

Definition find_href (locktoken : xmlNode) : option xmlNode :=
  snd <$> list_find (fun n => name_is n "href") (xml_children locktoken).

(** The loop over the children of [activelock]: the first [timeout], and after it the first
    [locktoken] with its [href]. *)
Fixpoint scan_activelock (cs : list xmlNode) (timeout locktoken href : option xmlNode)
    : option xmlNode * option xmlNode * option xmlNode :=
  match cs with
  | [] => (timeout, locktoken, href)
  | n :: cs' =>
      match timeout, locktoken with
      | None, _ => scan_activelock cs' (if name_is n "timeout" then Some n else None) locktoken href
      | Some _, None =>
          if name_is n "locktoken" then scan_activelock cs' timeout (Some n) (find_href n)
          else scan_activelock cs' timeout None href
      | Some _, Some _ => (timeout, locktoken, href)
      end
  end.

(** The loop over the children of [lockdiscovery] stops after the first: [activelock], [timeout],
    [locktoken] and [href]. *)
Definition scan_lockdiscovery (lockdiscovery : xmlNode)
    : option xmlNode * (option xmlNode * option xmlNode * option xmlNode) :=
  match xml_children lockdiscovery with
  | [] => (None, (None, None, None))
  | n :: _ => if name_is n "activelock"
              then (Some n, scan_activelock (xml_children n) None None None)
              else (None, (None, None, None))
  end.
End Xml.

(** ** The requests *)

Section Locking.
Context `{E : Env}.

(** [with (xmlParserCtxtPtr ctxt = NULL, if (ctxt) ...) body] *)
Definition with_ctxt {R} (body : M (Frame * G) R unit) : M (Frame * G) R unit :=
  with_assign (upd_local (set_f_ctxt None)) (fun _ => skip) (fun _ => body).

(** [xmlParseChunk (ctxt, NULL, 0, 1)]; a NULL context is an error code that is ignored. *)
Definition finish_parse {R} : M (Frame * G) R unit :=
  l <- local ;;
  match f_ctxt l with
  | None => skip
  | Some c => r <- ext (env_xml_chunk c [] true) ;; upd_local (set_f_ctxt (Some r.2))
  end.

(** The check that the document names the token of the header. *)
Definition check_lock_document (root : xmlNode) (token : string) : M (Frame * G) (option string) unit :=
  for_each (xml_children root) (fun lockdiscovery =>
    when (negb (name_is lockdiscovery "lockdiscovery")) continue ;;;
    let '(activelock, (timeout, locktoken, href)) := scan_lockdiscovery lockdiscovery in
    condition_throw (not_null activelock && not_null timeout && not_null locktoken && not_null href)
      (mk_UnspecifiedException "prop unexpected") ;;;
    href <- deref href ;;
    child <- deref (head (xml_children href)) ;;
    when (negb (xmlStrscmp (xml_content child) token =? 0))
      (throw (mk_UnspecifiedException "lock href mismatched"))).

(** [__dav_lock]: the token, or NULL with an exception. *)
Definition __dav_lock (path : string) : M (Frame * G) (option string) unit :=
  upd_local (set_f_token None) ;;;
  try_
    (with_buffer (lit lock_body) (zlen (lit lock_body))
       (throwable (with_ctxt
          (throwable (with_server_curl (Some path) (fun curl =>
             throwable (scope_slist1 "Timeout: Second-600"
               (append_weak CONTENT_TYPE_XML ;;;
                set_headers curl ;;;
                curl_easy_setopt_ curl CURLOPT_UPLOAD (VLong 1) ;;;
                curl_easy_setopt_ curl CURLOPT_HEADERDATA (VData AT_token) ;;;
                curl_easy_setopt_ curl CURLOPT_HEADERFUNCTION (VFun CB_dav_lock_callback) ;;;
                curl_easy_setopt_ curl CURLOPT_WRITEDATA (VData AT_ctxt) ;;;
                curl_easy_setopt_ curl CURLOPT_WRITEFUNCTION (VFun CB_curl_parse_xml) ;;;
                curl_easy_setopt_ curl CURLOPT_READDATA (VData AT_buf) ;;;
                curl_easy_setopt_ curl CURLOPT_READFUNCTION (VFun CB_Buffer_fetch) ;;;
                curl_easy_setopt_ curl CURLOPT_INFILESIZE (VLong (zlen (lit lock_body))) ;;;
                curl_easy_setopt_or_die curl CURLOPT_CUSTOMREQUEST (VStr (Some "LOCK")) ;;;
                curl_easy_perform_or_die curl)))) ;;;
           l <- local ;;
           condition_throw (not_null (f_token l))
             (mk_UnspecifiedException "LOCK doesn't return a token") ;;;
           finish_parse ;;;
           l <- local ;;
           c <- deref (f_ctxt l) ;;
           condition_throw (env_xml_wellFormed c) (mk_UnspecifiedException "Failed to parse") ;;;
           root <- deref (env_xml_root c) ;;
           token <- deref (f_token l) ;;
           check_lock_document root token))))
    (onerror_default (upd_local (set_f_token None))) ;;;
  l <- local ;;
  return_ (f_token l).

(** [__dav_unlock]; a NULL token is dereferenced when the block runs. *)
Definition __dav_unlock (path token : option string) : M (Frame * G) Z unit :=
  with_server_curl path (fun curl =>
    token <- deref token ;;
    throwable (scope_slist1 (token_header token)
      (set_headers curl ;;;
       curl_easy_setopt_or_die curl CURLOPT_CUSTOMREQUEST (VStr (Some "UNLOCK")) ;;;
       curl_easy_perform_or_die curl))) ;;;
  return_status.

(** Calls of the two, on frames of their own. *)
Definition call_dav_lock (path : string) : M (Frame * G) Z (option string) :=
  r <- call frame0 (fun _ => tt) (__dav_lock path) ;; mret (fst r).
Definition call_dav_unlock {R} (path token : option string) : M (Frame * G) R Z :=
  r <- call frame0 (fun _ => tt) (__dav_unlock path token) ;; mret (fst r).

(** [synchronized (rwlock, &server->filelock_tree_lock, ...)] *)
Definition sync_rdlock (body : M (Frame * G) Z unit) : M (Frame * G) Z unit :=
  synchronized rdlock unlock body.
Definition sync_wrlock (body : M (Frame * G) Z unit) : M (Frame * G) Z unit :=
  synchronized wrlock unlock body.

(** [p->cnt++] and [--p->cnt], which is also the value. *)
Definition add_cnt (a : addr) (d : Z) : M (Frame * G) Z Z :=
  fl <- get_filelock a ;;
  let n := i32 (lock_cnt fl + d) in
  put_filelock a (mkFileLock (lock_path fl) (lock_token fl) n) ;;;
  mret n.

(** [free (filelock)] alone, the members stay. *)
Definition free_filelock (a : option addr) : M (Frame * G) Z unit :=
  match a with
  | None => skip
  | Some a => upd_shared (fun g => set_g_locks (delete a (g_locks g)) g)
  end.

(** [tsearch (filelock, &server->filelock_tree, ...)]: the entry with the path, or a new one; NULL
    without memory. *)
Definition tsearch (path : string) (filelock : addr) : M (Frame * G) Z (option addr) :=
  p <- tfind path ;;
  match p with
  | Some a => mret (Some a)
  | None =>
      ok <- malloc_ok ;;
      if (ok : bool) then
        upd_server (fun s => set_filelock_tree (<[path := filelock]> (filelock_tree s)) s) ;;;
        mret (Some filelock)
      else mret None
  end.

(** The first section of [dav_lock]: is the path locked already? *)
Definition lock_existing (path : string) : M (Frame * G) Z unit :=
  sync_rdlock
    (p <- tfind path ;;
     match p with
     | Some a => upd_local (set_f_filelock (Some a)) ;;; _ <- add_cnt a 1 ;; skip
     | None => skip
     end).

(** The second section: look again, then LOCK and insert. *)
Definition lock_new (path : string) (filelock : addr) : M (Frame * G) Z unit :=
  sync_wrlock
    (p <- tfind path ;;
     match p with
     | Some existing =>
         _ <- add_cnt existing 1 ;;
         free_filelock (Some filelock) ;;;
         upd_local (set_f_filelock None) ;;;
         break
     | None => skip
     end ;;;
     throwable
       (token <- call_dav_lock path ;;
        fl <- get_filelock filelock ;;
        put_filelock filelock (mkFileLock (lock_path fl) token (lock_cnt fl))) ;;;
     p <- tsearch path filelock ;;
     condition_throw (not_null p) (mk_MallocException "filelock table insert")).

Definition dav_lock (path : string) : M (Frame * G) Z unit :=
  ul <- use_locks ;;
  when (negb ul) (return_ 0) ;;;
  upd_local (set_f_filelock None) ;;;
  lock_existing path ;;;
  l <- local ;;
  when (not_null (f_filelock l)) (return_ 0) ;;;
  try_
    (throwable (a <- malloc_e "struct FileLock" ;; upd_local (set_f_filelock a)) ;;;
     try_
       (l <- local ;;
        filelock <- deref (f_filelock l) ;;
        put_filelock filelock (mkFileLock None None 1) ;;;
        dup <- strdup (lit path) ;;
        put_filelock filelock (mkFileLock dup None 1) ;;;
        condition_throw (not_null dup) (mk_MallocException "path dup") ;;;
        throwable (lock_new path filelock))
       (onerror_default
          (l <- local ;;
           filelock <- deref (f_filelock l) ;;
           fl <- get_filelock filelock ;;
           when (not_null (lock_token fl))
             (_ <- call_dav_unlock (Some path) (lock_token fl) ;; skip))))
    (onerror_default (l <- local ;; free_filelock (f_filelock l))) ;;;
  return_status.

(** The first section of [dav_unlock]: count down, and keep the entry when it reached zero. *)
Definition unlock_count (path : string) : M (Frame * G) Z unit :=
  sync_rdlock
    (p <- tfind path ;;
     upd_local (set_f_filelock p) ;;;
     match p with
     | None =>
         mk_UnspecifiedException "release cannot find file lock" ;;;
         upd_local (set_f_res (Some 1)) ;;;
         break
     | Some a =>
         cnt_remain <- add_cnt a (-1) ;;
         when (0 <? cnt_remain) (upd_local (set_f_filelock None))
     end).

(** The second section: take the entry out when it still counts nobody. *)
Definition unlock_remove (path : string) : M (Frame * G) Z unit :=
  sync_wrlock
    (p <- tfind path ;;
     match p with
     | None => break
     | Some a =>
         fl <- get_filelock a ;;
         when (lock_cnt fl <=? 0) (upd_local (set_f_filelock (Some a)) ;;; tdelete path)
     end).

(** The end: tell the server and free the entry. *)
Definition unlock_send (filelock : addr) : M (Frame * G) Z unit :=
  fl <- get_filelock filelock ;;
  res <- call_dav_unlock (lock_path fl) (lock_token fl) ;;
  FileLock_free filelock ;;;
  return_ res.

Definition dav_unlock (path : string) : M (Frame * G) Z unit :=
  ul <- use_locks ;;
  when (negb ul) (return_ 0) ;;;
  upd_local (set_f_res (Some 0)) ;;;
  upd_local (set_f_filelock None) ;;;
  unlock_count path ;;;
  l <- local ;;
  when (negb (not_null (f_filelock l)))
    (res <- deref (f_res l) ;; return_ res) ;;;
  unlock_remove path ;;;
  l <- local ;;
  match f_filelock l with
  | None => return_ 0
  | Some filelock => unlock_send filelock
  end.

(** ** OPTIONS *)

(** [curl_url_set_or_die (server->baseuh, part, content, flags)] *)
Definition server_url_set_or_die (part : CURLUPart) (content : option string) (flags : Z)
    : M (Frame * G) Z unit :=
  srv <- shared g_server ;;
  r <- ext (env_url_set (baseuh srv) part content flags) ;;
  upd_server (set_baseuh (snd r)) ;;;
  when (negb (fst r =? CURLUE_OK))
    (throw (mk_CurlUrlException (fst r) CURLU_SET (CURLUPart_num part))).

(** The flags [LOCK] and [UNLOCK] are cleared when they differ. *)
Definition lock_flags (ms : gset DavMethod) : gset DavMethod :=
  if bool_decide (LOCK ∈ ms) && bool_decide (UNLOCK ∈ ms) then ms
  else if bool_decide (LOCK ∈ ms) || bool_decide (UNLOCK ∈ ms) then ms ∖ {[LOCK; UNLOCK]}
  else ms.

Definition dav_options : M (Frame * G) Z unit :=
  try_
    (throwable (with_server_curl None (fun curl =>
       srv <- shared g_server ;;
       when (negb (initial_timeout (options srv) =? 0))
         (curl_easy_setopt_or_die curl CURLOPT_TIMEOUT (VLong (initial_timeout (options srv)))) ;;;
       curl_easy_setopt_ curl CURLOPT_NOBODY (VLong 1) ;;;
       curl_easy_setopt_ curl CURLOPT_FOLLOWLOCATION (VLong 0) ;;;
       curl_easy_perform_or_die curl ;;;
       info <- curl_easy_getinfo curl ;;
       when (Z.quot (info_response_code info) 100 =? 3)
         (when (not_null (info_redirect_url info))
            (server_url_set_or_die CURLUPART_URL (info_redirect_url info) 0)) ;;;
       curl_easy_setopt_ curl CURLOPT_FOLLOWLOCATION (VLong 1) ;;;
       throwable (with_seperated
         (upd_local (set_f_path_url None))
         (fun _ => srv <- shared g_server ;;
                   curl_url_get_or_die (Some (baseuh srv)) CURLUPART_URL set_f_path_url)
         (fun _ => skip)
         (fun _ => l <- local ;; curl_easy_setopt_or_die curl CURLOPT_URL (VStr (f_path_url l)))) ;;;
       curl_easy_setopt_or_die curl CURLOPT_CUSTOMREQUEST (VStr (Some "OPTIONS")) ;;;
       curl_easy_setopt_ curl CURLOPT_HEADERDATA (VData AT_server) ;;;
       curl_easy_setopt_ curl CURLOPT_HEADERFUNCTION (VFun CB_dav_options_callback) ;;;
       curl_easy_perform_or_die curl)) ;;;
     upd_server (fun s => set_allowed (lock_flags (allowed s)) s) ;;;
     ul <- use_locks ;;
     when ul
       (upd_server (set_filelock_tree ∅) ;;;
        upd_rwlock (fun _ => mkRWLock 0 false)))
    (onerror_default skip) ;;;
  return_status.

(** ** The teardown *)

(** [__dav_unlock_node] on one node of the tree. *)
Definition __dav_unlock_node (a : addr) : M (Frame * G) unit unit :=
  fl <- get_filelock a ;;
  _ <- call_dav_unlock (lock_path fl) (lock_token fl) ;;
  FileLock_free a.

(** [tdestroy] calls it on every node, in the order of [order]; the tree pointer, the lock and the
    URL are dead afterwards. *)
Definition dav_destory (order : list addr) : M (Frame * G) unit unit :=
  ul <- use_locks ;;
  when ul (for_each order __dav_unlock_node).
End Locking.
