(* ===== verification/LocksSpec.v ===== *)
(** * The table of file locks: what LOCK and UNLOCK do to it *)

From S2P Require Import Prelude Utils Exception Control Buffer Stack State Wp Demo Curl Rules Method MethodSpec Sends Locks.
#[local] Open Scope Z_scope.
#[local] Open Scope c_scope.

(** ** What the requests keep *)

Section KeepsLocks.
Context `{E : Env} (Rel : G -> G -> Prop) `{!XferRel Rel}.
#[local] Abbreviation Keeps m := (keeps (on_shared Rel) m).

Lemma keeps_finish_parse {R} : Keeps (finish_parse (R := R)).
Proof. keeps_of finish_parse. Qed.
Lemma keeps_check_lock_document root token : Keeps (check_lock_document root token).
Proof. keeps_of check_lock_document. Qed.
#[local] Hint Resolve keeps_finish_parse keeps_check_lock_document : keeps.

Lemma keeps_dav_lock_request p : Keeps (__dav_lock p).
Proof. unfold __dav_lock, with_ctxt. keeps. Qed.
Lemma keeps_dav_unlock_request p t : Keeps (__dav_unlock p t).
Proof. keeps_of __dav_unlock. Qed.
#[local] Hint Resolve keeps_dav_lock_request keeps_dav_unlock_request : keeps.

Lemma keeps_call_dav_lock p : Keeps (call_dav_lock p).
Proof. keeps_of call_dav_lock. Qed.
Lemma keeps_call_dav_unlock {R} p t : Keeps (call_dav_unlock (R := R) p t).
Proof. keeps_of call_dav_unlock. Qed.
End KeepsLocks.

#[export] Hint Resolve keeps_call_dav_lock keeps_call_dav_unlock : keeps.

(** A step that leaves the lock table alone; addresses in use stay in use. *)
Definition quiet `{E : Env} (g g' : G) : Prop :=
  same_locks g g' /\ (g_next g <= g_next g')%positive /\ options (g_server g') = options (g_server g)
  /\ stays_pending g g'.

#[export] Instance quiet_xfer `{E : Env} : XferRel quiet.
Proof.
  assert (KeepRel (S := G) quiet) as HK.
  { split; unfold quiet, same_locks, stays_pending.
    - intros g. splits; first [done|lia].
    - intros g1 g2 g3 ((? & ? & ?) & ? & ? & ?) ((? & ? & ?) & ? & ? & ?).
      splits; first [congruence|lia|auto].
    - intros e g He. splits; first [done|simpl; lia]. }
  assert (WorldRel quiet) as HW
    by (split; [done|..]; intros; unfold quiet, same_locks, stays_pending; simpl; splits; first [done|lia]).
  split; [split; [done|..]|split; [done|..]|]; intros; unfold quiet, same_locks, stays_pending; simpl;
    splits; first [done|lia].
Qed.

(** ** The table as a map from paths to tokens and counts *)

Section Table.
Context `{E : Env}.

Abbreviation tree g := (filelock_tree (g_server g)).

(** Every entry of the tree is an object with its path, and addresses in use are not fresh. *)
Record table_ok (g : G) : Prop := {
  ok_entry : forall p a, tree g !! p = Some a ->
    exists tok n, g_locks g !! a = Some (mkFileLock (Some p) tok n);
  ok_fresh : forall a, is_Some (g_locks g !! a) -> (a < g_next g)%positive;
}.

Definition entry (g : G) (a : addr) : option (option string * Z) :=
  (fun fl => (lock_token fl, lock_cnt fl)) <$> g_locks g !! a.

Definition view (g : G) : gmap string (option string * Z) := omap (entry g) (tree g).

Lemma view_lookup g p a tok n :
  tree g !! p = Some a -> g_locks g !! a = Some (mkFileLock (Some p) tok n) ->
  view g !! p = Some (tok, n).
Proof. intros Ht Hl. unfold view. rewrite lookup_omap, Ht. simpl. unfold entry. by rewrite Hl. Qed.

Lemma view_None g p : table_ok g -> view g !! p = None <-> tree g !! p = None.
Proof.
  intros Hok. unfold view. rewrite lookup_omap. destruct (tree g !! p) as [a|] eqn:Ht; [|done].
  destruct (ok_entry _ Hok _ _ Ht) as (tok & n & Hl). simpl. unfold entry. by rewrite Hl.
Qed.

Lemma view_Some g p t : table_ok g -> view g !! p = Some t ->
  exists a, tree g !! p = Some a /\ g_locks g !! a = Some (mkFileLock (Some p) t.1 t.2).
Proof.
  intros Hok. unfold view. rewrite lookup_omap. destruct (tree g !! p) as [a|] eqn:Ht; [|done].
  destruct (ok_entry _ Hok _ _ Ht) as (tok & n & Hl). simpl. unfold entry. rewrite Hl. simpl.
  intros [= <-]. eauto.
Qed.

(** Two paths never share an object. *)
Lemma entry_path g p q a :
  table_ok g -> tree g !! p = Some a -> tree g !! q = Some a -> p = q.
Proof.
  intros Hok Hp Hq. destruct (ok_entry _ Hok _ _ Hp) as (? & ? & H1).
  destruct (ok_entry _ Hok _ _ Hq) as (? & ? & H2). congruence.
Qed.

(** The table depends on the tree, the objects and the next fresh address only. *)
Lemma table_ok_ext g g' :
  table_ok g -> tree g' = tree g -> g_locks g' = g_locks g -> (g_next g <= g_next g')%positive ->
  table_ok g'.
Proof.
  intros Hok Ht Hl Hn. split.
  - intros p a. rewrite Ht, Hl. apply (ok_entry _ Hok).
  - intros a. rewrite Hl. intros Ha%(ok_fresh _ Hok). lia.
Qed.

Lemma view_ext g g' : tree g' = tree g -> g_locks g' = g_locks g -> view g' = view g.
Proof. intros Ht Hl. unfold view, entry. by rewrite Ht, Hl. Qed.

Lemma quiet_table g g' : quiet g g' -> table_ok g -> table_ok g' /\ view g' = view g.
Proof.
  intros ((_ & Hl & Ht) & Hn & _) Hok. split; [by eapply table_ok_ext|by apply view_ext].
Qed.

(** A change of the token or the count of one entry. *)
Lemma update_entry g p a fl tok n :
  table_ok g -> tree g !! p = Some a -> g_locks g !! a = Some fl ->
  let g' := set_g_locks (<[a := mkFileLock (lock_path fl) tok n]> (g_locks g)) g in
  table_ok g' /\ view g' = <[p := (tok, n)]> (view g).
Proof.
  intros Hok Ht Hl g'. destruct (ok_entry _ Hok _ _ Ht) as (tok0 & n0 & Hfl).
  rewrite Hl in Hfl. simplify_eq. simpl in g'. split.
  - split; simpl.
    + intros q b Hq. destruct (decide (a = b)) as [->|Hne].
      * rewrite lookup_insert_eq. rewrite (entry_path g q p b Hok Hq Ht). eauto.
      * rewrite lookup_insert_ne by done. by apply (ok_entry _ Hok).
    + intros b. destruct (decide (a = b)) as [->|Hne].
      * intros _. apply (ok_fresh _ Hok). by rewrite Hl.
      * rewrite lookup_insert_ne by done. apply (ok_fresh _ Hok).
  - apply map_eq. intros q. unfold view. rewrite lookup_omap. simpl.
    destruct (decide (p = q)) as [->|Hne].
    + rewrite lookup_insert_eq, Ht. simpl. unfold entry. simpl. by rewrite lookup_insert_eq.
    + rewrite lookup_insert_ne, lookup_omap by done. destruct (tree g !! q) as [b|] eqn:Hq; [|done].
      simpl. unfold entry. simpl. rewrite lookup_insert_ne; [done|]. intros ->.
      by rewrite (entry_path g p q b Hok Ht Hq) in Hne.
Qed.

(** An object outside the tree does not matter. *)
Lemma unlinked_entry g a (m : gmap addr FileLock) :
  table_ok g -> (forall p, tree g !! p <> Some a) -> (forall b, b <> a -> m !! b = g_locks g !! b) ->
  (is_Some (m !! a) -> (a < g_next g)%positive) ->
  table_ok (set_g_locks m g) /\ view (set_g_locks m g) = view g.
Proof.
  intros Hok Ha Hm Hf. split.
  - split; simpl.
    + intros p b Hp. rewrite Hm by (intros ->; by eapply Ha). by apply (ok_entry _ Hok).
    + intros b. destruct (decide (b = a)) as [->|Hne]; [done|]. rewrite Hm by done.
      apply (ok_fresh _ Hok).
  - apply map_eq. intros p. unfold view. rewrite !lookup_omap. simpl.
    destruct (tree g !! p) as [b|] eqn:Hp; [|done]. simpl. unfold entry. simpl.
    rewrite Hm; [done|]. intros ->. by eapply Ha.
Qed.

(** A new entry, and the removal of one. *)
Lemma link_entry g p a tok n :
  table_ok g -> tree g !! p = None -> g_locks g !! a = Some (mkFileLock (Some p) tok n) ->
  let g' := set_g_server (set_filelock_tree (<[p := a]> (tree g)) (g_server g)) g in
  table_ok g' /\ view g' = <[p := (tok, n)]> (view g).
Proof.
  intros Hok Ht Hl g'. split.
  - split; simpl; [|apply (ok_fresh _ Hok)].
    intros q b. destruct (decide (p = q)) as [->|Hne].
    + rewrite lookup_insert_eq. intros [= <-]. eauto.
    + rewrite lookup_insert_ne by done. apply (ok_entry _ Hok).
  - apply map_eq. intros q. unfold view. rewrite lookup_omap. simpl.
    destruct (decide (p = q)) as [->|Hne].
    + rewrite !lookup_insert_eq. simpl. unfold entry. simpl. by rewrite Hl.
    + by rewrite !lookup_insert_ne, lookup_omap by done.
Qed.

Lemma unlink_entry g p :
  table_ok g ->
  let g' := set_g_server (set_filelock_tree (delete p (tree g)) (g_server g)) g in
  table_ok g' /\ view g' = delete p (view g).
Proof.
  intros Hok g'. split.
  - split; simpl; [|apply (ok_fresh _ Hok)].
    intros q b [_ Hq]%lookup_delete_Some. by apply (ok_entry _ Hok).
  - apply map_eq. intros q. unfold view. rewrite lookup_omap. simpl.
    destruct (decide (p = q)) as [->|Hne].
    + by rewrite !lookup_delete_eq.
    + by rewrite !lookup_delete_ne, lookup_omap by done.
Qed.
End Table.

(** ** LOCK and UNLOCK *)

Section LockRequests.
Context `{E : Env}.

(** A statement that does not assign [token]. *)
Definition same_token (s s' : Frame * G) : Prop := f_token s'.1 = f_token s.1.
#[local] Instance same_token_keep : KeepEx same_token.
Proof. split; [split; unfold same_token|]; [done|congruence|done|done]. Qed.

Lemma token_ext {R A} (f : World -> A * World) : keeps (R := R) same_token (ext f).
Proof. intros [l g]. unfold ext, same_token. simpl. by destruct (f (g_world g)). Qed.
Lemma token_ctxt {R} c : keeps (R := R) same_token (upd_local (set_f_ctxt c)).
Proof. by apply keeps_modify. Qed.
Lemma token_local {R} : keeps (R := R) same_token local.
Proof. apply (keeps_gets same_token). Qed.
#[local] Hint Resolve token_ext token_ctxt token_local : keeps.

Lemma token_finish_parse {R} : keeps (R := R) same_token finish_parse.
Proof. unfold finish_parse. keeps. Qed.
Lemma token_check_lock_document root token : keeps same_token (check_lock_document root token).
Proof. unfold check_lock_document, mk_UnspecifiedException, malloc_ok. keeps. Qed.

#[local] Hint Resolve token_finish_parse token_check_lock_document : keeps.

Lemma orderly_for_each {S R X} `{HasEx S} (l : list X) (body : X -> M S R unit) :
  (forall x, noret (body x)) -> orderly (for_each l body).
Proof.
  intros Hb. induction l as [|x l IH]; [done|]. intros s. simpl. specialize (Hb x s).
  destruct (body x s) as [[] s']; try done; apply IH.
Qed.

Lemma orderly_finish_parse {R} : orderly (finish_parse (R := R)).
Proof. unfold finish_parse. orderly. Qed.

Lemma noret_bind {S R A} `{HasEx S} (m : M S R A) (f : A -> M S R unit) :
  (forall s, match m s with (Ret _, _) => False | _ => True end) -> (forall a, noret (f a)) ->
  noret (bind m f).
Proof.
  intros Hm Hf s. specialize (Hm s). unfold bind. destruct (m s) as [[]s']; try done. apply Hf.
Qed.

Lemma orderly_check_lock_document root token : orderly (check_lock_document root token).
Proof.
  apply orderly_for_each. intros x. apply noret_bind; [by destruct (negb _)|]. intros _.
  destruct (scan_lockdiscovery x) as [a [[t l] h]]. apply orderly_noret.
  unfold mk_UnspecifiedException, malloc_ok. orderly.
Qed.

#[local] Hint Resolve orderly_finish_parse orderly_check_lock_document : orderly.

(** A header line that a transfer hands to the program, as its callbacks answer. *)
Inductive delivers {W} : xfer W -> bytes -> Prop :=
  | deliver_here line k : delivers (XHeader line k) line
  | deliver_header line k n line' : delivers (k n) line' -> delivers (XHeader line k) line'
  | deliver_write chunk k n line' : delivers (k n) line' -> delivers (XWrite chunk k) line'
  | deliver_read n k b line' : delivers (k b) line' -> delivers (XRead n k) line'.

(** The answer to a transfer with the options, in some state [w] of the world, has a line with the
    token. *)
Definition answered_token (opts : list (CURLoption * optval)) (t : string) : Prop :=
  exists w line, delivers (env_easy_perform opts w) line
    /\ dav_lock_token line (length line) = Some (Some t).

(** After the transfers [n] one more was made, a LOCK, and its answer has the token. *)
Definition granted (n n' : list (list (CURLoption * optval))) (t : string) : Prop :=
  exists opts, n' = n ++ [opts]
    /\ last_opt CURLOPT_CUSTOMREQUEST opts = Some (VStr (Some "LOCK"%string)) /\ answered_token opts t.

(** A token that was not there before was read from a line in [D], unless an exception is pending. *)
Definition token_from (D : string -> Prop) (s s' : Frame * G) : Prop :=
  stays_pending s.2 s'.2 /\
  forall t, Exception_has (g_ex s'.2) = false -> f_token s'.1 = Some t -> f_token s.1 = Some t \/ D t.

(** The same of what a statement sends. *)
Definition heard (s s' : Frame * G) : Prop :=
  exists ts, g_sent s'.2 = g_sent s.2 ++ ts
    /\ token_from (fun t => exists opts, opts ∈ ts /\ answered_token opts t) s s'.

Lemma token_from_mono (D D' : string -> Prop) s s' :
  (forall t, D t -> D' t) -> token_from D s s' -> token_from D' s s'.
Proof. intros HD [Hp Ht]. split; [done|]. intros t He Hs. destruct (Ht t He Hs); auto. Qed.

Lemma token_from_refl D s : token_from D s s.
Proof. split; [by intros ?|auto]. Qed.
Lemma token_from_trans D s1 s2 s3 : token_from D s1 s2 -> token_from D s2 s3 -> token_from D s1 s3.
Proof.
  intros [Hp1 H1] [Hp2 H2]. split; [by intros He; apply Hp2, Hp1|]. intros t He Ht.
  destruct (H2 t He Ht) as [Ht2|]; [|by right]. apply H1; [|done].
  destruct (Exception_has (g_ex s2.2)) eqn:He2; [|done]. unfold stays_pending in Hp2. by rewrite Hp2 in He.
Qed.
Lemma token_from_raise D e s : Exception_has e = true -> token_from D s (put_ex e s).
Proof. destruct s as [l g]. intros He. split; [by intros _|]. intros t Hn. simpl in Hn. congruence. Qed.

#[local] Instance token_from_keep D : KeepRel (token_from D).
Proof. split; [apply token_from_refl|apply token_from_trans|apply token_from_raise]. Qed.

#[local] Instance heard_keep : KeepRel heard.
Proof.
  split.
  - intros s. exists []. split; [by rewrite app_nil_r|apply token_from_refl].
  - intros s1 s2 s3 (ts1 & Hs1 & H1) (ts2 & Hs2 & H2). exists (ts1 ++ ts2).
    split; [by rewrite Hs2, Hs1, app_assoc|].
    eapply token_from_trans; (eapply token_from_mono; [|eassumption]); intros t (o & Ho & Ha); exists o;
      (split; [apply elem_of_app; auto|done]).
  - intros e [l g] He. exists []. split; [by rewrite app_nil_r|by apply token_from_raise].
Qed.

(** A statement that neither sends nor assigns the token. *)
Lemma heard_silent {R A} (m : M (Frame * G) R A) :
  keeps same_token m -> keeps (on_shared same_sent) m -> keeps (on_shared stays_pending) m -> keeps heard m.
Proof.
  intros Ht Hs Hp s. specialize (Ht s). specialize (Hs s). specialize (Hp s).
  destruct (m s) as [c s']; unfold on_shared, same_sent, same_token in *; simpl in *.
  exists []. split; [by rewrite app_nil_r|]. split; [done|]. intros t _. rewrite Ht. auto.
Qed.

Lemma token_from_silent {R A} D (m : M (Frame * G) R A) :
  keeps same_token m -> keeps (on_shared stays_pending) m -> keeps (token_from D) m.
Proof.
  intros Ht Hp s. specialize (Ht s). specialize (Hp s).
  destruct (m s) as [c s']; unfold on_shared, same_token in *; simpl in *.
  split; [done|]. intros t _. rewrite Ht. auto.
Qed.

Lemma token_shared {R} f : keeps (R := R) same_token (upd_shared f).
Proof. by apply keeps_modify. Qed.
Lemma token_fresh {R} : keeps (R := R) same_token fresh_addr.
Proof. by intros [l g]. Qed.
Lemma token_call {L' R R' B} (fresh : L') (out : L' -> B) (f : M (L' * G) R' unit) :
  keeps (R := R) same_token (call fresh out f).
Proof. intros [l g]. unfold call, same_token. by destruct (f (fresh, g)) as [[] [? ?]]. Qed.
#[local] Hint Resolve token_shared token_fresh token_call : keeps.
#[local] Hint Extern 1 (keeps same_token (upd_local _)) => by apply keeps_modify : keeps.

Lemma token_write_callback {R} opts chunk : keeps (R := R) same_token (write_callback opts chunk).
Proof.
  unfold write_callback, do_Buffer_append, curl_parse_xml, malloc_ok, mk_MallocException, malloc_ok. keeps.
Qed.
Lemma token_read_callback {R} opts n : keeps (R := R) same_token (read_callback opts n).
Proof. unfold read_callback, do_Buffer_fetch. keeps. Qed.

(** The callback for a header line: the token it sets is the one on the line. *)
Lemma token_from_lock_line {R} (D : string -> Prop) line :
  (forall t, dav_lock_token line (length line) = Some (Some t) -> D t) ->
  keeps (R := R) (token_from D) (__dav_lock_callback line).
Proof.
  intros HD [l g]. unfold __dav_lock_callback, when, local, gets, bind. cbn [fst snd].
  destruct (f_token l) as [t0|] eqn:Hl; cbn [not_null negb]; [apply token_from_refl|].
  destruct (dav_lock_token line (length line)) as [[t|]|] eqn:Ht; [|apply token_from_refl..].
  unfold SimpleString_new, malloc_e, malloc_ok, mk_MallocException, ext, upd_ex, has_ex, gets, upd_local,
    modify, fresh_addr, bind, mret.
  cbn. destruct (env_malloc (g_world g)) as [[] w]; simpl; (split; [unfold stays_pending; simpl|]); try done.
  intros t' He. simpl in *. rewrite He. intros [= <-]. right. by apply HD.
Qed.

Lemma token_from_header {R} (D : string -> Prop) opts line :
  (forall t, dav_lock_token line (length line) = Some (Some t) -> D t) ->
  keeps (R := R) (token_from D) (header_callback opts line).
Proof.
  intros HD. assert (keeps (R := R) (on_shared stays_pending) (header_callback opts line)) as Hp
    by apply (keeps_header_callback stays_pending).
  unfold header_callback in *.
  destruct (last_opt CURLOPT_HEADERFUNCTION opts) as [[| | |[]|]|], (last_opt CURLOPT_HEADERDATA opts) as [[| | | |[]]|];
    try (by intros s; apply token_from_refl); try by apply token_from_lock_line.
  all: apply token_from_silent; [|exact Hp].
  all: unfold __dav_head_callback, __dav_options_callback, strdup, malloc_ok, upd_server; keeps.
Qed.

Lemma token_from_xfer {R} (D : string -> Prop) h opts x :
  (forall t line, delivers x line -> dav_lock_token line (length line) = Some (Some t) -> D t) ->
  keeps (R := R) (token_from D) (run_xfer h opts x).
Proof.
  induction x as [w c info|line k IH|chunk k IH|n k IH]; cbn [run_xfer]; intros HD.
  - apply token_from_silent; [keeps|]. apply keeps_bind; [apply _|by apply keeps_upd_shared; intros g' ?|intros _].
    apply keeps_bind; [apply _|by apply keeps_upd_shared; intros g' ?|keeps].
  - apply keeps_bind; [apply _|apply token_from_header|].
    + intros t. apply HD, deliver_here.
    + intros r. apply IH. intros t line' Hd. by eapply HD, deliver_header.
  - apply keeps_bind; [apply _|apply token_from_silent; [apply token_write_callback|apply (keeps_write_callback stays_pending)]|].
    intros r. apply IH. intros t line' Hd. by eapply HD, deliver_write.
  - apply keeps_bind; [apply _|apply token_from_silent; [apply token_read_callback|apply (keeps_read_callback stays_pending)]|].
    intros r. apply IH. intros t line' Hd. by eapply HD, deliver_read.
Qed.

Lemma heard_perform {R} h : keeps (R := R) heard (curl_easy_perform h).
Proof.
  destruct h as [a|]; [|by intros s; apply (keep_refl (Rel := heard))]. intros [l g].
  unfold curl_easy_perform, shared, gets, deref. unfold bind at 1 2. cbn [fst snd].
  destruct (g_handles g !! a) as [e|]; [|apply (keep_refl (Rel := heard))].
  unfold mret. unfold bind, upd_shared, modify. cbn [fst snd].
  set (g1 := set_g_sent _ g). set (opts := easy_opts e).
  pose proof (token_from_xfer (R := R) (fun t => exists o, o ∈ [opts] /\ answered_token o t) a opts
    (env_easy_perform opts (g_world g1))) as Hx.
  specialize (Hx ltac:(intros t line ??; exists opts; split; [set_solver|by exists (g_world g1), line])).
  pose proof (keeps_run_xfer_sent (R := R) a opts (env_easy_perform opts (g_world g1)) (l, g1)) as Hs.
  specialize (Hx (l, g1)). unfold on_shared, same_sent in Hs.
  destruct (run_xfer a opts _ (l, g1)) as [c s'].
  exists [opts]. split; [rewrite Hs; done|]. exact Hx.
Qed.
#[local] Hint Resolve heard_perform : keeps.

(** The other statements are silent. *)
Lemma heard_setopt_ {R} (h : option addr) o v : keeps heard (curl_easy_setopt_ (L := Frame) (R := R) h o v).
Proof. apply heard_silent; [unfold curl_easy_setopt_, curl_easy_setopt|..]; keeps. Qed.
Lemma heard_mk_CurlException {R} c a v h : keeps heard (mk_CurlException (L := Frame) (R := R) c a v h).
Proof. apply heard_silent; [unfold mk_CurlException, curl_easy_getinfo|..]; keeps. Qed.
Lemma heard_setopt_or_die {R} (h : option addr) o v :
  keeps heard (curl_easy_setopt_or_die (L := Frame) (R := R) h o v).
Proof.
  apply heard_silent; [|keeps..].
  unfold curl_easy_setopt_or_die, curl_do_or_die, curl_easy_setopt, mk_CurlException, curl_easy_getinfo. keeps.
Qed.
#[local] Hint Resolve heard_setopt_ heard_setopt_or_die heard_mk_CurlException : keeps.

Lemma heard_perform_or_die {R} (h : option addr) : keeps heard (curl_easy_perform_or_die (R := R) h).
Proof. unfold curl_easy_perform_or_die, curl_do_or_die. keeps. Qed.
Lemma heard_append_weak {R} t : keeps heard (append_weak (R := R) t).
Proof. apply heard_silent; [unfold append_weak, curl_slist_append_weak|..]; keeps. Qed.
Lemma heard_set_headers {R} (h : option addr) : keeps heard (set_headers (R := R) h).
Proof. unfold set_headers. keeps. Qed.
#[local] Hint Resolve heard_perform_or_die heard_append_weak heard_set_headers : keeps.

Lemma heard_scope_slist1 {R} t (body : M (Frame * G) R unit) :
  keeps heard body -> keeps heard (scope_slist1 t body).
Proof.
  intros Hb. unfold scope_slist1. apply keeps_with_assign; [apply _| |done..| |done].
  - apply heard_silent; [unfold curl_slist_append_e|..]; keeps.
  - by intros _ s; apply (keep_refl (Rel := heard)).
Qed.

(** What is true when [__dav_lock] leaves its block. *)
Definition locked_or_failed n (s : Frame * G) : Prop :=
  Exception_has (g_ex s.2) = true \/ exists t, f_token s.1 = Some t /\ granted n (g_sent s.2) t.

(** The block around the transfer leaves an exception or a token that was read from its answer. *)
Lemma wp_lock_transfer p (body : option addr -> M (Frame * G) (option string) unit) l g Q
    (B : Frame * G -> Prop) (T : option string -> Frame * G -> Prop) :
  (forall h, sends CURLOPT_CUSTOMREQUEST (VStr (Some "LOCK"%string)) (g_sent g) (body h)) ->
  (forall h, keeps heard (body h)) -> f_token l = None ->
  (forall s, (forall t, f_token s.1 = Some t -> granted (g_sent g) (g_sent s.2) t) -> Q tt s) ->
  (forall s, Exception_has (g_ex s.2) = true -> B s) ->
  wp (throwable (with_server_curl p body)) Q B T (l, g).
Proof.
  intros Hs Hk Hl HQ HB. apply wp_throwable, wp_with_server_curl.
  { intros g1 _ He. change (get_ex _) with (g_ex g1). rewrite He. by apply HB. }
  intros h g1 Hi He. cbv zeta.
  assert (g_sent g1 = g_sent g) as Hs1 by exact (Hi same_sent _).
  apply (wp_triple_keeps heard _ _ _ _ _ _ _ _ _ (Hs h) (Hk h) Hs1).
  - intros _ [l2 g2] (opts & Hs2 & Ho) (ts & Hts & Hp & Ht) g3 Hi3 Hx. cbn [fst snd] in *.
    change (get_ex (l2, g3)) with (g_ex g3).
    destruct (Exception_has (g_ex g3)) eqn:He3; [by apply HB|]. apply HQ. intros t Ht2. cbn [fst snd] in *.
    rewrite Hs1 in Hts. rewrite Hs2 in Hts. apply app_inv_head in Hts as <-.
    rewrite (Hi3 same_sent _), Hs2. exists opts. split; [done|]. split; [done|].
    rewrite Hx in He3. destruct (Ht t He3 Ht2) as [Ht0|(o & Hin & Ha)]; [congruence|].
    by apply list_elem_of_singleton in Hin as ->.
  - intros [l2 g2] He2 g3 Hi3 Hx. cbn [fst snd] in *. change (get_ex (l2, g3)) with (g_ex g3).
    assert (Exception_has (g_ex g3) = true) as He3 by (by rewrite Hx).
    rewrite He3. by apply HB.
Qed.

Lemma keeps_any {S R A} (m : M S R A) : keeps (fun _ _ => True) m.
Proof. by intros s. Qed.

(** A statement after the transfer: it sends nothing and keeps the token. *)
Definition after_transfer (s s' : Frame * G) : Prop := same_token s s' /\ same_sent s.2 s'.2.
#[local] Instance after_transfer_keep : KeepRel after_transfer.
Proof.
  split; [by intros s| |by intros e [l g]].
  intros s1 s2 s3 [? ?] [? ?]. split; unfold same_token, same_sent in *; congruence.
Qed.
Lemma keeps_after_transfer {A} (m : M (Frame * G) (option string) A) :
  keeps same_token m -> keeps (on_shared same_sent) m -> keeps after_transfer m.
Proof. intros H1 H2 s. specialize (H1 s). specialize (H2 s). by destruct (m s) as [c s']. Qed.

(** [__dav_lock] answers a token that the server sent for the LOCK it made, or leaves an exception. *)
Lemma dav_lock_request_result p s r s' :
  __dav_lock p s = (Ret r, s') ->
  Exception_has (g_ex s'.2) = true \/ exists t, r = Some t /\ granted (g_sent s.2) (g_sent s'.2) t.
Proof.
  destruct s as [l g]. cbn [snd].
  apply (wp_returns _ (fun _ _ => False) (fun _ => False)
    (fun r s' => Exception_has (g_ex s'.2) = true \/ exists t, r = Some t /\ granted (g_sent g) (g_sent s'.2) t)).
  unfold __dav_lock. apply wp_bind, wp_modify, wp_bind, wp_try.
  set (K := fun s' => _).
  assert (forall s0, locked_or_failed (g_sent g) s0 -> K s0) as HK.
  { intros [l0 g0] Hs. unfold K. simpl.
    destruct (Exception_has (g_ex g0)) eqn:He.
    - apply wp_onerror_default, wp_modify, wp_bind, wp_gets, wp_return. by left.
    - apply wp_bind, wp_gets, wp_return. destruct Hs as [Hs|Hs]; [simpl in Hs; congruence|by right]. }
  assert (forall s0, Exception_has (g_ex s0.2) = true -> K s0) as Hpend
    by (intros s0 He; apply HK; by left).
  clearbody K. apply wp_with_test. apply wp_skip, wp_modify, wp_bind, wp_gets, wp_mret.
  destruct (negb _) eqn:Hp; [|apply wp_skip, Hpend; by apply negb_false_iff in Hp].
  apply wp_mono with (fun _ => K) K (fun _ _ => False); [|by intros; apply wp_skip..|done].
  apply wp_throwable.
  apply wp_mono with (fun _ => K) K (fun _ _ => False);
    [|intros; by case_match..|done].
  apply wp_with_test. apply wp_modify, wp_skip, wp_bind, wp_gets, wp_mret.
  destruct (negb _) eqn:Hp2; [|apply wp_skip, Hpend; by apply negb_false_iff in Hp2].
  apply wp_mono with (fun _ => K) K (fun _ _ => False); [|by intros; apply wp_skip..|done].
  apply wp_bind, wp_lock_transfer; [| |done| |done].
  { intros h. apply triple_scope1; [eauto with nfs|].
    wire (g_sent g) h CURLOPT_CUSTOMREQUEST (VStr (Some "LOCK"%string)). }
  { intros h. apply keeps_throwable; [apply _|]. apply heard_scope_slist1. keeps. }
  intros [l1 g1] Hg. cbn [fst snd] in Hg. apply wp_bind, wp_gets, wp_bind. simpl.
  apply wp_condition_throw.
  - intros Ht. apply (wp_keeps after_transfer).
    + apply keeps_after_transfer; keeps.
    + orderly.
    + intros _ s1 [Hs Hn]. apply HK. right. unfold same_token, same_sent in *. simpl in *. rewrite Hs, Hn.
      destruct (f_token l1) as [t|]; [|done]. exists t. auto.
    + intros s1 _ He. by apply Hpend.
  - intros _. apply (wp_keeps (fun _ _ => True)); [apply keeps_any| | |].
    + orderly.
    + intros _ s1 _. by apply Hpend.
    + intros s1 _ _. by apply Hpend.
Qed.
End LockRequests.

(** ** The critical sections *)

Section Sections_.
Context `{E : Env}.
Abbreviation tree g := (filelock_tree (g_server g)).
Implicit Types (l : Frame) (g : G).

Lemma quiet_refl g : quiet g g.
Proof. apply (keep_refl (Rel := quiet)). Qed.
Lemma quiet_trans g1 g2 g3 : quiet g1 g2 -> quiet g2 g3 -> quiet g1 g3.
Proof. apply (keep_trans (Rel := quiet)). Qed.

Lemma wp_call_dav_lock p l g (Q : option string -> Frame * G -> Prop) B T :
  (forall r g', quiet g g' ->
     Exception_has (g_ex g') = true \/ (exists t, r = Some t /\ granted (g_sent g) (g_sent g') t) ->
     Q r (l, g')) ->
  wp (call_dav_lock p) Q B T (l, g).
Proof.
  intros HQ. apply wp_bind, wp_call. intros r s' Hr. apply HQ.
  - pose proof (keeps_dav_lock_request quiet p (frame0, g)) as Hk. by rewrite Hr in Hk.
  - exact (dav_lock_request_result _ _ _ _ Hr).
Qed.

Lemma wp_call_dav_unlock {R} p t l g (Q : Z -> Frame * G -> Prop) B (T : R -> Frame * G -> Prop) :
  (forall r g', quiet g g' -> Q r (l, g')) -> wp (call_dav_unlock p t) Q B T (l, g).
Proof.
  intros HQ. apply wp_bind, wp_call. intros r s' Hr. apply HQ.
  pose proof (keeps_dav_unlock_request quiet p t (frame0, g)) as Hk. by rewrite Hr in Hk.
Qed.

(** A quiet statement that leaves the locals alone. *)
Lemma wp_quiet {R A} (m : M (Frame * G) R A) l g Q B (T : R -> Frame * G -> Prop) :
  keeps (on_shared quiet) m -> orderly m -> (forall s, (m s).2.1 = s.1) ->
  (forall a g', quiet g g' -> Q a (l, g')) ->
  (forall g', quiet g g' -> Exception_has (g_ex g') = true -> B (l, g')) ->
  wp m Q B T (l, g).
Proof.
  intros Hk Ho Hl HQ HB. specialize (Hk (l, g)). specialize (Ho (l, g)). specialize (Hl (l, g)).
  unfold gwp, on_shared in *. destruct (m (l, g)) as [[] [l1 g1]]; simpl in *; subst; try done.
  - by apply HQ.
  - by apply HB.
Qed.

Lemma wp_rdlock l g Q B (T : Z -> Frame * G -> Prop) :
  (writer (g_rwlock g) = false ->
   Q tt (l, set_g_rwlock (mkRWLock (S (readers (g_rwlock g))) false) g)) ->
  wp rdlock Q B T (l, g).
Proof.
  intros HQ. unfold rdlock. apply wp_bind, wp_gets. simpl.
  destruct (writer (g_rwlock g)) eqn:Hw; [done|]. by apply wp_modify, HQ.
Qed.

Lemma wp_wrlock l g Q B (T : Z -> Frame * G -> Prop) :
  (g_rwlock g = mkRWLock 0 false -> Q tt (l, set_g_rwlock (mkRWLock 0 true) g)) ->
  wp wrlock Q B T (l, g).
Proof.
  intros HQ. unfold wrlock. apply wp_bind, wp_gets. simpl.
  destruct (g_rwlock g) as [[|n] []] eqn:Hk; simpl; try done. by apply wp_modify, HQ.
Qed.

(** The lock after the unlock that ends a section entered from [k]. *)
Lemma wp_unlock_read l g n Q B (T : Z -> Frame * G -> Prop) :
  g_rwlock g = mkRWLock (S n) false -> Q tt (l, set_g_rwlock (mkRWLock n false) g) ->
  wp unlock Q B T (l, g).
Proof.
  intros Hk HQ. unfold unlock. apply wp_bind, wp_gets. simpl. rewrite Hk. simpl. by apply wp_modify.
Qed.

Lemma wp_unlock_write l g Q B (T : Z -> Frame * G -> Prop) :
  g_rwlock g = mkRWLock 0 true -> Q tt (l, set_g_rwlock (mkRWLock 0 false) g) ->
  wp unlock Q B T (l, g).
Proof.
  intros Hk HQ. unfold unlock. apply wp_bind, wp_gets. simpl. rewrite Hk. simpl.
  apply wp_modify. simpl. by rewrite Hk.
Qed.

(** A section under the read lock: the body sees the lock taken, and after the body, however it
    leaves the section, the lock is given back. *)
Lemma wp_sync_rdlock body l g Q B (T : Z -> Frame * G -> Prop) :
  (let k := g_rwlock g in
   let K (s' : Frame * G) := g_rwlock s'.2 = mkRWLock (S (readers k)) false
                             /\ Q tt (s'.1, set_g_rwlock k s'.2) in
   writer k = false ->
   wp body (fun _ => K) K T (l, set_g_rwlock (mkRWLock (S (readers k)) false) g)) ->
  wp (sync_rdlock body) Q B T (l, g).
Proof.
  intros Hb. apply wp_with_test, wp_skip, wp_rdlock. intros Hw. apply wp_mret.
  assert (forall s', g_rwlock s'.2 = mkRWLock (S (readers (g_rwlock g))) false
            /\ Q tt (s'.1, set_g_rwlock (g_rwlock g) s'.2) ->
          wp unlock (fun _ => Q tt) (Q tt) T s') as HK.
  { intros [l1 g1] [Hk HQ]. eapply wp_unlock_read; [exact Hk|]. simpl in HQ.
    destruct (g_rwlock g) as [n w]. simpl in *. by rewrite Hw in HQ. }
  eapply wp_mono; [exact (Hb Hw)|intros; by apply HK..|done].
Qed.

Lemma wp_sync_wrlock body l g Q B (T : Z -> Frame * G -> Prop) :
  (let K (s' : Frame * G) := g_rwlock s'.2 = mkRWLock 0 true
                             /\ Q tt (s'.1, set_g_rwlock (mkRWLock 0 false) s'.2) in
   g_rwlock g = mkRWLock 0 false ->
   wp body (fun _ => K) K T (l, set_g_rwlock (mkRWLock 0 true) g)) ->
  wp (sync_wrlock body) Q B T (l, g).
Proof.
  intros Hb. apply wp_with_test, wp_skip, wp_wrlock. intros Hk. apply wp_mret.
  eapply wp_mono; [exact (Hb Hk)|intros ? [l1 g1] [? ?]; by eapply wp_unlock_write
                  |intros [l1 g1] [? ?]; by eapply wp_unlock_write|done].
Qed.

Lemma wp_add_cnt a d l g fl Q B (T : Z -> Frame * G -> Prop) :
  g_locks g !! a = Some fl ->
  (let n := i32 (lock_cnt fl + d) in
   Q n (l, set_g_locks (<[a := mkFileLock (lock_path fl) (lock_token fl) n]> (g_locks g)) g)) ->
  wp (add_cnt a d) Q B T (l, g).
Proof.
  intros Hl HQ. unfold add_cnt, get_filelock. apply wp_bind, wp_bind, wp_gets. simpl. rewrite Hl.
  apply wp_mret, wp_bind, wp_modify, wp_mret. exact HQ.
Qed.

(** The lock is only moved. *)
Lemma restore_rwlock k g : g_rwlock g = k -> set_g_rwlock k g = g.
Proof. intros <-. by destruct g. Qed.
End Sections_.

(** ** [dav_lock] *)

Section DavLock.
Context `{E : Env}.
Abbreviation tree g := (filelock_tree (g_server g)).
Implicit Types (l : Frame) (g : G).

Lemma lift_locks_rwlock k m g :
  set_g_rwlock (g_rwlock g) (set_g_locks m (set_g_rwlock k g)) = set_g_locks m g.
Proof. by destruct g. Qed.

Lemma wp_lock_existing p l g Q B (T : Z -> Frame * G -> Prop) :
  table_ok g ->
  (tree g !! p = None -> Q tt (l, g)) ->
  (forall a tok n, tree g !! p = Some a -> g_locks g !! a = Some (mkFileLock (Some p) tok n) ->
     Q tt (set_f_filelock (Some a) l,
           set_g_locks (<[a := mkFileLock (Some p) tok (i32 (n + 1))]> (g_locks g)) g)) ->
  wp (lock_existing p) Q B T (l, g).
Proof.
  intros Hok Hn Hs. apply wp_sync_rdlock. cbv zeta. intros Hw. unfold tfind. apply wp_bind, wp_gets. simpl.
  destruct (tree g !! p) as [a|] eqn:Ht.
  - destruct (ok_entry _ Hok _ _ Ht) as (tok & n & Hl).
    apply wp_bind, wp_modify, wp_bind. eapply wp_add_cnt; [exact Hl|]. apply wp_skip. simpl.
    split; [done|]. rewrite lift_locks_rwlock. by apply Hs.
  - apply wp_skip. simpl. split; [done|].
    replace (set_g_rwlock (g_rwlock g) _) with g by (by destruct g). by apply Hn.
Qed.

(** While a new object at [a] is prepared for [p]: it is not linked yet; [d] is its copy of the
    path. *)
Record preparing (p : string) (d : option string) (a : addr) (g0 g : G) : Prop := {
  prep_ok : table_ok g;
  prep_view : view g = view g0;
  prep_lock : g_rwlock g = g_rwlock g0;
  prep_obj : exists tok, g_locks g !! a = Some (mkFileLock d tok 1);
  prep_free : forall q, tree g !! q <> Some a;
  prep_new : tree g !! p = None;
}.

Lemma preparing_quiet p d a g0 g g' : preparing p d a g0 g -> quiet g g' -> preparing p d a g0 g'.
Proof.
  intros [Hok Hv Hk Ho Hf Hn] Hq. destruct (quiet_table _ _ Hq Hok) as [Hok' Hv'].
  destruct Hq as ((Hr & Hl & Ht) & _). split; try congruence. by rewrite Hl.
Qed.

Lemma preparing_put p d a g0 g tok :
  preparing p d a g0 g -> preparing p d a g0 (set_g_locks (<[a := mkFileLock d tok 1]> (g_locks g)) g).
Proof.
  intros [Hok Hv Hk (tok0 & Ho) Hf Hn].
  destruct (unlinked_entry g a (<[a := mkFileLock d tok 1]> (g_locks g))) as [Hok' Hv'];
    [done|done|intros b Hb; by rewrite lookup_insert_ne|intros _; apply (ok_fresh _ Hok); by rewrite Ho|].
  split; simpl; try done; [congruence|]. exists tok. by rewrite lookup_insert_eq.
Qed.

(** A new object. *)
Lemma wp_malloc_e {R} name l g Q B (T : R -> Frame * G -> Prop) :
  (forall g', quiet g g' -> Exception_has (g_ex g') = true -> Q None (l, g')) ->
  (forall a g', quiet g g' -> g_sent g' = g_sent g -> (g_next g <= a < g_next g')%positive ->
     Q (Some a) (l, g')) ->
  wp (malloc_e name) Q B T (l, g).
Proof.
  intros Hn Hs. unfold malloc_e, malloc_ok. apply wp_bind, wp_ext.
  assert (forall w, quiet g (set_g_world w g)) as Hq by (intros w; apply (io_world (Rel := quiet))).
  destruct (fst (env_malloc (g_world g))); simpl.
  - apply wp_bind. unfold gwp, fresh_addr. simpl. apply Hs.
    + eapply quiet_trans; [apply Hq|].
      exact (io_next (Rel := quiet) (set_g_world (snd (env_malloc (g_world g))) g)).
    + done.
    + simpl. lia.
  - apply wp_bind, wp_modify, wp_mret. apply Hn; [|done].
    eapply quiet_trans; [apply Hq|].
    by apply (keep_raise (Rel := quiet) _ (set_g_world (snd (env_malloc (g_world g))) g)).
Qed.

(** After the section that links the new object, without an exception and with one; before it the
    transfers were those of [g0]. *)
Definition lock_new_post p a g0 (s : Frame * G) : Prop :=
  f_filelock s.1 = Some a /\
  if Exception_has (g_ex s.2) then exists d, preparing p d a g0 s.2
  else table_ok s.2 /\ g_rwlock s.2 = g_rwlock g0
       /\ exists t, view s.2 = <[p := (Some t, 1)]> (view g0) /\ granted (g_sent g0) (g_sent s.2) t.

(** [preparing] without the lock, which the section holds. *)
Definition preparing_locked p a g0 g : Prop := preparing p (Some p) a g0 (set_g_rwlock (g_rwlock g0) g).

Lemma preparing_locked_quiet p a g0 g g' :
  preparing_locked p a g0 g -> quiet g g' -> preparing_locked p a g0 g'.
Proof.
  intros Hp Hq. eapply preparing_quiet; [exact Hp|].
  destruct Hq as ((_ & Hl & Ht) & Hn & Ho & Hx). done.
Qed.

(** The end of the section: the lock is given back. *)
Definition lock_new_end p a g0 (s : Frame * G) : Prop :=
  g_rwlock s.2 = mkRWLock 0 true /\ lock_new_post p a g0 (s.1, set_g_rwlock (mkRWLock 0 false) s.2).

Lemma lock_new_end_pending p a g0 l g :
  g_rwlock g0 = mkRWLock 0 false -> g_rwlock g = mkRWLock 0 true -> f_filelock l = Some a ->
  Exception_has (g_ex g) = true -> preparing_locked p a g0 g -> lock_new_end p a g0 (l, g).
Proof.
  intros Hk0 Hk Hf He Hp. split; [done|]. split; [done|]. simpl. rewrite He.
  unfold preparing_locked in Hp. rewrite Hk0 in Hp. by exists (Some p).
Qed.

Lemma wp_tsearch p a l g Q B (T : Z -> Frame * G -> Prop) :
  tree g !! p = None ->
  (forall g', quiet g g' -> Q None (l, g')) ->
  (forall g', quiet g g' -> g_ex g' = g_ex g -> g_sent g' = g_sent g ->
     Q (Some a) (l, set_g_server (set_filelock_tree (<[p := a]> (tree g')) (g_server g')) g')) ->
  wp (tsearch p a) Q B T (l, g).
Proof.
  intros Ht Hn Hs. unfold tsearch, tfind, malloc_ok. apply wp_bind, wp_gets. simpl. rewrite Ht.
  apply wp_bind, wp_ext.
  assert (quiet g (set_g_world (snd (env_malloc (g_world g))) g)) as Hq
    by apply (io_world (Rel := quiet)).
  destruct (fst (env_malloc (g_world g))).
  - apply wp_bind, wp_modify, wp_mret. by apply Hs.
  - apply wp_mret. by apply Hn.
Qed.

Lemma wp_lock_new p a l g0 g Q B (T : Z -> Frame * G -> Prop) :
  preparing p (Some p) a g0 g -> f_filelock l = Some a -> Exception_has (g_ex g) = false ->
  g_sent g = g_sent g0 ->
  (forall s, lock_new_post p a g0 s -> Q tt s) -> wp (lock_new p a) Q B T (l, g).
Proof.
  intros Hp Hf He Hsent HQ. apply wp_sync_wrlock. cbv zeta. intros Hk.
  assert (g_rwlock g0 = mkRWLock 0 false) as Hk0 by (by rewrite <- (prep_lock _ _ _ _ _ Hp)).
  set (K := fun s' : Frame * G => _).
  assert (forall s, lock_new_end p a g0 s -> K s) as HK
    by (intros s [? ?]; split; [done|by apply HQ]). clearbody K. clear HQ Q B.
  assert (preparing_locked p a g0 (set_g_rwlock (mkRWLock 0 true) g)) as Hp1.
  { unfold preparing_locked. rewrite Hk0, <- Hk. by destruct g. }
  unfold tfind. apply wp_bind, wp_gets. simpl. rewrite (prep_new _ _ _ _ _ Hp).
  apply wp_bind, wp_skip, wp_bind, wp_throwable, wp_bind, wp_call_dav_lock.
  intros tok g2 Hq Hr.
  pose proof (preparing_locked_quiet _ _ _ _ _ Hp1 Hq) as Hp2.
  assert (g_rwlock g2 = mkRWLock 0 true) as Hk2 by (destruct Hq as ((-> & _) & _); done).
  clear Hp1 Hq. destruct (prep_obj _ _ _ _ _ Hp2) as (tok0 & Ho). simpl in Ho.
  unfold get_filelock, put_filelock. apply wp_bind, wp_bind, wp_gets. simpl. rewrite Ho.
  apply wp_mret, wp_modify. simpl.
  set (g3 := set_g_locks _ g2).
  assert (preparing_locked p a g0 g3) as Hp3
    by exact (preparing_put _ _ _ _ _ tok Hp2).
  change (g_ex g3) with (g_ex g2).
  destruct (Exception_has (g_ex g2)) eqn:He2; [by apply HK, lock_new_end_pending|].
  destruct Hr as [?|(t & -> & Hg)]; [congruence|].
  change (g_sent (set_g_rwlock _ g)) with (g_sent g) in Hg. rewrite Hsent in Hg.
  apply wp_bind, wp_tsearch; [exact (prep_new _ _ _ _ _ Hp3)|..].
  - intros g4 Hq. apply wp_condition_throw; [done|]. intros _. apply wp_modify.
    pose proof (preparing_locked_quiet _ _ _ _ _ Hp3 Hq) as Hp4.
    apply HK, lock_new_end_pending; [done| |done|done|].
    + destruct Hq as ((Hr4 & _) & _). etransitivity; [exact Hr4|exact Hk2].
    + destruct Hp4 as [Hok Hv Hk4 Hob Hfr Hn]. split; try done. by eapply table_ok_ext.
  - intros g4 Hq Hx Hs4. apply wp_condition_throw; [intros _|done].
    pose proof (preparing_locked_quiet _ _ _ _ _ Hp3 Hq) as Hp4.
    apply HK. split; [destruct Hq as ((Hr4 & _) & _); etransitivity; [exact Hr4|exact Hk2]|].
    split; [done|]. simpl.
    rewrite Hx. change (g_ex g3) with (g_ex g2). rewrite He2.
    assert (g_locks g4 !! a = Some (mkFileLock (Some p) (Some t) 1)) as Ha.
    { destruct Hq as ((_ & -> & _) & _). simpl. by rewrite lookup_insert_eq. }
    destruct (link_entry _ p a _ _ (prep_ok _ _ _ _ _ Hp4) (prep_new _ _ _ _ _ Hp4) Ha) as [Hok Hv].
    rewrite (prep_view _ _ _ _ _ Hp4), Hk0 in Hv. rewrite Hk0 in Hok. split; [exact Hok|].
    split; [done|]. exists t. split; [exact Hv|]. simpl. by rewrite Hs4.
Qed.

(** What [dav_lock] does to the table. *)
Definition dav_lock_post p g (r : Z) (s : Frame * G) : Prop :=
  table_ok s.2 /\ g_rwlock s.2 = g_rwlock g /\
  match view g !! p with
  | Some (t, n) => r = 0 /\ view s.2 = <[p := (t, i32 (n + 1))]> (view g) /\ g_sent s.2 = g_sent g
  | None => (r = 0 /\ exists t, view s.2 = <[p := (Some t, 1)]> (view g) /\ granted (g_sent g) (g_sent s.2) t)
            \/ (r = 1 /\ view s.2 = view g /\ Exception_has (g_ex s.2) = true)
  end.

(** The error path: the table is as it was, whatever was prepared. *)
Lemma lock_failed_post p g l g1 :
  view g !! p = None -> table_ok g1 -> view g1 = view g -> g_rwlock g1 = g_rwlock g ->
  Exception_has (g_ex g1) = true -> dav_lock_post p g 1 (l, g1).
Proof. intros Hn Hok Hv Hk He. split; [done|]. split; [done|]. rewrite Hn. by right. Qed.

Lemma free_prepared a g g0 m :
  table_ok g -> (forall q, tree g !! q <> Some a) -> view g = view g0 ->
  m = delete a (g_locks g) -> table_ok (set_g_locks m g) /\ view (set_g_locks m g) = view g0.
Proof.
  intros Hok Hf Hv ->. rewrite <- Hv. apply (unlinked_entry g a); [done|done|..].
  - intros b Hb. by rewrite lookup_delete_ne.
  - rewrite lookup_delete_eq. by intros [].
Qed.

Lemma wp_return_status {L} (l : L) g Q B T :
  T (TEST_SUCCESS (g_ex g)) (l, g) -> wp (return_status (L := L)) Q B T (l, g).
Proof. intros HT. by apply wp_bind, wp_gets, wp_return. Qed.

(** The inner block, from the new object on. *)
Lemma wp_lock_prepare p a l g0 g Q B (T : Z -> Frame * G -> Prop) :
  table_ok g -> view g = view g0 -> g_rwlock g = g_rwlock g0 -> tree g !! p = None ->
  (forall q, tree g !! q <> Some a) -> (a < g_next g)%positive -> f_filelock l = Some a ->
  Exception_has (g_ex g) = false -> g_sent g = g_sent g0 ->
  (forall s, lock_new_post p a g0 s -> Q tt s) ->
  wp (try_
       (l <- local ;;
        filelock <- deref (f_filelock l) ;;
        put_filelock filelock (mkFileLock None None 1) ;;;
        dup <- strdup (lit p) ;;
        put_filelock filelock (mkFileLock dup None 1) ;;;
        condition_throw (not_null dup) (mk_MallocException "path dup") ;;;
        throwable (lock_new p filelock))
       (onerror_default
          (l <- local ;;
           filelock <- deref (f_filelock l) ;;
           fl <- get_filelock filelock ;;
           when (not_null (lock_token fl))
             (_ <- call_dav_unlock (Some p) (lock_token fl) ;; skip)))) Q B T (l, g).
Proof.
  intros Hok Hv Hk Ht Hf Hlt Hl He Hsent HQ. apply wp_try.
  set (K := fun s' : Frame * G => _).
  assert (forall s, lock_new_post p a g0 s -> K s) as HK.
  { intros [l1 g1] Hs. unfold K. destruct (Exception_has (get_ex (l1, g1))) eqn:He1; [|by apply HQ].
    destruct Hs as [Hl1 Hp]. simpl in Hl1, Hp, He1. rewrite He1 in Hp.
    apply wp_onerror_default, wp_bind, wp_gets, wp_bind. simpl. rewrite Hl1. apply wp_mret.
    destruct Hp as [d Hp]. destruct (prep_obj _ _ _ _ _ Hp) as (tok & Ho). apply wp_bind, wp_bind, wp_gets. simpl. rewrite Ho.
    apply wp_mret. simpl. assert (Q tt (l1, g1)) as HQ1.
    { apply HQ. split; [done|]. simpl. rewrite He1. by exists d. }
    destruct tok as [tok|]; simpl; [|by apply wp_skip].
    apply wp_bind, wp_call_dav_unlock. intros r g2 Hq. apply wp_skip, HQ. split; [done|]. simpl.
    assert (Exception_has (g_ex g2) = true) as -> by (destruct Hq as (_ & _ & _ & Hx); by apply Hx).
    exists d. by eapply preparing_quiet. }
  clearbody K. clear HQ Q B. apply wp_bind, wp_gets, wp_bind. simpl. rewrite Hl. apply wp_mret.
  unfold put_filelock, strdup, malloc_ok. apply wp_bind, wp_modify, wp_bind, wp_bind, wp_ext. simpl.
  apply wp_mret, wp_bind, wp_modify. simpl.
  set (w := snd (env_malloc (g_world g))).
  assert (forall d, preparing p d a g0 (set_g_locks
            (<[a := mkFileLock d None 1]> (<[a := mkFileLock None None 1]> (g_locks g)))
            (set_g_world w g))) as Hprep.
  { intros d. destruct (unlinked_entry (set_g_world w g) a
      (<[a := mkFileLock d None 1]> (<[a := mkFileLock None None 1]> (g_locks g)))) as [Hok' Hv'].
    - by eapply table_ok_ext.
    - done.
    - intros b Hb. by rewrite !lookup_insert_ne by done.
    - done.
    - split; try done; [etransitivity; [exact Hv'|exact Hv]|].
      exists None. simpl. by rewrite lookup_insert_eq. }
  destruct (fst (env_malloc (g_world g))); apply wp_bind, wp_condition_throw; try done; intros _.
  - rewrite str_of_lit. apply wp_throwable. eapply wp_lock_new; [apply Hprep|done|done|done|].
    intros s Hs. destruct (Exception_has (get_ex s)); by apply HK.
  - apply wp_modify, HK. split; [done|]. simpl. exists None.
    destruct (Hprep None) as [Hok' Hv' Hk' Ho' Hf' Hn']. split; try done. by eapply table_ok_ext.
Qed.

(** How [dav_lock] leaves the table. *)
Lemma dav_lock_run p l g r s :
  table_ok g -> uses_locks g -> dav_lock p (l, g) = (Ret r, s) -> dav_lock_post p g r s.
Proof.
  intros Hok Hu. apply (wp_returns _ (fun _ _ => False) (fun _ => False)).
  apply wp_bind, wp_gets. simpl. rewrite Hu. apply wp_bind, wp_skip, wp_bind, wp_modify, wp_bind.
  apply wp_lock_existing; [done|..].
  2: { intros a tok n Ht Hl. simpl in *. apply wp_bind, wp_gets, wp_bind, wp_return.
       destruct (update_entry g p a _ tok (i32 (n + 1)) Hok Ht Hl) as [Hok' Hv'].
       split; [exact Hok'|]. split; [done|]. rewrite (view_lookup _ _ _ _ _ Ht Hl). done. }
  intros Ht. simpl. apply wp_bind, wp_gets, wp_bind, wp_skip, wp_bind, wp_try.
  assert (view g !! p = None) as Hn by (by apply view_None).
  set (K := fun s' : Frame * G => _).
  assert (forall a l1 g1, f_filelock l1 = Some a -> table_ok g1 -> view g1 = view g ->
            g_rwlock g1 = g_rwlock g -> (forall q, tree g1 !! q <> Some a) ->
            Exception_has (g_ex g1) = true -> K (l1, g1)) as HKp.
  { intros a l1 g1 Hl Hok1 Hv Hk Hf He. unfold K. simpl. rewrite He.
    apply wp_onerror_default, wp_bind, wp_gets. simpl. rewrite Hl. apply wp_modify. simpl.
    destruct (free_prepared a g1 g _ Hok1 Hf Hv eq_refl) as [Hok2 Hv2].
    apply wp_return_status. unfold TEST_SUCCESS. simpl. rewrite He. by apply lock_failed_post. }
  apply wp_bind, wp_throwable, wp_bind, wp_malloc_e.
  - intros g1 Hq He. apply wp_modify. simpl. rewrite He.
    destruct (quiet_table _ _ Hq Hok) as [Hok1 Hv]. unfold K. simpl. rewrite He.
    apply wp_onerror_default, wp_bind, wp_gets, wp_skip, wp_return_status.
    unfold TEST_SUCCESS. rewrite He. apply lock_failed_post; try done. by destruct Hq as ((-> & _) & _).
  - intros a g1 Hq Hs1 Ha. apply wp_modify. simpl.
    destruct (quiet_table _ _ Hq Hok) as [Hok1 Hv].
    assert (forall q, tree g1 !! q <> Some a) as Hf.
    { intros q Hq'. destruct Hq as ((_ & Hl & Htr) & _). rewrite Htr in Hq'.
      destruct (ok_entry _ Hok _ _ Hq') as (? & ? & Ho).
      assert (a < g_next g)%positive by (apply (ok_fresh _ Hok); by rewrite Ho). lia. }
    assert (g_rwlock g1 = g_rwlock g) as Hk by (by destruct Hq as ((-> & _) & _)).
    destruct (Exception_has (g_ex g1)) eqn:He; [by eapply HKp|].
    apply (wp_lock_prepare p a _ g); try done; [by destruct Hq as ((_ & _ & ->) & _)|lia|].
    intros [l2 g2] [Hl2 Hp]. simpl in Hl2, Hp. destruct (Exception_has (g_ex g2)) eqn:He2.
    + destruct Hp as [d [Hok2 Hv2 Hk2 Ho2 Hf2 Hn2]]. by eapply HKp.
    + destruct Hp as (Hok2 & Hk2 & t & Hv2 & Hg2). unfold K. simpl. rewrite He2.
      apply wp_return_status. unfold TEST_SUCCESS. rewrite He2. split; [done|]. split; [done|].
      rewrite Hn. left. eauto.
Qed.

(** C9: [dav_lock] on a table that is in order. A path that is locked already gets one more user
    and nothing is sent. For a new path, success means that exactly one transfer was made, a LOCK,
    and that the table got an entry with one user and the token of a Lock-Token line of the answer
    to it (of [env_easy_perform] for its options, in some state of the world); after a failure the table is as before and an exception is pending. The table
    stays in order and the lock is as it was found. *)
Theorem dav_lock_spec p l g r s :
  table_ok g -> uses_locks g -> dav_lock p (l, g) = (Ret r, s) -> dav_lock_post p g r s.
Proof. apply dav_lock_run. Qed.
End DavLock.
