(* ===== verification/UnlockSpec.v ===== *)
(** * What UNLOCK does to the table of file locks, and the race it has *)

From S2P Require Import Prelude Utils Exception Control Buffer Stack State Wp Demo Curl Rules Method MethodSpec Locks LocksSpec.
#[local] Open Scope Z_scope.
#[local] Open Scope c_scope.

(** ** [dav_unlock] *)

Section DavUnlock.
Context `{E : Env}.
Abbreviation tree g := (filelock_tree (g_server g)).
Implicit Types (l : Frame) (g : G).

(** Only the exception and the allocator were touched. *)
Definition only_raised g g' : Prop :=
  exists w e, g' = set_g_world w (set_g_ex e g) /\ Exception_has e = true.

Lemma lift_raised_rwlock k w e g :
  set_g_rwlock (g_rwlock g) (set_g_ex e (set_g_world w (set_g_rwlock k g)))
  = set_g_world w (set_g_ex e g).
Proof. by destruct g. Qed.

Lemma wp_unlock_count p l g Q B (T : Z -> Frame * G -> Prop) :
  table_ok g ->
  (tree g !! p = None -> forall g', only_raised g g' ->
   Q tt (set_f_res (Some 1) (set_f_filelock None l), g')) ->
  (forall a tok n, tree g !! p = Some a -> g_locks g !! a = Some (mkFileLock (Some p) tok n) ->
     Q tt (set_f_filelock (if 0 <? i32 (n - 1) then None else Some a) l,
           set_g_locks (<[a := mkFileLock (Some p) tok (i32 (n - 1))]> (g_locks g)) g)) ->
  wp (unlock_count p) Q B T (l, g).
Proof.
  intros Hok Hn Hs. apply wp_sync_rdlock. cbv zeta. intros Hw. unfold tfind.
  apply wp_bind, wp_gets, wp_bind, wp_modify. simpl. destruct (tree g !! p) as [a|] eqn:Ht.
  - destruct (ok_entry _ Hok _ _ Ht) as (tok & n & Hl).
    apply wp_bind. eapply wp_add_cnt; [exact Hl|]. cbv zeta. simpl.
    specialize (Hs a tok n eq_refl Hl). replace (n + -1) with (n - 1) by lia.
    destruct (0 <? i32 (n - 1)); [apply wp_modify|apply wp_skip]; simpl;
      rewrite lift_locks_rwlock; done.
  - apply wp_bind. unfold mk_UnspecifiedException, malloc_ok. apply wp_bind, wp_ext, wp_modify.
    apply wp_bind, wp_modify, wp_break. split; [done|].
    simpl. apply (Hn eq_refl).
    eexists _, _. split; [apply lift_raised_rwlock|done].
Qed.

Lemma lift_tree_rwlock k m g :
  g_rwlock g = mkRWLock 0 false ->
  set_g_rwlock (mkRWLock 0 false) (set_g_server m (set_g_rwlock k g)) = set_g_server m g.
Proof. destruct g. simpl. by intros ->. Qed.

(** The entry goes when it counts nobody. *)
Lemma wp_unlock_remove p l g a tok n Q B (T : Z -> Frame * G -> Prop) :
  tree g !! p = Some a -> g_locks g !! a = Some (mkFileLock (Some p) tok n) -> n <= 0 ->
  (g_rwlock g = mkRWLock 0 false ->
   Q tt (set_f_filelock (Some a) l,
         set_g_server (set_filelock_tree (delete p (tree g)) (g_server g)) g)) ->
  wp (unlock_remove p) Q B T (l, g).
Proof.
  intros Ht Hl Hn HQ. apply wp_sync_wrlock. cbv zeta. intros Hk. unfold tfind.
  apply wp_bind, wp_gets. simpl. rewrite Ht. unfold get_filelock.
  apply wp_bind, wp_bind, wp_gets. simpl. rewrite Hl. apply wp_mret. simpl.
  replace (n <=? 0) with true by lia. apply wp_bind, wp_modify, wp_modify. split; [done|].
  simpl. rewrite lift_tree_rwlock by done. by apply HQ.
Qed.

(** What [dav_unlock] does: without an entry it fails and nothing is sent; a user who is not the
    last one is only counted; for the last one the entry is gone before UNLOCK is made with the
    entry's token, whose result is the result. *)
Definition dav_unlock_post p g (r : Z) (s : Frame * G) : Prop :=
  table_ok s.2 /\ g_rwlock s.2 = g_rwlock g /\
  match view g !! p with
  | None => r = 1 /\ view s.2 = view g /\ g_sent s.2 = g_sent g /\ Exception_has (g_ex s.2) = true
  | Some (t, n) =>
      if 0 <? i32 (n - 1)
      then r = 0 /\ view s.2 = <[p := (t, i32 (n - 1))]> (view g) /\ g_sent s.2 = g_sent g
           /\ g_ex s.2 = g_ex g
      else view s.2 = delete p (view g) /\
           exists g1 l2 g2, __dav_unlock (Some p) t (frame0, g1) = (Ret r, (l2, g2)) /\
             view g1 = delete p (view g) /\ g_sent g1 = g_sent g /\ g_ex g1 = g_ex g /\
             g_world g1 = g_world g /\ g_sent s.2 = g_sent g2 /\ g_ex s.2 = g_ex g2
  end.

(** The end, with the entry out of the tree. *)
Lemma wp_unlock_send a p t n l g Q B (T : Z -> Frame * G -> Prop) :
  table_ok g -> (forall q, tree g !! q <> Some a) ->
  g_locks g !! a = Some (mkFileLock (Some p) t n) ->
  (forall r l2 g2, __dav_unlock (Some p) t (frame0, g) = (Ret r, (l2, g2)) ->
     quiet g g2 -> let g3 := set_g_locks (delete a (g_locks g2)) g2 in
     table_ok g3 -> view g3 = view g -> T r (l, g3)) ->
  wp (unlock_send a) Q B T (l, g).
Proof.
  intros Hok Hf Hl HT. unfold unlock_send, get_filelock, call_dav_unlock, FileLock_free, get_filelock.
  apply wp_bind, wp_bind, wp_gets. simpl. rewrite Hl. apply wp_mret. simpl.
  apply wp_bind, wp_bind, wp_call. intros r [l2 g2] Hr. apply wp_mret. simpl.
  pose proof (keeps_dav_unlock_request quiet (Some p) t (frame0, g)) as Hq. rewrite Hr in Hq.
  unfold on_shared in Hq. simpl in Hq.
  apply wp_bind, wp_bind, wp_bind, wp_gets. simpl.
  destruct (quiet_table _ _ Hq Hok) as [Hok2 Hv2].
  assert (g_locks g2 !! a = Some (mkFileLock (Some p) t n)) as Hl2
    by (by destruct Hq as ((_ & -> & _) & _)).
  rewrite Hl2. apply wp_mret, wp_modify, wp_return. simpl.
  assert (forall q, tree g2 !! q <> Some a) as Hf2
    by (intros q; destruct Hq as ((_ & _ & ->) & _); apply Hf).
  destruct (free_prepared a g2 g _ Hok2 Hf2 Hv2 eq_refl) as [Hok3 Hv3]. by eapply HT.
Qed.

(** How [dav_unlock] leaves the table. *)
Lemma dav_unlock_run p l g r s :
  table_ok g -> uses_locks g -> dav_unlock p (l, g) = (Ret r, s) -> dav_unlock_post p g r s.
Proof.
  intros Hok Hu. apply (wp_returns _ (fun _ _ => False) (fun _ => False)).
  apply wp_bind, wp_gets. simpl. rewrite Hu.
  apply wp_bind, wp_skip, wp_bind, wp_modify, wp_bind, wp_modify, wp_bind.
  apply wp_unlock_count; [done|..].
  - intros Ht g' (w & e & -> & He). simpl.
    apply wp_bind, wp_gets, wp_bind. simpl. apply wp_bind, wp_mret, wp_return.
    split; [by eapply table_ok_ext|]. split; [done|]. simpl in Ht.
    apply (view_None _ _ Hok) in Ht. by rewrite Ht.
  - intros a t n Ht Hl. simpl in Ht, Hl. simpl.
    destruct (update_entry g p a _ t (i32 (n - 1)) Hok Ht Hl) as [Hok1 Hv1].
    unfold dav_unlock_post. rewrite (view_lookup _ _ _ _ _ Ht Hl).
    apply wp_bind, wp_gets. simpl. destruct (0 <? i32 (n - 1)) eqn:Hpos; simpl.
    + apply wp_bind, wp_bind, wp_mret, wp_return. split; [exact Hok1|]. split; [done|].
      split; [done|]. split; [exact Hv1|done].
    + apply wp_bind, wp_skip, wp_bind.
      eapply (wp_unlock_remove p _ _ a t (i32 (n - 1)));
        [exact Ht|simpl; by rewrite lookup_insert_eq|lia|]. intros Hk. simpl in Hk.
      apply wp_bind, wp_gets. simpl.
      destruct (unlink_entry _ p Hok1) as [Hok2 Hv2].
      eapply wp_unlock_send; [exact Hok2|..].
      * simpl. intros q [Hne Hq]%lookup_delete_Some. apply Hne. by apply (entry_path g p q a).
      * simpl. by rewrite lookup_insert_eq.
      * intros r2 l2 g2 Hr Hq g3 Hok3 Hv3. unfold snd at 1 2 3. split; [exact Hok3|].
        split; [by destruct Hq as ((Hk3 & _) & _)|].
        assert (view g3 = delete p (view g)) as ->
          by (rewrite Hv3; etransitivity; [exact Hv2|]; by rewrite Hv1, delete_insert_eq).
        split; [done|]. eexists _, l2, g2. split; [exact Hr|]. split; [|done].
        etransitivity; [exact Hv2|]. by rewrite Hv1, delete_insert_eq.
Qed.

End DavUnlock.

(** ** The race between [dav_unlock] and [dav_lock] *)

(** Evaluation of the lock operations on a state whose fields are named. *)
Ltac run_locks :=
  unfold use_locks, sync_rdlock, sync_wrlock, synchronized, with_test, for_once, reflow, round, do_once,
    rdlock, wrlock, unlock, tfind, add_cnt, get_filelock, put_filelock, upd_rwlock, upd_local,
    upd_shared, shared, local, gets, modify, skip, when, bind, mret, return_, deref, break; simpl.

Section Race.
Context `{E : Env}.
Abbreviation tree g := (filelock_tree (g_server g)).
Implicit Types (l : Frame) (g : G).

Definition with_lock a fl g : G := set_g_locks (<[a := fl]> (g_locks g)) g.

Definition idle_lock g : Prop := g_rwlock g = mkRWLock 0 false.

(** The sections of the two threads, on an entry [a] of [p]. *)
Lemma count_run p a t l g :
  idle_lock g -> tree g !! p = Some a -> g_locks g !! a = Some (mkFileLock (Some p) t 1) ->
  unlock_count p (l, g)
  = (Next tt, (set_f_filelock (Some a) l, with_lock a (mkFileLock (Some p) t 0) g)).
Proof.
  unfold idle_lock. destruct g as [? ? ? ? srv locks k ? ? ? ?]. simpl. intros -> Ht Hl.
  unfold unlock_count, with_lock. run_locks. rewrite Ht. simpl. by rewrite Hl.
Qed.

Lemma existing_run p a t n l g :
  idle_lock g -> uses_locks g -> tree g !! p = Some a ->
  g_locks g !! a = Some (mkFileLock (Some p) t n) ->
  dav_lock p (l, g)
  = (Ret 0, (set_f_filelock (Some a) l, with_lock a (mkFileLock (Some p) t (i32 (n + 1))) g)).
Proof.
  unfold idle_lock, uses_locks. destruct g as [? ? ? ? srv locks k ? ? ? ?]. simpl. intros -> Hu Ht Hl.
  unfold dav_lock, lock_existing, with_lock. run_locks. rewrite Hu. simpl. rewrite Ht. simpl. by rewrite Hl.
Qed.

Lemma dangling_run p a l g :
  idle_lock g -> uses_locks g -> tree g !! p = Some a -> g_locks g !! a = None ->
  fst (dav_lock p (l, g)) = Stuck NullDeref.
Proof.
  unfold idle_lock, uses_locks. destruct g as [? ? ? ? srv locks k ? ? ? ?]. simpl. intros -> Hu Ht Hl.
  unfold dav_lock, lock_existing. run_locks. rewrite Hu. simpl. rewrite Ht. simpl. by rewrite Hl.
Qed.

Lemma remove_run p a t n l g :
  idle_lock g -> tree g !! p = Some a -> g_locks g !! a = Some (mkFileLock (Some p) t n) -> 0 < n ->
  unlock_remove p (l, g) = (Next tt, (l, g)).
Proof.
  unfold idle_lock. destruct g as [? ? ? ? srv locks k ? ? ? ?]. simpl. intros -> Ht Hl Hn.
  unfold unlock_remove. run_locks. rewrite Ht. simpl. rewrite Hl. simpl.
  by replace (n <=? 0) with false by lia.
Qed.

(** C12: the race of closing and opening one path. A thread that unlocks the last use of [p] counts
    down to zero and leaves the read lock; before it takes the write lock, a second thread locks [p]
    and finds the entry. The first thread then keeps the entry in the tree, but goes on to send
    UNLOCK with the token the second thread relies on, and frees the entry: the tree still points to
    it, and the next [dav_lock] of that path reads freed memory. *)
Theorem unlock_lock_race p a t l1 l2 g :
  idle_lock g -> uses_locks g -> tree g !! p = Some a ->
  g_locks g !! a = Some (mkFileLock (Some p) t 1) ->
  exists s1 s2 s3,
    unlock_count p (l1, g) = (Next tt, s1) /\
    dav_lock p (l2, s1.2) = (Ret 0, s2) /\
    unlock_remove p (s1.1, s2.2) = (Next tt, s3) /\
    f_filelock s3.1 = Some a /\ view s3.2 = view g /\
    forall r s4, unlock_send a s3 = (Ret r, s4) ->
      tree s4.2 !! p = Some a /\ g_locks s4.2 !! a = None /\
      forall l, fst (dav_lock p (l, s4.2)) = Stuck NullDeref.
Proof.
  intros Hk Hu Ht Hl. set (g1 := with_lock a (mkFileLock (Some p) t 0) g).
  set (g2 := with_lock a (mkFileLock (Some p) t 1) g1).
  assert (g_locks g1 !! a = Some (mkFileLock (Some p) t 0)) as Hl1
    by (simpl; by rewrite lookup_insert_eq).
  assert (g_locks g2 !! a = Some (mkFileLock (Some p) t 1)) as Hl2
    by (simpl; by rewrite lookup_insert_eq).
  exists (set_f_filelock (Some a) l1, g1), (set_f_filelock (Some a) l2, g2),
    (set_f_filelock (Some a) l1, g2).
  split; [by apply count_run|]. split; [by apply (existing_run p a t 0 l2 g1)|].
  split; [by apply (remove_run p a t 1)|]. split; [done|]. split.
  { apply view_ext; [done|]. simpl. rewrite insert_insert_eq. by apply insert_id. }
  intros r s4. unfold unlock_send. apply (wp_returns _ (fun _ _ => False) (fun _ => False)
    (fun _ s4 => tree s4.2 !! p = Some a /\ g_locks s4.2 !! a = None /\
                 forall l, fst (dav_lock p (l, s4.2)) = Stuck NullDeref)).
  unfold get_filelock, FileLock_free, get_filelock.
  apply wp_bind, wp_bind, wp_gets. cbn -[g2]. rewrite Hl2. apply wp_mret, wp_bind.
  apply wp_call_dav_unlock. intros r2 g3 Hq. apply wp_bind, wp_bind, wp_bind, wp_gets.
  simpl. destruct Hq as ((Hk3 & Hl3 & Ht3) & _ & Ho & _). rewrite Hl3, Hl2.
  apply wp_mret, wp_modify, wp_return. cbn [fst snd].
  split; [simpl; by rewrite Ht3|]. split; [simpl; by rewrite lookup_delete_eq|]. intros l. apply (dangling_run p a); unfold idle_lock, uses_locks; simpl.
  - by rewrite Hk3.
  - by rewrite Ho.
  - by rewrite Ht3.
  - by rewrite lookup_delete_eq.
Qed.
End Race.

(** ** Witnesses *)

#[local] Abbreviation locking_env := (demo_env lock_server (Some lock_document)).
#[local] Abbreviation demo_locked locks :=
  (demo_state lock_server (Some lock_document) true locks ex0).
#[local] Abbreviation held n := [("/a"%string, 5%positive, mkFileLock (Some "/a"%string) (Some "tok"%string) n)].

Lemma demo_table_ok locks :
  locks = [] \/ (exists n, locks = held n) ->
  table_ok (demo_locked locks).
Proof.
  intros [-> | [n ->]]; split; simpl.
  - intros p a Hp. by rewrite lookup_empty in Hp.
  - intros a [x Ha]. by rewrite lookup_empty in Ha.
  - intros p a [[<- <-]|[_ Hp]]%lookup_insert_Some; [|by rewrite lookup_empty in Hp].
    rewrite lookup_insert_eq. eauto.
  - intros a [x [[<- _]|[_ Hp]]%lookup_insert_Some]; [lia|by rewrite lookup_empty in Hp].
Qed.

#[local] Abbreviation lock_run locks :=
  (dav_lock (E := locking_env) "/a" (frame0, demo_locked locks)).
#[local] Abbreviation unlock_run locks :=
  (dav_unlock (E := locking_env) "/a" (frame0, demo_locked locks)).

Lemma dav_lock_spec_witness :
  view (lock_run []).2.2 !! "/a"%string = Some (Some "tok"%string, 1)
  /\ dav_lock_post (E := locking_env) "/a" (demo_locked []) 0 (lock_run []).2.
Proof.
  split; [vm_compute; reflexivity|].
  refine (dav_lock_spec (E := locking_env) "/a" frame0 (demo_locked []) 0 (lock_run []).2 _ eq_refl (run_result _ _ _)).
  - apply demo_table_ok. left. reflexivity.
  - vm_compute. reflexivity.
Defined.


Lemma unlock_lock_race_witness :
  exists s1 s2, unlock_count (E := locking_env) "/a" (frame0, demo_locked (held 1)) = (Next tt, s1)
    /\ dav_lock (E := locking_env) "/a" (frame0, s1.2) = (Ret 0, s2).
Proof.
  destruct (unlock_lock_race (E := locking_env) "/a" 5%positive (Some "tok"%string) frame0 frame0
    (demo_locked (held 1)) eq_refl eq_refl eq_refl eq_refl) as (s1 & s2 & s3 & H1 & H2 & _).
  exact (ex_intro _ s1 (ex_intro _ s2 (conj H1 H2))).
Defined.
