(* ===== verification/HistorySpec.v ===== *)
(** * Histories of opening and closing

    The table of file locks counts the users of a path: after any sequence of calls of [dav_lock] and
    [dav_unlock] from an empty table, an entry's count is the number of times its path was opened
    and not yet closed, and a path that nobody has open has no entry. A history has no DELETE and no
    MOVE of a path that is open: those drop its entry from the table. *)

From S2P Require Import Prelude Utils Exception Control Buffer Stack State Wp Demo Curl Method MethodSpec Locks LocksSpec UnlockSpec.
#[local] Open Scope Z_scope.
#[local] Open Scope c_scope.

Section History.
Context `{E : Env}.
Implicit Types (g : G) (p : string).

(** ** The options of the mount never change *)

Definition same_options g g' : Prop := options (g_server g') = options (g_server g).

#[local] Instance same_options_xfer : XferRel same_options.
Proof.
  assert (WorldRel same_options) by (split; [split; [done|unfold same_options; congruence|done]|done..]).
  split; [by split|by split|done].
Qed.

Lemma options_server {R} f :
  (forall s, options (f s) = options s) -> keeps (S := Frame * G) (R := R) (on_shared same_options) (upd_server f).
Proof. intros Hf. apply keeps_upd_shared. intros g. apply Hf. Qed.
Lemma options_locks {R} f :
  keeps (S := Frame * G) (R := R) (on_shared same_options) (upd_shared (fun g => set_g_locks (f g) g)).
Proof. by apply keeps_upd_shared. Qed.
Lemma options_rwlock {R} f : keeps (R := R) (on_shared same_options) (upd_rwlock f).
Proof. by apply keeps_upd_shared. Qed.
#[local] Hint Resolve options_locks options_rwlock : keeps.
#[local] Hint Extern 1 (keeps _ (upd_server _)) => by apply options_server : keeps.

Lemma options_dav_lock p : keeps (on_shared same_options) (dav_lock p).
Proof.
  unfold dav_lock, lock_existing, lock_new, sync_rdlock, sync_wrlock, synchronized, rdlock, wrlock, unlock, add_cnt,
    tsearch, free_filelock, put_filelock. keeps.
Qed.

Lemma options_dav_unlock p : keeps (on_shared same_options) (dav_unlock p).
Proof.
  unfold dav_unlock, unlock_count, unlock_remove, unlock_send, sync_rdlock, sync_wrlock, synchronized, rdlock, wrlock,
    unlock, add_cnt, tdelete, put_filelock, FileLock_free. keeps.
Qed.

Lemma uses_locks_keeps {A} (m : M (Frame * G) Z A) l g c s :
  keeps (on_shared same_options) m -> uses_locks g -> m (l, g) = (c, s) -> uses_locks s.2.
Proof.
  intros Hk Hu Hr. specialize (Hk (l, g)). rewrite Hr in Hk. unfold uses_locks, on_shared, same_options in *.
  simpl in Hk. by rewrite Hk.
Qed.

(** ** Histories *)

(** What a thread did with the table, and for which path. *)
Inductive event :=
  | Opened (p : string)
  | Refused (p : string)
  | Closed (p : string)
  | Elsewhere.

(** Between two of these calls the other requests may run, as far as they leave the table and the
    options alone. The requests that meet their own path in the table under the write lock, DELETE
    and MOVE (method.c, [__dav_header_if] with RW_LOCK_WRITE), remove its entry whoever has the
    path open: they are not steps of a history. *)
Definition elsewhere g g' : Prop :=
  filelock_tree (g_server g') = filelock_tree (g_server g) /\ g_locks g' = g_locks g
  /\ (g_next g <= g_next g')%positive /\ same_options g g'.

Inductive step : G -> event -> G -> Prop :=
  | step_opened p l g s : dav_lock p (l, g) = (Ret 0, s) -> step g (Opened p) s.2
  | step_refused p l g r s : dav_lock p (l, g) = (Ret r, s) -> r <> 0 -> step g (Refused p) s.2
  | step_closed p l g r s : dav_unlock p (l, g) = (Ret r, s) -> step g (Closed p) s.2
  | step_elsewhere g g' : elsewhere g g' -> step g Elsewhere g'.

Inductive history g : list event -> G -> Prop :=
  | history_nil : history g [] g
  | history_snoc es g1 e g2 : history g es g1 -> step g1 e g2 -> history g (es ++ [e]) g2.

(** The users of a path: closing what nobody has open does not count. *)
Definition event_users p (n : Z) (e : event) : Z :=
  match e with
  | Opened q => if bool_decide (p = q) then n + 1 else n
  | Closed q => if bool_decide (p = q) then Z.max 0 (n - 1) else n
  | _ => n
  end.
Definition users p (es : list event) : Z := fold_left (event_users p) es 0.

(** The table counts the users [m]. *)
Definition counts (m : string -> Z) g : Prop := forall p,
  match view g !! p with
  | None => m p = 0
  | Some (_, n) => n = m p /\ 0 < n
  end.

Lemma users_bound p es : 0 <= users p es <= Z.of_nat (length es).
Proof.
  induction es as [|e es IH] using rev_ind; [done|]. unfold users in *. rewrite fold_left_app, length_app.
  simpl. destruct e; simpl; try case_bool_decide; lia.
Qed.


(** One entry changes. *)
Lemma counts_insert m g g' p t n :
  counts m g -> view g' = <[p := (t, n)]> (view g) -> 0 < n ->
  counts (fun q => if bool_decide (q = p) then n else m q) g'.
Proof.
  intros Hm Hv Hn q. rewrite Hv. case_bool_decide as Hq.
  - subst q. by rewrite lookup_insert_eq.
  - rewrite lookup_insert_ne by done. apply Hm.
Qed.
Lemma counts_delete m g g' p :
  counts m g -> view g' = delete p (view g) ->
  counts (fun q => if bool_decide (q = p) then 0 else m q) g'.
Proof.
  intros Hm Hv q. rewrite Hv. case_bool_decide as Hq.
  - subst q. by rewrite lookup_delete_eq.
  - rewrite lookup_delete_ne by done. apply Hm.
Qed.
Lemma counts_ext m m' g g' : counts m g -> view g' = view g -> (forall p, m' p = m p) -> counts m' g'.
Proof. intros Hm Hv He p. rewrite Hv, He. apply Hm. Qed.

(** The state of the table that a history keeps. *)
Definition in_order (m : string -> Z) g : Prop := table_ok g /\ uses_locks g /\ counts m g.

(** Every call of the program is a step of the count. *)
Lemma step_simulates m g e g' :
  step g e g' -> in_order m g -> (forall p, 0 <= m p < 2 ^ 31 - 1) ->
  in_order (fun p => event_users p (m p) e) g'.
Proof.
  intros Hs (Hok & Hu & Hm) Hb. destruct Hs as [p l g s Hr|p l g r s Hr Hne|p l g r s Hr|g g' (Ht & Hl & Hn & Ho)].
  - pose proof (uses_locks_keeps _ _ _ _ _ (options_dav_lock p) Hu Hr) as Hu'.
    destruct (dav_lock_run _ _ _ _ _ Hok Hu Hr) as (Hok' & _ & Hp).
    do 2 (split; [done|]).
    specialize (Hm p) as Hmp. specialize (Hb p).
    destruct (view g !! p) as [[t n]|] eqn:Hv.
    + destruct Hp as (_ & Hv' & _). destruct Hmp as [-> Hpos]. rewrite i32_id in Hv' by lia.
      refine (counts_ext _ _ s.2 _ (counts_insert _ _ _ _ _ _ Hm Hv' _) eq_refl _); [lia|].
      intros q. simpl. by repeat case_bool_decide; subst.
    + destruct Hp as [(_ & t & Hv' & _)|[[=] _]].
      refine (counts_ext _ _ s.2 _ (counts_insert _ _ _ _ _ _ Hm Hv' _) eq_refl _); [lia|].
      intros q. simpl. repeat case_bool_decide; subst; try done. lia.
  - pose proof (uses_locks_keeps _ _ _ _ _ (options_dav_lock p) Hu Hr) as Hu'.
    destruct (dav_lock_run _ _ _ _ _ Hok Hu Hr) as (Hok' & _ & Hp).
    do 2 (split; [done|]).
    destruct (view g !! p) as [[t n]|] eqn:Hv; [by destruct Hp|].
    destruct Hp as [[? _]|(_ & Hv' & _)]; [done|]. by apply (counts_ext m _ g).
  - pose proof (uses_locks_keeps _ _ _ _ _ (options_dav_unlock p) Hu Hr) as Hu'.
    destruct (dav_unlock_run _ _ _ _ _ Hok Hu Hr) as (Hok' & _ & Hp).
    do 2 (split; [done|]).
    specialize (Hm p) as Hmp. specialize (Hb p).
    destruct (view g !! p) as [[t n]|] eqn:Hv.
    + destruct Hmp as [-> Hpos]. rewrite i32_id in Hp by lia. destruct (Z.ltb_spec 0 (m p - 1)).
      * destruct Hp as (_ & Hv' & _).
        refine (counts_ext _ _ s.2 _ (counts_insert _ _ _ _ _ _ Hm Hv' _) eq_refl _); [lia|].
        intros q. simpl. repeat case_bool_decide; subst; try done. lia.
      * destruct Hp as (Hv' & _).
        refine (counts_ext _ _ s.2 _ (counts_delete _ _ _ _ Hm Hv') eq_refl _).
        intros q. simpl. repeat case_bool_decide; subst; try done. lia.
    + destruct Hp as (_ & Hv' & _). apply (counts_ext m _ g); [done..|].
      intros q. simpl. case_bool_decide; subst; [lia|done].
  - split; [by eapply table_ok_ext|]. split; [unfold uses_locks in *; by rewrite Ho|].
    apply (counts_ext m _ g); [done| |done]. by apply view_ext.
Qed.

(** C11: after any sequence of opens and closes of any paths, by any threads one call after the
    other, from an empty table, with anything between them that leaves the table alone (which a
    DELETE or a MOVE of an open path does not), a path has an entry exactly when somebody has it open, and the entry
    counts its users: [dav_lock] and [dav_unlock] implement a map from paths to
    positive counts. *)
Theorem table_counts_users g es g' :
  table_ok g -> uses_locks g -> view g = ∅ -> history g es g' -> Z.of_nat (length es) < 2 ^ 31 - 1 ->
  table_ok g' /\ forall p,
    match view g' !! p with
    | None => users p es = 0
    | Some (_, n) => n = users p es /\ 0 < n
    end.
Proof.
  intros Hok Hu Hv Hh Hlen.
  assert (in_order (fun p => users p es) g') as (Hok' & _ & Hc); [|by split].
  induction Hh as [|es g1 e g2 Hh IH Hs].
  - split; [done|]. split; [done|]. intros p. by rewrite Hv, lookup_empty.
  - rewrite length_app in Hlen. simpl in Hlen.
    assert (in_order (fun p => event_users p (users p es) e) g2) as (Hok' & Hu' & Hc).
    { apply (step_simulates (fun p => users p es) g1); [done|apply IH; lia|].
      intros p. pose proof (users_bound p es). lia. }
    split; [done|]. split; [done|]. apply (counts_ext _ _ g2 _ Hc); [done|].
    intros p. unfold users. by rewrite fold_left_app.
Qed.
End History.

(** ** Witness *)

#[local] Abbreviation locking_env := (demo_env lock_server (Some lock_document)).

Definition demo_empty : @G locking_env := demo_state lock_server (Some lock_document) true [] ex0.
Definition demo_open (g : @G locking_env) : @G locking_env := (dav_lock (E := locking_env) "/a" (frame0, g)).2.2.

Lemma demo_history :
  history (E := locking_env) demo_empty [Opened "/a"; Opened "/a"] (demo_open (demo_open demo_empty)).
Proof.
  apply (history_snoc _ [Opened "/a"] (demo_open demo_empty)); [apply (history_snoc _ [] demo_empty); [apply history_nil|]|].
  - refine (step_opened "/a" frame0 demo_empty _ (run_result _ _ _)). vm_compute. reflexivity.
  - refine (step_opened "/a" frame0 (demo_open demo_empty) _ (run_result _ _ _)). vm_compute. reflexivity.
Qed.

Lemma table_counts_users_witness :
  exists t, view (demo_open (demo_open demo_empty)) !! "/a"%string = Some (t, 2).
Proof.
  destruct (table_counts_users (E := locking_env) demo_empty _ _ (demo_table_ok [] (or_introl eq_refl))
    eq_refl eq_refl demo_history eq_refl) as [_ Hc].
  specialize (Hc "/a"%string). destruct (view _ !! _) as [[t n]|].
  - exists t. destruct Hc as [-> _]. reflexivity.
  - vm_compute in Hc. discriminate.
Defined.
