(* ===== verification/Propfind.v ===== *)
(** * proto/dav: PROPFIND and the reading of its answer

    method.c's [dav_propfind] and parser.c's [xmlParserTimeNode]. Reading the tree is pure: a
    [None] is an access through a NULL pointer of the tree. *)

From S2P Require Import Prelude Utils Exception Control Buffer Stack State Curl Method Locks.
#[local] Open Scope Z_scope.
#[local] Open Scope c_scope.

Definition propfind_body : string :=
  "<?xml version=" +:+ DQ +:+ "1.0" +:+ DQ +:+ " encoding=" +:+ DQ +:+ "utf-8" +:+ DQ +:+ "?>" +:+ CRLF
  +:+ "<D:propfind xmlns:D=" +:+ DQ +:+ "DAV:" +:+ DQ +:+ " xmlns:N=" +:+ DQ +:+ NETWORKFS_XML_NS
  +:+ DQ +:+ ">" +:+ CRLF
  +:+ "<D:prop>" +:+ CRLF
  +:+ "<D:resourcetype/>"
  +:+ "<D:creationdate/>"
  +:+ "<D:getlastmodified/>"
  +:+ "<D:getcontentlength/>"
  +:+ "<N:mode/>"
  +:+ "<N:size/>"
  +:+ "<N:owner/>"
  +:+ "<N:time/>" +:+ CRLF
  +:+ "</D:prop>" +:+ CRLF
  +:+ "</D:propfind>" +:+ CRLF.

(** ** File modes (sys/stat.h) *)

Definition S_IFMT : Z := 61440.     (* 0170000 *)
Definition S_IFLNK : Z := 40960.    (* 0120000 *)
Definition S_IFREG : Z := 32768.    (* 0100000 *)
Definition S_IFBLK : Z := 24576.    (* 0060000 *)
Definition S_IFDIR : Z := 16384.    (* 0040000 *)
Definition S_IFCHR : Z := 8192.     (* 0020000 *)
Definition mode_is (fmt m : Z) : bool := Z.land m S_IFMT =? fmt.

(** [(fmt | 0777) & ~mask] *)
Definition masked_mode (fmt mask : Z) : Z := u32 (Z.land (Z.lor fmt 511) (Z.lnot mask)).

Section Setters.
Definition set_st_mode (v : Z) (s : Stat) : Stat :=
  mkStat v (st_nlink s) (st_uid s) (st_gid s) (st_rdev s) (st_size s) (st_atime s) (st_mtime s) (st_ctime s).
Definition set_st_nlink (v : Z) (s : Stat) : Stat :=
  mkStat (st_mode s) v (st_uid s) (st_gid s) (st_rdev s) (st_size s) (st_atime s) (st_mtime s) (st_ctime s).
Definition set_st_owner (u g : Z) (s : Stat) : Stat :=
  mkStat (st_mode s) (st_nlink s) u g (st_rdev s) (st_size s) (st_atime s) (st_mtime s) (st_ctime s).
Definition set_st_rdev (v : Z) (s : Stat) : Stat :=
  mkStat (st_mode s) (st_nlink s) (st_uid s) (st_gid s) v (st_size s) (st_atime s) (st_mtime s) (st_ctime s).
Definition set_st_size (v : Z) (s : Stat) : Stat :=
  mkStat (st_mode s) (st_nlink s) (st_uid s) (st_gid s) (st_rdev s) v (st_atime s) (st_mtime s) (st_ctime s).
Definition set_st_times (a m c : Z) (s : Stat) : Stat :=
  mkStat (st_mode s) (st_nlink s) (st_uid s) (st_gid s) (st_rdev s) (st_size s) a m c.
End Setters.

(** ** Reading the tree *)

Section Read.
Context `{E : Env}.

(** [node->children->content], read as a C string. *)
Definition node_text (n : xmlNode) : option string := child ← head (xml_children n); xml_content child.

(** The format that the attribute [dt] names; its text is [format_name] after "dateTime.". *)
Definition time_format (format_name : string) : option string :=
  if xmlStrscmp (Some format_name) "tz" =? 0 then Some "%FT%TZ"%string
  else if xmlStrscmp (Some format_name) "rfc1123" =? 0 then Some "%a, %d %b %Y %T GMT"%string
  else None.

Definition attribute_is (s : string) (a : string * option (option string)) : bool :=
  env_xmlStrcmp (Some a.1) (Some s) =? 0.

(** The first attribute [dt] decides; every way that does not reach [return] ends in 0. *)
Definition xmlParserTimeNode (node : xmlNode) : Z :=
  default 0
    ('(_, attribute) ← list_find (attribute_is "dt") (xml_properties node);
     datetime ← attribute.2;
     content ← datetime;
     if xmlStrscmp (Some content) "dateTime." =? 0 then
       format ← time_format (str_of (drop 9 (lit content)));
       text ← node_text node;
       tm ← env_strptime text format;
       Some (env_mktime tm - env_timezone)
     else None).

(** The loop over the children of a [propstat]. *)
Fixpoint scan_propstat (cs : list xmlNode) (prop status : option xmlNode)
    : option xmlNode * option xmlNode :=
  match cs with
  | [] => (prop, status)
  | n :: cs' =>
      match prop, status with
      | None, _ => scan_propstat cs' (if name_is n "prop" then Some n else None) status
      | Some _, None => scan_propstat cs' prop (if name_is n "status" then Some n else None)
      | Some _, Some _ => (prop, status)
      end
  end.

(** What the loop over the children of a [response] looks for: the [href] and after it the first
    [propstat] with status 200, with its [prop] and its [status]. *)
Record found := mkFound {
  fd_href : option xmlNode;
  fd_propstat : option xmlNode;
  fd_prop : option xmlNode;
  fd_status : option xmlNode;
}.

(** A [propstat] without a status is read through NULL. *)
Definition take_propstat (href : option xmlNode) (propstat : xmlNode) (prop status : option xmlNode)
    : option found :=
  let '(prop, status) := scan_propstat (xml_children propstat) prop status in
  s ← status;
  Some (match head (xml_children s) with
        | Some c => if env_xmlStrcmp (xml_content c) (Some "HTTP/1.1 200 OK"%string) =? 0
                    then mkFound href (Some propstat) prop status
                    else mkFound href None None None
        | None => mkFound href None None None
        end).

Fixpoint scan_response (cs : list xmlNode) (f : found) : option found :=
  match cs with
  | [] => Some f
  | n :: cs' =>
      match fd_href f, fd_propstat f with
      | None, _ =>
          scan_response cs' (mkFound (if name_is n "href" then Some n else None)
                               (fd_propstat f) (fd_prop f) (fd_status f))
      | Some _, None =>
          if name_is n "propstat" then
            f' ← take_propstat (fd_href f) n (fd_prop f) (fd_status f); scan_response cs' f'
          else scan_response cs' f
      | Some _, Some _ => Some f
      end
  end.

(** [xmlStrcmp (prop_entry->ns->href, ns) == 0]; an entry without a namespace is read through NULL. *)
Definition in_ns (entry : xmlNode) (ns : string) : option bool :=
  href ← xml_ns entry; Some (env_xmlStrcmp (Some href) (Some ns) =? 0).

Definition st_default (o : networkfs_opts) : Stat :=
  mkStat (masked_mode S_IFREG (fmask o)) 1 (uid o) (gid o) 0 0 0 0 0.

(** One round of the loop over the properties of the namespace "DAV:". *)
Definition dav_prop (o : networkfs_opts) (entry : xmlNode) (st : Stat) : option Stat :=
  here ← in_ns entry "DAV:";
  if negb here then Some st
  else if name_is entry "getcontentlength" then
    text ← node_text entry; Some (set_st_size (strtol (lit text) 10).1 st)
  else if name_is entry "resourcetype" then
    Some (match head (xml_children entry) with
          | Some c => if name_is c "collection"
                      then set_st_nlink 2 (set_st_mode (masked_mode S_IFDIR (dmask o)) st) else st
          | None => st
          end)
  else if name_is entry "creationdate" then
    Some (set_st_times (st_atime st) (st_mtime st) (xmlParserTimeNode entry) st)
  else if name_is entry "getlastmodified" then
    Some (set_st_times (st_atime st) (xmlParserTimeNode entry) (st_ctime st) st)
  else Some st.

(** One round of the loop over the properties of the namespace of the program. *)
Definition nfs_prop (entry : xmlNode) (st : Stat) : option Stat :=
  here ← in_ns entry NETWORKFS_XML_NS;
  if negb here then Some st
  else if name_is entry "mode" then
    text ← node_text entry;
    let '(m, rdev) := strtol (lit text) 8 in
    let st := set_st_mode (u32 m) st in
    Some (if mode_is S_IFCHR (st_mode st) || mode_is S_IFBLK (st_mode st)
          then set_st_rdev (u64 (strtol rdev 10).1) st else st)
  else if name_is entry "size" then
    text ← node_text entry; Some (set_st_size (strtol (lit text) 10).1 st)
  else if name_is entry "owner" then
    text ← node_text entry;
    let '(u, g) := strtol (lit text) 10 in
    Some (set_st_owner (u32 u) (u32 (strtol g 10).1) st)
  else if name_is entry "time" then
    text ← node_text entry;
    let '(c, e) := strtol (lit text) 10 in
    let '(m, e) := strtol e 10 in
    Some (set_st_times (strtol e 10).1 m c st)
  else Some st.

Fixpoint read_props (f : xmlNode -> Stat -> option Stat) (entries : list xmlNode) (st : Stat)
    : option Stat :=
  match entries with
  | [] => Some st
  | n :: entries' => st' ← f n st; read_props f entries' st'
  end.

Definition stat_of_prop (o : networkfs_opts) (prop : xmlNode) : option Stat :=
  st ← read_props (dav_prop o) (xml_children prop) (st_default o);
  read_props nfs_prop (xml_children prop) st.

(** The name given to the filler: up to the first slash, and "." when that is empty. *)
Definition entry_name (filename : string) : string :=
  let b := match strchr (lit filename) "/"%char with
           | Some i => take i (lit filename)
           | None => lit filename
           end in
  match b with [] => "."%string | _ => str_of b end.
End Read.

(** ** The request *)

Section Propfind.
Context `{E : Env}.

(** [fuse_fill_dir_t] with its [buf]: FUSE's own appends to the listing, and dav.c's
    [dav_getattr_callback] copies to the caller's [struct stat]. *)
Definition filler := string -> option Stat -> M (Frame * G) Z unit.

Definition fill_dir {L R} (name : string) (st : option Stat) : M (L * G) R unit :=
  upd_shared (fun g => set_g_dirbuf (g_dirbuf g ++ [(name, st)]) g).
Definition dav_getattr_callback {L R} (name : string) (st : option Stat) : M (L * G) R unit :=
  st <- deref st ;; upd_shared (set_g_stbuf (Some st)).

(** One round of the loop over the responses. *)
Definition fill_response (fill : filler) (encoded_baseurl : string) (response : xmlNode)
    : M (Frame * G) Z unit :=
  when (negb (name_is response "response")) continue ;;;
  f <- deref (scan_response (xml_children response) (mkFound None None None None)) ;;
  condition_throw (not_null (fd_href f) && not_null (fd_propstat f) && not_null (fd_prop f)
                   && not_null (fd_status f))
    (mk_UnspecifiedException "response unexpected") ;;;
  srv <- shared g_server ;;
  prop <- deref (fd_prop f) ;;
  st <- deref (stat_of_prop (options srv) prop) ;;
  href <- deref (fd_href f) ;;
  encoded_fullurl <- deref (node_text href) ;;
  when (negb (strscmp (lit encoded_fullurl) (lit encoded_baseurl) =? 0)) continue ;;;
  throwable (with_assign
    (curl_easy_unescape_e (str_of (drop (strlen (lit encoded_baseurl)) (lit encoded_fullurl))))
    (fun _ => skip)
    (fun filename => filename <- deref filename ;; fill (entry_name filename) (Some st))).

Definition dav_propfind (path : string) (depth : Z) (fill : filler) : M (Frame * G) Z unit :=
  with_buffer (lit propfind_body) (zlen (lit propfind_body))
    (with_ctxt
       (throwable (with_server_curl (Some path) (fun curl =>
          throwable (scope_slist1 (depth_header depth)
            (append_weak PREFER_MINIMAL ;;;
             append_weak CONTENT_TYPE_XML ;;;
             set_headers curl ;;;
             curl_easy_setopt_ curl CURLOPT_UPLOAD (VLong 1) ;;;
             curl_easy_setopt_ curl CURLOPT_READDATA (VData AT_buf) ;;;
             curl_easy_setopt_ curl CURLOPT_READFUNCTION (VFun CB_Buffer_fetch) ;;;
             curl_easy_setopt_ curl CURLOPT_INFILESIZE (VLong (zlen (lit propfind_body))) ;;;
             curl_easy_setopt_ curl CURLOPT_WRITEDATA (VData AT_ctxt) ;;;
             curl_easy_setopt_ curl CURLOPT_WRITEFUNCTION (VFun CB_curl_parse_xml) ;;;
             curl_easy_setopt_or_die curl CURLOPT_CUSTOMREQUEST (VStr (Some "PROPFIND"%string)) ;;;
             curl_easy_perform_or_die curl)) ;;;
          finish_parse ;;;
          info <- curl_easy_getinfo curl ;;
          when (negb (info_response_code info =? 207)) break ;;;
          l <- local ;;
          c <- deref (f_ctxt l) ;;
          condition_throw (env_xml_wellFormed c) (mk_UnspecifiedException "Failed to parse") ;;;
          info <- curl_easy_getinfo curl ;;
          root <- deref (env_xml_root c) ;;
          for_each (xml_children root) (fill_response fill (info_effective_url info)))))) ;;;
  return_status.
End Propfind.
