(* ===== verification/Dav.v ===== *)
(** * proto/dav/dav.c: the file system operations

    Each handler runs on a frame of its own next to the shared state; the requests of method.c run
    on frames of theirs. A handler's result is 0, a count or a negative errno. *)

From S2P Require Import Prelude Utils Exception Control Buffer Stack State Curl Method Locks Propfind.
#[local] Open Scope Z_scope.
#[local] Open Scope c_scope.

(** ** Constants (errno.h, fcntl.h, stdio.h) *)

Definition ENOENT : Z := 2.
Definition EIO : Z := 5.
Definition ENOMEM : Z := 12.
Definition EBUSY : Z := 16.
Definition EEXIST : Z := 17.
Definition EINVAL : Z := 22.
Definition ENOSPC : Z := 28.
Definition EOPNOTSUPP : Z := 95.

Definition O_WRONLY : Z := 1.
Definition O_RDWR : Z := 2.
Definition O_CREAT : Z := 64.
Definition O_TRUNC : Z := 512.
Definition RENAME_NOREPLACE : Z := 1.

(** [fi->flags & O_WRONLY || fi->flags & O_RDWR] *)
Definition writes (flags : Z) : bool :=
  negb (Z.land flags O_WRONLY =? 0) || negb (Z.land flags O_RDWR =? 0).

(** ** Exceptions as error numbers *)

(** [issubtype (Exception, &ex, CurlException) && code == CURLE_HTTP_RETURNED_ERROR] *)
Definition http_error (e : Exception) : bool :=
  issubtype e CurlException && (code e =? CURLE_HTTP_RETURNED_ERROR).

(** What [dav_exception_map] answers for the exception it destroys. *)
Definition exception_errno (e : Exception) : Z :=
  let unmapped := if issubtype e MallocException then - ENOMEM else - EIO in
  if http_error e then
    if response_code e =? 404 then - ENOENT
    else if response_code e =? 412 then - EEXIST
    else if response_code e =? 423 then - EBUSY
    else if response_code e =? 501 then - EOPNOTSUPP
    else if response_code e =? 507 then - ENOSPC
    else unmapped
  else unmapped.

(** The locals of the handlers. *)
Record HFrame := mkH {
  h_res : option Z;     (* int res; None while it is not set *)
  h_buf : bytes;        (* the caller's buf, or an array of the handler's own *)
  h_exit : bool;        (* FUSE_EXIT () was called *)
}.
Definition hframe0 : HFrame := mkH None [] false.
Definition set_h_res (v : option Z) (h : HFrame) : HFrame := mkH v (h_buf h) (h_exit h).
Definition set_h_buf (v : bytes) (h : HFrame) : HFrame := mkH (h_res h) v (h_exit h).
Definition set_h_exit (v : bool) (h : HFrame) : HFrame := mkH (h_res h) (h_buf h) v.

Section Helpers.
Context `{E : Env}.
Abbreviation HM := (M (HFrame * G) Z).

Definition dav_exception_map {L R} : M (L * G) R Z :=
  e <- gets get_ex ;; upd_ex Exception_destory ;;; mret (exception_errno e).
Definition dav_exception_test {L R} (res : Z) : M (L * G) R Z :=
  if negb (res =? 0) then dav_exception_map else mret 0.
Definition dav_exception_check {L R} (res : Z) : M (L * G) R Z :=
  b <- has_ex ;; if (b : bool) then dav_exception_map else mret res.

(** A value read from a local that may not be set yet. *)
Definition init {S R A} (o : option A) : M S R A :=
  match o with Some a => mret a | None => stuck Uninit end.

(** A request on a frame of its own, with its result alone. *)
Definition req {L R} (m : M (Frame * G) Z unit) : M (L * G) R Z :=
  r <- call frame0 (fun _ => tt) m ;; mret (fst r).
(** A handler called by a handler. *)
Definition handler {L R} (m : M (HFrame * G) Z unit) : M (L * G) R Z :=
  r <- call hframe0 (fun _ => tt) m ;; mret (fst r).

Definition return_check {L} (res : Z) : M (L * G) Z unit := r <- dav_exception_check res ;; return_ r.
Definition return_map {L} : M (L * G) Z unit := r <- dav_exception_map ;; return_ r.

Definition allows {L R} (m : DavMethod) : M (L * G) R bool :=
  shared (fun g => bool_decide (m ∈ allowed (g_server g))).

(** [res = dav_head (&server, path, &real_size)], with [real_size] *)
Definition head_size {L R} (path : string) : M (L * G) R (Z * option Z) :=
  call frame0 f_size (dav_head path true).
End Helpers.

(** ** The handlers *)

Section Handlers.
Context `{E : Env}.
(** The content of an array of the size that was not written yet. *)
Variable junk : Z -> bytes.
Abbreviation HM := (M (HFrame * G) Z).

Definition dav_readdir (path : string) : HM unit :=
  fill_dir ".." None ;;;
  _ <- req (dav_propfind path 1 fill_dir) ;;
  return_check 0.

Definition dav_getattr (path : string) : HM unit :=
  _ <- req (dav_propfind path 0 dav_getattr_callback) ;;
  return_check 0.

(** On a frame whose [h_buf] is the caller's [buf] of [size] bytes. *)
Definition dav_read (path : string) (size offset : Z) : HM unit :=
  when (size =? 0) (return_ 0) ;;;
  l <- local ;;
  r <- call frame0 f_buf (dav_get path (h_buf l) size offset) ;;
  upd_local (set_h_buf (default (h_buf l) (Buffer.data <$> snd r))) ;;;
  when (fst r <? 0)
    (e <- gets get_ex ;;
     if http_error e && (response_code e =? 416) then upd_ex Exception_destory ;;; return_ 0
     else return_map) ;;;
  return_ (fst r).

(** [dav_read] into an array of the caller's: the result and the content after it. *)
Definition read_into {L R} (path : string) (buf : bytes) (size offset : Z) : M (L * G) R (Z * bytes) :=
  call (set_h_buf buf hframe0) h_buf (dav_read path size offset).

Definition put {L R} (path : string) (buf : bytes) (size offset : Z) : M (L * G) R Z :=
  req (dav_put path buf size offset).

Definition set_res {R} (z : Z) : M (HFrame * G) R unit := upd_local (set_h_res (Some z)).

(** The result of a [do_once] block that leaves it in [res]. *)
Definition get_res : HM Z := l <- local ;; init (h_res l).

Definition dav_write (path : string) (buf : bytes) (size offset : Z) : HM unit :=
  do_once
    (r <- put path buf size offset ;; set_res r ;;;
     when (r =? 0) break ;;;
     e <- gets get_ex ;;
     when (negb (issubtype e CurlException)) break ;;;
     when (negb ((code e =? CURLE_HTTP_RETURNED_ERROR) && (response_code e =? 416))) break ;;;
     upd_ex Exception_destory ;;;
     h <- head_size path ;; set_res (fst h) ;;;
     when (negb (fst h =? 0)) break ;;;
     real_size <- init (snd h) ;;
     when (real_size <? u32 offset)
       (let n := u64 (offset - real_size) in
        r <- put path (repeat NUL (Z.to_nat n)) n real_size ;; set_res r ;;;
        when (negb (r =? 0)) break) ;;;
     r <- put path buf size offset ;; set_res r) ;;;
  res <- get_res ;;
  if negb (res =? 0) then return_map else return_ (i32 size).

Definition dav_mkdir (path : string) : HM unit :=
  ok <- allows MKCOL ;;
  when (negb ok) (return_ (- EOPNOTSUPP)) ;;;
  _ <- req (dav_mkcol path) ;;
  return_check 0.

Definition dav_rename (from to : string) (flags : Z) : HM unit :=
  ok <- allows MOVE ;;
  when (negb ok) (return_ (- EOPNOTSUPP)) ;;;
  (if flags =? 0 then _ <- req (dav_move from to) ;; skip
   else if flags =? RENAME_NOREPLACE then _ <- req (dav_move_nooverwrite from to) ;; skip
   else return_ (- EINVAL)) ;;;
  return_check 0.

Definition dav_unlink (path : string) : HM unit :=
  _ <- req (dav_delete path) ;; return_check 0.

Definition mode_value (mode : Z) : string := str_of (snprintf 19 (fmt_o mode)).
Definition owner_value (uid gid : Z) : string :=
  str_of (snprintf 22 (fmt_d (i32 uid) ++ ":"%char :: fmt_d (i32 gid))).
Definition size_value (size : Z) : string := str_of (snprintf 11 (fmt_d size)).

Definition dav_chmod (path : string) (mode : Z) : HM unit :=
  _ <- req (dav_proppatch path "N:mode" (Some (mode_value mode))) ;; return_check 0.

Definition dav_chown (path : string) (uid gid : Z) : HM unit :=
  _ <- req (dav_proppatch path "N:owner" (Some (owner_value uid gid))) ;; return_check 0.

(** [throwable dav_head (&server, path, NULL); return -EEXIST], and the handlers after it: a missing
    file is no error, anything else is thrown again. *)
Definition must_not_exist (path : string) : HM unit :=
  try_
    (throwable (_ <- req (dav_head path false) ;; skip) ;;; return_ (- EEXIST))
    (catch_type CurlException
       (e <- gets get_ex ;;
        when (negb ((code e =? CURLE_HTTP_RETURNED_ERROR)
                    && ((response_code e =? 404) || (response_code e =? 403))))
          (throw skip))
       (onerror_default skip)).

Definition dav_mknod (path : string) (mode rdev : Z) : HM unit :=
  when (mode_is S_IFDIR mode) (return_ (- EINVAL)) ;;;
  try_
    (throwable (must_not_exist path) ;;;
     _ <- req (dav_put_simple path) ;; skip)
    (onerror_default return_map) ;;;
  r <- handler (dav_chmod path mode) ;;
  return_ r.

(** On a frame whose [h_buf] is the caller's [buf]. *)
Definition dav_readlink (path : string) (size : Z) : HM unit :=
  l <- local ;;
  r <- read_into path (h_buf l) (u64 (size - 1)) 0 ;;
  upd_local (set_h_buf (snd r)) ;;;
  when (fst r <? 0) (return_ (fst r)) ;;;
  l <- local ;;
  (if decide (Z.to_nat (fst r) < length (h_buf l))%nat
   then upd_local (set_h_buf (<[Z.to_nat (fst r) := NUL]> (h_buf l)))
   else stuck OutOfBounds) ;;;
  return_ 0.

Definition dav_symlink (from to : string) : HM unit :=
  must_not_exist to ;;;
  do_once
    (r <- handler (dav_mknod to (Z.lor S_IFLNK 511) 0) ;; set_res r ;;;
     when (negb (r =? 0)) break ;;;
     r <- handler (dav_write to (lit from) (zlen (lit from)) 0) ;; set_res r ;;;
     when (r <? 0) break ;;;
     return_ 0) ;;;
  try_ (_ <- handler (dav_unlink to) ;; skip) (catch_default skip) ;;;
  res <- get_res ;;
  return_ res.

(** [dav_getattr (path, &st, fi)] on a [struct stat] of the handler's own. *)
Definition getattr_into {L R} (st : option Stat) (path : string) : M (L * G) R Z :=
  upd_shared (set_g_stbuf st) ;;; handler (dav_getattr path).
Definition the_stat {L R} : M (L * G) R Stat := st <- shared g_stbuf ;; init st.

Definition dav_truncate (path : string) (size : Z) : HM unit :=
  r <- getattr_into None path ;;
  when (negb (r =? 0)) (return_ r) ;;;
  st <- the_stat ;;
  when (st_size st =? size) (return_ 0) ;;;
  (if size =? 0 then
     r <- req (dav_delete path) ;;
     when (negb (r =? 0)) return_map ;;;
     r <- req (dav_put_simple path) ;;
     when (negb (r =? 0)) return_map ;;;
     r <- handler (dav_chmod path (st_mode st)) ;; set_res r
   else
     h <- head_size path ;;
     when (negb (fst h =? 0)) return_map ;;;
     real_size <- init (snd h) ;;
     r <- (if u32 size <? real_size / 2 then
             b <- read_into path (junk size) size 0 ;;
             when (negb (fst b =? 0)) (return_ (fst b)) ;;;
             r <- handler (dav_unlink path) ;;
             when (negb (r =? 0)) (return_ r) ;;;
             put path (snd b) size 0
           else req (dav_proppatch path "size" (Some (size_value size)))) ;;
     r <- dav_exception_test r ;; set_res r) ;;;
  res <- get_res ;;
  return_ res.

Definition __dav_open (path : string) : HM unit :=
  ok <- allows LOCK ;;
  when (negb ok) (return_ 0) ;;;
  r <- req (dav_lock path) ;;
  r <- dav_exception_test r ;;
  return_ r.

Definition dav_open (path : string) (flags : Z) : HM unit :=
  set_res 0 ;;;
  when (writes flags)
    (when (negb (Z.land flags O_TRUNC =? 0)) (r <- handler (dav_truncate path 0) ;; set_res r) ;;;
     res <- get_res ;;
     when ((res =? 0) || (negb (Z.land flags O_CREAT =? 0) && (res =? - ENOENT)))
       (r <- handler (__dav_open path) ;; set_res r)) ;;;
  res <- get_res ;;
  return_ res.

Definition dav_create (path : string) (mode flags : Z) : HM unit :=
  r <- handler (dav_mknod path mode 0) ;;
  when (negb (r =? 0)) (return_ r) ;;;
  set_res r ;;;
  when (writes flags) (r <- handler (__dav_open path) ;; set_res r) ;;;
  res <- get_res ;;
  return_ res.

Definition dav_release (path : string) (flags : Z) : HM unit :=
  ok <- allows LOCK ;;
  when (negb ok) (return_ 0) ;;;
  when (negb (writes flags)) (return_ 0) ;;;
  _ <- req (dav_unlock path) ;;
  return_ 0.

Definition zero_stat : Stat := mkStat 0 0 0 0 0 0 0 0 0.

(** [char a[size]; if (sizeof (a)) { res = dav_read (path, a, sizeof (a), offset); if (res) return res; }] *)
Definition read_part (path : string) (size offset : Z) : HM bytes :=
  if 0 <? size then
    b <- read_into path (junk size) size offset ;;
    when (negb (fst b =? 0)) (return_ (fst b)) ;;;
    mret (snd b)
  else mret [].
(** [if (sizeof (a)) { res = dav_write (path, a, sizeof (a), offset); if (res) return res; }] *)
Definition write_part (path : string) (a : bytes) (size offset : Z) : HM unit :=
  when (0 <? size)
    (r <- handler (dav_write path a size offset) ;; when (negb (r =? 0)) (return_ r)).

Definition dav_copy_file_range (path_in : string) (offset_in : Z) (path_out : string)
    (offset_out len : Z) : HM unit :=
  when (negb (offset_in =? offset_out)) (return_ (- EOPNOTSUPP)) ;;;
  r <- getattr_into (Some zero_stat) path_out ;;
  when (negb (r =? 0) && negb (r =? - ENOENT)) (return_ r) ;;;
  st_out <- the_stat ;;
  when (len <? u32 (st_size st_out) / 2) (return_ (- EOPNOTSUPP)) ;;;
  file_out_before <- read_part path_out offset_out 0 ;;
  let after := if u64 (offset_out + len) <? u32 (st_size st_out)
               then u64 (st_size st_out - len - offset_out) else 0 in
  file_out_after <- read_part path_out after offset_out ;;
  r <- req (dav_copy path_in path_out) ;;
  r <- dav_exception_test r ;;
  when (negb (r =? 0)) (return_ r) ;;;
  write_part path_out file_out_before offset_out 0 ;;;
  write_part path_out file_out_after after offset_out ;;;
  return_ (i64 len).
End Handlers.

(** ** Start and end *)

Section Mount.
Context `{E : Env}.

(** True when the file system asks FUSE to stop. *)
Definition dav_init : M (HFrame * G) bool unit :=
  try_
    (throwable (_ <- req dav_options ;; skip))
    (catch_default (upd_local (set_h_exit true))) ;;;
  l <- local ;;
  return_ (h_exit l).

(** [order] is the order in which [tdestroy] visits the tree. *)
Definition dav_destroy (order : list addr) : M (HFrame * G) unit unit :=
  _ <- call frame0 (fun _ => tt) (dav_destory order ;;; return_ tt) ;;
  return_ tt.

(** The operations of FUSE that the program provides, with their arguments. *)
Inductive operation :=
  | Oreaddir (path : string)
  | Ogetattr (path : string)
  | Oread (path : string) (size offset : Z)
  | Owrite (path : string) (buf : bytes) (size offset : Z)
  | Omkdir (path : string)
  | Orename (from to : string) (flags : Z)
  | Ounlink (path : string)
  | Ormdir (path : string)
  | Ochmod (path : string) (mode : Z)
  | Ochown (path : string) (uid gid : Z)
  | Omknod (path : string) (mode rdev : Z)
  | Oreadlink (path : string) (size : Z)
  | Osymlink (from to : string)
  | Ocreate (path : string) (mode flags : Z)
  | Oopen (path : string) (flags : Z)
  | Orelease (path : string) (flags : Z)
  | Otruncate (path : string) (size : Z)
  | Ocopy_file_range (path_in : string) (offset_in : Z) (path_out : string) (offset_out len : Z).

(** The handlers that [dav_getoper] puts in the table. *)
Definition dav_oper (junk : Z -> bytes) (op : operation) : M (HFrame * G) Z unit :=
  match op with
  | Oreaddir path => dav_readdir path
  | Ogetattr path => dav_getattr path
  | Oread path size offset => dav_read path size offset
  | Owrite path buf size offset => dav_write path buf size offset
  | Omkdir path => dav_mkdir path
  | Orename from to flags => dav_rename from to flags
  | Ounlink path => dav_unlink path
  | Ormdir path => dav_unlink path
  | Ochmod path mode => dav_chmod path mode
  | Ochown path uid gid => dav_chown path uid gid
  | Omknod path mode rdev => dav_mknod path mode rdev
  | Oreadlink path size => dav_readlink path size
  | Osymlink from to => dav_symlink from to
  | Ocreate path mode flags => dav_create path mode flags
  | Oopen path flags => dav_open junk path flags
  | Orelease path flags => dav_release path flags
  | Otruncate path size => dav_truncate junk path size
  | Ocopy_file_range path_in offset_in path_out offset_out len =>
      dav_copy_file_range junk path_in offset_in path_out offset_out len
  end.

(** [dav_getoper]: the server record over a copy of the URL, with the scheme that libcurl knows; the
    rest of the record is as the C program starts it. The local [f_url] is [server.baseuh]. *)
Definition dav_getoper (baseurl : CURLU) (options : networkfs_opts) : M (Frame * G) Z unit :=
  try_
    (throwable (u <- curl_url_dup_e baseurl ;; upd_local (set_f_url u)) ;;;
     curl_url_set_or_die f_url set_f_url CURLUPART_SCHEME
       (Some (if use_ssl options =? CURLUSESSL_NONE then "http"%string else "https"%string)) 0)
    (onerror_default (upd_local (set_f_url None) ;;; return_ 1)) ;;;
  l <- local ;;
  u <- deref (f_url l) ;;
  upd_server (fun _ => mkDavServer u options ∅ None None ∅) ;;;
  return_ 0.
End Mount.
