(* ===== verification/DavSpec.v ===== *)
(** * The file system operations: the exception object and the error numbers

    Every handler but [dav_release] hands the thread's exception object back empty; what a handler
    answers when a request failed, and what happens after the one that does not clean up. *)

From S2P Require Import Prelude Utils Exception Control Buffer Stack State Wp Demo Curl Rules Method MethodSpec Locks LocksSpec UnlockSpec Sends Propfind Dav.
#[local] Open Scope Z_scope.
#[local] Open Scope c_scope.

(** ** The status of a request *)

Section Status.
Context `{E : Env}.

Lemma status_of (m : M (Frame * G) Z unit) s r s' :
  noret m -> (m ;;; return_status) s = (Ret r, s') -> r = TEST_SUCCESS (g_ex s'.2).
Proof.
  intros Hm. specialize (Hm s). unfold bind, return_status, gets, return_.
  destruct (m s) as [[] s1]; intros H; try done.
  injection H as <- <-. reflexivity.
Qed.

(** The bodies of the requests never return by themselves. *)
Ltac noret_block :=
  repeat first
    [ simple apply noret_with_buffer
    | simple apply noret_scope_slist | simple apply noret_scope_slist1
    | simple apply noret_with_server_curl
    | orderly_step ].

Lemma request_status (r : request) s c s' :
  run_request r s = (Ret c, s') -> c = TEST_SUCCESS (g_ex s'.2).
Proof.
  destruct r; simpl; unfold dav_mkcol, dav_put_simple, dav_delete, dav_move, dav_move_nooverwrite,
    __dav_method, dav_head, dav_put, __dav_move, dav_copy, dav_proppatch; apply status_of; noret_block.
Qed.

(** PROPFIND, LOCK and the others answer like every request; a download answers -1 when it failed. *)
Lemma dav_get_status p d n o s r s' :
  f_res s.1 = None -> dav_get p d n o s = (Ret r, s') -> 0 <= r -> Exception_has (g_ex s'.2) = false.
Proof.
  destruct s as [l g]. simpl. intros Hl Hr. revert r s' Hr.
  enough (wp (dav_get p d n o) (fun _ _ => False) (fun _ => False)
            (fun r s' => 0 <= r -> Exception_has (g_ex s'.2) = false) (l, g)) as Hw
    by (intros r s'; apply (wp_returns _ _ _ _ _ _ _ Hw)).
  apply wp_bind, wp_with_test. cbv zeta.
  apply wp_skip, wp_modify, wp_bind, wp_gets, wp_mret. simpl.
  destruct (negb (Exception_has (g_ex g))).
  2: { apply wp_skip, wp_bind, wp_gets. simpl. by rewrite Hl. }
  apply wp_bind.
  match goal with |- wp _ ?K _ _ _ => set (Q := K); assert (forall s', Q tt s') as HK end.
  { intros [l1 g1]. apply wp_bind, wp_gets, wp_bind, wp_gets, wp_bind, wp_deref. intros b _.
    apply wp_modify, wp_skip, wp_bind, wp_gets. simpl. apply wp_return. simpl.
    unfold TEST_SUCCESS. destruct (Exception_has (g_ex g1)); simpl; [lia|done]. }
  clearbody Q. apply wp_with_server_curl; [auto|]. intros h g1 _ _. cbv zeta.
  apply (wp_keeps (fun _ _ => True)); [apply keeps_any|noret_block|auto..].
Qed.

Lemma wp_return_status' {L} s (Q : unit -> L * G -> Prop) B (T : Z -> L * G -> Prop) :
  T (TEST_SUCCESS (g_ex s.2)) s -> wp return_status Q B T s.
Proof. intros HT. by apply wp_bind, wp_gets, wp_return. Qed.

Lemma noret_lock_new p a : noret (lock_new p a).
Proof.
  unfold lock_new, sync_wrlock, synchronized. apply orderly_with_test; try done.
  - intros _. orderly.
  - intros _. orderly.
  - intros _. apply noret_bind; [done|]. intros o. apply noret_bind.
    + intros s. destruct o as [x|]; [|done]. unfold add_cnt, get_filelock, bind, shared, gets. simpl.
      destruct (g_locks s.2 !! x); [done|done].
    + intros _. apply orderly_noret. unfold call_dav_lock, get_filelock, put_filelock, tsearch, tfind.
      noret_block.
Qed.

#[local] Hint Resolve noret_lock_new : orderly.

(** A request without an exception: the table is looked up, the lock is taken and released. *)
Lemma wp_lock_existing_calm p l g Q B (T : Z -> Frame * G -> Prop) :
  (forall s, g_ex s.2 = g_ex g -> Q tt s) -> wp (lock_existing p) Q B T (l, g).
Proof.
  intros HQ. apply wp_sync_rdlock. cbv zeta. intros Hw. unfold tfind. apply wp_bind, wp_gets. simpl.
  destruct (filelock_tree (g_server g) !! p) as [a|].
  - apply wp_bind, wp_modify, wp_bind. unfold add_cnt, get_filelock.
    apply wp_bind, wp_bind, wp_gets, wp_deref. intros fl _.
    apply wp_bind, wp_modify, wp_mret, wp_skip. split; [done|]. by apply HQ.
  - apply wp_skip. split; [done|]. by apply HQ.
Qed.

Lemma dav_lock_status p l g r s' :
  Exception_has (g_ex g) = false -> dav_lock p (l, g) = (Ret r, s') -> r = TEST_SUCCESS (g_ex s'.2).
Proof.
  intros He Hr.
  assert (forall s : Frame * G, g_ex s.2 = g_ex g -> 0 = TEST_SUCCESS (g_ex s.2)) as H0
    by (intros s ->; unfold TEST_SUCCESS; by rewrite He).
  revert r s' Hr. unfold dav_lock. set (rest := bind (upd_local _) _).
  enough (wp rest (fun _ _ => True) (fun _ => True) (fun r s => r = TEST_SUCCESS (g_ex s.2)) (l, g)) as Hw.
  { intros r s'. unfold use_locks, shared, bind, gets, when, return_, skip, mret. simpl.
    destruct (use_lock (options (g_server g))); simpl.
    - intros Hr. exact (wp_returns _ _ _ _ _ _ _ Hw Hr).
    - intros Hr. injection Hr as <- <-. by apply H0. }
  apply wp_bind, wp_modify, wp_bind, wp_lock_existing_calm. simpl. intros s1 Hs1.
  apply wp_bind, wp_gets, wp_bind. destruct (not_null _); simpl; [by apply wp_return, H0|].
  apply wp_skip, wp_bind, (wp_keeps (fun _ _ => True)); [apply keeps_any| | |done].
  - apply orderly_try; [|unfold free_filelock; noret_block].
    unfold strdup, get_filelock, call_dav_unlock. noret_block.
  - intros _ s2 _. by apply wp_return_status'.
Qed.
End Status.

(** ** The exception object after a handler *)

Section Calm.
Context `{E : Env}.
Variable junk : Z -> bytes.
Implicit Types (g : G) (l : HFrame).

Definition calm (g : G) : Prop := Exception_has (g_ex g) = false.

(** The handler returns, and hands the exception object back empty: from a state without an
    exception, and from any state. *)
Definition tidy_from P (m : M (HFrame * G) Z unit) : Prop :=
  forall l g, P g -> wp m (fun _ _ => False) (fun _ => False) (fun _ s => calm s.2) (l, g).
Abbreviation tidy := (tidy_from calm).
Abbreviation tidies := (tidy_from (fun _ => True)).

Lemma tidies_tidy m : tidies m -> tidy m.
Proof. intros Hm l g _. by apply Hm. Qed.

Lemma wp_return_map {L} (s : L * G) (Q : unit -> L * G -> Prop) B :
  wp return_map Q B (fun _ s => calm s.2) s.
Proof. by apply wp_bind, wp_bind, wp_gets, wp_bind, wp_modify, wp_mret, wp_return. Qed.

Lemma wp_exception_test {L} res (s : L * G) (Q : Z -> L * G -> Prop) B (T : Z -> L * G -> Prop) :
  (res = 0 -> calm s.2) -> (forall z s', calm s'.2 -> Q z s') -> wp (dav_exception_test res) Q B T s.
Proof.
  intros Hs HQ. unfold dav_exception_test. destruct (res =? 0) eqn:Hr; simpl.
  - apply wp_mret, HQ, Hs. lia.
  - apply wp_bind, wp_gets, wp_bind, wp_upd_ex, wp_mret. by apply HQ.
Qed.

Lemma wp_return_check {L} res (s : L * G) (Q : unit -> L * G -> Prop) B :
  wp (return_check res) Q B (fun _ s => calm s.2) s.
Proof.
  apply wp_bind. unfold dav_exception_check. apply wp_bind, wp_gets.
  destruct (Exception_has (get_ex s)) eqn:He.
  - by apply wp_bind, wp_gets, wp_bind, wp_modify, wp_mret, wp_return.
  - by apply wp_mret, wp_return.
Qed.

(** Calls: of a request, by what it says about its result, and of a handler. *)
Lemma wp_req {L R} m (l : L) g (Q : Z -> L * G -> Prop) B (T : R -> L * G -> Prop) :
  (forall r s', m (frame0, g) = (Ret r, s') -> Q r (l, s'.2)) -> wp (req m) Q B T (l, g).
Proof. intros HQ. apply wp_bind, wp_call. intros r s' Hr. by apply wp_mret, HQ. Qed.

Lemma wp_handler {L R} P m (l : L) g (Q : Z -> L * G -> Prop) B (T : R -> L * G -> Prop) :
  tidy_from P m -> P g -> (forall r g', calm g' -> Q r (l, g')) -> wp (handler m) Q B T (l, g).
Proof.
  intros Hm Hg HQ. apply wp_bind, wp_call. intros r s' Hr. apply wp_mret, HQ.
  exact (wp_returns _ _ _ _ _ _ _ (Hm hframe0 g Hg) Hr).
Qed.

Lemma status_calm r g : r = TEST_SUCCESS (g_ex g) -> r = 0 -> calm g.
Proof. intros -> H. by apply TEST_SUCCESS_0. Qed.

(** A request whose result is a status. *)
Lemma wp_request {L R} q (l : L) g (Q : Z -> L * G -> Prop) B (T : R -> L * G -> Prop) :
  (forall r g', (r = 0 -> calm g') -> Q r (l, g')) -> wp (req (run_request q)) Q B T (l, g).
Proof.
  intros HQ. apply wp_req. intros r s' Hr. apply HQ. apply status_calm. by eapply request_status.
Qed.

Lemma wp_head_size {L R} p (l : L) g (Q : Z * option Z -> L * G -> Prop) B (T : R -> L * G -> Prop) :
  (forall h g', (fst h = 0 -> calm g') -> Q h (l, g')) -> wp (head_size p) Q B T (l, g).
Proof.
  intros HQ. apply wp_call. intros r s' Hr. apply HQ. simpl. apply status_calm.
  exact (request_status (Rhead p true) _ _ _ Hr).
Qed.

(** *** The handlers, one by one *)

Lemma tidies_readdir p : tidies (dav_readdir p).
Proof. intros l g _. apply wp_bind, wp_modify, wp_bind, wp_req. intros. apply wp_return_check. Qed.
Lemma tidies_getattr p : tidies (dav_getattr p).
Proof. intros l g _. apply wp_bind, wp_req. intros. apply wp_return_check. Qed.

Lemma tidy_read p size offset : tidy (dav_read p size offset).
Proof.
  intros l g Hg. apply wp_bind. destruct (size =? 0); [by apply wp_return|].
  apply wp_skip, wp_bind, wp_gets, wp_bind, wp_call. intros r s' Hr.
  apply wp_bind, wp_modify, wp_bind. simpl. destruct (r <? 0) eqn:Hneg.
  - apply wp_bind, wp_gets. destruct (http_error _ && _); [|apply wp_return_map].
    apply wp_bind, wp_upd_ex, wp_return. exact eq_refl.
  - apply wp_skip, wp_return. simpl.
    apply (dav_get_status _ _ _ _ (frame0, g) _ _ eq_refl Hr). lia.
Qed.

Lemma tidies_mkdir_body p : tidies (_ <- req (dav_mkcol p) ;; return_check 0).
Proof. intros l g _. apply wp_bind, wp_req. intros. apply wp_return_check. Qed.

Lemma wp_allows {L R} m (s : L * G) (Q : bool -> L * G -> Prop) B (T : R -> L * G -> Prop) :
  (forall b, Q b s) -> wp (allows m) Q B T s.
Proof. intros HQ. apply wp_gets, HQ. Qed.

Lemma tidy_mkdir p : tidy (dav_mkdir p).
Proof.
  intros l g Hg. apply wp_bind, wp_allows. intros [|]; apply wp_bind; simpl; [|by apply wp_return].
  apply wp_skip, wp_bind, wp_req. intros. apply wp_return_check.
Qed.

Lemma tidy_rename a b f : tidy (dav_rename a b f).
Proof.
  intros l g Hg. apply wp_bind, wp_allows. intros [|]; apply wp_bind; simpl; [|by apply wp_return].
  apply wp_skip, wp_bind. destruct (f =? 0); [|destruct (f =? RENAME_NOREPLACE)]; [..|by apply wp_return].
  all: apply wp_bind, wp_req; intros; apply wp_skip, wp_return_check.
Qed.

Lemma tidies_unlink p : tidies (dav_unlink p).
Proof. intros l g _. apply wp_bind, wp_req. intros. apply wp_return_check. Qed.
Lemma tidies_chmod p m : tidies (dav_chmod p m).
Proof. intros l g _. apply wp_bind, wp_req. intros. apply wp_return_check. Qed.
Lemma tidies_chown p u w : tidies (dav_chown p u w).
Proof. intros l g _. apply wp_bind, wp_req. intros. apply wp_return_check. Qed.

Lemma tidy_write p b n o : tidy (dav_write p b n o).
Proof.
  intros l g Hg.
  assert (forall (l : HFrame) r g', h_res l = Some r -> (r = 0 -> calm g') ->
            wp (res <- get_res ;; if negb (res =? 0) then return_map else return_ (i32 n))
              (fun _ _ => False) (fun _ => False) (fun _ s => calm s.2) (l, g')) as Hend.
  { intros l1 r g' Hl Hr. apply wp_bind, wp_bind, wp_gets. simpl. rewrite Hl. apply wp_mret.
    destruct (r =? 0) eqn:H0; simpl; [apply wp_return, Hr; lia|apply wp_return_map]. }
  apply wp_bind, wp_do_once, wp_bind. apply (wp_request (Rput p b n o)). intros r1 g1 H1.
  apply wp_bind, wp_modify, wp_bind. simpl. destruct (r1 =? 0) eqn:Hr1.
  { apply wp_break. by eapply Hend. }
  apply wp_skip, wp_bind, wp_gets, wp_bind.
  destruct (negb (issubtype _ _)); [by apply wp_break; eapply Hend|].
  apply wp_skip, wp_bind. destruct (negb _); [by apply wp_break; eapply Hend|].
  apply wp_skip, wp_bind, wp_upd_ex, wp_bind, wp_head_size. intros h g2 H2.
  apply wp_bind, wp_modify, wp_bind. simpl. destruct (fst h =? 0) eqn:Hh; simpl.
  2: { apply wp_break. by eapply Hend. }
  apply wp_skip, wp_bind. destruct (snd h) as [real|]; [|done]. apply wp_mret, wp_bind.
  destruct (real <? u32 o); simpl.
  - apply wp_bind, (wp_request (Rput p _ _ real)). intros r3 g3 H3.
    apply wp_bind, wp_modify. simpl. destruct (r3 =? 0) eqn:Hr3; simpl.
    + apply wp_skip, wp_bind, (wp_request (Rput p b n o)). intros r4 g4 H4. apply wp_modify.
      by eapply Hend.
    + apply wp_break. by eapply Hend.
  - apply wp_skip, wp_bind, (wp_request (Rput p b n o)). intros r4 g4 H4. apply wp_modify.
    by eapply Hend.
Qed.

(** The test that a file does not exist: it goes on in any state, or returns with the object empty. *)
Lemma wp_must_not_exist p s (Q : unit -> HFrame * G -> Prop) B :
  (forall s', Q tt s') -> wp (must_not_exist p) Q B (fun _ s => calm s.2) s.
Proof.
  intros HQ. destruct s as [l g]. apply wp_try. cbv zeta.
  set (K := fun s' : HFrame * G => _).
  assert (forall s', Exception_has (g_ex s'.2) = true -> K s') as HK.
  { intros s' He. unfold K. simpl. rewrite He. apply wp_catch_type; intros _.
    - apply wp_catch_default. cbv zeta. apply wp_bind, wp_gets.
      destruct (negb _); [|by apply wp_skip]. by apply wp_throw, wp_skip.
    - by apply wp_onerror_default, wp_skip. }
  apply wp_bind, wp_throwable, wp_bind, wp_req. intros r s' _. apply wp_skip.
  destruct (Exception_has (get_ex (l, s'.2))) eqn:He; [by apply HK|by apply wp_return].
Qed.

Lemma wp_mknod p m d s :
  (mode_is S_IFDIR m = true -> calm s.2) ->
  wp (dav_mknod p m d) (fun _ _ => False) (fun _ => False) (fun _ s => calm s.2) s.
Proof.
  intros Hm. apply wp_bind. destruct (mode_is S_IFDIR m); [by apply wp_return, Hm|].
  apply wp_skip, wp_bind, wp_try. cbv zeta.
  set (K := fun s' : HFrame * G => _).
  assert (forall s', K s') as HK.
  { intros [l g]. unfold K. destruct (Exception_has _); [apply wp_onerror_default, wp_return_map|].
    apply wp_bind. apply (wp_handler (fun _ => True)); [apply tidies_chmod|done|].
    intros r g' Hg'. by apply wp_return. }
  clearbody K. apply wp_bind, wp_throwable, wp_must_not_exist. intros [l g].
  destruct (Exception_has (get_ex (l, g))); [apply HK|].
  apply wp_bind, wp_req. intros. apply wp_skip, HK.
Qed.
Lemma tidy_mknod p m d : tidy (dav_mknod p m d).
Proof. intros l g Hg. by apply wp_mknod. Qed.

(** [dav_read] into an array. *)
Lemma wp_read_into {L R} p b n o (l : L) g (Q : Z * bytes -> L * G -> Prop) B (T : R -> L * G -> Prop) :
  calm g -> (forall r g', calm g' -> Q r (l, g')) -> wp (read_into p b n o) Q B T (l, g).
Proof.
  intros Hg HQ. apply wp_call. intros r s' Hr. apply HQ.
  exact (wp_returns _ _ _ _ _ _ _ (tidy_read p n o (set_h_buf b hframe0) g Hg) Hr).
Qed.

Lemma tidy_readlink p n : tidy (dav_readlink p n).
Proof.
  intros l g Hg. apply wp_bind, wp_gets, wp_bind, wp_read_into; [done|]. intros r g1 H1.
  apply wp_bind, wp_modify, wp_bind. simpl. destruct (fst r <? 0); [by apply wp_return|].
  apply wp_skip, wp_bind, wp_gets, wp_bind. case_decide; [|done].
  by apply wp_modify, wp_return.
Qed.

Lemma tidies_symlink a b : tidies (dav_symlink a b).
Proof.
  intros l g _. apply wp_bind, wp_must_not_exist. intros [l1 g1].
  set (rest := bind (try_ _ _) _).
  assert (forall l r g', h_res l = Some r -> calm g' ->
            wp rest (fun _ _ => False) (fun _ => False) (fun _ s => calm s.2) (l, g')) as Hrest.
  { intros l2 r g' Hl Hc. apply wp_bind, wp_try. cbv zeta.
    apply wp_bind. apply (wp_handler (fun _ => True)); [apply tidies_unlink|done|].
    intros r' g2 H2. apply wp_skip. simpl. rewrite H2. apply wp_bind, wp_bind, wp_gets. simpl. rewrite Hl.
    by apply wp_mret, wp_return. }
  clearbody rest. apply wp_bind, wp_do_once, wp_bind.
  apply (wp_handler (fun _ => True)); [|done|].
  { intros l2 g2 _. apply wp_mknod. by vm_compute. }
  intros r g2 H2. apply wp_bind, wp_modify, wp_bind. simpl.
  destruct (r =? 0); [|by apply wp_break; eapply Hrest].
  apply wp_skip, wp_bind. apply (wp_handler calm); [apply tidy_write|done|].
  intros r2 g3 H3. apply wp_bind, wp_modify, wp_bind. simpl.
  destruct (r2 <? 0); [by apply wp_break; eapply Hrest|]. by apply wp_skip, wp_return.
Qed.

Lemma wp_getattr_into {L R} st p (l : L) g (Q : Z -> L * G -> Prop) B (T : R -> L * G -> Prop) :
  (forall r g', calm g' -> Q r (l, g')) -> wp (getattr_into st p) Q B T (l, g).
Proof.
  intros HQ. apply wp_bind, wp_modify.
  apply (wp_handler (fun _ => True)); [apply tidies_getattr|done|done].
Qed.
Lemma wp_the_stat {L R} (s : L * G) (Q : Stat -> L * G -> Prop) B (T : R -> L * G -> Prop) :
  (forall st, Q st s) -> wp the_stat Q B T s.
Proof. intros HQ. apply wp_bind, wp_gets. destruct (g_stbuf s.2); [by apply wp_mret|done]. Qed.

Lemma wp_get_res {F : Prop} l r g (Q : Z -> HFrame * G -> Prop) B T :
  h_res l = Some r -> Q r (l, g) -> gwp F get_res Q B T (l, g).
Proof. intros Hl HQ. apply wp_bind, wp_gets. simpl. rewrite Hl. by apply wp_mret. Qed.

(** The end of the handlers that leave their result in [res]. *)
Abbreviation finish := (bind get_res (fun res => return_ (S := HFrame * G) (R := Z) (A := unit) res)).
Abbreviation ends := (fun s' => wp finish (fun _ _ => False) (fun _ => False) (fun _ s => calm s.2) s').

Lemma wp_finish l r g : h_res l = Some r -> calm g -> ends (l, g).
Proof. intros Hl Hg. apply wp_bind. eapply wp_get_res; [exact Hl|by apply wp_return]. Qed.

Lemma tidy_truncate p n : tidy (dav_truncate junk p n).
Proof.
  intros l g Hg. apply wp_bind, wp_getattr_into. intros r g1 H1. apply wp_bind.
  destruct (negb _); [by apply wp_return|]. apply wp_skip, wp_bind, wp_the_stat. intros st.
  apply wp_bind. destruct (st_size st =? n); [by apply wp_return|]. apply wp_skip, wp_bind.
  destruct (n =? 0).
  - apply wp_bind, (wp_request (Rdelete p)). intros r2 g2 H2. apply wp_bind.
    destruct (negb (r2 =? 0)); [apply wp_return_map|]. apply wp_skip, wp_bind, (wp_request (Rput_simple p)).
    intros r3 g3 H3. apply wp_bind. destruct (negb (r3 =? 0)); [apply wp_return_map|].
    apply wp_skip, wp_bind. apply (wp_handler (fun _ => True)); [apply tidies_chmod|done|].
    intros r4 g4 H4. apply wp_modify. by eapply wp_finish.
  - apply wp_bind, wp_head_size. intros h g2 H2. apply wp_bind.
    destruct (fst h =? 0) eqn:Hh; simpl; [|apply wp_return_map].
    apply wp_skip, wp_bind. destruct (snd h) as [real|]; [|done]. apply wp_mret, wp_bind.
    assert (calm g2) as Hc2 by (apply H2; lia).
    assert (forall r g', (r = 0 -> calm g') ->
              wp (r <- dav_exception_test r ;; set_res (R := Z) r)
                (fun _ => ends)
                (fun _ => False) (fun _ s => calm s.2) (l, g')) as Htest.
    { intros r3 g3 H3. apply wp_bind, wp_exception_test; [done|]. intros z [l4 g4] H4.
      apply wp_modify. by eapply wp_finish. }
    destruct (u32 n <? real / 2).
    + apply wp_bind, wp_read_into; [done|]. intros b g3 H3. apply wp_bind.
      destruct (negb _); [by apply wp_return|]. apply wp_skip, wp_bind.
      apply (wp_handler (fun _ => True)); [apply tidies_unlink|done|]. intros r4 g4 H4. apply wp_bind.
      destruct (negb (r4 =? 0)); [by apply wp_return|]. apply wp_skip.
      apply (wp_request (Rput p (snd b) n 0)). intros r5 g5 H5. by apply Htest.
    + apply (wp_request (Rproppatch p "size" (Some (size_value n)))). intros r5 g5 H5. by apply Htest.
Qed.

Lemma tidy_open_lock p : tidy (__dav_open p).
Proof.
  intros l g Hg. apply wp_bind, wp_allows. intros [|]; apply wp_bind; simpl; [|by apply wp_return].
  apply wp_skip, wp_bind, wp_req. intros r s' Hr%dav_lock_status; [|done].
  apply wp_bind, wp_exception_test; [by apply status_calm|]. intros z s2 H2. by apply wp_return.
Qed.

Lemma tidy_open p f : tidy (dav_open junk p f).
Proof.
  intros l g Hg. apply wp_bind, wp_modify. simpl.
  apply wp_bind. destruct (writes f); [|by apply wp_skip; eapply wp_finish].
  assert (forall l r g', h_res l = Some r -> calm g' ->
            wp (res <- get_res ;;
                when ((res =? 0) || (negb (Z.land f O_CREAT =? 0) && (res =? - ENOENT)))
                  (r <- handler (__dav_open p) ;; set_res (R := Z) r))
              (fun _ => ends)
              (fun _ => False) (fun _ s => calm s.2) (l, g')) as Hlock.
  { intros l1 r g1 Hl H1. apply wp_bind. eapply wp_get_res; [exact Hl|].
    destruct (_ || _); [|by apply wp_skip; eapply wp_finish].
    apply wp_bind. apply (wp_handler calm); [apply tidy_open_lock|done|]. intros r2 g2 H2.
    apply wp_modify. by eapply wp_finish. }
  apply wp_bind. destruct (negb (Z.land f O_TRUNC =? 0)); [|by apply wp_skip; eapply Hlock].
  apply wp_bind. apply (wp_handler calm); [apply tidy_truncate|done|]. intros r g1 H1.
  apply wp_modify. by eapply Hlock.
Qed.

Lemma tidy_create p m f : tidy (dav_create p m f).
Proof.
  intros l g Hg. apply wp_bind. apply (wp_handler calm); [apply tidy_mknod|done|]. intros r g1 H1.
  apply wp_bind. destruct (negb _); [by apply wp_return|]. apply wp_skip, wp_bind, wp_modify, wp_bind.
  simpl. destruct (writes f).
  - apply wp_bind. apply (wp_handler calm); [apply tidy_open_lock|done|]. intros r2 g2 H2.
    apply wp_modify. by eapply wp_finish.
  - apply wp_skip. by eapply wp_finish.
Qed.

Lemma wp_read_part p n o l g (Q : bytes -> HFrame * G -> Prop) B :
  calm g -> (forall b g', calm g' -> Q b (l, g')) ->
  wp (read_part junk p n o) Q B (fun _ s => calm s.2) (l, g).
Proof.
  intros Hg HQ. unfold read_part. destruct (0 <? n); [|by apply wp_mret, HQ].
  apply wp_bind, wp_read_into; [done|]. intros b g1 H1. apply wp_bind.
  destruct (negb _); [by apply wp_return|]. by apply wp_skip, wp_mret, HQ.
Qed.
Lemma wp_write_part p a n o l g (Q : unit -> HFrame * G -> Prop) B :
  calm g -> (forall g', calm g' -> Q tt (l, g')) ->
  wp (write_part p a n o) Q B (fun _ s => calm s.2) (l, g).
Proof.
  intros Hg HQ. unfold write_part. destruct (0 <? n); [|by apply wp_skip, HQ].
  apply wp_bind. apply (wp_handler calm); [apply tidy_write|done|]. intros r g1 H1.
  destruct (negb _); [by apply wp_return|by apply wp_skip, HQ].
Qed.

Lemma tidy_copy_file_range pi oi po oo n : tidy (dav_copy_file_range junk pi oi po oo n).
Proof.
  intros l g Hg. apply wp_bind. destruct (negb _); [by apply wp_return|]. apply wp_skip, wp_bind.
  apply wp_getattr_into. intros r g1 H1. apply wp_bind. destruct (_ && _); [by apply wp_return|].
  apply wp_skip, wp_bind, wp_the_stat. intros st. apply wp_bind.
  destruct (n <? _); [by apply wp_return|]. apply wp_skip, wp_bind, wp_read_part; [done|].
  intros before g2 H2. cbv zeta. apply wp_bind, wp_read_part; [done|]. intros after g3 H3.
  apply wp_bind, (wp_request (Rcopy pi po)). intros r4 g4 H4.
  apply wp_bind, wp_exception_test; [done|]. intros z [l5 g5] H5. apply wp_bind.
  destruct (negb _); [by apply wp_return|]. apply wp_skip, wp_bind, wp_write_part; [done|].
  intros g6 H6. apply wp_bind, wp_write_part; [done|]. intros g7 H7. by apply wp_return.
Qed.
End Calm.

Create HintDb tidy.
#[export] Hint Resolve tidies_tidy tidies_readdir tidies_getattr tidies_unlink tidies_chmod
  tidies_chown tidies_symlink tidy_read tidy_write tidy_mkdir tidy_rename tidy_mknod tidy_readlink
  tidy_create tidy_open tidy_truncate tidy_copy_file_range : tidy.
#[export] Hint Opaque dav_readdir dav_getattr dav_read dav_write dav_mkdir dav_rename dav_unlink
  dav_chmod dav_chown dav_mknod dav_readlink dav_symlink dav_create dav_open dav_truncate
  dav_copy_file_range : tidy.

(** ** Every handler, and the one that does not clean up *)

Section Handlers.
Context `{E : Env}.
Variable junk : Z -> bytes.

Definition is_release (op : operation) : bool :=
  match op with Orelease _ _ => true | _ => false end.

Lemma tidy_oper op : is_release op = false -> tidy_from calm (dav_oper junk op).
Proof. destruct op; intros Hr; try discriminate Hr; cbn [dav_oper]; auto with tidy. Qed.

(** C16: from an empty exception object every operation but [release] is stuck or returns, and it
    returns with the exception object empty again, on success and on every error: no error of one
    operation reaches the next. *)
Theorem operations_are_tidy op l g :
  is_release op = false -> calm g ->
  (exists r s, dav_oper junk op (l, g) = (Ret r, s) /\ calm s.2)
  \/ exists f s, dav_oper junk op (l, g) = (Stuck f, s).
Proof.
  intros Hr Hg. pose proof (tidy_oper op Hr l g Hg) as Ht. unfold gwp in Ht.
  destruct (dav_oper junk op (l, g)) as [[] s]; try done; [left|right]; eauto.
Qed.

(** With an exception pending PROPFIND does nothing at all. *)
Lemma propfind_pending p d fill l g :
  Exception_has (g_ex g) = true ->
  exists l', dav_propfind p d fill (l, g) = (Ret 1, (l', g)).
Proof.
  intros He. unfold dav_propfind. unfold with_buffer, with_seperated, with_test, for_once, do_once, reflow.
  unfold no_pending, has_ex, return_status, gets, upd_local, modify, bind, skip, mret, break, return_.
  simpl. rewrite He. simpl. unfold TEST_SUCCESS. rewrite He. eauto.
Qed.

(** [dav_unlock] of a path that is not in the table. *)
Lemma count_absent_run p l g :
  filelock_tree (g_server g) !! p = None -> writer (g_rwlock g) = false ->
  exists w e, unlock_count p (l, g)
    = (Next tt, (set_f_res (Some 1) (set_f_filelock None l), set_g_world w (set_g_ex e g))) /\
    Exception_has e = true /\ exception_errno e = - EIO.
Proof.
  intros Ht Hk. destruct g as [ex ? ? ? srv locks [n wr] ? ? ? w0]. simpl in *. subst wr.
  exists (snd (env_malloc w0)), (UnspecifiedException_init ex
    (if fst (env_malloc w0) then Some "release cannot find file lock"%string else None)).
  split; [|by destruct (fst (env_malloc w0))].
  unfold unlock_count, mk_UnspecifiedException, malloc_ok, ext, upd_ex. run_locks.
  rewrite Ht. simpl. by destruct (env_malloc w0) as [ok w].
Qed.

Lemma unlock_absent_run p l g :
  uses_locks g -> filelock_tree (g_server g) !! p = None -> writer (g_rwlock g) = false ->
  exists l' w e, dav_unlock p (l, g) = (Ret 1, (l', set_g_world w (set_g_ex e g))) /\
    Exception_has e = true /\ exception_errno e = - EIO.
Proof.
  intros Hu Ht Hk.
  destruct (count_absent_run p (set_f_filelock None (set_f_res (Some 0) l)) g Ht Hk) as (w & e & Hr & He).
  eexists _, w, e. split; [|exact He].
  unfold dav_unlock, use_locks, when, upd_local, local, shared, gets, modify, bind. cbn [fst snd].
  rewrite Hu. cbn [negb skip mret]. unfold skip, mret. cbn [fst snd]. rewrite Hr. reflexivity.
Qed.

(** C17: closing a file that is open for writing and whose lock is not in the table, as after it was
    unlinked, answers 0, sends nothing and leaves an exception pending; a getattr, of any path, that
    comes next on that thread then fails with [-EIO], without a transfer and without writing the
    [struct stat], whatever the server would have answered. *)
Theorem release_fails_next_getattr p q f l1 l2 g :
  calm g -> uses_locks g -> LOCK ∈ allowed (g_server g) -> writes f = true ->
  filelock_tree (g_server g) !! p = None -> writer (g_rwlock g) = false ->
  exists g1, dav_release p f (l1, g) = (Ret 0, (l1, g1)) /\ Exception_has (g_ex g1) = true /\
    g_sent g1 = g_sent g /\
    exists g2, dav_getattr q (l2, g1) = (Ret (- EIO), (l2, g2)) /\ g_sent g2 = g_sent g /\
      g_stbuf g2 = g_stbuf g.
Proof.
  intros Hc Hu Ha Hw Ht Hk.
  destruct (unlock_absent_run p frame0 g) as (l' & w & e & Hrun & He & Hio); [done..|].
  set (g1 := set_g_world w (set_g_ex e g)). exists g1. split.
  { unfold dav_release, allows, req, call, shared, gets. unfold bind, when, return_, skip, mret. simpl.
    rewrite bool_decide_true by done. simpl. rewrite Hw. simpl. by rewrite Hrun. }
  split; [done|]. split; [done|].
  destruct (propfind_pending q 0 dav_getattr_callback frame0 g1) as [l'' Hp]; [done|].
  exists (set_g_ex (Exception_destory (g_ex g1)) g1). split; [|done].
  unfold dav_getattr, req, call. unfold bind. rewrite Hp.
  unfold return_check, dav_exception_check, dav_exception_map, has_ex, upd_ex, gets, modify.
  unfold bind, mret, return_. simpl. rewrite He. cbn [fst snd].
  change (g_ex g1) with e. by rewrite Hio.
Qed.
End Handlers.

(** ** Witnesses *)

#[local] Abbreviation dav_run perform op g :=
  (dav_oper (E := demo_env perform None) (fun _ => []) op (hframe0, g)).

Lemma operations_are_tidy_witness :
  (dav_run (answers 404) (Ochmod "/a" 420) (demo_g 404 ex0)).1 = Ret (- ENOENT)
  /\ calm (dav_run (answers 404) (Ochmod "/a" 420) (demo_g 404 ex0)).2.2.
Proof.
  destruct (operations_are_tidy (E := demo_env (answers 404) None) (fun _ => []) (Ochmod "/a" 420)
    hframe0 (demo_g 404 ex0) eq_refl eq_refl) as [(r & s & Hr & Hs)|(f & s & Hf)].
  - split; [vm_compute; reflexivity|]. rewrite Hr. exact Hs.
  - apply (f_equal fst) in Hf. vm_compute in Hf. discriminate.
Defined.

Lemma release_fails_next_getattr_witness :
  exists g1, (dav_release (E := demo_env (answers 200) None) "/b" 1 (hframe0, demo_g 200 ex0))
             = (Ret 0, (hframe0, g1)) /\ Exception_has (g_ex g1) = true.
Proof.
  destruct (release_fails_next_getattr (E := demo_env (answers 200) None) "/b" "/a" 1 hframe0 hframe0
    (demo_g 200 ex0) eq_refl eq_refl ltac:(vm_compute; reflexivity) eq_refl eq_refl eq_refl)
    as (g1 & H1 & H2 & _).
  exact (ex_intro _ g1 (conj H1 H2)).
Defined.
