(* ===== verification/OperSpec.v ===== *)
(** * What the operations ask of the server

    The operations that stand for one request, the write with its padding, and the symbolic link:
    the transfers each makes and the answer it gives. *)

From S2P Require Import Prelude Utils Exception Control Buffer Stack State Wp Demo Curl Rules Method MethodSpec Sends Locks LocksSpec UnlockSpec Propfind Dav DavSpec.
#[local] Open Scope Z_scope.
#[local] Open Scope c_scope.

(** The errno of an exception is never a success. *)
Lemma exception_errno_negative e : exception_errno e < 0.
Proof. unfold exception_errno. repeat case_match; done. Qed.

(** The request an operation stands for. *)
Definition operation_request (op : operation) : option request :=
  match op with
  | Omkdir p => Some (Rmkcol p)
  | Orename a b f => if f =? 0 then Some (Rmove a b)
                     else if f =? RENAME_NOREPLACE then Some (Rmove_nooverwrite a b) else None
  | Ounlink p | Ormdir p => Some (Rdelete p)
  | Ochmod p m => Some (Rproppatch p "N:mode" (Some (mode_value m)))
  | Ochown p u w => Some (Rproppatch p "N:owner" (Some (owner_value u w)))
  | _ => None
  end.

(** The method that the server must have announced for it. *)
Definition operation_method (op : operation) : option DavMethod :=
  match op with Omkdir _ => Some MKCOL | Orename _ _ _ => Some MOVE | _ => None end.

Section Single.
Context `{E : Env}.
Variable junk : Z -> bytes.

Definition announced (op : operation) (g : G) : Prop :=
  match operation_method op with Some m => m ∈ allowed (g_server g) | None => True end.

#[export] Instance announced_dec op g : Decision (announced op g).
Proof. unfold announced. destruct (operation_method op); apply _. Defined.

(** Without the announcement the handler returns at once. *)
Lemma operation_not_announced op l g :
  ~ announced op g -> dav_oper junk op (l, g) = (Ret (- EOPNOTSUPP), (l, g)).
Proof.
  unfold announced.
  destruct op; simpl; intros Ha; try done;
    unfold dav_mkdir, dav_rename, allows, shared, gets, when, skip, mret, return_;
    unfold bind at 1; cbn [fst snd]; by rewrite bool_decide_false.
Qed.

(** The operation is the request and the check after it. *)
Lemma operation_is_request op q l g :
  operation_request op = Some q -> announced op g ->
  dav_oper junk op (l, g) = (_ <- req (run_request q) ;; return_check 0) (l, g).
Proof.
  assert (forall f m, run_request f = m -> (_ <- req m ;; return_check (L := HFrame) 0) (l, g)
            = (_ <- req (run_request f) ;; return_check 0) (l, g)) as Heq by (by intros ?? <-).
  destruct op as [| | | |p|a b f|p|p|p m|p u w| | | | | | | |]; simpl; intros Hq Ha; simplify_eq.
  - unfold dav_mkdir, allows, shared, gets, when, skip, mret. unfold bind at 1. cbn [fst snd].
    unfold announced in Ha. simpl in Ha. by rewrite bool_decide_true.
  - unfold dav_rename, allows, shared, gets, when, skip, mret. unfold bind at 1. cbn [fst snd].
    unfold announced in Ha. simpl in Ha. rewrite bool_decide_true by done. simpl.
    unfold bind. destruct (f =? 0); [|destruct (f =? RENAME_NOREPLACE); [|done]]; simplify_eq;
      cbn [run_request]; by destruct (req _ (l, g)) as [[] ?].
  - done.
  - done.
  - done.
  - done.
Qed.

(** C14: the operations that stand for one request: mkdir, unlink, rmdir, chmod, chown, and rename
    with the flags 0 or RENAME_NOREPLACE. Where the operation needs a method (mkdir, rename) that
    the server has not announced, the answer is [-EOPNOTSUPP] and nothing is sent or changed.
    Otherwise answering 0 means that the request was made with exactly one transfer for its method,
    and any other answer is the errno of the exception the request ended with, after at most one
    transfer. *)
Theorem operation_makes_request op q l g r s :
  operation_request op = Some q -> dav_oper junk op (l, g) = (Ret r, s) ->
  (~ announced op g /\ r = - EOPNOTSUPP /\ s = (l, g))
  \/ (announced op g /\ r = 0
      /\ sent_with (request_option q).1 (request_option q).2 (g_sent g) s.2)
  \/ (announced op g /\ r < 0 /\ at_most_one (g_sent g) s.2 /\
      exists l1 g1, run_request q (frame0, g) = (Ret 1, (l1, g1)) /\ r = exception_errno (g_ex g1)).
Proof.
  intros Hq. destruct (decide (announced op g)) as [Ha|Ha].
  2: { rewrite operation_not_announced by done. intros [= <- <-]. by left. }
  rewrite (operation_is_request op q l g Hq Ha). unfold req, call. unfold bind at 1 2.
  destruct (run_request q (frame0, g)) as [c [l1 g1]] eqn:Hr.
  pose proof (request_sends q _ _ _ _ _ Hr) as Hs.
  destruct c as [a| | |c|f]; simpl; try done.
  pose proof (request_status q _ _ _ Hr) as Hc. simpl in Hc.
  unfold return_check, dav_exception_check, dav_exception_map, has_ex, upd_ex, gets, modify.
  unfold bind, mret, return_. simpl.
  destruct Hs as [[[= ->] Hs]|[[[= ->] Hs]|[f Hf]]]; [..|done].
  - destruct (Exception_has (g_ex g1)) eqn:He; unfold TEST_SUCCESS in Hc; rewrite He in Hc; [done|].
    intros H. simplify_eq. right; left. done.
  - destruct (Exception_has (g_ex g1)) eqn:He; unfold TEST_SUCCESS in Hc; rewrite He in Hc; [|done].
    intros H. simplify_eq. right; right. split; [done|]. split; [apply exception_errno_negative|].
    split; [exact Hs|]. eauto.
Qed.
End Single.

(** ** [write], with its padding *)

Section Write.
Context `{E : Env}.
Implicit Types (n : list (list (CURLoption * optval))) (g : G).

(** A request that answered 0, with the one transfer it made. *)
Definition performed (q : request) g g' : Prop :=
  (exists l', run_request q (frame0, g) = (Ret 0, (l', g')))
  /\ sent_with (request_option q).1 (request_option q).2 (g_sent g) g'.

(** The exception of a range that the server does not accept. *)
Definition range_refused (e : Exception) : Prop :=
  issubtype e CurlException = true /\ code e = CURLE_HTTP_RETURNED_ERROR /\ response_code e = 416.

(** The size of the file was asked for after a PUT answered with status 416: after at most one
    transfer for it and one for the HEAD, the server reported [real]. *)
Definition asked_size (p : string) (b : bytes) (size offset real : Z) g g' : Prop :=
  exists l1 g1 l2,
    run_request (Rput p b size offset) (frame0, g) = (Ret 1, (l1, g1)) /\ at_most_one (g_sent g) g1
    /\ range_refused (g_ex g1)
    /\ dav_head p true (frame0, set_g_ex (Exception_destory (g_ex g1)) g1) = (Ret 0, (l2, g'))
    /\ f_size l2 = Some real
    /\ sent_with CURLOPT_CUSTOMREQUEST (VStr (Some "HEAD"%string)) (g_sent g1) g'.

(** The ways of a write to its end: the PUT at once; or, when the range was refused, the PUT after
    the size is known, and after the zeros from the end of the file up to the offset where the file
    ends before it. *)
Inductive write_way (p : string) (b : bytes) (size offset : Z) g g' : Prop :=
  | way_at_once : performed (Rput p b size offset) g g' -> write_way p b size offset g g'
  | way_no_gap real g1 :
      asked_size p b size offset real g g1 -> u32 offset <= real ->
      performed (Rput p b size offset) g1 g' -> write_way p b size offset g g'
  | way_gap real g1 g2 :
      asked_size p b size offset real g g1 -> real < u32 offset ->
      (let n := u64 (offset - real) in
       performed (Rput p (repeat NUL (Z.to_nat n)) n real) g1 g2) ->
      performed (Rput p b size offset) g2 g' -> write_way p b size offset g g'.

(** What a request does, by its status. *)
Lemma wp_request_performed {L R} q (l : L) g (Q : Z -> L * G -> Prop) B (T : R -> L * G -> Prop) :
  (forall r g', (r = 0 /\ performed q g g')
                \/ (r = 1 /\ (exists l', run_request q (frame0, g) = (Ret 1, (l', g')))
                    /\ at_most_one (g_sent g) g') -> Q r (l, g')) ->
  wp (req (run_request q)) Q B T (l, g).
Proof.
  intros HQ. apply wp_req. intros r [l1 g1] Hr. apply HQ. unfold performed.
  destruct (request_sends q _ _ _ _ _ Hr) as [[[= ->] Hs]|[[[= ->] Hs]|[f Hf]]]; eauto 6; done.
Qed.

Lemma wp_head_performed {L R} p (l : L) g (Q : Z * option Z -> L * G -> Prop) B (T : R -> L * G -> Prop) :
  (forall z size g', (z = 0 /\ exists l', dav_head p true (frame0, g) = (Ret 0, (l', g')) /\ f_size l' = size
                       /\ sent_with CURLOPT_CUSTOMREQUEST (VStr (Some "HEAD"%string)) (g_sent g) g')
                     \/ z = 1 -> Q (z, size) (l, g')) ->
  wp (head_size p) Q B T (l, g).
Proof.
  intros HQ. apply wp_call. intros r [l1 g1] Hr. apply HQ. simpl.
  destruct (request_sends (Rhead p true) _ _ _ _ _ Hr) as [[[= ->] Hs]|[[[= ->] Hs]|[f Hf]]]; eauto 6; done.
Qed.

(** C15: a [write] that answers a count answers the size, as an [int], and ended with a PUT of
    exactly its bytes and range that answered 0 with one transfer. Before it nothing else was made,
    or the same PUT was answered with status 416 and the HEAD after it reported the size of the
    file; when that size is below the offset (as [unsigned]), a PUT of zeros from the end of the
    file up to the offset answered 0 as well, and when it is not, there was no further transfer. *)
Theorem write_ends_with_put p b size offset l g r s :
  0 <= r -> dav_write p b size offset (l, g) = (Ret r, s) ->
  r = i32 size /\ write_way p b size offset g s.2.
Proof.
  intros Hpos Hrun. revert Hpos. revert r s Hrun.
  set (T := fun (r : Z) (s : HFrame * G) => 0 <= r -> r = i32 size /\ write_way p b size offset g s.2).
  enough (wp (dav_write p b size offset) (fun _ _ => False) (fun _ => False) T (l, g)) as Hw
    by (intros r s; apply (wp_returns _ _ _ _ _ _ _ Hw)).
  set (rest := fun s' => gwp (R := Z) True (res <- get_res ;; if negb (res =? 0) then return_map else return_ (i32 size))
                 (fun (_ : unit) _ => False) (fun _ => False) T s').
  assert (forall (l : HFrame) z g', h_res l = Some z -> z <> 0 -> rest (l, g')) as Hfail.
  { intros l1 z g' Hl Hz. apply wp_bind, wp_bind, wp_gets. simpl. rewrite Hl. apply wp_mret.
    replace (z =? 0) with false by lia. simpl.
    apply wp_bind, wp_bind, wp_gets, wp_bind, wp_modify, wp_mret, wp_return.
    intros Hn. pose proof (exception_errno_negative (get_ex (l1, g'))). lia. }
  assert (forall (l : HFrame) g', h_res l = Some 0 -> write_way p b size offset g g' -> rest (l, g')) as Hok.
  { intros l1 g1 Hl Hway. apply wp_bind, wp_bind, wp_gets. simpl. rewrite Hl. apply wp_mret, wp_return.
    by intros _. }
  assert (forall (l : HFrame) g1,
            (forall g', performed (Rput p b size offset) g1 g' -> write_way p b size offset g g') ->
            wp (r <- put p b size offset ;; set_res (R := Z) r) (fun _ => rest) rest T (l, g1)) as Hlast.
  { intros l1 g1 Hway. apply wp_bind, (wp_request_performed (Rput p b size offset)).
    intros r g2 Hr. apply wp_modify. destruct Hr as [[-> Hr]|[-> _]]; [by eapply Hok; [|apply Hway]|by eapply Hfail]. }
  apply wp_bind, wp_do_once. fold rest.
  apply wp_bind, (wp_request_performed (Rput p b size offset)). intros r1 g1 H1.
  apply wp_bind, wp_modify, wp_bind. simpl.
  destruct H1 as [[-> H1]|[-> ([l1 H1] & Hm1)]]; simpl.
  { apply wp_break, Hok; [done|]. by constructor. }
  apply wp_skip, wp_bind, wp_gets, wp_bind. simpl.
  destruct (issubtype _ _) eqn:Hsub; simpl; [|by apply wp_break; eapply Hfail].
  apply wp_skip, wp_bind. destruct (_ && _) eqn:H416; simpl; [|by apply wp_break; eapply Hfail].
  apply andb_true_iff in H416 as [Hcode%Z.eqb_eq Hresp%Z.eqb_eq].
  apply wp_skip, wp_bind, wp_upd_ex, wp_bind, wp_head_performed. intros z size' g2 H2.
  apply wp_bind, wp_modify, wp_bind. simpl in *.
  destruct H2 as [[-> (l2 & H2 & Hsize & Hhead)]| ->]; simpl; [|by apply wp_break; eapply Hfail].
  apply wp_skip, wp_bind. destruct size' as [real|]; [|done]. apply wp_mret, wp_bind.
  assert (asked_size p b size offset real g g2) as Hasked by (exists l1, g1, l2; done).
  destruct (real <? u32 offset) eqn:Hgap; simpl.
  - apply wp_bind, (wp_request_performed (Rput p _ _ real)). intros r3 g3 H3.
    apply wp_bind, wp_modify. simpl in H3. destruct H3 as [[-> H3]|[-> _]]; simpl.
    + apply wp_skip, Hlast. intros g' Hp. eapply way_gap; [done|lia|exact H3|exact Hp].
    + apply wp_break. by eapply Hfail.
  - apply wp_skip, Hlast. intros g' Hp. eapply way_no_gap; [done|lia|exact Hp].
Qed.
End Write.

(** ** Witnesses and a run *)

#[local] Abbreviation dav_run perform op g :=
  (dav_oper (E := demo_env perform None) (fun _ => []) op (hframe0, g)).

(** The methods of the transfers made. *)
Definition methods (ts : list (list (CURLoption * optval))) : list (option optval) :=
  last_opt CURLOPT_CUSTOMREQUEST <$> ts.

(** A server in trouble: [symlink] asks for the target, is refused with a 500, and then deletes the
    target, which it did not create. *)
Example symlink_deletes_target :
  (dav_run (answers 500) (Osymlink "x" "/a") (demo_state (answers 500) None false [] ex0)).1 = Ret (- EIO)
  /\ methods (g_sent (dav_run (answers 500) (Osymlink "x" "/a") (demo_state (answers 500) None false [] ex0)).2.2)
     = [Some (VStr (Some "HEAD"%string)); Some (VStr (Some "DELETE"%string))].
Proof. split; vm_compute; reflexivity. Qed.

Lemma operation_makes_request_witness :
  (dav_run (answers 404) (Ormdir "/b") (demo_state (answers 404) None false [] ex0)).1 = Ret (- ENOENT)
  /\ at_most_one [] (dav_run (answers 404) (Ormdir "/b") (demo_state (answers 404) None false [] ex0)).2.2.
Proof.
  assert ((dav_run (answers 404) (Ormdir "/b") (demo_state (answers 404) None false [] ex0)).1 = Ret (- ENOENT))
    as Hr by (vm_compute; reflexivity).
  split; [exact Hr|].
  destruct (operation_makes_request (E := demo_env (answers 404) None) (fun _ => []) (Ormdir "/b")
    (Rdelete "/b") hframe0 (demo_state (answers 404) None false [] ex0) (- ENOENT) _ eq_refl
    (run_result _ _ Hr)) as [(Hn & _)|[(_ & H0 & _)|(_ & _ & Hm & _)]].
  - destruct (Hn I).
  - vm_compute in H0. discriminate.
  - exact Hm.
Defined.

(** A server with a file of three bytes, which refuses to write past its end. *)
Definition sparse_server (opts : list (CURLoption * optval)) (w : Z) : xfer Z :=
  match last_opt CURLOPT_CUSTOMREQUEST opts with
  | Some (VStr (Some "HEAD"%string)) =>
      XHeader (lit ("Content-Length: 3" +:+ CRLF)) (fun _ => XDone w CURLE_OK (demo_info 200))
  | _ => if w =? 0 then XDone 1 CURLE_HTTP_RETURNED_ERROR (demo_info 416)
         else XDone w CURLE_OK (demo_info 204)
  end.

#[local] Abbreviation sparse_write :=
  (dav_write (E := demo_env sparse_server None) "/a" (lit "xy") 2 5
     (hframe0, demo_state sparse_server None false [] ex0)).

Lemma write_ends_with_put_witness :
  sparse_write.1 = Ret 2 /\ length (g_sent sparse_write.2.2) = 4%nat
  /\ write_way (E := demo_env sparse_server None) "/a" (lit "xy") 2 5
       (demo_state sparse_server None false [] ex0) sparse_write.2.2.
Proof.
  assert (sparse_write.1 = Ret 2) as Hr by (vm_compute; reflexivity).
  split; [exact Hr|]. split; [vm_compute; reflexivity|].
  destruct (write_ends_with_put (E := demo_env sparse_server None) "/a" (lit "xy") 2 5 hframe0
    (demo_state sparse_server None false [] ex0) 2 _ ltac:(lia) (run_result _ _ Hr)) as [_ Hi].
  exact Hi.
Defined.

(** A server that grants a lock, and answers a PROPFIND, with headers alone: the parser context is
    made by the first piece of a body, so the look at the document goes through NULL. *)
Definition bare_server (opts : list (CURLoption * optval)) (w : Z) : xfer Z :=
  match last_opt CURLOPT_HEADERFUNCTION opts with
  | Some (VFun CB_dav_lock_callback) =>
      XHeader (lit ("Lock-Token: <tok>" +:+ CRLF)) (fun _ => XDone w CURLE_OK (demo_info 200))
  | _ => XDone w CURLE_OK (demo_info 207)
  end.

Example empty_answer_is_fatal :
  (dav_run bare_server (Ogetattr "/a") (demo_state bare_server None true [] ex0)).1 = Stuck NullDeref
  /\ (dav_run bare_server (Oopen "/a" O_RDWR) (demo_state bare_server None true [] ex0)).1 = Stuck NullDeref.
Proof. split; vm_compute; reflexivity. Qed.

(** A server whose answer describes no file: the attributes are taken for found, and truncation goes on
    from a [struct stat] that nobody wrote. *)
Definition silent_server (opts : list (CURLoption * optval)) (w : Z) : xfer Z :=
  XWrite (lit "<x/>") (fun _ => XDone w CURLE_OK (demo_info 207)).

Example silent_answer_truncates :
  let env := demo_env silent_server (Some (elem "multistatus" None [])) in
  let g := demo_state silent_server (Some (elem "multistatus" None [])) false [] ex0 in
  (dav_oper (E := env) (fun _ => []) (Ogetattr "/a") (hframe0, g)).1 = Ret 0
  /\ (dav_oper (E := env) (fun _ => []) (Otruncate "/a" 1) (hframe0, g)).1 = Stuck Uninit.
Proof. split; vm_compute; reflexivity. Qed.
