(* ===== verification/PropfindProgress.v ===== *)
(** * PROPFIND comes back

    When the server's answers have what the reading of them looks for, PROPFIND returns like the other
    requests: its transfer makes the parser context, and no step over the document goes through
    NULL. *)

From S2P Require Import Prelude Utils Exception Control Buffer Stack State Wp Demo Curl Rules Method MethodSpec Pool Progress Locks Propfind.
#[local] Open Scope Z_scope.
#[local] Open Scope c_scope.

(** ** What the answers must have *)

Section Answers.
Context `{E : Env}.

(** libcurl stops a transfer whose write function did not take everything, and an answer 207 has a body.
    [got] says whether a piece of the body has come. *)
Definition stopped (x : xfer World) : Prop := exists w code info, x = XDone w code info /\ code <> CURLE_OK.

Inductive full_xfer : bool -> xfer World -> Prop :=
  | full_done got w code info :
      (code = CURLE_OK -> info_response_code info = 207 -> got = true) -> full_xfer got (XDone w code info)
  | full_header got line k : (forall n, full_xfer got (k n)) -> full_xfer got (XHeader line k)
  | full_write got chunk k :
      chunk <> [] -> (forall n, n <> zlen chunk -> stopped (k n)) -> full_xfer true (k (zlen chunk)) ->
      full_xfer got (XWrite chunk k)
  | full_read got n k : 0 <= n < 2 ^ 62 -> (forall b, full_xfer got (k b)) -> full_xfer got (XRead n k).

(** Every response names its status, and its properties their namespaces and, where a value is read, a
    text; the [href] has one, too. *)
Definition readable (o : networkfs_opts) (root : xmlNode) : Prop :=
  forall r, r ∈ xml_children root -> name_is r "response" = true ->
  exists f, scan_response (xml_children r) (mkFound None None None None) = Some f
    /\ forall href prop, fd_href f = Some href -> fd_prop f = Some prop ->
         is_Some (stat_of_prop o prop) /\ is_Some (node_text href).

Definition full_answers : Prop := forall opts w, full_xfer false (env_easy_perform opts w).

(** The documents of libxml2 are what it made of the pieces it was fed. *)
Definition readable_document (c : xmlParserCtxt) : Prop :=
  env_xml_wellFormed c = true -> exists root, env_xml_root c = Some root /\ forall o, readable o root.

Record readable_answers : Prop := {
  answers_full : full_answers;
  answers_readable : exists docs : xmlParserCtxt -> Prop,
    (forall chunk w c, (env_xml_create chunk w).1 = Some c -> docs c) /\
    (forall c chunk b w, docs c -> docs (env_xml_chunk c chunk b w).1.2) /\
    forall c, docs c -> readable_document c;
}.
End Answers.

(** ** The transfer *)

Section Transfer.
Context `{E : Env} {ST : Setting} (sane : sane_env) (full : full_answers).
Implicit Types (g : G) (h : addr).

(** The handle knows the answer, and the parser context is there when it was a 207. *)
Definition answered h (s : Frame * G) : Prop :=
  forall e, g_handles s.2 !! h = Some e -> info_response_code (easy_info e) = 207 -> is_Some (f_ctxt s.1).

(** A header line and a request for data leave the context alone. *)
Definition ctxt_set (l : Frame) : Prop := is_Some (f_ctxt l).
Abbreviation keeps_ctxt m := (keeps (frame_keeps ctxt_set) m).
#[local] Hint Extern 1 (keeps _ (upd_local _)) => by apply keeps_frame_local : keeps.

Lemma keeps_ctxt_header {R} opts line : keeps_ctxt (header_callback (R := R) opts line).
Proof.
  unfold header_callback, __dav_head_callback, __dav_lock_callback, __dav_options_callback, SimpleString_new,
    strdup, malloc_ok, upd_server. keeps.
Qed.
Lemma keeps_ctxt_read {R} opts n : keeps_ctxt (read_callback (R := R) opts n).
Proof. unfold read_callback, do_Buffer_fetch. keeps. Qed.

Lemma run_full_xfer h opts got x s :
  good_xml opts -> full_xfer got x -> middle h (eq opts) free_lock s -> (got = true -> ctxt_set s.1) ->
  twp (run_xfer (R := Z) h opts x)
    (fun code s' => middle h good free_lock s' /\ (code = CURLE_OK -> answered h s')) (fun _ => False) never s.
Proof.
  intros (Hg & Hwf & Hwd) Hx. revert s.
  assert (forall w code info s, middle h (eq opts) free_lock s ->
    (code = CURLE_OK -> info_response_code info = 207 -> ctxt_set s.1) ->
    twp (run_xfer (R := Z) h opts (XDone w code info))
    (fun code s' => middle h good free_lock s' /\ (code = CURLE_OK -> answered h s')) (fun _ => False) never s) as Hdone.
  { intros w code info s Hs Hd. cbn [run_xfer]. destruct s as [l g].
    apply wp_bind, wp_upd_shared, wp_bind, wp_upd_shared, wp_mret.
    apply (middle_world _ _ _ _ _ w) in Hs as [Hb Hp (e & He & Ho) Ht Hk]. subst.
    split; [split; [done|by eapply pool_update| |by apply (live_same (set_g_world w g))|done]|].
    - eexists. simpl. by rewrite lookup_insert_eq.
    - intros H0 e' He'. simpl in He'. rewrite lookup_insert_eq in He'. simplify_eq. by apply Hd. }
  induction Hx as [got w code info Hd|got line c _ IH|got chunk c Hne Hstop _ IH|got n c Hn _ IH];
    intros s Hs Hgot.
  - apply Hdone; auto.
  - apply wp_bind, (wp_and_keeps _ _ _ _ _ _ (keeps_ctxt_header opts line)).
    refine (wp_mono _ _ _ _ _ _ _ _ (hoare_header_callback h free_lock opts line (fun _ => False) Hg s Hs) _ _ _);
      [|by intros s' [_ []]|done]. intros n s' Hs' Hk. apply IH; auto.
  - cbn [run_xfer]. apply wp_bind. unfold write_callback. rewrite Hwf, Hwd. apply wp_call_in.
    refine (wp_mono _ _ _ _ _ _ _ _ (parse_xml_twp h (eq opts) free_lock chunk s Hs) _ _ _); [done..|].
    intros n s' (Hs' & Hk & Hn). destruct (decide (n = zlen chunk)) as [->|Hstopped].
    + apply IH; [done|]. intros _. destruct Hn as [Hn|[_ Hn]]; [|by apply Hn].
      destruct chunk; [done|]. unfold zlen in Hn. simpl in Hn. lia.
    + destruct (Hstop n Hstopped) as (w & code & info & -> & Hcode). by apply Hdone.
  - apply wp_bind, (wp_and_keeps _ _ _ _ _ _ (keeps_ctxt_read opts n)).
    refine (wp_mono _ _ _ _ _ _ _ _ (hoare_read_callback h free_lock opts n (fun _ => False) Hg Hn s Hs) _ _ _);
      [|by intros s' [_ []]|done]. intros b s' Hs' Hk. apply IH; auto.
Qed.

Lemma hoare_perform_xml h :
  hoare (R := Z) (middle h good_xml free_lock) (curl_easy_perform_or_die (Some h))
    (fun s => middle h good free_lock s /\ answered h s) (left_with h).
Proof.
  intros [l g] [Hb Hp (e & He & Ho) Ht Hk]. apply wp_do_or_die.
  apply wp_bind, wp_shared, wp_bind, (wp_deref_some _ e); [done|].
  apply wp_bind, wp_upd_shared, wp_bind, wp_shared.
  refine (wp_mono _ _ _ _ _ _ _ _ (run_full_xfer h (easy_opts e) false _ _ Ho (full _ _) _ _) _ _ _);
    [split; try done; [by eauto|by apply (live_same g)]|done|..|done|done].
  intros code [l1 g1] [Hm Ha]. destruct (Z.eqb_spec code CURLE_OK) as [H0|]; [by split; [|apply Ha]|]. split.
  - intros x [= <-]. destruct (mid_opts _ _ _ _ Hm) as (e1 & He1 & _). by exists e1.
  - intros ex Hex. split; [done|]. apply (middle_left _ good free_lock). by apply (middle_ex _ _ _ ex (l1, g1)).
Qed.
End Transfer.

(** ** The loop over the responses *)

Section Rounds.
Context {S R : Type} `{HasEx S} (J : S -> Prop).

(** One round of a loop: it falls through in [Q], or goes on or leaves the loop with [J]. *)
Definition rounds {A} (m : M S R A) (Q : A -> S -> Prop) (s : S) : Prop :=
  match m s with
  | (Next a, s') => Q a s'
  | (Cont, s') | (Brk, s') => J s'
  | (Ret _, _) | (Stuck _, _) => False
  end.

Lemma rounds_twp {A} (m : M S R A) Q s : twp m Q J never s -> rounds m Q s.
Proof. unfold gwp, rounds. by destruct (m s) as [[] ?]. Qed.
Lemma rounds_bind {A B} (m : M S R A) (f : A -> M S R B) Q s :
  rounds m (fun a => rounds (f a) Q) s -> rounds (bind m f) Q s.
Proof. unfold rounds, bind. by destruct (m s) as [[] ?]. Qed.
Lemma rounds_step {A B} (m : M S R A) (f : A -> M S R B) Q s :
  twp m (fun a => rounds (f a) Q) J never s -> rounds (bind m f) Q s.
Proof. intros Hm. by apply rounds_bind, rounds_twp. Qed.
Lemma rounds_unless {B} (b : bool) (f : unit -> M S R B) Q s :
  J s -> (b = false -> rounds (f tt) Q s) -> rounds (bind (when b continue) f) Q s.
Proof. intros Hs Hf. destruct b; [done|]. by apply Hf. Qed.

Lemma wp_for_each {X} (l : list X) (body : X -> M S R unit) s :
  (forall x s, x ∈ l -> J s -> rounds (body x) (fun _ => J) s) -> J s ->
  twp (for_each l body) (fun _ => J) J never s.
Proof.
  revert s. induction l as [|x l IH]; intros s Hb Hs; [done|]. unfold gwp. simpl.
  pose proof (Hb x s ltac:(left) Hs) as Hx. unfold rounds in Hx.
  destruct (body x s) as [[] s']; try done; apply IH; auto; intros y s1 Hy; apply Hb; by right.
Qed.
End Rounds.

Section Propfind.
Context `{E : Env} {ST : Setting} (sane : sane_env) (full : full_answers).
Context (docs : forall c, documents c -> readable_document c).
Implicit Types (g : G) (h : addr).

(** A filler that leaves what the request needs. *)
Definition filling (fill : filler) : Prop := forall h name st s,
  middle h good free_lock s ->
  twp (fill name (Some st)) (fun _ => middle h good free_lock) (middle h good free_lock) never s.

Lemma rounds_fill_response h fill base root r s :
  filling fill -> (forall o, readable o root) -> r ∈ xml_children root -> middle h good free_lock s ->
  rounds (middle h good free_lock) (fill_response fill base r) (fun _ => middle h good free_lock) s.
Proof.
  intros Hfill Hread Hr Hs. apply rounds_unless; [done|]. intros Hname%negb_false_iff.
  destruct s as [l g]. destruct (Hread (options (g_server g)) r Hr Hname) as (f & Hf & Htext).
  apply rounds_step, (wp_deref_some _ f); [done|]. apply rounds_step, wp_condition_throw; intros Hc.
  2: { apply wp_mk_UnspecifiedException. intros e w. apply middle_ex, (middle_ex _ _ _ e (l, set_g_world w g)).
    by apply middle_world. }
  destruct (fd_href f) as [href|] eqn:Hhref; [|done]. destruct (fd_propstat f); [|done].
  destruct (fd_prop f) as [prop|] eqn:Hprop; [|done].
  destruct (Htext href prop eq_refl eq_refl) as [[st Hst] [text Ht]].
  apply rounds_step, wp_shared, rounds_step, (wp_deref_some _ prop); [done|].
  apply rounds_step, (wp_deref_some _ st); [done|]. apply rounds_step, (wp_deref_some _ href); [done|].
  apply rounds_step, (wp_deref_some _ text); [done|]. apply rounds_unless; [done|]. intros _.
  apply rounds_twp, wp_throwable_same, wp_with_assign. cbv zeta. apply wp_bind, wp_ext.
  pose proof (middle_world _ _ _ _ _ (env_easy_unescape
    (str_of (drop (strlen (lit base)) (lit text))) (g_world g)).2 Hs) as Hs1.
  destruct (env_easy_unescape _ _) as [[name|] w]; simpl in *.
  - apply wp_bind, wp_skip, wp_mret. destruct (Exception_has _); [by apply wp_skip|].
    apply wp_bind, (wp_deref_some _ name); [done|].
    refine (wp_mono _ _ _ _ _ _ _ _ (Hfill h _ _ _ Hs1) _ _ _); [intros _ s' Hs'; by apply wp_skip|intros s' Hs'; by apply wp_skip|done].
  - apply wp_bind, wp_mk_CurlException_live; [done|]. intros e He. apply wp_mret.
    destruct (Exception_has _) eqn:Hx; [|by change (Exception_has e = false) in Hx; rewrite He in Hx].
    apply wp_skip. by apply (middle_ex _ _ _ e (l, set_g_world w g)).
Qed.

(** FUSE's filler and the one of [dav_getattr]. *)
Lemma middle_filled h g l f :
  (forall g, g_handles (f g) = g_handles g /\ g_stack (f g) = g_stack g /\ g_next (f g) = g_next g
     /\ same_locks g (f g) /\ options (g_server (f g)) = options (g_server g)) ->
  middle h good free_lock (l, g) -> middle h good free_lock (l, f g).
Proof.
  intros Hf [Hb Hp (e & He & Ho) Ht (Hk & Hu & Hl)]. destruct (Hf g) as (Hh & Hs & Hn & Hsame & Hopt).
  cbn [fst snd] in *. split; cbn [fst snd].
  - done.
  - apply (pool_same _ g); [done|by rewrite Hh|lia|done].
  - exists e. by rewrite Hh.
  - by apply (live_same g).
  - split; [by destruct Hsame as [-> _]|]. by rewrite Hopt.
Qed.
Lemma filling_dir : filling fill_dir.
Proof.
  intros h name st [l g] Hs. apply wp_upd_shared. by apply (middle_filled h g l (fun g => set_g_dirbuf _ g)).
Qed.
Lemma filling_getattr : filling dav_getattr_callback.
Proof.
  intros h name st [l g] Hs. apply wp_bind, (wp_deref_some _ st); [done|].
  apply wp_upd_shared. by apply (middle_filled h g l (set_g_stbuf (Some st))).
Qed.

(** ** The request *)

(** The header list and the transfer. *)
Lemma hoare_propfind_transfer h depth :
  hoare (R := Z) (middle h good free_lock)
    (throwable (scope_slist1 (depth_header depth)
      (append_weak PREFER_MINIMAL ;;;
       append_weak CONTENT_TYPE_XML ;;;
       set_headers (Some h) ;;;
       curl_easy_setopt_ (Some h) CURLOPT_UPLOAD (VLong 1) ;;;
       curl_easy_setopt_ (Some h) CURLOPT_READDATA (VData AT_buf) ;;;
       curl_easy_setopt_ (Some h) CURLOPT_READFUNCTION (VFun CB_Buffer_fetch) ;;;
       curl_easy_setopt_ (Some h) CURLOPT_INFILESIZE (VLong (zlen (lit propfind_body))) ;;;
       curl_easy_setopt_ (Some h) CURLOPT_WRITEDATA (VData AT_ctxt) ;;;
       curl_easy_setopt_ (Some h) CURLOPT_WRITEFUNCTION (VFun CB_curl_parse_xml) ;;;
       curl_easy_setopt_or_die (Some h) CURLOPT_CUSTOMREQUEST (VStr (Some "PROPFIND"%string)) ;;;
       curl_easy_perform_or_die (Some h))))
    (fun s => middle h good free_lock s /\ answered h s) (left_with h).
Proof.
  apply (hoare_with _ _ _ _ (fun _ => skip) _ (middle h good free_lock)).
  - apply middle_left.
  - intros s [Hs _]. by eapply middle_left.
  - intros [l g] Hs. apply wp_bind, wp_slist_append_e; intros; apply wp_upd_local;
      (apply (middle_local _ _ _ l); [done|]).
    + by apply middle_world.
    + apply (middle_ex _ _ _ e (l, set_g_world w g)). by apply middle_world.
  - by intros _ s Hs.
  - intros _. do 4 mid h good free_lock.
    apply hoare_bind with (middle h (good_with CURLOPT_READDATA (VData AT_buf)) free_lock).
    { apply hoare_setopt_; [done|]. apply leads_to_readdata. }
    intros _. apply hoare_bind with (middle h good free_lock).
    { apply hoare_setopt_; [done|]. apply leads_to_read. }
    intros _. mid h good free_lock.
    apply hoare_bind with (middle h (good_but_write (VData AT_ctxt)) free_lock).
    { apply hoare_setopt_; [done|]. apply leads_to_writedata. }
    intros _. apply hoare_bind with (middle h good_xml free_lock).
    { apply hoare_setopt_; [done|]. apply leads_to_parse. }
    intros _. apply hoare_bind with (middle h good_xml free_lock).
    { apply hoare_setopt_or_die; [done|]. apply leads_to_same. intros opts (Hg & Hf & Hd).
      split; [by apply good_add|]. by rewrite !last_opt_other. }
    intros _. by apply hoare_perform_xml.
Qed.

(** What follows it in the block. *)
Definition read_answer (fill : filler) (curl : option addr) : M (Frame * G) Z unit :=
  info <- curl_easy_getinfo curl ;;
  when (negb (info_response_code info =? 207)) break ;;;
  l <- local ;;
  c <- deref (f_ctxt l) ;;
  condition_throw (env_xml_wellFormed c) (mk_UnspecifiedException "Failed to parse") ;;;
  info <- curl_easy_getinfo curl ;;
  root <- deref (env_xml_root c) ;;
  for_each (xml_children root) (fill_response fill (info_effective_url info)).

Lemma read_answer_twp fill h s :
  filling fill -> middle h good free_lock s -> answered h s ->
  twp (read_answer fill (Some h)) (fun _ => middle h good free_lock) (middle h good free_lock) never s.
Proof.
  destruct s as [l g]. intros Hfill Hs Ha. destruct (mid_opts _ _ _ _ Hs) as (e & He & _).
  apply wp_bind, wp_bind, wp_shared, wp_bind, (wp_deref_some _ e); [done|]. apply wp_mret, wp_bind.
  destruct (Z.eqb_spec (info_response_code (easy_info e)) 207) as [Hc|]; [|by apply wp_break].
  apply wp_skip, wp_bind, wp_local, wp_bind. destruct (Ha e He Hc) as [c Hctxt].
  apply (wp_deref_some _ c); [done|]. apply wp_bind, wp_condition_throw; intros Hw.
  - destruct (docs c (buf_ctxt _ (mid_buf _ _ _ _ Hs) c Hctxt) Hw) as (root & Hroot & Hread).
    apply wp_bind, wp_bind, wp_shared, wp_bind, (wp_deref_some _ e); [done|]. apply wp_mret, wp_bind.
    apply (wp_deref_some _ root); [done|]. apply wp_for_each; [|done].
    intros r s Hr Hsr. by apply (rounds_fill_response h fill _ root).
  - apply wp_mk_UnspecifiedException. intros ex w. apply middle_ex, (middle_ex _ _ _ ex (l, set_g_world w g)).
    by apply middle_world.
Qed.

Lemma finish_parse_twp fill h s :
  filling fill -> middle h good free_lock s -> answered h s ->
  twp (finish_parse ;;; read_answer fill (Some h)) (fun _ => middle h good free_lock)
    (middle h good free_lock) never s.
Proof.
  destruct s as [l g]. intros Hfill Hs Ha. apply wp_bind, wp_bind, wp_local.
  destruct (f_ctxt l) as [c|] eqn:Hl; [|by apply wp_skip, read_answer_twp].
  apply wp_bind, wp_ext, wp_upd_local, read_answer_twp; [done|..].
  - apply middle_ctxt; [|by apply middle_world]. intros c' [= <-].
    apply documents_chunk. by apply (buf_ctxt _ (mid_buf _ _ _ _ Hs)).
  - intros e He Hc. by eexists.
Qed.
End Propfind.

Section Settles.
Context `{E : Env} (sane : sane_env) (ans : readable_answers).

(** PROPFIND returns, with nothing borrowed or locked that was not before. *)
Lemma propfind_settles p depth fill l g :
  (forall ST : Setting, filling fill) -> quiescent g ->
  twp (dav_propfind p depth fill) (fun _ _ => False) (fun _ => False)
    (fun v s => (v = 0 \/ v = 1) /\ returned g s.2) (l, g).
Proof.
  intros Hfill Hq. set (d := lit propfind_body). assert (zlen d < 2 ^ 62) as Hd by (vm_compute; reflexivity).
  pose proof (zlen_nonneg d). destruct ans as [full (docs & Hcreate & Hchunk & Hdocs)].
  pose (ST := {| locking := use_lock (options (g_server g)); the_buf := Some (zlen d, zlen d);
    documents := docs; documents_create := Hcreate; documents_chunk := Hchunk |}).
  assert (forall s : Frame * G, returned g s.2 -> twp return_status (fun _ _ => False) (fun _ => False)
    (fun (v : Z) (s' : Frame * G) => (v = 0 \/ v = 1) /\ returned g s'.2) s) as Hst.
  { intros s Hs. apply wp_bind, wp_gets, wp_return. split; [|done].
    unfold TEST_SUCCESS. destruct (Exception_has _); auto. }
  apply wp_bind, wp_with_seperated. cbv zeta. apply wp_skip, wp_upd_local.
  assert (returned g g) as Hg by (by destruct Hq; split).
  destruct (Exception_has _); [by apply wp_skip, Hst|].
  apply wp_with_assign. cbv zeta. apply wp_upd_local.
  destruct (Exception_has _); [by apply wp_skip, wp_skip, Hst|].
  apply wp_throwable_same.
  refine (wp_mono _ _ _ _ _ _ _ _ (block_twp (fun _ => True) _ _ _ _ _) _ _ _); [..|done|done].
  - intros h s Hs. apply wp_bind.
    refine (wp_mono _ _ _ _ _ _ _ _ (hoare_propfind_transfer sane full h depth s Hs) _ _ _);
      [|by intros s1 [_ Hs1]; split|done].
    intros _ s1 [Hs1 Ha].
    refine (wp_mono _ _ _ _ _ _ _ _ (finish_parse_twp Hdocs fill h s1 (Hfill ST) Hs1 Ha) _ _ _); [..|done].
    + intros _ s2 Hs2. split; [by eapply middle_left|done].
    + intros s2 Hs2. split; [by eapply middle_left|done].
  - by apply (ready_buffer d (zlen d) (set_f_ctxt None l) g).
  - intros _ s [Hf _]. by apply wp_skip, wp_skip, Hst, finished_returned.
Qed.
End Settles.
