(* ===== verification/OperProgress.v ===== *)
(** * Operations always come back

    On a mount without locks the operations return, one after the other, for ever: none of them is
    stuck, whatever the server and the memory allocator do, and each leaves the mount as the next
    one needs it. Those that read a PROPFIND answer need one that can be read. *)

From S2P Require Import Prelude Utils Exception Control Buffer Stack State Wp Demo Curl Rules Method MethodSpec Sends Pool Progress Locks LocksSpec UnlockSpec Propfind PropfindProgress Dav DavSpec OperSpec.
#[local] Open Scope Z_scope.
#[local] Open Scope c_scope.
(** ** The mount between two operations *)

Section Idle.
Context `{E : Env}.
Implicit Types (g : G).

(** Nothing is borrowed or locked, and the mount does not use locks. *)
Record idle g : Prop := {
  idle_quiet : quiescent g;
  idle_unlocked : use_lock (options (g_server g)) = false;
}.

Lemma idle_ex g e : idle g -> idle (set_g_ex e g).
Proof. intros [[Hp Ht Hk] Hu]. split; [split|]; [by apply pool_ex|by apply (live_same g)|done..]. Qed.

Lemma returned_idle g g' : returned g g' -> idle g -> idle g'.
Proof.
  intros [Hp Ht Hu Hf] [Hq Hl]. rewrite Hl in *. split; [split|]; auto.
Qed.

(** The handler returns, and leaves such a mount. *)
Definition runs (m : M (HFrame * G) Z unit) (s : HFrame * G) : Prop :=
  twp m (fun _ _ => False) (fun _ => False) (fun _ s' => idle s'.2) s.
Definition live (m : M (HFrame * G) Z unit) : Prop := forall l g, idle g -> runs m (l, g).

(** ** Rules *)

Lemma twp_map {L R} (l : L) g (Q : Z -> L * G -> Prop) B (T : R -> L * G -> Prop) :
  idle g -> (forall z g', idle g' -> Q z (l, g')) -> twp dav_exception_map Q B T (l, g).
Proof. intros Hg HQ. apply wp_bind, wp_gets, wp_bind, wp_upd_ex, wp_mret, HQ. by apply idle_ex. Qed.

Lemma twp_test {L R} r (l : L) g (Q : Z -> L * G -> Prop) B (T : R -> L * G -> Prop) :
  idle g -> (forall z g', idle g' -> Q z (l, g')) -> twp (dav_exception_test r) Q B T (l, g).
Proof.
  intros Hg HQ. unfold dav_exception_test. destruct (negb _); [by apply twp_map|by apply wp_mret, HQ].
Qed.

Lemma runs_map l g : idle g -> runs return_map (l, g).
Proof. intros Hg. apply wp_bind, twp_map; [done|]. intros z g' Hg'. by apply wp_return. Qed.

Lemma runs_check r l g : idle g -> runs (return_check r) (l, g).
Proof.
  intros Hg. apply wp_bind, wp_bind, wp_gets. destruct (Exception_has _).
  - apply twp_map; [done|]. intros z g' Hg'. by apply wp_return.
  - by apply wp_mret, wp_return.
Qed.

Lemma twp_handler {L R} m (l : L) g (Q : Z -> L * G -> Prop) B (T : R -> L * G -> Prop) :
  runs m (hframe0, g) -> (forall r g', idle g' -> Q r (l, g')) -> twp (handler m) Q B T (l, g).
Proof.
  intros Hm HQ. apply wp_bind, wp_call_wp.
  refine (wp_mono _ _ _ _ _ _ _ _ Hm _ _ _); [done..|]. intros r [l' g'] Hg'. by apply wp_mret, HQ.
Qed.
End Idle.

(** ** The requests and the handlers *)

Section Live.
Context `{E : Env} (sane : sane_env).
Variable junk : Z -> bytes.
Implicit Types (g : G) (l : HFrame).

Lemma twp_request {L R} q (l : L) g (Q : Z -> L * G -> Prop) B (T : R -> L * G -> Prop) :
  sized q -> idle g -> (forall r g', idle g' -> Q r (l, g')) -> twp (req (run_request q)) Q B T (l, g).
Proof.
  intros Hq Hg HQ. apply wp_bind, wp_call_wp.
  refine (wp_mono _ _ _ _ _ _ _ _ (request_settles sane q frame0 g Hq _ (idle_quiet _ Hg)) _ _ _); [done..|].
  intros r [l' g'] [_ Hr]. by apply wp_mret, HQ, (returned_idle g).
Qed.

Lemma twp_head_size {L R} p (l : L) g (Q : Z * option Z -> L * G -> Prop) B (T : R -> L * G -> Prop) :
  idle g -> (forall r n g', idle g' -> (r = 0 -> exists z, n = Some z /\ 0 <= z) -> Q (r, n) (l, g')) ->
  twp (head_size p) Q B T (l, g).
Proof.
  intros Hg HQ. apply wp_call_wp.
  refine (wp_mono _ _ _ _ _ _ _ _ (head_size_settles sane p frame0 g _ (idle_quiet _ Hg)) _ _ _); [done..|].
  intros r [l' g'] [Hr Hn]. apply HQ; [by apply (returned_idle g)|exact Hn].
Qed.

(** A handler that is one request. *)
Lemma live_single q : sized q -> live (_ <- req (run_request q) ;; return_check 0).
Proof.
  intros Hq l g Hg. apply wp_bind, twp_request; [done..|]. intros r g' Hg'. by apply runs_check.
Qed.

Lemma proppatch_sized p k v :
  Z.of_nat (length (lit k)) + Z.of_nat (length (lit v)) < 2 ^ 32 -> sized (Rproppatch p k (Some v)).
Proof.
  intros Hn. simpl. unfold proppatch_body, snprintf, zlen. rewrite length_take.
  assert (Z.of_nat sizeof_proppatch_template < 2 ^ 32) by (vm_compute; reflexivity).
  change (length (lit "remove")) with 6%nat. lia.
Qed.

Lemma snprintf_length n s : (0 < n)%nat -> (length (snprintf n s) < n)%nat.
Proof. intros Hn. unfold snprintf. rewrite length_take. lia. Qed.

Lemma operation_sized op q : operation_request op = Some q -> sized q.
Proof.
  destruct op; simpl; intros Hq; simplify_eq; try done.
  - repeat case_match; simplify_eq; done.
  - apply proppatch_sized. unfold mode_value. rewrite lit_str_of.
    pose proof (snprintf_length 19 (fmt_o mode)). simpl length. lia.
  - apply proppatch_sized. unfold owner_value. rewrite lit_str_of.
    pose proof (snprintf_length 22 (fmt_d (i32 uid) ++ ":"%char :: fmt_d (i32 gid))). simpl length. lia.
Qed.

Lemma live_allowed m (rest : M (HFrame * G) Z unit) :
  live rest -> live (ok <- allows m ;; when (negb ok) (return_ (- EOPNOTSUPP)) ;;; rest).
Proof.
  intros Hr l g Hg. apply wp_bind, wp_gets, wp_bind. destruct (negb _); [by apply wp_return|].
  by apply wp_skip, Hr.
Qed.

Lemma live_rename a b f : live (dav_rename a b f).
Proof.
  apply live_allowed. intros l g Hg. apply wp_bind.
  assert (forall q, sized q -> twp (_ <- req (run_request q) ;; skip (R := Z))
    (fun _ s => runs (return_check 0) s) (fun _ => False) (fun _ s => idle s.2) (l, g)) as Hq.
  { intros q Hq. apply wp_bind, twp_request; [done..|]. intros r g' Hg'. by apply wp_skip, runs_check. }
  destruct (f =? 0); [by apply (Hq (Rmove a b))|].
  destruct (f =? RENAME_NOREPLACE); [by apply (Hq (Rmove_nooverwrite a b))|by apply wp_return].
Qed.

(** The caller's array is as large as it says; what was not read stays. *)
Lemma read_settles p n o l g :
  0 <= n <= zlen (h_buf l) -> n < 2 ^ 62 -> idle g -> calm g ->
  twp (dav_read p n o) (fun _ _ => False) (fun _ => False)
    (fun r s => idle s.2 /\ r <= n /\ zlen (h_buf s.1) = zlen (h_buf l)) (l, g).
Proof.
  intros Hn Hb Hg Hc. apply wp_bind. destruct (n =? 0); [apply wp_return; by split_and!; [|lia|]|].
  apply wp_skip, wp_bind, wp_gets, wp_bind, wp_call_wp.
  refine (wp_mono _ _ _ _ _ _ _ _ (get_settles sane p _ n o frame0 g Hn Hb (idle_quiet _ Hg) Hc) _ _ _); [done..|].
  intros r [l1 g1] (Hr%returned_idle & Hrn & b & Hl1 & Hlen); [|done].
  apply wp_bind, wp_modify, wp_bind. cbn [fst snd] in *. rewrite Hl1. simpl.
  destruct (Z.ltb_spec r 0); [|by apply wp_skip, wp_return].
  apply wp_bind, wp_gets. destruct (http_error _ && _).
  - apply wp_bind, wp_upd_ex, wp_return. split_and!; [by apply idle_ex|lia|done].
  - apply wp_bind, wp_bind, wp_gets, wp_bind, wp_upd_ex, wp_mret, wp_return.
    pose proof (exception_errno_negative (get_ex (set_h_buf (data b) l, g1))).
    split_and!; [by apply idle_ex|lia|done].
Qed.

Lemma runs_readlink p n l g :
  0 < n <= zlen (h_buf l) -> n < 2 ^ 62 -> idle g -> calm g -> runs (dav_readlink p n) (l, g).
Proof.
  intros Hn Hb Hg Hc. apply wp_bind, wp_gets, wp_bind, wp_call_wp. rewrite u64_id by lia.
  refine (wp_mono _ _ _ _ _ _ _ _ (read_settles p (n - 1) 0 (set_h_buf (h_buf l) hframe0) g _ _ Hg Hc) _ _ _);
    [simpl; lia|lia|done..|].
  intros r [l1 g1] (Hg1 & Hr & Hlen). apply wp_bind, wp_modify, wp_bind. cbn [fst snd] in *.
  destruct (Z.ltb_spec r 0); [by apply wp_return|].
  apply wp_skip, wp_bind, wp_gets, wp_bind. cbn [fst snd h_buf set_h_buf] in *. unfold zlen in *.
  rewrite decide_True by lia. by apply wp_modify, wp_return.
Qed.

(** A write below the largest offset. *)
Lemma runs_write p b n o l g :
  0 <= n <= zlen b -> n < 2 ^ 62 -> 0 <= o < 2 ^ 62 -> idle g -> runs (dav_write p b n o) (l, g).
Proof.
  intros Hn Hb Ho Hg.
  set (K := fun s => runs (res <- get_res ;; if negb (res =? 0) then return_map else return_ (i32 n)) s).
  assert (forall l z g', h_res l = Some z -> idle g' -> K (l, g')) as Hend.
  { intros l1 z g' Hl Hg'. apply wp_bind. eapply wp_get_res; [exact Hl|].
    destruct (negb _); [by apply runs_map|by apply wp_return]. }
  assert (forall l g', idle g' -> twp (r <- put p b n o ;; set_res (R := Z) r)
    (fun _ => K) K (fun _ s => idle s.2) (l, g')) as Hlast.
  { intros l1 g' Hg'. apply wp_bind, (twp_request (Rput p b n o)); [done..|].
    intros r g2 H2. by eapply wp_modify, Hend. }
  apply wp_bind, wp_do_once. fold K.
  apply wp_bind, (twp_request (Rput p b n o)); [done..|]. intros r1 g1 H1.
  apply wp_bind, wp_modify, wp_bind. simpl. destruct (r1 =? 0); [by eapply wp_break, Hend|].
  apply wp_skip, wp_bind, wp_gets, wp_bind. destruct (negb (issubtype _ _)); [by eapply wp_break, Hend|].
  apply wp_skip, wp_bind. destruct (negb _); [by eapply wp_break, Hend|].
  apply wp_skip, wp_bind, wp_upd_ex, wp_bind, twp_head_size; [by apply idle_ex|].
  intros r2 real g2 H2 Hreal. apply wp_bind, wp_modify, wp_bind. cbn [fst snd].
  destruct (Z.eqb_spec r2 0) as [H0|]; [|by eapply wp_break, Hend].
  apply wp_skip, wp_bind. destruct (Hreal H0) as (z & -> & Hz). apply wp_mret, wp_bind.
  destruct (Z.ltb_spec z (u32 o)) as [Hgap|]; [|by apply wp_skip, Hlast].
  assert (u32 o <= o) by (rewrite u32_mod; apply Z.mod_le; lia).
  apply wp_bind, (twp_request (Rput p _ _ z)); [|done|].
  - simpl. rewrite u64_id by lia. unfold zlen. rewrite repeat_length. lia.
  - intros r3 g3 H3. apply wp_bind, wp_modify. destruct (r3 =? 0); [by apply wp_skip, Hlast|].
    by eapply wp_break, Hend.
Qed.

(** The test that a file does not exist goes on, or the handler returns. *)
Lemma twp_must_not_exist p l g (Q : unit -> HFrame * G -> Prop) B :
  idle g -> (forall g', idle g' -> Q tt (l, g')) -> twp (must_not_exist p) Q B (fun _ s => idle s.2) (l, g).
Proof.
  intros Hg HQ. apply wp_try. cbv zeta. set (K := fun s' : HFrame * G => _).
  assert (forall g', idle g' -> K (l, g')) as HK.
  { intros g' Hg'. unfold K. destruct (Exception_has _); [|by apply HQ]. apply wp_catch_type; intros _.
    - apply wp_catch_default. cbv zeta.
      assert (forall e g', idle g' -> forall z, Q tt (if set e =? z
        then (l, g') else put_ex (Exception_destory e) (l, g'))) as Hend.
      { intros e g2 H2 z. destruct (_ =? _); apply HQ; [done|by apply idle_ex]. }
      apply wp_bind, wp_gets. destruct (negb _).
      + apply wp_throw, wp_skip, Hend. by apply idle_ex, idle_ex.
      + apply wp_skip, Hend. by apply idle_ex.
    - apply wp_onerror_default, wp_skip. by apply HQ. }
  apply wp_bind, wp_throwable, wp_bind, (twp_request (Rhead p false)); [done..|]. intros r g' Hg'. apply wp_skip.
  destruct (Exception_has _); [by apply HK|by apply wp_return].
Qed.

Lemma live_chmod p m : live (dav_chmod p m).
Proof.
  apply (live_single (Rproppatch p "N:mode" (Some (mode_value m)))).
  by apply (operation_sized (Ochmod p m)).
Qed.

Lemma live_unlink p : live (dav_unlink p).
Proof. by apply (live_single (Rdelete p)). Qed.

Lemma live_mknod p m d : live (dav_mknod p m d).
Proof.
  intros l g Hg. apply wp_bind. destruct (mode_is S_IFDIR m); [by apply wp_return|].
  apply wp_skip, wp_bind, wp_try. cbv zeta. set (K := fun s' : HFrame * G => _).
  assert (forall g', idle g' -> K (l, g')) as HK.
  { intros g' Hg'. unfold K. destruct (Exception_has _); [by apply wp_onerror_default, runs_map|].
    apply wp_bind, twp_handler; [by apply live_chmod|]. intros r g2 H2. by apply wp_return. }
  clearbody K. apply wp_bind, wp_throwable, twp_must_not_exist; [done|]. intros g1 H1.
  destruct (Exception_has _); [by apply HK|].
  apply wp_bind, (twp_request (Rput_simple p)); [done..|]. intros r g2 H2. by apply wp_skip, HK.
Qed.

(** The end of the handlers that leave their result in [res]. *)
Lemma runs_finish l r g : h_res l = Some r -> idle g -> runs (res <- get_res ;; return_ res) (l, g).
Proof. intros Hl Hg. apply wp_bind. eapply wp_get_res; [exact Hl|]. by apply wp_return. Qed.

Lemma runs_symlink a b l g : zlen (lit a) < 2 ^ 62 -> idle g -> runs (dav_symlink a b) (l, g).
Proof.
  intros Ha Hg. pose proof (zlen_nonneg (lit a)). apply wp_bind, twp_must_not_exist; [done|]. intros g1 H1.
  set (rest := bind (try_ _ _) _).
  assert (forall l r g', h_res l = Some r -> idle g' -> runs rest (l, g')) as Hrest.
  { intros l2 r g' Hl Hg'. apply wp_bind, wp_try. cbv zeta.
    apply wp_bind, twp_handler; [by apply live_unlink|]. intros r' g2 H2. apply wp_skip.
    destruct (Exception_has _); [|by eapply runs_finish].
    apply wp_catch_default, wp_skip. destruct (_ =? 1); (eapply runs_finish; [exact Hl|]); by repeat apply idle_ex. }
  clearbody rest. apply wp_bind, wp_do_once, wp_bind, twp_handler; [by apply live_mknod|].
  intros r g2 H2. apply wp_bind, wp_modify, wp_bind. simpl.
  destruct (r =? 0); [|by eapply wp_break, Hrest].
  apply wp_skip, wp_bind, twp_handler; [by apply runs_write|].
  intros r2 g3 H3. apply wp_bind, wp_modify, wp_bind. simpl.
  destruct (r2 <? 0); [by eapply wp_break, Hrest|]. by apply wp_skip, wp_return.
Qed.

(** Without locks [dav_lock] and [dav_unlock] do nothing. *)
Lemma wp_no_locks {F : Prop} {L R} (rest : M (Frame * G) Z unit) (l : L) g (Q : Z -> L * G -> Prop) B (T : R -> L * G -> Prop) :
  use_lock (options (g_server g)) = false -> Q 0 (l, g) ->
  gwp F (req (ul <- use_locks ;; when (negb ul) (return_ 0) ;;; rest)) Q B T (l, g).
Proof.
  intros Hg HQ. apply wp_bind, wp_call_wp, wp_bind, wp_gets. cbn [snd]. rewrite Hg.
  by apply wp_bind, wp_return, wp_mret.
Qed.

Lemma live_open_lock p : live (__dav_open p).
Proof.
  intros l g Hg. apply wp_bind, wp_gets, wp_bind. destruct (negb _); [by apply wp_return|].
  apply wp_skip, wp_bind, wp_no_locks; [by apply idle_unlocked|]. apply wp_bind, twp_test; [done|].
  intros z g' Hg'. by apply wp_return.
Qed.

Lemma live_create p m f : live (dav_create p m f).
Proof.
  intros l g Hg. apply wp_bind, twp_handler; [by apply live_mknod|]. intros r g1 H1.
  apply wp_bind. destruct (negb _); [by apply wp_return|]. apply wp_skip, wp_bind, wp_modify, wp_bind. simpl.
  destruct (writes f); [|by eapply wp_skip, runs_finish].
  apply wp_bind, twp_handler; [by apply live_open_lock|]. intros r2 g2 H2. by eapply wp_modify, runs_finish.
Qed.

Lemma live_open p f : writes f && negb (Z.land f O_TRUNC =? 0) = false -> live (dav_open junk p f).
Proof.
  intros Hf l g Hg. apply wp_bind, wp_modify, wp_bind. simpl.
  destruct (writes f); [|by eapply wp_skip, runs_finish]. simpl in Hf. rewrite Hf.
  apply wp_bind, wp_skip, wp_bind. eapply wp_get_res; [done|]. simpl.
  apply wp_bind, twp_handler; [by apply live_open_lock|]. intros r2 g2 H2. by eapply wp_modify, runs_finish.
Qed.

(** Closing a file changes nothing. *)
Lemma wp_release {F : Prop} p f l g :
  use_lock (options (g_server g)) = false ->
  gwp F (dav_release p f) (fun _ _ => False) (fun _ => False) (fun r s => r = 0 /\ s.2 = g) (l, g).
Proof.
  intros Hg. apply wp_bind, wp_gets, wp_bind. destruct (negb _); [by apply wp_return|].
  apply wp_skip, wp_bind. destruct (negb _); [by apply wp_return|].
  apply wp_skip, wp_bind, wp_no_locks; [done|]. by apply wp_return.
Qed.

(** The operations that look at a PROPFIND answer. *)
Lemma live_propfind p depth fill :
  readable_answers -> (forall ST : Setting, filling fill) ->
  live (_ <- req (dav_propfind p depth fill) ;; return_check 0).
Proof.
  intros Ha Hf l g Hg. apply wp_bind, wp_bind, wp_call_wp.
  refine (wp_mono _ _ _ _ _ _ _ _ (propfind_settles sane Ha p depth fill frame0 g Hf (idle_quiet _ Hg)) _ _ _); [done..|].
  intros r [l' g'] [_ Hr]. apply wp_mret, runs_check. by apply (returned_idle g).
Qed.

Lemma idle_dirbuf g d : idle g -> idle (set_g_dirbuf d g).
Proof. intros [[Hp Ht Hk] Hu]. split; [split|]; [by apply (pool_same _ g)|by apply (live_same g)|done..]. Qed.

Lemma live_readdir p : readable_answers -> live (dav_readdir p).
Proof.
  intros Ha l g Hg. apply wp_bind, wp_upd_shared.
  by apply live_propfind; [done|intros ST; apply filling_dir|apply idle_dirbuf].
Qed.

Lemma live_getattr p : readable_answers -> live (dav_getattr p).
Proof. intros Ha. apply live_propfind; [done|intros ST; apply filling_getattr]. Qed.

(** ** Sessions *)

(** The calls that FUSE makes: an array is as large as it says, with offsets below [2 ^ 62]. The ones that
    look at a PROPFIND answer need one that can be read; those that go on from what it says about
    the size of a file ([truncate], with the [open] that truncates, and [copy_file_range]) are
    not among them. *)
Definition callable (op : operation) (buf : bytes) : Prop :=
  match op with
  | Oread _ n _ => 0 <= n <= zlen buf /\ n < 2 ^ 62
  | Owrite _ b n o => 0 <= n <= zlen b /\ n < 2 ^ 62 /\ 0 <= o < 2 ^ 62
  | Oreadlink _ n => 0 < n <= zlen buf /\ n < 2 ^ 62
  | Osymlink from _ => zlen (lit from) < 2 ^ 62
  | Oopen _ f => writes f && negb (Z.land f O_TRUNC =? 0) = false
  | Oreaddir _ | Ogetattr _ => readable_answers
  | Otruncate _ _ | Ocopy_file_range _ _ _ _ _ => False
  | _ => True
  end.

Lemma runs_oper op buf g :
  callable op buf -> idle g -> calm g -> runs (dav_oper junk op) (set_h_buf buf hframe0, g).
Proof.
  intros Hop Hg Hc. destruct op as [p|p|p n o|p b n o|p|a b f|p|p|p m|p u w|p m d|p n|a b|p m f|p f|p f|p n|pi oi po oo n];
    cbn [dav_oper callable] in *; try done.
  - by apply live_readdir.
  - by apply live_getattr.
  - refine (wp_mono _ _ _ _ _ _ _ _ (read_settles p n o (set_h_buf buf hframe0) g (proj1 Hop) (proj2 Hop) Hg Hc) _ _ _); [done..|].
    by intros r s [? _].
  - destruct Hop as (? & ? & ?). by apply runs_write.
  - by apply (live_allowed MKCOL), Hg; apply (live_single (Rmkcol p)).
  - by apply live_rename.
  - by apply live_unlink.
  - by apply live_unlink.
  - by apply live_chmod.
  - apply (live_single (Rproppatch p "N:owner" (Some (owner_value u w)))); [|done].
    by apply (operation_sized (Ochown p u w)).
  - by apply live_mknod.
  - by destruct Hop; apply runs_readlink.
  - by apply runs_symlink.
  - by apply live_create.
  - by apply live_open.
  - refine (wp_mono _ _ _ _ _ _ _ _ (wp_release p f _ g (idle_unlocked _ Hg)) _ _ _); [done..|]. by intros r s [_ ->].
Qed.

(** The operation returns, with the exception object empty. *)
Lemma oper_returns op buf g :
  callable op buf -> idle g -> calm g ->
  exists r s, dav_oper junk op (set_h_buf buf hframe0, g) = (Ret r, s) /\ idle s.2 /\ calm s.2.
Proof.
  intros Hop Hg Hc. destruct (twp_result _ _ _ (runs_oper op buf g Hop Hg Hc)) as (r & s & Hr & Hs).
  exists r, s. split; [done|]. split; [done|]. destruct (is_release op) eqn:Hrel.
  - destruct op as [| | | | | | | | | | | | | | |p f| |]; try discriminate Hrel.
    destruct (twp_result _ _ _ (wp_release p f (set_h_buf buf hframe0) g (idle_unlocked _ Hg))) as (r' & s' & Hr' & _ & Hs').
    cbn [dav_oper] in Hr. rewrite Hr' in Hr. injection Hr as -> ->. by rewrite Hs'.
  - pose proof (tidy_oper junk op Hrel (set_h_buf buf hframe0) g Hc) as Ht. unfold gwp in Ht. by rewrite Hr in Ht.
Qed.

(** One operation after the other, each with the array of its caller: the answers, with the arrays
    after them. *)
Fixpoint session (calls : list (operation * bytes)) (g : G) : option (list (Z * bytes) * G) :=
  match calls with
  | [] => Some ([], g)
  | (op, buf) :: calls =>
      match dav_oper junk op (set_h_buf buf hframe0, g) with
      | (Ret r, s) => '(rs, g') ← session calls s.2; Some ((r, h_buf s.1) :: rs, g')
      | _ => None
      end
  end.

(** C4: on a mount without locks no operation is ever stuck and no failure spoils the next: every
    sequence of operations but truncations and copies of ranges runs to its end with an answer for
    each, whatever libcurl, the server and the memory allocator do within what libcurl documents. For
    the listing of a directory and the attributes of a file the server's answers must have what
    their reading looks for. *)
Theorem sessions_complete (calls : list (operation * bytes)) g :
  Forall (fun c => callable c.1 c.2) calls -> idle g -> calm g ->
  exists rs g', session calls g = Some (rs, g') /\ length rs = length calls /\ idle g' /\ calm g'.
Proof.
  revert g. induction calls as [|[op buf] calls IH]; intros g Hcs Hg Hc; [by exists [], g|].
  apply Forall_cons in Hcs as [Hop Hcs]. simpl in *.
  destruct (oper_returns op buf g Hop Hg Hc) as (r & s & -> & Hg1 & Hc1).
  destruct (IH s.2 Hcs Hg1 Hc1) as (rs & g' & -> & Hl & ? & ?).
  exists ((r, h_buf s.1) :: rs), g'. simpl. by rewrite Hl.
Qed.
End Live.

(** ** Witness *)

(** OperSpec.v's server, which also describes its file. *)
Definition file_document : xmlNode :=
  elem "multistatus" None
    [elem "response" None
      [elem "href" None [elem "text" (Some "http://h/"%string) []];
       elem "propstat" None
         [elem "prop" None [elem "getcontentlength" None [elem "text" (Some "3"%string) []]];
          elem "status" None [elem "text" (Some "HTTP/1.1 200 OK"%string) []]]]].

Definition file_server (opts : list (CURLoption * optval)) (w : Z) : xfer Z :=
  match last_opt CURLOPT_CUSTOMREQUEST opts with
  | Some (VStr (Some "PROPFIND"%string)) =>
      XWrite (lit "<x/>") (fun n => XDone w (if n =? 4 then CURLE_OK else 23) (demo_info 207))
  | _ => sparse_server opts w
  end.

#[local] Abbreviation file_env := (demo_env file_server (Some file_document)).
#[local] Abbreviation file_mount := (demo_state file_server (Some file_document) false [] ex0).

Definition described (w : Z) : xfer Z :=
  XWrite (lit "<x/>") (fun n => XDone w (if n =? 4 then CURLE_OK else 23) (demo_info 207)).
Definition sized_head (w : Z) : xfer Z :=
  XHeader (lit ("Content-Length: 3" +:+ CRLF)) (fun _ => XDone w CURLE_OK (demo_info 200)).

(** What it answers at all. *)
Lemma file_answers (P : xfer Z -> Prop) opts w :
  P (described w) -> P (sized_head w) -> P (XDone 1 CURLE_HTTP_RETURNED_ERROR (demo_info 416)) ->
  P (XDone w CURLE_OK (demo_info 204)) -> P (file_server opts w).
Proof. intros. unfold file_server, sparse_server. by repeat case_match. Qed.

Lemma file_sane : sane_env (E := file_env).
Proof.
  split.
  - done.
  - intros u part w _. by exists u.
  - intros opts w. apply (file_answers sane_xfer).
    + apply sane_write; [by vm_compute|]. intros n. apply sane_done.
    + apply sane_header. intros n. apply sane_done.
    + apply sane_done.
    + apply sane_done.
Qed.

Lemma file_readable : readable_answers (E := file_env).
Proof.
  split.
  - intros opts w. apply (file_answers (full_xfer (E := file_env) false)).
    + apply (full_write (E := file_env)); [done| |by apply (full_done (E := file_env))]. intros n Hn. exists w, 23, (demo_info 207).
      split; [|done]. destruct (Z.eqb_spec n 4) as [->|]; [by destruct Hn|done].
    + apply (full_header (E := file_env)). intros n. by apply (full_done (E := file_env)).
    + by apply (full_done (E := file_env)).
    + by apply (full_done (E := file_env)).
  - exists (fun c => c = Some file_document). split; [by intros chunk w c [= <-]|]. split; [done|].
    intros c -> _. exists file_document. split; [done|]. intros o r Hr _.
    apply list_elem_of_singleton in Hr as ->. eexists. split; [vm_compute; reflexivity|].
    intros href prop [= <-] [= <-]. split; [|by eexists]. unfold stat_of_prop. by eexists.
Qed.

Lemma demo_idle {W} perform root (w : W) :
  idle (E := demo_env perform root) (demo_world perform root w false [] ex0).
Proof.
  split; [|done]. split; [|by split|done]. exists [].
  splits; [by split; [|apply NoDup_nil_2|]|done|apply NoDup_nil_2|done|]. intros a []%elem_of_nil.
Qed.

(** A file is looked at, padded with zeros, read back empty, and removed. *)
Lemma sessions_complete_witness :
  let calls := [(Ogetattr "/a", []); (Oopen "/a" O_RDWR, []); (Owrite "/a" (lit "xy") 2 5, []);
                (Oread "/a" 4 0, repeat NUL 4); (Orelease "/a" O_RDWR, []); (Ounlink "/a", [])] in
  exists rs g', session (E := file_env) (fun _ => []) calls file_mount = Some (rs, g')
    /\ rs.*1 = [0; 0; 2; 0; 0; 0] /\ st_size <$> g_stbuf g' = Some 3.
Proof.
  intros calls.
  destruct (sessions_complete (E := file_env) file_sane (fun _ => []) calls file_mount) as (rs & g' & Hr & _).
  - unfold calls. repeat apply Forall_cons_2; [..|apply Forall_nil_2]; cbn;
      first [exact file_readable|unfold zlen; simpl; repeat split; lia].
  - apply demo_idle.
  - reflexivity.
  - exists rs, g'. split; [exact Hr|].
    assert ((fun p => (p.1.*1, st_size <$> g_stbuf p.2)) <$> session (E := file_env) (fun _ => []) calls file_mount
      = Some ([0; 0; 2; 0; 0; 0], Some 3)) as Hv by (vm_compute; reflexivity).
    rewrite Hr in Hv. injection Hv as Hv Hn. split; [exact Hv|exact Hn].
Defined.
