(* ===== verification/PropfindSpec.v ===== *)
(** * What PROPFIND reads back

    The attributes that the program stores as properties, and the listing of a directory: what the
    reading of the answer yields on the documents a server builds from them. *)

From S2P Require Import Prelude Utils UtilsSpec Exception Control Buffer Stack State Wp Demo Curl Method MethodSpec Locks Propfind Dav.
#[local] Open Scope Z_scope.
#[local] Open Scope c_scope.

(** ** Strings *)

Lemma lit_sapp (s t : string) : lit (s +:+ t) = lit s ++ lit t.
Proof. apply lit_app. Qed.

(** ** Documents *)

Definition text_node (s : string) : xmlNode := mkXml "text" None (Some s) [] [].
Definition leaf (ns name value : string) : xmlNode := mkXml name (Some ns) None [] [text_node value].
Definition element (ns name : string) (children : list xmlNode) : xmlNode :=
  mkXml name (Some ns) None [] children.

(** A file as a server knows it: its name in its directory, whether it is a directory, its size and
    the mode the program stored. *)
Record file := mkFile {
  file_name : string;
  file_is_dir : bool;
  file_size : Z;
  file_mode : option Z;
}.

Definition file_props (f : file) : list xmlNode :=
  [element "DAV:" "resourcetype" (if file_is_dir f then [element "DAV:" "collection" []] else []);
   leaf "DAV:" "getcontentlength" (str_of (fmt_d (file_size f)))]
  ++ match file_mode f with Some m => [leaf NETWORKFS_XML_NS "mode" (mode_value m)] | None => [] end.

(** The name of a directory ends in a slash. *)
Definition href_name (f : file) : string := file_name f +:+ (if file_is_dir f then "/" else "").

Definition file_response (base : string) (escape : string -> string) (f : file) : xmlNode :=
  element "DAV:" "response"
    [leaf "DAV:" "href" (base +:+ escape (href_name f));
     element "DAV:" "propstat"
       [element "DAV:" "prop" (file_props f); leaf "DAV:" "status" "HTTP/1.1 200 OK"]].

(** The attributes the program is to see. *)
Definition file_stat (o : networkfs_opts) (f : file) : Stat :=
  let st := set_st_size (file_size f)
              (if file_is_dir f
               then set_st_nlink 2 (set_st_mode (masked_mode S_IFDIR (dmask o)) (st_default o))
               else st_default o) in
  match file_mode f with Some m => set_st_mode m st | None => st end.

Definition shown_name (f : file) : string :=
  if decide (file_name f = ""%string) then "."%string else file_name f.

Definition plain_mode (m : Z) : Prop :=
  0 <= m < 2 ^ 32 /\ mode_is S_IFCHR m = false /\ mode_is S_IFBLK m = false.

Record file_ok (f : file) : Prop := {
  name_nul : cstr (lit (file_name f)) = lit (file_name f);
  name_slash : strchr (lit (file_name f)) "/"%char = None;
  size_range : 0 <= file_size f <= LONG_MAX;
  mode_plain : forall m, file_mode f = Some m -> plain_mode m;
}.

Section Attributes.
Context `{E : Env}.

(** libxml2's comparison is 0 exactly on equal strings. *)
Hypothesis xmlStrcmp_eq : forall s t, env_xmlStrcmp (Some s) (Some t) = 0 <-> s = t.

Lemma xmlStrcmp_test s t : (env_xmlStrcmp (Some s) (Some t) =? 0) = bool_decide (s = t).
Proof.
  case_bool_decide as Hs; [apply Z.eqb_eq|apply Z.eqb_neq]; by rewrite xmlStrcmp_eq.
Qed.

Lemma name_is_test n s : name_is n s = bool_decide (xml_name n = s).
Proof. apply xmlStrcmp_test. Qed.

Lemma in_ns_test n ns href : xml_ns n = Some href -> in_ns n ns = Some (bool_decide (href = ns)).
Proof. intros Hn. unfold in_ns. rewrite Hn. simpl. by rewrite xmlStrcmp_test. Qed.

(** A mode has at most eleven octal digits. *)
Lemma mode_value_fits m : 0 <= m < 2 ^ 32 -> lit (mode_value m) = fmt_o m.
Proof.
  intros Hm. unfold mode_value. rewrite lit_str_of, snprintf_fits; [done|].
  assert (Z.of_nat (length (fmt_o m)) <= 11); [|lia]. apply udigits_length; lia.
Qed.

Lemma strtol_mode m : 0 <= m < 2 ^ 32 -> strtol (lit (mode_value m)) 8 = (m, []).
Proof.
  intros Hm. rewrite mode_value_fits by done. rewrite <- (app_nil_r (fmt_o m)).
  apply strtol_fmt_o; [unfold LONG_MAX; lia|done].
Qed.

Lemma mode_reads_back m st :
  plain_mode m -> nfs_prop (leaf NETWORKFS_XML_NS "mode" (mode_value m)) st = Some (set_st_mode m st).
Proof.
  intros (Hm & Hc & Hb). unfold nfs_prop. rewrite (in_ns_test _ _ NETWORKFS_XML_NS) by done.
  rewrite bool_decide_true by done. cbn [mbind option_bind negb]. rewrite name_is_test.
  rewrite bool_decide_true by done. unfold node_text. simpl. rewrite strtol_mode by done.
  rewrite u32_id by done. simpl. by rewrite Hc, Hb.
Qed.

(** C19: the mode that [chmod] stores as a property is the mode that a later PROPFIND reads, for every
    mode but those of devices, whatever was read before. *)
Theorem chmod_reads_back m st :
  plain_mode m -> nfs_prop (leaf NETWORKFS_XML_NS "mode" (mode_value m)) st = Some (set_st_mode m st).
Proof. apply mode_reads_back. Qed.

(** The owner that [chown] stores: at most 21 characters, of which the user comes first. *)
Lemma owner_value_prefix u w :
  exists rest, lit (owner_value u w) = fmt_d (i32 u) ++ ":"%char :: rest.
Proof.
  unfold owner_value. rewrite lit_str_of. unfold snprintf.
  assert (Z.of_nat (length (fmt_d (i32 u))) <= 11) as Hl.
  { assert (- 2 ^ 31 <= i32 u < 2 ^ 31) as Hi.
    { unfold i32, signed. pose proof (Z.mod_pos_bound u (2 ^ 32) ltac:(lia)).
      replace (2 ^ (32 - 1)) with (2 ^ 31) by done.
      destruct (u mod 2 ^ 32 <? 2 ^ 31) eqn:?; lia. }
    unfold fmt_d. destruct (i32 u <? 0) eqn:Hneg.
    - cbn [length]. assert (Z.of_nat (length (udigits 10 (- i32 u))) <= 10); [|lia].
      apply udigits_length; lia.
    - assert (Z.of_nat (length (udigits 10 (i32 u))) <= 10); [|lia]. apply udigits_length; lia. }
  rewrite take_app_ge by lia. destruct (22 - 1 - length (fmt_d (i32 u)))%nat as [|k] eqn:Hk; [lia|].
  exists (take k (fmt_d (i32 w))). done.
Qed.

(** C20: the owner that [chown] stores is read back as the user it names and the group 0, whatever
    the group was: the text holds a colon where the reading expects white space. *)
Theorem chown_reads_back_group_zero u w st :
  0 <= u < 2 ^ 32 ->
  nfs_prop (leaf NETWORKFS_XML_NS "owner" (owner_value u w)) st = Some (set_st_owner u 0 st).
Proof.
  intros Hu. unfold nfs_prop. rewrite (in_ns_test _ _ NETWORKFS_XML_NS) by done.
  rewrite bool_decide_true by done. cbn [mbind option_bind negb]. rewrite !name_is_test.
  rewrite !bool_decide_false by done. rewrite bool_decide_true by done.
  unfold node_text. cbn [leaf xml_children head mbind option_bind xml_content text_node].
  destruct (owner_value_prefix u w) as [rest ->].
  assert (u32 (i32 u) = u) as Hback.
  { rewrite u32_mod. unfold i32, signed. rewrite (Z.mod_small u) by lia.
    replace (2 ^ (32 - 1)) with (2 ^ 31) by done. destruct (u <? 2 ^ 31) eqn:?; [apply Z.mod_small; lia|].
    replace (u - 2 ^ 32) with (u + (-1) * 2 ^ 32) by lia. rewrite Z.mod_add by lia. apply Z.mod_small. lia. }
  rewrite strtol_fmt_d; [|unfold i32, signed, LONG_MIN, LONG_MAX|done].
  - by rewrite Hback.
  - pose proof (Z.mod_pos_bound u (2 ^ 32) ltac:(lia)).
    replace (2 ^ (32 - 1)) with (2 ^ 31) by done. destruct (u mod 2 ^ 32 <? 2 ^ 31) eqn:?; lia.
Qed.

(** *** A listing *)

Lemma strtol_size n : 0 <= n <= LONG_MAX -> strtol (lit (str_of (fmt_d n))) 10 = (n, []).
Proof.
  intros Hn. rewrite lit_str_of, <- (app_nil_r (fmt_d n)).
  apply strtol_fmt_d; [unfold LONG_MIN; lia|done].
Qed.

Lemma dav_prop_type o (d : bool) st :
  dav_prop o (element "DAV:" "resourcetype" (if d then [element "DAV:" "collection" []] else [])) st
  = Some (if d then set_st_nlink 2 (set_st_mode (masked_mode S_IFDIR (dmask o)) st) else st).
Proof.
  unfold dav_prop. rewrite (in_ns_test _ _ "DAV:") by done. rewrite bool_decide_true by done.
  cbn [mbind option_bind negb]. rewrite !name_is_test. rewrite bool_decide_false by done.
  rewrite bool_decide_true by done. destruct d; cbn [element xml_children head]; [|done].
  rewrite name_is_test. by rewrite bool_decide_true.
Qed.

Lemma dav_prop_size o n st :
  0 <= n <= LONG_MAX ->
  dav_prop o (leaf "DAV:" "getcontentlength" (str_of (fmt_d n))) st = Some (set_st_size n st).
Proof.
  intros Hn. unfold dav_prop. rewrite (in_ns_test _ _ "DAV:") by done. rewrite bool_decide_true by done.
  cbn [mbind option_bind negb]. rewrite name_is_test. rewrite bool_decide_true by done.
  unfold node_text. cbn [leaf xml_children head mbind option_bind xml_content text_node].
  by rewrite strtol_size.
Qed.

(** Properties of the other namespace are passed over. *)
Lemma dav_prop_other o n st : xml_ns n = Some NETWORKFS_XML_NS -> dav_prop o n st = Some st.
Proof.
  intros Hn. unfold dav_prop. rewrite (in_ns_test _ _ NETWORKFS_XML_NS) by done.
  by rewrite bool_decide_false.
Qed.
Lemma nfs_prop_other n st : xml_ns n = Some "DAV:"%string -> nfs_prop n st = Some st.
Proof.
  intros Hn. unfold nfs_prop. rewrite (in_ns_test _ _ "DAV:") by done. by rewrite bool_decide_false.
Qed.

Lemma stat_of_file o f :
  file_ok f -> stat_of_prop o (element "DAV:" "prop" (file_props f)) = Some (file_stat o f).
Proof.
  intros Hf. unfold stat_of_prop, file_stat. cbn [element xml_children]. unfold file_props.
  pose proof (size_range _ Hf) as Hs.
  destruct (file_mode f) as [m|] eqn:Hm; cbn [app read_props].
  - rewrite dav_prop_type. cbn [mbind option_bind]. rewrite dav_prop_size by done.
    cbn [mbind option_bind]. rewrite dav_prop_other by done. cbn [mbind option_bind].
    rewrite !nfs_prop_other by done. cbn [mbind option_bind]. rewrite nfs_prop_other by done.
    cbn [mbind option_bind]. unfold leaf at 1.
    change (mkXml "mode" (Some NETWORKFS_XML_NS) None [] [text_node (mode_value m)])
      with (leaf NETWORKFS_XML_NS "mode" (mode_value m)).
    rewrite mode_reads_back by by apply (mode_plain _ Hf). done.
  - rewrite dav_prop_type. cbn [mbind option_bind]. rewrite dav_prop_size by done.
    cbn [mbind option_bind]. rewrite !nfs_prop_other by done. cbn [mbind option_bind].
    by rewrite nfs_prop_other.
Qed.

Lemma name_is_element ns n children s : name_is (element ns n children) s = bool_decide (n = s).
Proof. apply name_is_test. Qed.
Lemma name_is_leaf ns n v s : name_is (leaf ns n v) s = bool_decide (n = s).
Proof. apply name_is_test. Qed.

(** What is read of a response: its four parts. *)
Lemma response_found base escape f :
  scan_response (xml_children (file_response base escape f)) (mkFound None None None None)
  = Some (mkFound (Some (leaf "DAV:" "href" (base +:+ escape (href_name f))))
            (Some (element "DAV:" "propstat"
               [element "DAV:" "prop" (file_props f); leaf "DAV:" "status" "HTTP/1.1 200 OK"]))
            (Some (element "DAV:" "prop" (file_props f)))
            (Some (leaf "DAV:" "status" "HTTP/1.1 200 OK"))).
Proof.
  unfold file_response. unfold element at 1. cbn [xml_children].
  cbn [scan_response fd_href fd_propstat fd_prop fd_status]. rewrite name_is_leaf.
  rewrite (bool_decide_true ("href"%string = "href"%string)) by done.
  cbn [scan_response fd_href fd_propstat fd_prop fd_status]. rewrite name_is_element.
  rewrite bool_decide_true by done. unfold take_propstat. unfold element at 1. cbn [xml_children].
  cbn [scan_propstat]. rewrite name_is_element, bool_decide_true by done.
  cbn [scan_propstat]. rewrite name_is_leaf, bool_decide_true by done.
  cbn [scan_propstat mbind option_bind leaf xml_children head xml_content text_node].
  rewrite xmlStrcmp_test, bool_decide_true by done. done.
Qed.

(** The name in the listing. *)
Lemma entry_name_href f : file_ok f -> entry_name (href_name f) = shown_name f.
Proof.
  intros Hf. unfold entry_name, href_name, shown_name. rewrite lit_sapp.
  assert (match lit (file_name f) with [] => "."%string | _ => str_of (lit (file_name f)) end
          = if decide (file_name f = ""%string) then "."%string else file_name f) as Hn.
  { rewrite str_of_lit. destruct (file_name f) eqn:Hx; [by rewrite decide_True|].
    by rewrite decide_False. }
  destruct (file_is_dir f).
  - change (lit "/") with ["/"%char]. rewrite strchr_app by (done || apply Hf).
    by rewrite take_app_length.
  - change (lit "") with (@nil ascii). rewrite app_nil_r. rewrite (name_slash _ Hf). exact Hn.
Qed.

(** libcurl decodes the names as the server encoded them. *)
Variable escape : string -> string.
Hypothesis unescape_escape : forall name w, (env_easy_unescape (escape name) w).1 = Some name.
Variable base : string.
Hypothesis base_text : cstr (lit base) = lit base.

Lemma unescape_run {L R} name (l : L) g :
  exists w, curl_easy_unescape_e (R := R) (escape name) (l, g) = (Next (Some name), (l, set_g_world w g)).
Proof.
  exists (env_easy_unescape (escape name) (g_world g)).2. unfold curl_easy_unescape_e, ext, bind, when, skip, mret. cbn [fst snd].
  pose proof (unescape_escape name (g_world g)) as Hn. destruct (env_easy_unescape _ _) as [o w].
  cbn [fst] in Hn. subst o. done.
Qed.

(** The text after the base of a URL. *)
Lemma after_base name :
  str_of (drop (strlen (lit base)) (lit (base +:+ name))) = name.
Proof.
  rewrite lit_sapp. unfold strlen. rewrite base_text, drop_app_length. apply str_of_lit.
Qed.

Lemma base_prefix name : (strscmp (lit (base +:+ name)) (lit base) =? 0) = true.
Proof.
  apply Z.eqb_eq, strscmp_prefix. rewrite base_text, lit_sapp. by exists (lit name).
Qed.

Lemma fill_file f l g :
  file_ok f -> Exception_has (g_ex g) = false ->
  exists w, fill_response fill_dir base (file_response base escape f) (l, g)
    = (Next tt, (l, set_g_dirbuf
        (g_dirbuf g ++ [(shown_name f, Some (file_stat (options (g_server g)) f))]) (set_g_world w g))).
Proof.
  intros Hf He. destruct (unescape_run (R := Z) (href_name f) l g) as [w Hw]. exists w.
  unfold fill_response. unfold file_response at 1. rewrite name_is_element, bool_decide_true by done.
  rewrite response_found. cbn [negb when fd_href fd_propstat fd_prop fd_status deref not_null andb
    condition_throw].
  erewrite bind_next by reflexivity. erewrite bind_next by reflexivity.
  erewrite bind_next by reflexivity. erewrite bind_next by reflexivity.
  erewrite bind_next by reflexivity. rewrite stat_of_file by done.
  erewrite bind_next by reflexivity. erewrite bind_next by reflexivity.
  erewrite bind_next by reflexivity. rewrite base_prefix.
  erewrite bind_next by reflexivity. rewrite throwable_run, after_base.
  rewrite (with_assign_run _ _ _ _ _ _ (fun s => s) Hw) by done.
  assert (Exception_has (get_ex (l, set_g_world w g)) = false) as -> by done.
  erewrite bind_next by reflexivity. rewrite entry_name_href by done.
  unfold fill_dir, upd_shared, modify. cbn [absorb fst snd].
  change (get_ex _) with (g_ex g). by rewrite He.
Qed.

(** C18: a directory that a server describes file by file is read back as it is: for every file, in
    order, the filler gets its name and its attributes, and no exception arises. *)
Theorem listing_reads_back fs l g :
  Forall file_ok fs -> Exception_has (g_ex g) = false ->
  exists w, for_each (file_response base escape <$> fs) (fill_response fill_dir base) (l, g)
    = (Next tt, (l, set_g_dirbuf
        (g_dirbuf g ++ ((fun f => (shown_name f, Some (file_stat (options (g_server g)) f))) <$> fs))
        (set_g_world w g))).
Proof.
  intros Hfs. revert g. induction Hfs as [|f fs Hf Hfs IH]; intros g He.
  - exists (g_world g). cbn [fmap list_fmap for_each]. rewrite app_nil_r. by destruct g.
  - destruct (fill_file f l g Hf He) as [w Hw]. cbn [fmap list_fmap for_each]. rewrite Hw.
    edestruct IH as [w' ->]; [|exists w'; cbn; by rewrite <- app_assoc]. done.
Qed.

End Attributes.

(** ** The theorems at concrete inputs *)

Section Examples.
#[local] Instance demo : Env := demo_env (answers 207) None.

Lemma demo_xmlStrcmp s t : env_xmlStrcmp (Some s) (Some t) = 0 <-> s = t.
Proof. simpl. case_decide; naive_solver. Qed.

Lemma chmod_reads_back_witness :
  plain_mode 33188 /\
  nfs_prop (leaf NETWORKFS_XML_NS "mode" (mode_value 33188)) (st_default (demo_opts false))
  = Some (set_st_mode 33188 (st_default (demo_opts false))).
Proof.
  assert (plain_mode 33188) as Hm by by repeat split.
  split; [exact Hm|]. apply (chmod_reads_back demo_xmlStrcmp _ _ Hm).
Defined.

Lemma chown_reads_back_group_zero_witness :
  nfs_prop (leaf NETWORKFS_XML_NS "owner" (owner_value 1000 1000)) (st_default (demo_opts false))
  = Some (set_st_owner 1000 0 (st_default (demo_opts false))).
Proof. apply (chown_reads_back_group_zero demo_xmlStrcmp); lia. Defined.

Definition demo_files : list file :=
  [mkFile "" true 0 None; mkFile "sub" true 0 (Some 16877); mkFile "a b" false 12 (Some 33152)].

Lemma demo_files_ok : Forall file_ok demo_files.
Proof.
  repeat (apply Forall_cons; split);
    [..|done]; (split; [done|done|done|]; intros m [= <-]; by repeat split).
Defined.

Lemma listing_reads_back_witness :
  exists w, for_each (file_response "http://h/" id <$> demo_files) (fill_response fill_dir "http://h/")
      (frame0, demo_state (answers 207) None false [] ex0)
    = (Next tt, (frame0, set_g_dirbuf
        ([] ++ ((fun f => (shown_name f, Some (file_stat (demo_opts false) f))) <$> demo_files))
        (set_g_world w (demo_state (answers 207) None false [] ex0)))).
Proof.
  apply (listing_reads_back demo_xmlStrcmp id ltac:(done) "http://h/" ltac:(done) demo_files frame0
    (demo_state (answers 207) None false [] ex0) demo_files_ok eq_refl).
Defined.
End Examples.
