(* ===== verification/TextSpec.v ===== *)
(** * The texts that go into arrays

    The headers, the PROPPATCH body and the range of a transfer are printed into arrays of a size that
    the source computes. Which of them are whole, and how the others are cut. *)

From S2P Require Import Prelude Utils UtilsSpec Exception Control Buffer State Curl Method.
#[local] Open Scope Z_scope.

(** ** Digits of a known number *)

(** More fuel than digits changes nothing. *)
Lemma to_digits_fuel base (f1 : nat) : forall (f2 : nat) n,
  2 <= base -> 0 <= n -> n < base ^ Z.of_nat (S f1) -> n < base ^ Z.of_nat (S f2) ->
  to_digits (S f1) base n = to_digits (S f2) base n.
Proof.
  induction f1 as [|f1 IH]; intros f2 n Hb Hn H1 H2; rewrite !to_digits_S;
    destruct (Z.ltb_spec n base) as [|Hge]; try done.
  { change (Z.of_nat 1) with 1 in H1. rewrite Z.pow_1_r in H1. lia. }
  destruct f2 as [|f2]; [change (Z.of_nat 1) with 1 in H2; rewrite Z.pow_1_r in H2; lia|].
  f_equal. apply IH; [done| |by apply (div_below base)|by apply (div_below base)].
  apply Z.div_pos; lia.
Qed.

Lemma udigits_S base n :
  2 <= base -> base <= n -> udigits base n = udigits base (n / base) ++ [digit (n mod base)].
Proof.
  intros Hb Hn. unfold udigits at 1. rewrite to_digits_S.
  rewrite (proj2 (Z.ltb_ge n base)) by done. f_equal.
  assert (1 <= Z.log2 n) as Hl by (apply Z.log2_le_pow2; lia).
  destruct (Z.to_nat (Z.log2 n)) as [|f] eqn:Hf; [lia|].
  assert (0 <= n < base ^ Z.of_nat (S (S f))) as Hlt by (rewrite <- Hf; split; [lia|apply udigits_fuel; lia]).
  apply to_digits_fuel; [done|apply Z.div_pos; lia|by apply div_below|].
  apply udigits_fuel; [done|apply Z.div_pos; lia].
Qed.

(** A number between [10 ^ k] and [10 ^ (k + 1)] has [k + 1] digits. *)
Lemma udigits_length_ge n k : 10 ^ Z.of_nat k <= n -> (k < length (udigits 10 n))%nat.
Proof.
  revert n. induction k as [|k IH]; intros n Hn.
  - destruct (udigits_head 10 n) as (d & s & -> & _); [lia|change (10 ^ Z.of_nat 0) with 1 in Hn; lia|].
    simpl. lia.
  - rewrite Nat2Z.inj_succ, Z.pow_succ_r in Hn by lia. pose proof (Z.pow_pos_nonneg 10 (Z.of_nat k)).
    rewrite udigits_S by lia. rewrite length_app. simpl.
    assert (k < length (udigits 10 (n / 10)))%nat; [|lia].
    apply IH. apply Z.div_le_lower_bound; lia.
Qed.

Lemma udigits_length_eq n k :
  10 ^ Z.of_nat k <= n < 10 ^ Z.of_nat (S k) -> length (udigits 10 n) = S k.
Proof.
  intros [H1 H2]. pose proof (udigits_length_ge n k H1).
  assert (0 < 10 ^ Z.of_nat k) by (apply Z.pow_pos_nonneg; lia).
  assert (Z.of_nat (length (udigits 10 n)) <= Z.of_nat (S k)) by (apply udigits_length; lia). lia.
Qed.

(** Cutting digits off divides. *)
Lemma take_udigits n k j :
  10 ^ Z.of_nat (k + j) <= n < 10 ^ Z.of_nat (S (k + j)) ->
  take (S k) (udigits 10 n) = udigits 10 (n / 10 ^ Z.of_nat j).
Proof.
  revert n. induction j as [|j IH]; intros n Hn.
  - rewrite Nat.add_0_r in Hn. change (10 ^ Z.of_nat 0) with 1. rewrite Z.div_1_r.
    apply take_ge. by rewrite (udigits_length_eq n k).
  - assert (10 ^ Z.of_nat (k + S j) = 10 * 10 ^ Z.of_nat (k + j)) as E1
      by (rewrite <- Z.pow_succ_r by lia; f_equal; lia).
    assert (10 ^ Z.of_nat (S (k + S j)) = 10 * 10 ^ Z.of_nat (S (k + j))) as E2
      by (rewrite <- Z.pow_succ_r by lia; f_equal; lia).
    assert (0 < 10 ^ Z.of_nat (k + j)) by (apply Z.pow_pos_nonneg; lia).
    assert (10 ^ Z.of_nat (k + j) <= n / 10 < 10 ^ Z.of_nat (S (k + j))) as Hd.
    { split; [apply Z.div_le_lower_bound|apply Z.div_lt_upper_bound]; lia. }
    rewrite udigits_S by lia. rewrite take_app_le by (rewrite (udigits_length_eq _ (k + j)); [lia|done]).
    rewrite IH by done. f_equal. rewrite Nat2Z.inj_succ, Z.pow_succ_r by lia.
    rewrite Z.div_div; [done|lia|]. apply Z.pow_pos_nonneg; lia.
Qed.

(** ** The range *)


(** What is printed, before it is cut. *)
Lemma range_text_cut offset size :
  0 <= offset -> 0 < size -> offset + size < 2 ^ 62 ->
  range_text offset size = take 21 (udigits 10 offset ++ "-"%char :: udigits 10 (offset + size - 1)).
Proof.
  intros Ho Hs Hb. unfold range_text, snprintf. rewrite u64_id by lia. rewrite !i64_id by lia.
  replace (size + offset - 1) with (offset + size - 1) by lia. unfold fmt_d.
  by rewrite !(proj2 (Z.ltb_ge _ 0)) by lia.
Qed.

(** The two ends that a server reads. *)
Definition range_reads (t : bytes) (first last : Z) : Prop :=
  exists rest, strtol t 10 = (first, "-"%char :: rest) /\ strtol rest 10 = (last, []).

Lemma range_reads_digits a b :
  0 <= a <= LONG_MAX -> 0 <= b <= LONG_MAX -> range_reads (udigits 10 a ++ "-"%char :: udigits 10 b) a b.
Proof.
  intros Ha Hb. exists (udigits 10 b). split; [by apply strtol_udigits; [lia|lia|]|].
  rewrite <- (app_nil_r (udigits 10 b)) at 1. by apply strtol_udigits; [lia|lia|].
Qed.

(** Below 10 GB both ends are there in full. *)
Lemma range_text_whole offset size :
  0 <= offset -> 0 < size -> offset + size <= 10 ^ 10 ->
  range_text offset size = udigits 10 offset ++ "-"%char :: udigits 10 (offset + size - 1).
Proof.
  intros Ho Hs Hb. rewrite range_text_cut by lia.
  pose proof (udigits_length 10 offset 10). pose proof (udigits_length 10 (offset + size - 1) 10).
  by rewrite take_ge by (rewrite length_app; simpl; lia).
Qed.

(** C28: the range of a transfer below 10 GB names its first and its last byte: the array of
    [with_range], of 22 bytes, holds the whole text. *)
Theorem range_reads_back offset size :
  0 <= offset -> 0 < size -> offset + size <= 10 ^ 10 ->
  range_reads (range_text offset size) offset (offset + size - 1).
Proof.
  intros Ho Hs Hb. rewrite range_text_whole by done. apply range_reads_digits; unfold LONG_MAX; lia.
Qed.

(** C29: from 10 GB to 100 GB the last two digits of the last byte's number are cut off, so the
    range ends far before it begins. *)
Theorem range_is_cut offset size :
  10 ^ 10 <= offset -> 0 < size -> offset + size <= 10 ^ 11 ->
  range_reads (range_text offset size) offset ((offset + size - 1) / 100).
Proof.
  intros Ho Hs Hb. rewrite range_text_cut by lia.
  assert (length (udigits 10 offset) = 11%nat) as Hl by (apply (udigits_length_eq offset 10); lia).
  rewrite take_app_ge, Hl by lia. cbn [Nat.sub]. rewrite firstn_cons.
  rewrite (take_udigits (offset + size - 1) 8 2) by lia. change (10 ^ Z.of_nat 2) with 100.
  apply range_reads_digits; unfold LONG_MAX; [lia|].
  split; [apply Z.div_pos; lia|]. apply Z.div_le_upper_bound; lia.
Qed.

(** ** Headers and bodies *)

(** The length of the filled template: the text around the conversions and the arguments. *)
Lemma length_fill_args key value :
  (length (fill proppatch_pieces (proppatch_args key value))
   <= length (fill proppatch_pieces []) + 12 + 2 * length (lit key)
      + match value with Some v => length (lit v) | None => 0 end)%nat.
Proof.
  unfold proppatch_pieces, proppatch_args. cbn [fill].
  repeat first [rewrite length_app | progress cbn [length app]].
  destruct value as [v|]; cbn [default]; unfold lit; simpl; lia.
Qed.

Lemma lit_dest_header path_url : lit (dest_header path_url) = lit "Destination: " ++ lit path_url.
Proof. unfold dest_header. rewrite lit_str_of. apply snprintf_fits. rewrite !length_app. simpl. lia. Qed.

(** C30: the headers If, Destination and Lock-Token and the body of a PROPPATCH are whole,
    whatever the token, the path, the key and the value are. *)
Theorem texts_are_whole token path_url key value :
  lit (if_header token) = lit "If: (<" ++ lit token ++ lit ">)"
  /\ lit (dest_header path_url) = lit "Destination: " ++ lit path_url
  /\ lit (token_header token) = lit "Lock-Token: <" ++ lit token ++ lit ">"
  /\ proppatch_body key value = fill proppatch_pieces (proppatch_args key value).
Proof.
  unfold if_header, dest_header, token_header, proppatch_body. rewrite !lit_str_of.
  splits; apply snprintf_fits.
  - rewrite !length_app. simpl. lia.
  - rewrite !length_app. simpl. lia.
  - rewrite !length_app. simpl. lia.
  - pose proof (length_fill_args key value) as Hl. unfold sizeof_proppatch_template.
    change (length (lit "remove")) with 6%nat. lia.
Qed.

(** ** Witnesses *)

Lemma range_reads_back_witness :
  0 <= 9999999990 /\ range_reads (range_text 9999999990 10) 9999999990 9999999999.
Proof. split; [lia|]. apply (range_reads_back 9999999990 10); lia. Defined.

Lemma range_is_cut_witness :
  10 ^ 10 <= 20000000000 /\ range_reads (range_text 20000000000 4096) 20000000000 200000040.
Proof. split; [lia|]. apply (range_is_cut 20000000000 4096); lia. Defined.
