(* ===== verification/Server.v ===== *)
(** * A server that stores files

    What the program relies on when it reads and writes through ranges, as an interface: the class
    [FileServer] states what libcurl and a WebDAV server with partial PUT document of GET, PUT, HEAD,
    DELETE, MOVE, MKCOL and PROPPATCH. The rest is what a transfer does to the program when the answers of its functions are known. *)

From S2P Require Import Prelude Utils UtilsSpec Exception Control Buffer Stack State Wp Demo Curl Rules Method MethodSpec Pool Progress TextSpec.
#[local] Open Scope Z_scope.
#[local] Open Scope c_scope.

(** ** Contents *)

(** The bytes of a range. *)
Definition slice (c : bytes) (offset n : Z) : bytes := take (Z.to_nat n) (drop (Z.to_nat offset) c).

(** A content with the new bytes in place; a gap before them is zeros. *)
Definition patch (c : bytes) (offset : Z) (new : bytes) : bytes :=
  resize (Z.to_nat offset) NUL c ++ new ++ drop (Z.to_nat offset + length new) c.

Lemma slice_patch c offset new : slice (patch c offset new) offset (zlen new) = new.
Proof.
  unfold slice, patch, zlen. rewrite drop_app_length' by (by rewrite length_resize).
  rewrite Nat2Z.id. apply take_app_length.
Qed.

(** Filling the gap first makes no difference. *)
Lemma patch_gap c n offset new :
  0 <= n <= offset -> zlen c <= n -> patch (patch c n (repeat NUL (Z.to_nat (offset - n)))) offset new = patch c offset new.
Proof.
  unfold zlen. intros Hn Hc.
  assert (patch c n (repeat NUL (Z.to_nat (offset - n))) = resize (Z.to_nat offset) NUL c) as ->.
  { unfold patch. rewrite (drop_ge c) by (rewrite repeat_length; lia). rewrite app_nil_r, !resize_ge by lia.
    rewrite <- app_assoc. f_equal. change (repeat NUL) with (fun k => repeat NUL k).
    replace (Z.to_nat offset - length c)%nat with ((Z.to_nat n - length c) + Z.to_nat (offset - n))%nat by lia.
    rewrite replicate_add. f_equal. clear. induction (Z.to_nat (offset - n)); [done|simpl; by f_equal]. }
  unfold patch. rewrite !drop_ge by (rewrite ?length_resize; lia). by rewrite resize_idemp.
Qed.

(** ** URLs *)

(** What follows [u] in [k]. *)
Fixpoint after (u k : string) : option string :=
  match u, k with
  | EmptyString, _ => Some k
  | String a u, String b k => if decide (a = b) then after u k else None
  | _, EmptyString => None
  end.
Fixpoint ends_slash (u : string) : bool :=
  match u with EmptyString => false | String a EmptyString => bool_decide (a = "/"%char) | String _ u => ends_slash u end.

(** [k] is [u] or a member of the collection [u]. *)
Definition below (u k : string) : bool :=
  match after u k with
  | None => false
  | Some EmptyString => true
  | Some (String a _) => ends_slash u || bool_decide (a = "/"%char)
  end.
Definition at_url (u k : string) : bool := bool_decide (k = u).

(** The files without those at [u] and below. *)
Definition cut (u : string) (fs : gmap string bytes) : gmap string bytes := filter (fun kc => below u kc.1 = false) fs.

(** The files differ only where [K] says. *)
Definition off (K : string -> bool) (fs fs' : gmap string bytes) : Prop := forall k, K k = false -> fs' !! k = fs !! k.

Lemma after_self u : after u u = Some ""%string.
Proof. induction u as [|a u IH]; [done|]. simpl. by rewrite decide_True. Qed.
Lemma below_self u : below u u = true.
Proof. unfold below. by rewrite after_self. Qed.
Lemma below_at u k : below u k = false -> at_url u k = false.
Proof. intros Hk. apply bool_decide_eq_false. intros ->. by rewrite below_self in Hk. Qed.

Lemma off_refl K fs : off K fs fs.
Proof. by intros k _. Qed.
Lemma off_trans K fs1 fs2 fs3 : off K fs1 fs2 -> off K fs2 fs3 -> off K fs1 fs3.
Proof. intros H1 H2 k Hk. by rewrite (H2 k Hk), (H1 k Hk). Qed.
Lemma off_mono (K K' : string -> bool) fs fs' : (forall k, K' k = false -> K k = false) -> off K fs fs' -> off K' fs fs'.
Proof. intros HK Hfs k Hk. by apply Hfs, HK. Qed.
Lemma off_insert u fs c : off (at_url u) fs (<[u := c]> fs).
Proof. intros k Hk. apply bool_decide_eq_false in Hk. by rewrite lookup_insert_ne. Qed.
Lemma off_cut u fs : off (below u) fs (cut u fs).
Proof.
  intros k Hk. unfold cut. rewrite map_lookup_filter. destruct (fs !! k); [|done]. simpl. by rewrite option_guard_True.
Qed.
Lemma off_nothing fs fs' : off (fun _ => false) fs fs' -> fs' = fs.
Proof. intros Hfs. apply map_eq. intros k. by apply Hfs. Qed.
#[export] Hint Resolve off_refl off_insert off_cut : nfs.

(** ** Transfers against functions that take everything *)

Section Outcome.
Context {W : Type}.

(** The end of a transfer, with the header lines and the body it delivered. *)
Record outcome := mkOutcome {
  out_world : W;
  out_code : CURLcode;
  out_info : xinfo;
  out_headers : list bytes;
  out_body : bytes;
}.

Definition with_header (line : bytes) (o : outcome) : outcome :=
  mkOutcome (out_world o) (out_code o) (out_info o) (line :: out_headers o) (out_body o).
Definition with_chunk (chunk : bytes) (o : outcome) : outcome :=
  mkOutcome (out_world o) (out_code o) (out_info o) (out_headers o) (chunk ++ out_body o).

(** The program takes every line and every piece, and hands out [body] as it is asked for it. *)
Fixpoint converse (x : xfer W) (body : bytes) : outcome :=
  match x with
  | XDone w code info => mkOutcome w code info [] []
  | XHeader line k => with_header line (converse (k (zlen line)) body)
  | XWrite chunk k => with_chunk chunk (converse (k (zlen chunk)) body)
  | XRead n k => converse (k (take (Z.to_nat n) body)) (drop (Z.to_nat n) body)
  end.

(** The server refused the range. *)
Definition refused (o : outcome) : Prop :=
  out_code o = CURLE_HTTP_RETURNED_ERROR /\ info_response_code (out_info o) = 416.
End Outcome.
Arguments outcome W : clear implicits.

(** ** The interface *)

(** What a transfer asks for. *)
Inductive verb :=
  | Vget (first last : Z)
  | Vput (first last : Z)
  | Vhead
  | Vcreate
  | Vdelete
  | Vmove (dest : string) (keep : bool)
  | Vmkcol
  | Vproppatch.

(** The ends of the range that a handle names. *)
Definition has_range (opts : list (CURLoption * optval)) (first last : Z) : Prop :=
  exists t, last_opt CURLOPT_RANGE opts = Some (VStr (Some (str_of t))) /\ range_reads t first last.

(** How the options of a handle say it. *)
Definition verb_is (opts : list (CURLoption * optval)) (v : verb) : Prop :=
  let method m := last_opt CURLOPT_CUSTOMREQUEST opts = Some (VStr (Some m))
                  /\ last_opt CURLOPT_NOBODY opts = Some (VLong 1) in
  match v with
  | Vget first last =>
      last_opt CURLOPT_CUSTOMREQUEST opts = None /\ last_opt CURLOPT_NOBODY opts = None
      /\ last_opt CURLOPT_UPLOAD opts = None /\ has_range opts first last
  | Vput first last =>
      last_opt CURLOPT_CUSTOMREQUEST opts = None /\ last_opt CURLOPT_NOBODY opts = None
      /\ last_opt CURLOPT_UPLOAD opts = Some (VLong 1) /\ has_range opts first last
      /\ last_opt CURLOPT_INFILESIZE opts = Some (VLong (last - first + 1))
  | Vhead => method "HEAD"%string
  | Vcreate => method "PUT"%string
  | Vdelete => method "DELETE"%string
  | Vmkcol => method "MKCOL"%string
  | Vmove dest keep => method "MOVE"%string /\ exists lines, last_opt CURLOPT_HTTPHEADER opts = Some (VSlist lines)
      /\ lines = dest_header dest :: if keep then ["Overwrite: F"%string] else []
  | Vproppatch => last_opt CURLOPT_CUSTOMREQUEST opts = Some (VStr (Some "PROPPATCH"%string))
      /\ last_opt CURLOPT_UPLOAD opts = Some (VLong 1)
  end.

(** The body that goes with it. *)
Definition verb_body (v : verb) (body : bytes) : Prop :=
  match v with
  | Vget first last => 0 <= first <= last /\ body = []
  | Vput first last => 0 <= first <= last /\ zlen body = last - first + 1
  | Vproppatch => True
  | _ => body = []
  end.

(** Exactly one of the header lines is the Content-Length, with the number in decimal. *)
Definition tells_length (lines : list bytes) (n : Z) : Prop :=
  n <= LONG_MAX /\ exists l1 l2,
    lines = l1 ++ (lit "Content-Length: " ++ udigits 10 n ++ lit CRLF) :: l2
    /\ Forall (fun line => ~ (lit "Content-Length:" `prefix_of` line)) (l1 ++ l2).

(** The answer to [v] for the URL [u] on the files [fs], which are [fs'] after it. A transfer that
    fails may have done anything to what it names, except that a refused range changes nothing. Of
    collections only what is below them is said: [fs] has the files alone. *)
Definition serves {W} (v : verb) (u : string) (fs : gmap string bytes) (body : bytes) (o : outcome W)
    (fs' : gmap string bytes) : Prop :=
  match v with
  | Vget first last => fs' = fs /\ zlen (out_body o) <= last - first + 1
      /\ forall c, fs !! u = Some c -> (out_code o = CURLE_OK -> out_body o = slice c first (last - first + 1))
                                     /\ (refused o -> zlen c <= first)
  | Vput first _ => off (at_url u) fs fs'
      /\ (out_code o = CURLE_OK -> fs' = <[u := patch (default [] (fs !! u)) first body]> fs)
      /\ (refused o -> fs' = fs)
  | Vhead => fs' = fs
      /\ (out_code o = CURLE_OK -> forall c, fs !! u = Some c -> tells_length (out_headers o) (zlen c))
  | Vcreate => off (at_url u) fs fs' /\ (out_code o = CURLE_OK -> fs' = <[u := []]> fs)
  | Vdelete => off (below u) fs fs' /\ (out_code o = CURLE_OK -> fs' = cut u fs)
  | Vmove dest keep => off (fun k => below u k || below dest k) fs fs'
      /\ (out_code o = CURLE_OK -> (keep = true -> fs !! dest = None)
          /\ forall c, fs !! u = Some c -> fs' = <[dest := c]> (cut dest (delete u fs)))
  | Vmkcol | Vproppatch => fs' = fs
  end.

(** [files] are the contents by their URLs, and [url_of] is how libcurl puts a path under a base. *)
Class FileServer `{E : Env} := {
  files : World -> gmap string bytes;
  url_of : CURLU -> string -> string;
  (** what is not a transfer leaves the files alone *)
  files_malloc : forall w, files (env_malloc w).2 = files w;
  files_easy_init : forall w, files (env_easy_init w).2 = files w;
  files_setopt : forall opts o v w, files (env_easy_setopt opts o v w).2 = files w;
  files_slist : forall l s w, files (env_slist_append l s w).2 = files w;
  files_url_dup : forall u w, files (env_url_dup u w).2 = files w;
  files_url_set : forall u part s f w, files (env_url_set u part s f w).2 = files w;
  files_url_get : forall u part w, files (env_url_get u part w).2 = files w;
  (** a flag is taken, and setting an option makes no transfer *)
  flag_taken : forall opts o z w, o = CURLOPT_UPLOAD \/ o = CURLOPT_NOBODY \/ o = CURLOPT_INFILESIZE ->
    (env_easy_setopt opts o (VLong z) w).1 = CURLE_OK;
  headers_taken : forall opts lines w, (env_easy_setopt opts CURLOPT_HTTPHEADER (VSlist lines) w).1 = CURLE_OK;
  setopt_code : forall opts o v w, (env_easy_setopt opts o v w).1 <> CURLE_HTTP_RETURNED_ERROR;
  (** the URL of a path, and of the base itself *)
  url_under : forall u u1 u2 w w1 w2 path f,
    (env_url_dup u w).1 = Some u1 -> (env_url_set u1 CURLUPART_URL (Some path) f w1).1 = (CURLUE_OK, u2) ->
    (env_url_get u2 CURLUPART_URL w2).1.1 = CURLUE_OK ->
    (env_url_get u2 CURLUPART_URL w2).1.2 = Some (url_of u path);
  url_base : forall u u1 w w1,
    (env_url_dup u w).1 = Some u1 -> (env_url_get u1 CURLUPART_URL w1).1.1 = CURLUE_OK ->
    (env_url_get u1 CURLUPART_URL w1).1.2 = Some (url_of u "");
  (** what the server does *)
  server_contract : forall opts w v u body,
    last_opt CURLOPT_URL opts = Some (VStr (Some u)) -> verb_is opts v -> verb_body v body ->
    let o := converse (env_easy_perform opts w) body in serves v u (files w) body o (files (out_world o));
}.
