(* ===== verification/ServerSpec.v ===== *)
(** * Requests against a server that stores files

    What GET, PUT, HEAD, DELETE and MOVE do to the files of a [FileServer], and what they hand to the caller,
    for every way libcurl cuts a transfer into pieces. *)

From S2P Require Import Prelude Utils UtilsSpec Exception Control Buffer Stack State Wp Demo Curl Rules Method MethodSpec Pool Progress TextSpec Server.
#[local] Open Scope Z_scope.
#[local] Open Scope c_scope.

(** ** Transfers *)

Section Transfers.
Context `{E : Env} {R : Type}.
Implicit Types (opts : list (CURLoption * optval)) (x : xfer World) (l : Frame) (g : G).

(** The shared state after a transfer on the handle. *)
Definition transferred (h : addr) opts (o : outcome World) g : G :=
  set_g_handles (<[h := mkEasy opts (out_info o)]> (g_handles g)) (set_g_world (out_world o) g).

(** Without functions of the program. *)
Lemma run_xfer_plain h opts x l g :
  plain_opts opts ->
  run_xfer (R := R) h opts x (l, g)
  = (Next (out_code (converse x [])), (l, transferred h opts (converse x []) g)).
Proof.
  intros (Hh & Hw & Hr). induction x as [w code info|line k IH|chunk k IH|n k IH]; cbn [run_xfer converse].
  - done.
  - unfold header_callback. rewrite Hh. exact (IH _).
  - unfold write_callback. rewrite Hw. exact (IH _).
  - unfold read_callback. rewrite Hr, take_nil, drop_nil. exact (IH _).
Qed.

(** The sizes that the header lines leave. *)
Definition head_sizes (s : option Z) (lines : list bytes) : option Z :=
  foldl (fun s line => match dav_head_size line with Some n => Some n | None => s end) s lines.

Lemma run_xfer_head h opts x l g :
  last_opt CURLOPT_HEADERFUNCTION opts = Some (VFun CB_dav_head_callback) ->
  last_opt CURLOPT_HEADERDATA opts = Some (VData AT_sizep) ->
  last_opt CURLOPT_WRITEFUNCTION opts = None -> last_opt CURLOPT_READFUNCTION opts = None ->
  let o := converse x [] in
  exists l', run_xfer (R := R) h opts x (l, g) = (Next (out_code o), (l', transferred h opts o g))
    /\ f_size l' = head_sizes (f_size l) (out_headers o).
Proof.
  intros Hh Hd Hw Hr. revert l. induction x as [w code info|line k IH|chunk k IH|n k IH]; intros l;
    cbn [run_xfer converse].
  - by exists l.
  - unfold header_callback. rewrite Hh, Hd. unfold __dav_head_callback.
    destruct (dav_head_size line) as [n|] eqn:Hn.
    + destruct (IH (zlen line) (set_f_size (Some n) l)) as (l' & Hrun & Hs). exists l'.
      split; [exact Hrun|]. rewrite Hs. cbn. by rewrite Hn.
    + destruct (IH (zlen line) l) as (l' & Hrun & Hs). exists l'.
      split; [exact Hrun|]. rewrite Hs. cbn. by rewrite Hn.
  - unfold write_callback. rewrite Hw. destruct (IH (zlen chunk) l) as (l' & Hrun & Hs). by exists l'.
  - unfold read_callback. rewrite Hr, take_nil, drop_nil. destruct (IH [] l) as (l' & Hrun & Hs). by exists l'.
Qed.

(** The upload sends what is left of the buffer. *)
Lemma run_xfer_put h opts x l g b :
  last_opt CURLOPT_READFUNCTION opts = Some (VFun CB_Buffer_fetch) ->
  last_opt CURLOPT_READDATA opts = Some (VData AT_buf) ->
  last_opt CURLOPT_WRITEFUNCTION opts = None -> last_opt CURLOPT_HEADERFUNCTION opts = None ->
  sane_xfer x -> f_buf l = Some b -> Buffer_wf b ->
  let o := converse x (unread b) in
  exists l', run_xfer (R := R) h opts x (l, g) = (Next (out_code o), (l', transferred h opts o g)).
Proof.
  intros Hr Hd Hw Hh Hx. revert l b.
  induction Hx as [w code info|line k _ IH|chunk k _ _ IH|n k Hn _ IH]; intros l b Hl Hb; cbn [run_xfer converse].
  - by exists l.
  - unfold header_callback. rewrite Hh. by destruct (IH (zlen line) l b) as (l' & Hrun); [..|by exists l'].
  - unfold write_callback. rewrite Hw. by destruct (IH (zlen chunk) l b) as (l' & Hrun); [..|by exists l'].
  - unfold read_callback. rewrite Hr, Hd. unfold do_Buffer_fetch.
    destruct (Buffer_fetch_spec n b Hb Hn) as (b' & Hf & Hb' & Hdata & Hsize & Hoff).
    set (out := take (Z.to_nat (Z.min n (size b - offset b))) (unread b)) in *.
    pose proof Hb as [Ho Hs _]. unfold zlen in Hs.
    assert (length (unread b) = Z.to_nat (size b - offset b)) as Hlen by (unfold unread; rewrite length_drop; lia).
    assert (out = take (Z.to_nat n) (unread b)) as <-.
    { unfold out. destruct (decide (n <= size b - offset b)); [by rewrite Z.min_l by lia|].
      by rewrite !take_ge by lia. }
    assert (unread b' = drop (Z.to_nat n) (unread b)) as <-.
    { unfold unread. rewrite Hdata, Hoff, drop_drop. unfold unread in Hlen. rewrite length_drop in Hlen.
      destruct (decide (n <= size b - offset b)); [f_equal; lia|]. by rewrite !drop_ge by lia. }
    destruct (IH out (set_f_buf (Some b') l) b' eq_refl Hb') as (l' & Hrun). exists l'.
    unfold bind at 1 2. unfold local, gets. cbn [fst]. rewrite Hl, Hf. exact Hrun.
Qed.

(** A chunk that fits. *)
Lemma append_room ok chunk b e :
  fits b -> extensible b = false -> offset b + zlen chunk <= size b ->
  exists b', Buffer_append ok chunk (zlen chunk) (Some b) e = Some (zlen chunk, Some b', e)
    /\ fits b' /\ extensible b' = false /\ size b' = size b /\ offset b' = offset b + zlen chunk
    /\ filled b' = filled b ++ chunk.
Proof.
  intros [Ho Hs Hb] Hx Hroom. pose proof (zlen_nonneg chunk). unfold Buffer_append.
  destruct (Z.eqb_spec (zlen chunk) 0) as [H0|H0].
  { assert (chunk = []) as -> by (destruct chunk; [done|unfold zlen in H0; simpl in H0; lia]).
    exists b. rewrite app_nil_r. split_and!; [done|by split|done|done|by rewrite Z.add_0_r|done]. }
  rewrite u64_id by lia. rewrite (proj2 (Z.ltb_ge _ _)) by lia. unfold mem_read, mem_write.
  rewrite bool_decide_true by lia. cbn [mbind option_bind]. rewrite drop_0, take_ge by (unfold zlen; lia).
  rewrite bool_decide_true by lia. eexists. split; [reflexivity|]. unfold filled. cbn [data offset size extensible].
  unfold zlen in *. assert (length (take (Z.to_nat (offset b)) (data b)) = Z.to_nat (offset b)) as Hl by (rewrite length_take; lia).
  split_and!; [|done..|].
  - split; cbn [data offset size]; unfold zlen; rewrite ?length_app, ?Hl, ?length_drop; lia.
  - rewrite app_assoc, take_app_length'; [done|]. rewrite length_app, Hl. lia.
Qed.

(** The download fills the buffer with the body, when it has room for it. *)
Lemma run_xfer_get h opts x l g b :
  last_opt CURLOPT_WRITEFUNCTION opts = Some (VFun CB_Buffer_append) ->
  last_opt CURLOPT_WRITEDATA opts = Some (VData AT_buf) ->
  last_opt CURLOPT_HEADERFUNCTION opts = None -> last_opt CURLOPT_READFUNCTION opts = None ->
  sane_xfer x -> f_buf l = Some b -> fits b -> extensible b = false ->
  let o := converse x [] in
  offset b + zlen (out_body o) <= size b ->
  exists l' b', run_xfer (R := R) h opts x (l, g) = (Next (out_code o), (l', transferred h opts o g))
    /\ f_buf l' = Some b' /\ fits b' /\ size b' = size b /\ filled b' = filled b ++ out_body o.
Proof.
  intros Hw Hd Hh Hr Hx. revert l b.
  induction Hx as [w code info|line k _ IH|chunk k Hn _ IH|n k _ _ IH]; intros l b Hl Hb Hext;
    cbn [run_xfer converse]; intros Hroom.
  - exists l, b. split_and!; try done. cbn. by rewrite app_nil_r.
  - unfold header_callback. rewrite Hh. exact (IH (zlen line) l b Hl Hb Hext Hroom).
  - unfold write_callback. rewrite Hw, Hd. unfold do_Buffer_append. cbn [out_body with_chunk] in Hroom.
    rewrite zlen_app in Hroom. pose proof (zlen_nonneg (out_body (converse (k (zlen chunk)) []))).
    destruct (append_room true chunk b (g_ex g) Hb Hext) as (b' & Ha & Hb' & Hext' & Hsz & Ho' & Hf); [lia|].
    destruct (IH (zlen chunk) (set_f_buf (Some b') l) b' eq_refl Hb') as (l' & b2 & Hrun & Hl' & Hb2 & Hsz2 & Hf2);
      [congruence|lia|].
    exists l', b2. split_and!; [|done..|lia|by rewrite Hf2, Hf, <- app_assoc].
    unfold bind at 1 2 3. unfold local, gets. cbn [fst]. rewrite Hl, Hext. unfold mret at 1. cbn [fst snd get_ex HasEx_G].
    unfold bind at 1. cbv beta iota. change (get_ex (l, g)) with (g_ex g). rewrite Ha.
    etrans; [|exact Hrun]. unfold upd_local, upd_ex, modify, bind, mret. cbn [fst snd].
    change (put_ex (g_ex g) (set_f_buf (Some b') l, g)) with (put_ex (get_ex (set_f_buf (Some b') l, g)) (set_f_buf (Some b') l, g)).
    by rewrite put_get_ex.
  - unfold read_callback. rewrite Hr, take_nil, drop_nil. rewrite take_nil, drop_nil in Hroom.
    exact (IH [] l b Hl Hb Hext Hroom).
Qed.
End Transfers.

(** ** A handle for a URL *)

(** The exception of a range that the server refused. *)
Definition refusal (e : Exception) : bool :=
  issubtype e CurlException && ((code e =? CURLE_HTTP_RETURNED_ERROR) && (response_code e =? 416)).

Section Handle.
Context `{E : Env} {FS : FileServer}.
Implicit Types (opts : list (CURLoption * optval)) (g : G) (h : addr).

(** The server record and the files are as they were. *)
Record undisturbed g g' : Prop := {
  same_record : g_server g' = g_server g;
  same_files : files (g_world g') = files (g_world g);
}.
(** And the exception object is. *)
Definition steady g g' : Prop := g_ex g' = g_ex g /\ undisturbed g g'.
(** A failure that is not the server's. *)
Definition failing g g' : Prop :=
  Exception_has (g_ex g') = true /\ refusal (g_ex g') = false /\ undisturbed g g'.

Lemma steady_refl g : steady g g.
Proof. done. Qed.
Lemma undisturbed_world g g' w :
  files w = files (g_world g') -> undisturbed g g' -> undisturbed g (set_g_world w g').
Proof. intros Hw [? ?]. split; [done|]. simpl. congruence. Qed.

(** The pool of handles. *)
Lemma safe_steady_shared {L R} g (T : R -> L * G -> Prop) f :
  (forall g', steady g' (f g')) -> gsafe True (fun s => steady g s.2) T (upd_shared f).
Proof.
  intros Hf [l g'] [He [Hr Hw]]. apply wp_upd_shared. destruct (Hf g') as [He' [Hr' Hw']]. cbn [snd] in *.
  split; [congruence|split; congruence].
Qed.
Lemma safe_steady_stack {L R} g (T : R -> L * G -> Prop) f : gsafe True (fun s => steady g s.2) T (upd_stack f).
Proof. by intros [l g'] [He [Hr Hw]]. Qed.
Lemma safe_steady_malloc {L R} g (T : R -> L * G -> Prop) : gsafe True (fun s => steady g s.2) T malloc_ok.
Proof. intros [l g'] [He Hu]. apply wp_ext. split; [done|]. apply undisturbed_world; [apply files_malloc|done]. Qed.
Lemma safe_steady_fresh {L R} g (T : R -> L * G -> Prop) : gsafe True (fun s => steady g s.2) T fresh_addr.
Proof. by intros [l g'] [He [Hr Hw]]. Qed.
#[local] Hint Resolve safe_steady_stack safe_steady_malloc safe_steady_fresh : safe.

Lemma safe_Stack_pop g fuel :
  gsafe True (fun s => steady g s.2) (fun _ s => steady g s.2) (Stack_pop (G := G) fuel).
Proof.
  assert (forall l, gsafe True (fun s : option addr * G => steady g s.2) (fun _ s => steady g s.2)
    (set_local (R := option addr) l)) as Hl by (by intros l [l' g'] Hs).
  unfold Stack_pop, ensure_synchronized, spin_trylock, spin_unlock, set_node_next.
  repeat first [apply safe_ensure_loop|progress safe].
Qed.

Lemma safe_cleanup_common {L R} g (T : R -> L * G -> Prop) (h : option addr) :
  gsafe True (fun s => steady g s.2) T (curl_easy_cleanup_common h).
Proof.
  unfold curl_easy_cleanup_common, Stack_push, synchronized, spin_lock, spin_unlock, set_node_next, new_node.
  repeat first [apply safe_with_test|progress safe]. by apply safe_steady_shared.
Qed.

(** The options that a request sets itself. *)
Definition is_own (o : CURLoption) : bool :=
  match o with
  | CURLOPT_URL | CURLOPT_CUSTOMREQUEST | CURLOPT_NOBODY | CURLOPT_UPLOAD | CURLOPT_HEADERFUNCTION
  | CURLOPT_WRITEFUNCTION | CURLOPT_READFUNCTION => true
  | _ => false
  end.
Record unasked opts : Prop := {
  un_plain : plain_opts opts;
  un_method : last_opt CURLOPT_CUSTOMREQUEST opts = None;
  un_nobody : last_opt CURLOPT_NOBODY opts = None;
  un_upload : last_opt CURLOPT_UPLOAD opts = None;
}.
Definition addressed u opts : Prop := unasked opts /\ last_opt CURLOPT_URL opts = Some (VStr (Some u)).

(** A predicate that the options of curl.c do not change. *)
Definition common (D : list (CURLoption * optval) -> Prop) : Prop :=
  forall o v opts, is_own o = false -> D opts -> D (opts ++ [(o, v)]).

Lemma unasked_add o v opts :
  is_own o = false \/ o = CURLOPT_URL -> unasked opts -> unasked (opts ++ [(o, v)]).
Proof.
  intros Ho [(? & ? & ?) ? ? ?]. split; [split_and!|..]; rewrite last_opt_other; try done; intros ->; by destruct Ho.
Qed.
Lemma unasked_common : common unasked.
Proof. intros o v opts Ho. apply unasked_add. by left. Qed.
Lemma addressed_common u : common (addressed u).
Proof.
  intros o v opts Ho [Hu Hl]. split; [by apply unasked_common|]. rewrite last_opt_other; [done|by intros ->].
Qed.

(** Setting an option, or failing. *)
Lemma wp_set_or_die {F : Prop} {L R} h e o v (l : L) g Q B (T : R -> L * G -> Prop) :
  g_handles g !! h = Some e ->
  (forall w, files w = files (g_world g) ->
     Q tt (l, set_g_handles (<[h := mkEasy (easy_opts e ++ [(o, v)]) (easy_info e)]> (g_handles g)) (set_g_world w g))) ->
  (forall w ex, files w = files (g_world g) -> Exception_has ex = true -> refusal ex = false ->
     B (l, set_g_ex ex (set_g_world w g))) ->
  gwp F (curl_easy_setopt_or_die (Some h) o v) Q B T (l, g).
Proof.
  intros He HQ HB. apply wp_bind, (wp_setopt_live h e); [done|]. intros c Hc.
  pose proof (setopt_code (easy_opts e) o v (g_world g)) as Hne. rewrite <- Hc in Hne.
  pose proof (files_setopt (easy_opts e) o v (g_world g)) as Hw. cbv zeta.
  destruct (c =? CURLE_OK) eqn:H0; [apply wp_skip; by apply HQ|].
  apply wp_throw, wp_bind, wp_mret, wp_upd_ex.
  refine (HB (env_easy_setopt (easy_opts e) o v (g_world g)).2 (with_set 1 _) Hw _ _); [done|].
  unfold refusal. simpl. by rewrite (proj2 (Z.eqb_neq c _)) by done.
Qed.

(** The handle in the local [this] has options in [D]; an exception is not a refusal. *)
Record prepared g (D : list (CURLoption * optval) -> Prop) (s : InitFrame * G) : Prop := {
  prep_same : undisturbed g s.2;
  prep_ex : Exception_has (g_ex s.2) = true -> refusal (g_ex s.2) = false;
  prep_handle : exists h e, this s.1 = Some h /\ g_handles s.2 !! h = Some e /\ D (easy_opts e);
}.

Lemma prepared_ex g D l g' ex :
  (Exception_has ex = true -> refusal ex = false) -> prepared g D (l, g') -> prepared g D (l, set_g_ex ex g').
Proof. intros Hx [[? ?] _ ?]. by split; [split| |]. Qed.
Lemma prepared_world g D l g' w :
  files w = files (g_world g') -> prepared g D (l, g') -> prepared g D (l, set_g_world w g').
Proof. intros Hw [? ? ?]. split; [by apply undisturbed_world|done|done]. Qed.
Lemma prepared_local g D l l' g' : this l' = this l -> prepared g D (l, g') -> prepared g D (l', g').
Proof. intros Ht [? ? Hh]. split; [done..|]. cbn [fst snd] in *. by rewrite Ht. Qed.
Lemma prepared_add g (D D' : list (CURLoption * optval) -> Prop) l g' h e o v w :
  prepared g D (l, g') -> this l = Some h -> g_handles g' !! h = Some e -> files w = files (g_world g') ->
  D' (easy_opts e ++ [(o, v)]) ->
  prepared g D' (l, set_g_handles (<[h := mkEasy (easy_opts e ++ [(o, v)]) (easy_info e)]> (g_handles g')) (set_g_world w g')).
Proof.
  intros [Hs Hx _] Ht He Hw HD. split; [by destruct (undisturbed_world g g' w Hw Hs); split|done|].
  exists h. eexists. cbn. by rewrite lookup_insert_eq.
Qed.

Section Common.
Variables (g : G) (D : list (CURLoption * optval) -> Prop).
Hypothesis HD : common D.
#[local] Abbreviation Safe := (gsafe (R := option addr) True (prepared g D) never).

Lemma safe_prep_or_die o v : is_own o = false -> Safe (opt_or_die o v).
Proof.
  intros Ho [l g'] Hs. apply wp_bind, wp_local. destruct (prep_handle _ _ _ Hs) as (h & e & Ht & He & Hd).
  cbn [fst snd] in *. rewrite Ht. apply (wp_set_or_die h e); [done|..].
  - intros w Hw. apply (prepared_add g D); auto.
  - intros w ex Hw Hx Hr. by apply prepared_ex, prepared_world.
Qed.
Lemma wp_prep_opt o v s :
  is_own o = false -> prepared g D s -> wp (opt o v) (fun _ => prepared g D) (fun _ => False) never s.
Proof.
  destruct s as [l g']. intros Ho Hs. apply wp_bind, wp_local. destruct (prep_handle _ _ _ Hs) as (h & e & Ht & He & Hd).
  cbn [fst snd] in *. rewrite Ht. apply wp_bind, (wp_setopt_live h e); [done|]. intros c Hc. cbv zeta. apply wp_skip.
  pose proof (files_setopt (easy_opts e) o v (g_world g')) as Hw.
  destruct (c =? CURLE_OK); [apply (prepared_add g D); auto|by apply prepared_world].
Qed.
Lemma safe_prep_opt o v : is_own o = false -> Safe (opt o v).
Proof. intros Ho s Hs. by refine (wp_mono _ _ _ _ _ _ _ _ (wp_prep_opt o v s Ho Hs) _ _ _). Qed.
#[local] Hint Resolve safe_prep_or_die safe_prep_opt : safe.
Lemma safe_prep_options o : Safe (set_options o).
Proof. unfold set_options, set_proxy_options, set_ssl_options. safe. Qed.
End Common.

(** Without a handle, an exception is pending. *)
Definition no_handle g (s : InitFrame * G) : Prop := failing g s.2.

Lemma wp_take_handle g :
  Exception_has (g_ex g) = false ->
  wp take_handle (fun _ => prepared g unasked) (no_handle g) never (init_frame0, g).
Proof.
  intros Hc. apply wp_bind, wp_call. intros r [l' g1] Hpop.
  destruct (wp_returns _ _ _ _ _ _ _ (safe_Stack_pop g _ (None, g) (steady_refl g)) Hpop) as [He Hu].
  cbn [fst snd] in *. destruct r as [node|].
  - apply wp_bind, wp_shared, wp_bind, wp_deref. intros n _. apply wp_bind, wp_upd_local, wp_bind, wp_modify.
    apply wp_bind, wp_shared, wp_bind, wp_deref. intros e Hn. apply wp_upd_shared. split.
    + by destruct Hu; split.
    + cbn. rewrite He. by rewrite Hc.
    + exists (node_value n). eexists. cbn. by rewrite lookup_insert_eq.
  - apply wp_bind, wp_bind, wp_ext. pose proof (files_easy_init (g_world g1)) as Hw.
    pose proof (undisturbed_world _ _ _ Hw Hu) as [Hr Hf]. destruct (env_easy_init (g_world g1)).1.
    + apply wp_bind, wp_fresh_addr, wp_bind, wp_upd_shared, wp_mret, wp_bind, wp_upd_local, wp_skip. split.
      * by split.
      * cbn. rewrite He. by rewrite Hc.
      * eexists. eexists. cbn. by rewrite lookup_insert_eq.
    + apply wp_mret, wp_bind, wp_upd_local, wp_throw, wp_bind, wp_mret, wp_upd_ex. by split_and!.
Qed.

(** A path without its first slash. *)
Definition relative (path : string) : string := match path with String "/" p => p | _ => path end.

(** Ready for the URL, unless an exception is pending. *)
Definition ready_url g u (s : InitFrame * G) : Prop :=
  if Exception_has (g_ex s.2) then failing g s.2 else prepared g (addressed u) s.

Lemma prepared_failing g D s : prepared g D s -> Exception_has (g_ex s.2) = true -> failing g s.2.
Proof. intros [? Hx _] He. split_and!; auto. Qed.

(** An exception of the URL interface. *)
Lemma ready_url_thrown g u D l g' ex w :
  url_thrown ex -> prepared g D (l, g') -> files w = files (g_world g') ->
  ready_url g u (l, set_g_ex ex (set_g_world w g')).
Proof.
  intros [He Ht] [Hs _ _] Hw. unfold ready_url. cbn [snd g_ex set_g_ex]. rewrite He. split_and!; [done| |].
  - cbn. unfold refusal. by rewrite Ht.
  - by destruct (undisturbed_world g g' w Hw Hs).
Qed.

Lemma ready_url_prepared g u s : prepared g (addressed u) s -> ready_url g u s.
Proof. intros Hs. unfold ready_url. destruct (Exception_has _) eqn:He; [by eapply prepared_failing|done]. Qed.

(** The URL is read from [clean_url] and set on the handle. *)
Lemma wp_read_url g u (l : InitFrame) u2 g' :
  clean_url l = Some u2 ->
  (forall w, (env_url_get u2 CURLUPART_URL w).1.1 = CURLUE_OK -> (env_url_get u2 CURLUPART_URL w).1.2 = Some u) ->
  prepared g unasked (l, g') ->
  gwp (R := option addr) True (with_seperated (upd_local (set_s_url None))
        (fun _ => l <- local ;; curl_url_get_or_die (clean_url l) CURLUPART_URL set_s_url) (fun _ => skip)
        (fun _ => l <- local ;; curl_easy_setopt_or_die (this l) CURLOPT_URL (VStr (s_url l))))
    (fun _ => ready_url g u) (ready_url g u) never (l, g').
Proof.
  intros Hl Hu Hs. apply wp_with_seperated. cbv zeta. apply wp_upd_local, wp_bind, wp_local.
  cbn [clean_url set_s_url]. rewrite Hl. apply wp_url_get. cbv zeta.
  pose proof (files_url_get u2 CURLUPART_URL (g_world g')) as Hw. split; [intros H0|intros _ e He].
  2: { by eapply ready_url_thrown; [|apply (prepared_local _ _ l)|]. }
  rewrite (Hu _ H0). set (l1 := set_s_url (Some u) _). set (g1 := set_g_world _ g').
  assert (prepared g unasked (l1, g1)) as Hs1 by (by apply (prepared_local _ _ l), prepared_world).
  destruct (Exception_has (get_ex (l1, g1))) eqn:Hx.
  - apply wp_skip. unfold ready_url. change (g_ex (l1, g1).2) with (get_ex (l1, g1)). rewrite Hx.
    by eapply prepared_failing.
  - apply wp_bind, wp_local. destruct (prep_handle _ _ _ Hs1) as (h & e & Ht & He & Hd). cbn [fst snd] in *.
    rewrite Ht. apply (wp_set_or_die h e); [done|..].
    + intros w Hw1. apply wp_skip, ready_url_prepared, (prepared_add g unasked); try done.
      split; [by apply unasked_add; [right|]|]. apply last_opt_same.
    + intros w ex Hw1 Hex Hr. apply wp_skip. unfold ready_url. cbn [snd g_ex set_g_ex]. rewrite Hex.
      split_and!; [done..|]. destruct Hs1 as [Hs1 _ _]. by destruct (undisturbed_world g g1 w Hw1 Hs1).
Qed.

Lemma throwable_ready_url g u (m : M (InitFrame * G) (option addr) unit) s :
  wp m (fun _ => ready_url g u) (ready_url g u) never s ->
  wp (throwable m) (fun _ s => prepared g (addressed u) s) (no_handle g) never s.
Proof.
  intros Hm. apply wp_throwable.
  refine (wp_mono _ _ _ _ _ _ _ _ Hm _ _ _); [intros _|..|done]; intros s'; unfold ready_url;
    change (get_ex s') with (g_ex s'.2); by destruct (Exception_has (g_ex s'.2)).
Qed.

Lemma wp_set_url g path s :
  prepared g unasked s ->
  wp (set_url (baseuh (g_server g)) (Some path))
    (fun _ => prepared g (addressed (url_of (baseuh (g_server g)) (relative path)))) (no_handle g) never s.
Proof.
  destruct s as [l g']. intros Hs. set (base := baseuh (g_server g)). set (u := url_of base (relative path)).
  apply throwable_ready_url, wp_with_assign. cbv zeta. do 2 apply wp_bind. apply wp_ext, wp_bind.
  pose proof (files_url_dup base (g_world g')) as Hw. pose proof (url_base base) as Hbase.
  pose proof (url_under base) as Hunder.
  destruct (env_url_dup base (g_world g')) as [[u1|] w] eqn:Hdup; cbn [fst snd] in *.
  2: { apply wp_upd_ex, wp_mret, wp_upd_local. apply wp_skip.
    refine (ready_url_thrown g u unasked (set_clean_url None l) g' _ w _ _ Hw); [done|by apply (prepared_local _ _ l)]. }
  apply wp_skip, wp_mret, wp_upd_local. set (l1 := set_clean_url (Some u1) l). set (g1 := set_g_world w g').
  assert (prepared g unasked (l1, g1)) as Hs1 by (by apply (prepared_local _ _ l), prepared_world).
  assert (forall s, ready_url g u s -> gwp (R := option addr) True skip (fun _ => ready_url g u) (ready_url g u) never s)
    as Hk by done.
  destruct (Exception_has (get_ex (l1, g1))) eqn:Hx.
  { apply wp_skip. unfold ready_url. change (g_ex (l1, g1).2) with (get_ex (l1, g1)). rewrite Hx.
    by eapply prepared_failing. }
  assert (forall l2 g2 u2, prepared g unasked (l2, g2) -> clean_url l2 = Some u2 ->
    (forall w, (env_url_get u2 CURLUPART_URL w).1.1 = CURLUE_OK -> (env_url_get u2 CURLUPART_URL w).1.2 = Some u) ->
    gwp (R := option addr) True (throwable (with_seperated (upd_local (set_s_url None))
        (fun _ => l <- local ;; curl_url_get_or_die (clean_url l) CURLUPART_URL set_s_url) (fun _ => skip)
        (fun _ => l <- local ;; curl_easy_setopt_or_die (this l) CURLOPT_URL (VStr (s_url l)))))
      (fun _ s => gwp (R := option addr) True skip (fun _ => ready_url g u) (ready_url g u) never s)
      (fun s => gwp (R := option addr) True skip (fun _ => ready_url g u) (ready_url g u) never s) never (l2, g2)) as Hread.
  { intros l2 g2 u2 H2 Hl2 Hu2. apply (wp_throwable_same _ (ready_url g u)). by eapply wp_read_url. }
  apply wp_bind. fold (relative path). cbv zeta. destruct (bool_decide (relative path = ""%string)) eqn:Hrel; simpl.
  - apply wp_skip. apply (Hread l1 g1 u1); [done..|]. intros w1 H1. apply bool_decide_eq_true in Hrel.
    unfold u. rewrite Hrel. apply (Hbase u1 (g_world g') w1); [by rewrite Hdup|done].
  - apply (wp_url_set _ _ _ _ _ u1); [done|]. cbv zeta.
    pose proof (files_url_set u1 CURLUPART_URL (Some (relative path)) CURLU_URLENCODE (g_world g1)) as Hw1.
    split; [intros H0|intros _ e He].
    + eapply Hread; [by apply (prepared_local _ _ l1), prepared_world|done|]. intros w1 H1.
      eapply (Hunder u1 _ (g_world g')); [by rewrite Hdup| |done]. rewrite <- H0. apply surjective_pairing.
    + apply wp_skip. by eapply ready_url_thrown; [|apply (prepared_local _ _ l1)|].
Qed.

(** What [curl_easy_init_common] hands out. *)
Definition handed g u (r : option addr) g' : Prop :=
  match r with
  | Some h => undisturbed g g' /\ Exception_has (g_ex g') = false
              /\ exists e, g_handles g' !! h = Some e /\ addressed u (easy_opts e)
  | None => failing g g'
  end.

Lemma wp_init_common g path o :
  Exception_has (g_ex g) = false ->
  wp (curl_easy_init_common (baseuh (g_server g)) (Some path) o) (fun _ _ => False) (fun _ => False)
    (fun r s => handed g (url_of (baseuh (g_server g)) (relative path)) r s.2) (init_frame0, g).
Proof.
  intros Hc. set (u := url_of _ _). apply wp_bind, wp_try. cbv zeta.
  set (K := fun s' : InitFrame * G => if Exception_has (get_ex s') then _ else _).
  assert (forall s, no_handle g s -> K s) as HB.
  { intros [l g'] (Hx & Hr & Hs). unfold K. change (get_ex (l, g')) with (g_ex g'). cbn [snd] in *. rewrite Hx.
    apply wp_onerror_default, wp_bind, wp_local, wp_bind.
    destruct (this l); [apply wp_upd_shared|apply wp_skip]; apply wp_upd_local, wp_bind, wp_local, wp_return;
      split_and!; try done; by destruct Hs. }
  assert (forall s, prepared g (addressed u) s -> K s) as HQ.
  { intros [l g'] Hs. destruct (Exception_has (g_ex g')) eqn:Hx; [by eapply HB, prepared_failing|].
    unfold K. change (get_ex (l, g')) with (g_ex g'). rewrite Hx. apply wp_bind, wp_local, wp_return.
    destruct (prep_handle _ _ _ Hs) as (h & e & Ht & He & Hd). cbn [fst snd] in *. rewrite Ht. split_and!; eauto.
    apply Hs. }
  apply wp_bind. refine (wp_mono _ _ _ _ _ _ _ _ (wp_take_handle g Hc) _ HB _); [|done].
  intros _ s Hs. apply wp_bind.
  refine (wp_mono _ _ _ _ _ _ _ _ (wp_prep_opt g unasked unasked_common CURLOPT_ERRORBUFFER _ s eq_refl Hs) _ _ _); [|done..].
  intros _ s1 H1. apply wp_bind. refine (wp_mono _ _ _ _ _ _ _ _ (wp_set_url g path s1 H1) _ HB _); [|done].
  intros _ s2 H2. pose proof (safe_prep_or_die g _ (addressed_common u)) as Hd. pose proof (safe_prep_opt g _ (addressed_common u)) as Ho.
  assert (forall m : M _ _ unit, gsafe True (prepared g (addressed u)) never m ->
    wp m (fun _ => K) K (fun r s => handed g u r s.2) s2) as Hrest.
  { intros m Hm. by refine (wp_mono _ _ _ _ _ _ _ _ (Hm s2 H2) (fun _ => HQ) HQ _). }
  apply Hrest. destruct o as [o|]; repeat first [progress safe|apply safe_prep_options, addressed_common|by apply Hd|by apply Ho].
Qed.
End Handle.

(** ** A block with a handle *)

Section Block.
Context `{E : Env} {FS : FileServer} (sane : sane_env) {R : Type}.
Implicit Types (opts : list (CURLoption * optval)) (g : G) (h : addr) (l : Frame).

(** How a request for [v] ends: with a failure before its transfer, or with the server's answer, whose
    code tells whether an exception is pending; [X] says what the frame has of it. *)
Definition ended g v u body (X : Frame -> outcome World -> Prop) (s : Frame * G) : Prop :=
  failing g s.2 \/
  g_server s.2 = g_server g /\
  exists o, serves v u (files (g_world g)) body o (files (g_world s.2)) /\ X s.1 o
    /\ if Exception_has (g_ex s.2) then out_code o <> CURLE_OK /\ (refusal (g_ex s.2) = true -> refused o)
       else out_code o = CURLE_OK.

Lemma ended_steady g v u body X l g1 g2 :
  steady g1 g2 -> ended g v u body X (l, g1) -> ended g v u body X (l, g2).
Proof.
  intros [He [Hr Hw]]. unfold ended, failing. cbn [fst snd]. rewrite He, Hr, Hw.
  intros [(? & ? & [? ?])|?]; [left|by right]. split_and!; try done. split; congruence.
Qed.

Lemma wp_cleanup (K : Frame * G -> Prop) (h : option addr) l g :
  (forall g', steady g g' -> K (l, g')) ->
  gwp (R := R) True (curl_easy_cleanup_common h) (fun _ => K) K never (l, g).
Proof.
  intros HK. pose proof (safe_cleanup_common (L := Frame) (R := R) g never h (l, g) (steady_refl g)) as Hs.
  unfold gwp in *. destruct (curl_easy_cleanup_common h (l, g)) as [c [l' g']] eqn:Hc.
  destruct (cleanup_common_inv _ _ _ _ _ Hc) as (Hl & _ & _). cbn [fst] in Hl. subst l'.
  destruct c; auto.
Qed.

Lemma wp_server_block path (body : option addr -> M (Frame * G) R unit) l g (K : Frame * G -> Prop) :
  let u := url_of (baseuh (g_server g)) (relative path) in
  Exception_has (g_ex g) = false ->
  (forall l g1 g2, steady g1 g2 -> K (l, g1) -> K (l, g2)) -> (forall g', failing g g' -> K (l, g')) ->
  (forall h g' e, undisturbed g g' -> Exception_has (g_ex g') = false -> g_handles g' !! h = Some e ->
     addressed u (easy_opts e) -> gwp True (body (Some h)) (fun _ => K) K never (l, g')) ->
  gwp True (with_server_curl (Some path) body) (fun _ => K) (fun _ => False) never (l, g).
Proof.
  intros u Hc Hst Hfail Hbody. apply wp_bind, wp_shared, wp_with_assign, wp_bind, wp_call_wp.
  refine (wp_mono _ _ _ _ _ _ _ _ (wp_init_common g path _ Hc) _ _ _); [done..|].
  intros r [l1 g1] Hr. apply wp_mret. cbn [fst snd] in *. change (get_ex (l, g1)) with (g_ex g1).
  destruct r as [h|]; cbn [handed] in Hr.
  - destruct Hr as (Hs & Hx & e & He & Ha). rewrite Hx.
    assert (forall s, K s -> gwp (R := R) True (curl_easy_cleanup_common (Some h)) (fun _ => K) K never s) as Hk.
    { intros [l2 g2] H2. apply wp_cleanup. intros g3 H3. by eapply Hst. }
    by refine (wp_mono _ _ _ _ _ _ _ _ (Hbody h g1 e Hs Hx He Ha) (fun _ => Hk) Hk _).
  - pose proof Hr as (Hx & _). rewrite Hx. apply wp_skip. by apply Hfail.
Qed.

(** The handle of the request, with its options. *)
Record active g h opts g' : Prop := {
  act_same : undisturbed g g';
  act_ex : Exception_has (g_ex g') = false;
  act_handle : exists info, g_handles g' !! h = Some (mkEasy opts info);
}.

Lemma active_add g h opts o v g' info w :
  active g h opts g' -> files w = files (g_world g') ->
  active g h (opts ++ [(o, v)])
    (set_g_handles (<[h := mkEasy (opts ++ [(o, v)]) info]> (g_handles g')) (set_g_world w g')).
Proof.
  intros [Hs Hx _] Hw. split; [by destruct (undisturbed_world g g' w Hw Hs); split|done|].
  eexists. cbn. by rewrite lookup_insert_eq.
Qed.

(** The options that libcurl always takes. *)
Definition taken o (v : optval) : Prop :=
  is_object o = true \/ (exists z, v = VLong z) /\ (o = CURLOPT_UPLOAD \/ o = CURLOPT_NOBODY \/ o = CURLOPT_INFILESIZE)
  \/ (exists lines, v = VSlist lines) /\ o = CURLOPT_HTTPHEADER.

Lemma taken_ok opts o v w : taken o v -> (env_easy_setopt opts o v w).1 = CURLE_OK.
Proof. intros [Ho|[[[z ->] Ho]|[[lines ->] ->]]]; [by apply sane_setopt|by apply flag_taken|by apply headers_taken]. Qed.

Lemma wp_take g h opts o v l g' Q B (T : R -> Frame * G -> Prop) :
  active g h opts g' -> taken o v -> (forall g2, active g h (opts ++ [(o, v)]) g2 -> Q tt (l, g2)) ->
  gwp True (curl_easy_setopt_ (Some h) o v) Q B T (l, g').
Proof.
  intros Ha Ho HQ. destruct (act_handle _ _ _ _ Ha) as [info He]. apply wp_bind, (wp_setopt_live h (mkEasy opts info)); [done|].
  intros c ->. cbv zeta. cbn [easy_opts easy_info]. rewrite (taken_ok _ _ _ _ Ho). apply wp_skip, HQ, active_add; [done|].
  apply files_setopt.
Qed.

Lemma wp_take_or_die g h opts o v l g' Q B (T : R -> Frame * G -> Prop) :
  active g h opts g' -> (forall g2, active g h (opts ++ [(o, v)]) g2 -> Q tt (l, g2)) ->
  (forall g2, failing g g2 -> B (l, g2)) ->
  gwp True (curl_easy_setopt_or_die (Some h) o v) Q B T (l, g').
Proof.
  intros Ha HQ HB. destruct (act_handle _ _ _ _ Ha) as [info He].
  apply (wp_set_or_die h (mkEasy opts info)); [done|..].
  - intros w Hw. by apply HQ, active_add.
  - intros w ex Hw Hx Hr. apply HB. split_and!; [done..|].
    by destruct (undisturbed_world g g' w Hw (act_same _ _ _ _ Ha)).
Qed.

(** The transfer. *)
Lemma wp_transfer g h opts v u body X l g' Q B (T : R -> Frame * G -> Prop) :
  active g h opts g' -> last_opt CURLOPT_URL opts = Some (VStr (Some u)) -> verb_is opts v -> verb_body v body ->
  (forall g1, let x := env_easy_perform opts (g_world g1) in let o := converse x body in
     sane_xfer x -> serves v u (files (g_world g)) body o (files (out_world o)) ->
     exists l', run_xfer (R := R) h opts x (l, g1) = (Next (out_code o), (l', transferred h opts o g1)) /\ X l' o) ->
  (forall s, ended g v u body X s -> Exception_has (g_ex s.2) = false -> Q tt s) ->
  (forall s, ended g v u body X s -> Exception_has (g_ex s.2) = true -> B s) ->
  gwp True (curl_easy_perform_or_die (Some h)) Q B T (l, g').
Proof.
  intros [[Hr Hw] Hx [info He]] Hu Hv Hb Hrun HQ HB. apply wp_bind, wp_bind, wp_shared, wp_bind, wp_deref.
  intros e He'. rewrite He in He'. injection He' as <-. apply wp_bind, wp_upd_shared, wp_bind, wp_shared.
  cbn [easy_opts]. set (g1 := set_g_sent _ g').
  pose proof (server_contract opts (g_world g1) v u body Hu Hv Hb) as Hs. cbv zeta in Hs.
  change (files (g_world g1)) with (files (g_world g')) in Hs. rewrite Hw in Hs.
  destruct (Hrun g1 (sane_perform sane _ _) Hs) as (l' & Heq & HX). unfold gwp at 1. rewrite Heq.
  set (o := converse _ body) in *. change (converse _ body) with o in Hs.
  assert (forall g2, g_server g2 = g_server g1 -> g_world g2 = out_world o ->
    (if Exception_has (g_ex g2) then out_code o <> CURLE_OK /\ (refusal (g_ex g2) = true -> refused o)
     else out_code o = CURLE_OK) -> ended g v u body X (l', g2)) as Hend.
  { intros g2 H1 H2 H3. right. cbn [fst snd]. rewrite H1, H2. split; [done|]. by exists o. }
  destruct (Z.eqb_spec (out_code o) CURLE_OK) as [H0|H0].
  - apply wp_skip, HQ; [|done]. apply Hend; [done..|]. cbn. by rewrite Hx.
  - apply wp_throw, wp_bind. rewrite bool_decide_true by done. cbn [andb].
    assert (forall resp, (out_code o = CURLE_HTTP_RETURNED_ERROR -> resp = info_response_code (out_info o)) ->
      B (thrown (put_ex (CurlException_init (g_ex g') (out_code o) CURL_PERFORM 0 resp) (l', transferred h opts o g1)))) as Hk.
    { intros resp Hresp. apply HB; [|done]. apply Hend; [done..|]. cbn. split; [done|]. unfold refusal, refused. cbn.
      rewrite !andb_true_iff. intros (_ & Hc%Z.eqb_eq & Hresp'). cbn in Hc. rewrite Hc in Hresp'. cbn in Hresp'.
      apply Z.eqb_eq in Hresp'. split; [done|]. by rewrite <- Hresp. }
    destruct (Z.eqb_spec (out_code o) CURLE_HTTP_RETURNED_ERROR) as [H22|H22].
    + apply wp_bind, wp_shared, wp_bind, (wp_deref_some _ (mkEasy opts (out_info o))).
      { cbn. by rewrite lookup_insert_eq. }
      apply wp_mret, wp_upd_ex. by apply Hk.
    + apply wp_mret, wp_upd_ex. by apply Hk.
Qed.
End Block.

(** ** The requests *)

Section Requests.
Context `{E : Env} {FS : FileServer} (sane : sane_env).
Implicit Types (g : G) (l : Frame).

(** The URL of a path under the base of the mount. *)
Definition url_at g (path : string) : string := url_of (baseuh (g_server g)) (relative path).

(** No locks are used, and no exception is pending. *)
Record unlocked g : Prop := {
  unl_locks : use_lock (options (g_server g)) = false;
  unl_calm : Exception_has (g_ex g) = false;
}.

(** The value an option has on a handle. *)
Ltac last_opts := repeat first [rewrite last_opt_same|rewrite last_opt_other by discriminate].
(** Set the next option. *)
Ltac take_option :=
  match goal with
  | H : active _ _ _ ?g1 |- gwp _ _ _ _ _ (_, ?g1) =>
      try match goal with |- gwp _ (bind _ _) _ _ _ _ => apply wp_bind end;
      eapply (wp_take sane _ _ _ _ _ _ _ _ _ _ H); [first [by left|right; left; by eauto|right; right; by eauto]|clear H; intros ? ?]
  end.

(** Name the options of the handle. *)
Ltac name_options opts := match goal with H : active _ _ ?o _ |- _ => set (opts := o) in * end.

Definition ends_with g v u body X (m : M (Frame * G) Z unit) (s : Frame * G) : Prop :=
  wp m (fun _ _ => False) (fun _ => False)
    (fun r s' => r = TEST_SUCCESS (g_ex s'.2) /\ ended g v u body X s') s.

Lemma wp_status g v u body X s : ended g v u body X s -> ends_with g v u body X return_status s.
Proof. intros Hs. by apply wp_bind, wp_gets, wp_return. Qed.

(** A list of headers around the rest. *)
Lemma wp_scope (K : Frame * G -> Prop) (m : M (Frame * G) Z unit) l g :
  Exception_has (g_ex g) = false -> wp m (fun _ => K) K never (set_f_list [] l, g) ->
  wp (throwable (scope_slist m)) (fun _ => K) K never (l, g).
Proof.
  intros Hx Hm. apply wp_throwable_same, wp_with_assign. cbv zeta. apply wp_upd_local.
  change (get_ex _) with (g_ex g). by rewrite Hx.
Qed.

(** The range of a transfer. *)
Lemma wp_set_range g h opts offset size l g' Q (K : Frame * G -> Prop) (T : Z -> Frame * G -> Prop) :
  active g h opts g' ->
  (forall g2, active g h (opts ++ [(CURLOPT_RANGE, VStr (Some (str_of (range_text offset size))))]) g2 -> Q tt (l, g2)) ->
  (forall g2, failing g g2 -> K (l, g2)) ->
  wp (set_range (Some h) offset size) Q K T (l, g').
Proof.
  intros Ha HQ HK. apply wp_throwable, wp_with_seperated. cbv zeta. apply wp_mret, wp_skip.
  change (get_ex (l, g')) with (g_ex g'). rewrite (act_ex _ _ _ _ Ha).
  apply (wp_take_or_die g h opts); [done|..].
  - intros g2 H2. apply wp_skip. change (get_ex (l, g2)) with (g_ex g2). rewrite (act_ex _ _ _ _ H2). by apply HQ.
  - intros g2 H2. pose proof H2 as (Hx & _). apply wp_skip. change (get_ex (l, g2)) with (g_ex g2). rewrite Hx. by apply HK.
Qed.

Lemma has_range_text opts offset n :
  last_opt CURLOPT_RANGE opts = Some (VStr (Some (str_of (range_text offset n)))) ->
  0 <= offset -> 0 < n -> offset + n <= 10 ^ 10 -> has_range opts offset (offset + n - 1).
Proof.
  intros Hr Ho Hn Hb. eexists. split; [exact Hr|]. rewrite range_text_whole by done.
  apply range_reads_digits; unfold LONG_MAX; lia.
Qed.

Lemma put_ends path b offset g :
  unlocked g -> 0 < zlen b < 2 ^ 62 -> 0 <= offset -> offset + zlen b <= 10 ^ 10 ->
  ends_with g (Vput offset (offset + zlen b - 1)) (url_at g path) b (fun _ _ => True)
    (dav_put path b (zlen b) offset) (frame0, g).
Proof.
  intros [Hl Hc] Hb Ho Hr. set (v := Vput _ _). set (u := url_at g path). set (K := ended g v u b (fun _ _ => True)).
  apply wp_bind, wp_with_seperated. cbv zeta. apply wp_skip, wp_upd_local.
  change (get_ex _) with (g_ex g). rewrite Hc. apply wp_throwable_same.
  set (l0 := set_f_buf _ frame0).
  refine (wp_mono _ _ _ _ _ _ _ _ (wp_server_block (R := Z) path _ l0 g K Hc _ _ _) _ _ _);
    [intros l g1 g2; by apply ended_steady|by left| |intros _ s Hs; by apply wp_status|done..].
  intros h g' e Hs Hx He [[(Hp1 & Hp2 & Hp3) Hm Hn Hu] Hurl]. apply wp_scope; [done|]. set (l1 := set_f_list [] l0).
  assert (active g h (easy_opts e) g') as Ha by (split; [done|done|]; exists (easy_info e); by destruct e).
  apply wp_bind, wp_shared. destruct Hs as [Hsame _]. rewrite Hsame, Hl. apply wp_bind, wp_skip.
  do 3 take_option. eapply wp_bind, wp_set_range; [eassumption|intros ? Hrange|by left]. take_option.
  name_options opts. apply wp_bind, (wp_transfer sane g h opts v u b (fun _ _ => True)); [done|..].
  - unfold opts. by last_opts.
  - unfold opts. repeat split; last_opts; try done.
    + apply has_range_text; [by last_opts|lia..].
    + do 2 f_equal. rewrite i64_id by lia. lia.
  - split; lia.
  - intros g6 x o Hsane _.
    destruct (run_xfer_put (R := Z) h opts x l1 g6 (Buffer_init_exist b (zlen b) false)) as (l' & Hrun);
      [unfold opts; by last_opts..|done|done|by apply Buffer_wf_exist; lia|]. by exists l'.
  - intros s Hend _. by apply wp_skip.
  - by intros s Hend _.
Qed.

(** A HEAD leaves the size of the file. *)
Lemma head_ends path want g :
  unlocked g ->
  ends_with g Vhead (url_at g path) []
    (fun l o => want = true -> f_size l = head_sizes (Some 0) (out_headers o)) (dav_head path want) (frame0, g).
Proof.
  intros [Hl Hc]. set (u := url_at g path). set (X := fun l o => want = true -> _). apply wp_bind.
  refine (wp_mono _ _ _ _ _ _ _ _ (wp_server_block (R := Z) path _ frame0 g (ended g Vhead u [] X) Hc _ _ _) _ _ _);
    [intros l g1 g2; by apply ended_steady|by left| |intros _ s Hs; by apply wp_status|done..].
  intros h g' e Hs Hx He [[(Hp1 & Hp2 & Hp3) Hm Hn Hu] Hurl].
  assert (active g h (easy_opts e) g') as Ha by (split; [done|done|]; exists (easy_info e); by destruct e).
  eapply wp_bind, wp_take_or_die; [exact Ha|intros ? ?|by left]. take_option. apply wp_bind. destruct want; simpl.
  - apply wp_bind, wp_upd_local. do 2 take_option. set (l1 := set_f_size _ _).
    name_options opts. apply (wp_transfer sane g h opts Vhead u [] X); [done|..|by intros s Hend _|by intros s Hend _].
    + unfold opts. by last_opts.
    + unfold opts. by repeat split; last_opts.
    + done.
    + intros g4 x o _ _.
      destruct (run_xfer_head (R := Z) h opts x l1 g4) as (l' & Hrun & Hsize); [unfold opts; by last_opts..|].
      exists l'. split; [exact Hrun|]. by intros _.
  - apply wp_skip. name_options opts.
    apply (wp_transfer sane g h opts Vhead u [] X); [done|..|by intros s Hend _|by intros s Hend _].
    + unfold opts. by last_opts.
    + unfold opts. by repeat split; last_opts.
    + done.
    + intros g4 x o _ _. eexists. split; [|by intros].
      apply run_xfer_plain. unfold opts. by repeat split; last_opts.
Qed.

(** DELETE, and PUT without a body, which makes a file. *)
Definition method_verb (method : string) (v : verb) : Prop :=
  method = "DELETE"%string /\ v = Vdelete \/ method = "PUT"%string /\ v = Vcreate \/ method = "MKCOL"%string /\ v = Vmkcol.

Lemma method_ends path method v lt g :
  method_verb method v -> unlocked g ->
  ends_with g v (url_at g path) [] (fun _ _ => True) (__dav_method path method lt) (frame0, g).
Proof.
  intros Hv [Hl Hc]. set (u := url_at g path). set (X := fun _ _ => True). apply wp_bind.
  refine (wp_mono _ _ _ _ _ _ _ _ (wp_server_block (R := Z) path _ frame0 g (ended g v u [] X) Hc _ _ _) _ _ _);
    [intros l g1 g2; by apply ended_steady|by left| |intros _ s Hs; by apply wp_status|done..].
  intros h g' e [Hsame Hfiles] Hx He [[(Hp1 & Hp2 & Hp3) Hm Hn Hu] Hurl].
  assert (active g h (easy_opts e) g') as Ha by (split; [done|done|]; exists (easy_info e); by destruct e).
  apply wp_bind, wp_shared. rewrite Hsame, Hl. cbn [andb]. apply wp_bind, wp_skip, wp_bind.
  apply wp_throwable_same, wp_with_assign. cbv zeta. apply wp_upd_local. change (get_ex _) with (g_ex g'). rewrite Hx.
  apply wp_bind, wp_skip. eapply wp_bind, wp_take_or_die; [exact Ha|intros ? ?|intros; by left]. take_option.
  name_options opts. apply (wp_transfer sane g h opts v u [] X); [done|..|by intros s Hend _|by intros s Hend _].
  - unfold opts. by last_opts.
  - unfold opts. destruct Hv as [[-> ->]|[[-> ->]|[-> ->]]]; by repeat split; last_opts.
  - by destruct Hv as [[-> ->]|[[-> ->]|[-> ->]]].
  - intros g4 x o _ _. eexists. split; [|done].
    apply run_xfer_plain. unfold opts. by repeat split; last_opts.
Qed.

(** The buffer holds the body that was received. *)
Definition received (n : Z) l (o : outcome World) : Prop :=
  exists b, f_buf l = Some b /\ fits b /\ size b = n /\ filled b = out_body o.

Lemma get_ends path data n offset g :
  unlocked g -> 0 < n <= zlen data -> n < 2 ^ 62 -> 0 <= offset -> offset + n <= 10 ^ 10 ->
  wp (dav_get path data n offset) (fun _ _ => False) (fun _ => False)
    (fun r s => ended g (Vget offset (offset + n - 1)) (url_at g path) [] (received n) s
       /\ exists b, f_buf s.1 = Some b /\ r = if Exception_has (g_ex s.2) then -1 else i32 (Buffer.offset b)) (frame0, g).
Proof.
  intros [Hl Hc] Hb Hmax Ho Hr. set (v := Vget _ _). set (u := url_at g path). set (X := received n).
  apply wp_bind, wp_with_seperated. cbv zeta. apply wp_skip, wp_upd_local.
  change (get_ex _) with (g_ex g). rewrite Hc. set (l0 := set_f_buf _ frame0). apply wp_bind.
  refine (wp_mono _ _ _ _ _ _ _ _ (wp_server_block (R := Z) path _ l0 g (ended g v u [] X) Hc _ _ _) _ _ _);
    [intros l g1 g2; by apply ended_steady|by left| | |done..].
  2: { intros _ [l g1] Hend. apply wp_bind, wp_gets, wp_bind, wp_local, wp_bind, wp_deref. intros b Hlb.
    apply wp_upd_local, wp_skip, wp_bind, wp_local. cbn [f_res set_f_res]. apply wp_return. split; [exact Hend|].
    exists b. split; [exact Hlb|]. change (get_ex (l, g1)) with (g_ex g1). cbn [snd]. unfold TEST_SUCCESS.
    by destruct (Exception_has (g_ex g1)). }
  intros h g' e Hs Hx He [[(Hp1 & Hp2 & Hp3) Hm Hn Hu] Hurl].
  assert (active g h (easy_opts e) g') as Ha by (split; [done|done|]; exists (easy_info e); by destruct e).
  rewrite (proj2 (Z.eqb_neq n 0)) by lia. rewrite orb_true_r. cbn [when].
  eapply wp_bind, wp_set_range; [exact Ha|intros ? ?|by left]. do 2 take_option.
  name_options opts. apply (wp_transfer sane g h opts v u [] X); [done|..|by intros s Hend _|by intros s Hend _].
  - unfold opts. by last_opts.
  - unfold opts. repeat split; last_opts; try done. apply has_range_text; [by last_opts|lia..].
  - split; [lia|done].
  - intros g6 x o Hsane (_ & Hroom & _).
    destruct (run_xfer_get (R := Z) h opts x l0 g6 (Buffer_init_exist data n false))
      as (l' & b' & Hrun & Hl' & Hb' & Hsz & Hf);
      [first [done|by split; simpl; lia|by unfold opts; last_opts|cbn; unfold o in Hroom; lia]..|].
    exists l'. split; [exact Hrun|]. by exists b'.
Qed.

Lemma active_world g h opts g' w : files w = files (g_world g') -> active g h opts g' -> active g h opts (set_g_world w g').
Proof. intros Hw [Hs Hx Hh]. split; [by apply undisturbed_world|done|done]. Qed.

(** The Destination header, from the URL of the path. *)
Lemma active_failing g h opts g' ex w :
  active g h opts g' -> files w = files (g_world g') -> Exception_has ex = true -> refusal ex = false ->
  failing g (set_g_ex ex (set_g_world w g')).
Proof. intros [Hs _ _] Hw Hx Hr. split_and!; [done..|]. by destruct (undisturbed_world g g' w Hw Hs). Qed.
Lemma thrown_failing g h opts g' ex w :
  active g h opts g' -> files w = files (g_world g') -> url_thrown ex -> failing g (set_g_ex ex (set_g_world w g')).
Proof. intros Ha Hw [Hx Ht]. eapply active_failing; [done..|]. unfold refusal. by rewrite Ht. Qed.

Lemma wp_append {R} g h opts lines t l g' (Q : list string -> Frame * G -> Prop) B (T : R -> Frame * G -> Prop) :
  active g h opts g' -> (forall g2, active g h opts g2 -> Q (lines ++ [t]) (l, g2)) ->
  (forall g2, failing g g2 -> Q [] (l, g2)) -> gwp True (curl_slist_append_e lines t) Q B T (l, g').
Proof.
  intros Ha HQ HF. apply wp_bind, wp_ext. pose proof (files_slist lines t (g_world g')) as Hw.
  destruct (env_slist_append lines t (g_world g')) as [[] w]; cbn [fst snd] in *.
  - by apply wp_mret, HQ, active_world.
  - apply wp_bind, wp_bind, wp_mret, wp_upd_ex, wp_mret, HF. by eapply active_failing.
Qed.

(** The list of headers, or a failure. *)
Definition headed g h opts (lines : list string) (r : list string) (s : Frame * G) : Prop :=
  if Exception_has (g_ex s.2) then failing g s.2 else active g h opts s.2 /\ r = lines.

Lemma failing_headed g h opts lines r l g' : failing g g' -> headed g h opts lines r (l, g').
Proof. intros Hf. unfold headed. cbn [snd]. by rewrite (proj1 Hf). Qed.
Lemma active_headed g h opts lines l g' : active g h opts g' -> headed g h opts lines lines (l, g').
Proof. intros Ha. unfold headed. cbn [snd]. by rewrite (act_ex _ _ _ _ Ha). Qed.

Lemma destination_ends g h opts to l g' :
  active g h opts g' -> f_list l = [] ->
  wp (__dav_header_destination to) (fun _ _ => False) (fun _ => False)
    (headed g h opts [dest_header (url_at g to)]) (l, g').
Proof.
  intros Ha Hl. set (T := headed _ _ _ _). set (J := fun s : Frame * G => T (f_list s.1) s).
  apply wp_bind, wp_try. cbv zeta. set (K := fun s' : Frame * G => if Exception_has (get_ex s') then _ else _).
  assert (forall s, J s -> K s) as HK.
  { intros [l2 g2] H2. unfold K. change (get_ex (l2, g2)) with (g_ex g2). destruct (Exception_has (g_ex g2)) eqn:Hx.
    - apply wp_onerror_default, wp_return. unfold J, T, headed in *. cbn [fst snd] in *. by rewrite Hx in *.
    - by apply wp_bind, wp_local, wp_return. }
  assert (forall m : M (Frame * G) (list string) unit, wp m (fun _ => J) J T (l, g') -> wp m (fun _ => K) K T (l, g')) as Hrest.
  { intros m Hm. by refine (wp_mono _ _ _ _ _ _ _ _ Hm (fun _ => HK) HK _). }
  apply Hrest. apply wp_bind, wp_shared. rewrite (same_record _ _ (act_same _ _ _ _ Ha)). set (base := baseuh (g_server g)).
  apply wp_throwable_same, wp_with_assign. cbv zeta. do 2 apply wp_bind. apply wp_ext, wp_bind.
  pose proof (files_url_dup base (g_world g')) as Hw. pose proof (url_under base) as Hunder.
  destruct (env_url_dup base (g_world g')) as [[u1|] w] eqn:Hdup; cbn [fst snd not_null negb when] in *.
  2: { apply wp_upd_ex, wp_mret, wp_upd_local, wp_skip, failing_headed. by eapply active_failing. }
  apply wp_skip, wp_mret, wp_upd_local. change (get_ex _) with (g_ex g'). rewrite (act_ex _ _ _ _ Ha).
  assert (active g h opts (set_g_world w g')) as H1 by by apply active_world.
  apply wp_bind, (wp_url_set _ _ _ _ _ u1); [done|]. cbv zeta. fold (relative to). cbn [g_world set_g_world].
  pose proof (files_url_set u1 CURLUPART_URL (Some (relative to)) CURLU_URLENCODE w) as Hw2.
  split; [intros H0|intros _ e He; apply wp_skip, failing_headed; by eapply (thrown_failing _ _ _ _ _ _ H1)].
  set (r := env_url_set _ _ _ _ _) in *. set (u2 := r.1.2).
  assert (forall w2, (env_url_get u2 CURLUPART_URL w2).1.1 = CURLUE_OK ->
    (env_url_get u2 CURLUPART_URL w2).1.2 = Some (url_at g to)) as Hu2.
  { intros w2. apply (Hunder u1 u2 (g_world g') w w2 (relative to) CURLU_URLENCODE); [by rewrite Hdup|].
    fold r. rewrite <- H0. apply surjective_pairing. }
  set (g2 := set_g_world r.2 _). assert (active g h opts g2) as H2 by by apply active_world.
  apply wp_throwable_same, wp_with_seperated. cbv zeta. apply wp_upd_local, wp_bind, wp_local. cbn [f_url set_f_url set_f_path_url].
  pose proof (files_url_get u2 CURLUPART_URL (g_world g2)) as Hw3.
  apply wp_url_get. cbv zeta. split; [intros H3|intros _ e He; apply wp_skip, failing_headed; by eapply (thrown_failing _ _ _ _ _ _ H2)].
  rewrite (Hu2 _ H3). set (g3 := set_g_world _ g2). assert (active g h opts g3) as Ha3 by by apply active_world.
  change (get_ex _) with (g_ex g3). rewrite (act_ex _ _ _ _ Ha3). apply wp_bind, wp_local, wp_bind.
  eapply wp_deref_some; [done|]. apply wp_throwable_same, wp_bind. cbn [f_list set_f_url set_f_path_url].
  rewrite Hl. eapply wp_append; [exact Ha3|intros g4 H4|intros g4 H4]; apply wp_upd_local, wp_skip, wp_skip.
  - by apply active_headed.
  - by apply failing_headed.
Qed.

Lemma wp_add_destination g h opts to l g' Q B (T : Z -> Frame * G -> Prop) :
  active g h opts g' -> f_list l = [] ->
  (forall g2, active g h opts g2 -> Q tt (set_f_list [dest_header (url_at g to)] l, g2)) ->
  (forall l2 g2, failing g g2 -> B (l2, g2)) -> wp (add_header_destination to) Q B T (l, g').
Proof.
  intros Ha Hl HQ HB. apply wp_throwable, wp_bind, wp_local, wp_bind, wp_call_wp. rewrite Hl.
  refine (wp_mono _ _ _ _ _ _ _ _ (destination_ends g h opts to (set_f_list [] frame0) g' Ha eq_refl) _ _ _); [done..|].
  intros r [l2 g2] Hh. unfold headed in Hh. cbn [fst snd] in *. apply wp_upd_local. change (get_ex _) with (g_ex g2).
  destruct (Exception_has (g_ex g2)) eqn:Hx; [by apply HB|]. destruct Hh as [H2 ->]. by apply HQ.
Qed.

(** MOVE, with and without leave to overwrite. *)
Lemma move_ends from to keep g :
  unlocked g ->
  ends_with g (Vmove (url_at g to) keep) (url_at g from) [] (fun _ _ => True) (__dav_move from to keep) (frame0, g).
Proof.
  intros [Hl Hc]. set (v := Vmove _ _). set (u := url_at g from). set (X := fun _ _ => True). apply wp_bind.
  refine (wp_mono _ _ _ _ _ _ _ _ (wp_server_block (R := Z) from _ frame0 g (ended g v u [] X) Hc _ _ _) _ _ _);
    [intros l g1 g2; by apply ended_steady|by left| |intros _ s Hs; by apply wp_status|done..].
  intros h g' e [Hsame Hfiles] Hx He [[(Hp1 & Hp2 & Hp3) Hm Hn Hu] Hurl].
  assert (active g h (easy_opts e) g') as Ha by (split; [done|done|]; exists (easy_info e); by destruct e).
  apply wp_scope; [done|]. apply wp_bind. eapply wp_add_destination; [exact Ha|done|intros g1 H1|by left].
  set (dest := dest_header _). set (lines := dest :: if keep then ["Overwrite: F"%string] else []).
  set (K := fun s : Frame * G => ended g v u [] X s).
  assert (forall l g2, f_list l = lines -> active g h (easy_opts e) g2 ->
    wp (ul <- use_locks ;;
       when ul
         (rdlock ;;;
          p <- tfind from ;;
          when (not_null p) (unlock ;;; wrlock ;;; add_header_if from RW_LOCK_WRITE) ;;;
          add_header_if to RW_LOCK_READ) ;;;
       set_headers (Some h) ;;;
       curl_easy_setopt_or_die (Some h) CURLOPT_CUSTOMREQUEST (VStr (Some "MOVE"%string)) ;;;
       curl_easy_setopt_ (Some h) CURLOPT_NOBODY (VLong 1) ;;;
       curl_easy_perform_or_die (Some h) ;;;
       when ul unlock) (fun _ => K) K (never (A := Z)) (l, g2)) as Hrest.
  { intros l g2 Hlines H2. apply wp_bind, wp_shared. rewrite (same_record _ _ (act_same _ _ _ _ H2)), Hl.
    apply wp_bind, wp_skip, wp_bind, wp_bind, wp_local. rewrite Hlines. take_option.
    eapply wp_bind, wp_take_or_die; [eassumption|intros ? ?|by left]. take_option. name_options opts.
    apply wp_bind, (wp_transfer sane g h opts v u [] X); [done|..|by intros s Hend _; apply wp_skip|by intros s Hend _].
    - unfold opts. by last_opts.
    - unfold opts. split; [by split; last_opts|]. exists lines. split; [by last_opts|done].
    - done.
    - intros g6 x o _ _. eexists. split; [|done]. apply run_xfer_plain. unfold opts. by repeat split; last_opts. }
  apply wp_bind. destruct keep; [|by apply wp_skip, Hrest].
  apply wp_throwable, wp_bind, wp_local, wp_bind. eapply wp_append; [exact H1|intros g2 H2|intros g2 H2]; apply wp_upd_local.
  - change (get_ex _) with (g_ex g2). rewrite (act_ex _ _ _ _ H2). by apply Hrest.
  - change (get_ex _) with (g_ex g2). rewrite (proj1 H2). by left.
Qed.

(** An option that libcurl may refuse. *)
Lemma wp_offer {R} g h opts o v l g' Q B (T : R -> Frame * G -> Prop) :
  active g h opts g' ->
  (forall opts' g2, active g h opts' g2 -> (forall o', o' <> o -> last_opt o' opts' = last_opt o' opts) -> Q tt (l, g2)) ->
  gwp True (curl_easy_setopt_ (Some h) o v) Q B T (l, g').
Proof.
  intros Ha HQ. destruct (act_handle _ _ _ _ Ha) as [info He]. apply wp_bind, (wp_setopt_live h (mkEasy opts info)); [done|].
  intros c _. cbv zeta. cbn [easy_opts easy_info]. pose proof (files_setopt opts o v (g_world g')) as Hw. apply wp_skip.
  destruct (c =? CURLE_OK).
  - eapply HQ; [by apply active_add|]. intros o' Hne. by apply last_opt_other.
  - eapply (HQ opts); [|done]. destruct Ha as [Hs Hx Hh]. split; [by apply undisturbed_world|done|done].
Qed.

(** The properties of a file are not its content. *)
Lemma proppatch_ends path k v g :
  unlocked g -> zlen (proppatch_body k (Some v)) < 2 ^ 62 ->
  ends_with g Vproppatch (url_at g path) (proppatch_body k (Some v)) (fun _ _ => True)
    (dav_proppatch path k (Some v)) (frame0, g).
Proof.
  intros [Hl Hc] Hb. set (d := proppatch_body k (Some v)). set (u := url_at g path). set (X := fun _ _ => True).
  set (K := ended g Vproppatch u d X).
  apply wp_bind, wp_with_seperated. cbv zeta. apply wp_skip, wp_upd_local.
  change (get_ex _) with (g_ex g). rewrite Hc. apply wp_throwable_same. set (l0 := set_f_buf _ frame0).
  refine (wp_mono _ _ _ _ _ _ _ _ (wp_server_block (R := Z) path _ l0 g K Hc _ _ _) _ _ _);
    [intros l g1 g2; by apply ended_steady|by left| |intros _ s Hs; by apply wp_status|done..].
  intros h g' e Hs Hx He [[(Hp1 & Hp2 & Hp3) Hm Hn Hu] Hurl].
  assert (active g h (easy_opts e) g') as Ha by (split; [done|done|]; exists (easy_info e); by destruct e).
  apply wp_throwable_same, wp_with_assign. cbv zeta. apply wp_bind, wp_bind, wp_ext.
  pose proof (files_slist [] CONTENT_TYPE_XML (g_world g')) as Hw.
  destruct (env_slist_append [] CONTENT_TYPE_XML (g_world g')) as [[] w]; cbn [fst snd] in *.
  2: { apply wp_bind, wp_bind, wp_mret, wp_upd_ex, wp_mret, wp_upd_local. apply wp_skip. left. split_and!; [done..|].
    by destruct (undisturbed_world g g' w Hw Hs). }
  apply wp_mret, wp_upd_local. change (get_ex _) with (g_ex g'). rewrite Hx.
  pose proof (active_world _ _ _ _ _ Hw Ha) as H1. apply wp_bind, wp_bind, wp_local, wp_bind, wp_bind, wp_ext, wp_mret, wp_upd_local.
  match goal with |- gwp _ _ _ _ _ (?x, set_g_world ?y ?z) => set (l1 := x); set (g1 := set_g_world y z) end.
  assert (active g h (easy_opts e) g1) as H2 by (apply active_world; [apply files_slist|done]).
  apply wp_bind, wp_bind, wp_local. eapply wp_offer; [exact H2|]. intros opts0 g2 H3 Hsame. do 4 take_option.
  eapply wp_bind, wp_take_or_die; [eassumption|intros ? ?|by left]. name_options opts.
  apply (wp_transfer sane g h opts Vproppatch u d X); [done|..|by intros s Hend _|by intros s Hend _].
  - unfold opts. last_opts. by rewrite Hsame.
  - unfold opts. by split; last_opts.
  - done.
  - intros g9 x o Hsane _.
    destruct (run_xfer_put (R := Z) h opts x l1 g9 (Buffer_init_exist d (zlen d) false)) as (l' & Hrun);
      [unfold opts; last_opts; rewrite ?Hsame; done..|done|done|by apply Buffer_wf_exist|]. by exists l'.
Qed.
End Requests.
