(* ===== verification/StoreSpec.v ===== *)
(** * Reading and writing files

    What the operations on contents do, on a mount without locks over a server that stores files: the
    files after them and what they hand to their caller. *)

From S2P Require Import Prelude Utils UtilsSpec Exception Control Buffer Stack State Wp Demo Curl Rules Method MethodSpec Pool Progress Sends Locks Propfind Dav DavSpec OperSpec OperProgress TextSpec Server ServerSpec.
#[local] Open Scope Z_scope.
#[local] Open Scope c_scope.

(** ** The size of a file *)

Section Sizes.
Lemma dav_head_size_other line : ~ lit "Content-Length:" `prefix_of` line -> dav_head_size line = None.
Proof.
  intros Hl. unfold dav_head_size. destruct (Z.eqb_spec (strscmp line (lit "Content-Length:")) 0) as [H0|]; [|done].
  apply strscmp_prefix in H0. by destruct Hl.
Qed.

Lemma dav_head_size_line n :
  0 <= n <= LONG_MAX -> dav_head_size (lit "Content-Length: " ++ udigits 10 n ++ lit CRLF) = Some n.
Proof.
  intros Hn. unfold dav_head_size.
  rewrite (proj2 (Z.eqb_eq _ _)) by (apply strscmp_prefix; by exists (" "%char :: udigits 10 n ++ lit CRLF)).
  change (drop 15 _) with (" "%char :: udigits 10 n ++ lit CRLF).
  destruct (udigits_head 10 n) as (d & s & Hd & Hdr); [lia..|].
  change (strlstrip (" "%char :: udigits 10 n ++ lit CRLF)) with (strlstrip (udigits 10 n ++ lit CRLF)).
  assert (strlstrip (udigits 10 n ++ lit CRLF) = udigits 10 n ++ lit CRLF) as ->.
  { rewrite Hd. apply strlstrip_nonspace, digit_nonspace. lia. }
  rewrite strtol_udigits by done. cbn [fst]. by rewrite u64_id by (unfold LONG_MAX in Hn; lia).
Qed.

Lemma head_sizes_app s l1 l2 : head_sizes s (l1 ++ l2) = head_sizes (head_sizes s l1) l2.
Proof. apply foldl_app. Qed.
Lemma head_sizes_other s lines :
  Forall (fun line => ~ lit "Content-Length:" `prefix_of` line) lines -> head_sizes s lines = s.
Proof.
  intros Hl. induction Hl as [|line lines Hne _ IH] in s |- *; [done|]. unfold head_sizes. simpl.
  rewrite dav_head_size_other by done. apply IH.
Qed.

(** The header lines of a HEAD tell the size. *)
Lemma head_sizes_tell s lines n : 0 <= n -> tells_length lines n -> head_sizes s lines = Some n.
Proof.
  intros Hn (Hmax & l1 & l2 & -> & [H1 H2]%Forall_app). rewrite head_sizes_app, (head_sizes_other s) by done.
  unfold head_sizes. cbn [foldl]. rewrite dav_head_size_line by done. by apply head_sizes_other.
Qed.

(** There is always one. *)
Lemma dav_head_size_nonneg line n : dav_head_size line = Some n -> 0 <= n.
Proof.
  unfold dav_head_size. destruct (_ =? 0); [|done]. intros [= <-].
  pose proof (u64_range (strtol (strlstrip (drop 15 line)) 10).1). lia.
Qed.
Lemma head_sizes_some z lines : 0 <= z -> exists n, head_sizes (Some z) lines = Some n /\ 0 <= n.
Proof.
  revert z. induction lines as [|line lines IH]; intros z Hz; [by exists z|]. unfold head_sizes. simpl.
  destruct (dav_head_size line) as [n|] eqn:Hn; apply IH; [by eapply dav_head_size_nonneg|done].
Qed.
End Sizes.

(** ** What the requests do to the files *)

Section Results.
Context `{E : Env} {FS : FileServer} (sane : sane_env).
(** The mount does not use locks. *)
Variable sv : DavServer.
Hypothesis no_locks : use_lock (options sv) = false.
Implicit Types (g : G) (l : HFrame) (fs : gmap string bytes).

(** The URL of a path. *)
Definition place (path : string) : string := url_of (baseuh sv) (relative path).

(** The server record and the files. *)
Definition holds fs g : Prop := g_server g = sv /\ files (g_world g) = fs.

Lemma holds_undisturbed fs g g' : holds fs g -> undisturbed g g' -> holds fs g'.
Proof. intros [Hs Hf] [? ?]. split; congruence. Qed.

(** No exception is pending. *)
Lemma calm_unlocked fs g : holds fs g -> calm g -> unlocked g.
Proof. intros [Hs _] Hc. split; [by rewrite Hs|done]. Qed.

(** The two ways a request ends, for its caller. *)
Definition answered fs v u body r g' : Prop :=
  exists fs', holds fs' g' /\
   ((r = 0 /\ calm g' /\ exists o, out_code o = CURLE_OK /\ serves (W := World) v u fs body o fs')
    \/ (r = 1 /\ Exception_has (g_ex g') = true /\ ((refusal (g_ex g') = false /\ fs' = fs)
      \/ exists o, serves (W := World) v u fs body o fs' /\ (refusal (g_ex g') = true -> refused o)))).

Lemma ended_answered fs g v u body X s :
  holds fs g -> ended g v u body X s -> answered fs v u body (TEST_SUCCESS (g_ex s.2)) s.2.
Proof.
  unfold TEST_SUCCESS, answered, calm. intros [Hgs Hgf] [(Hx & Hr & [Hs Hf])|(Hsame & o & Hv & _ & Hx)];
    rewrite Hgs, Hgf in *.
  - rewrite Hx. exists fs. split; [done|]. right. split; [done|split; [done|by left]].
  - exists (files (g_world s.2)). split; [done|].
    destruct (Exception_has (g_ex s.2)); [right|left]; (split; [done|split; [done|]]); [right; destruct Hx|]; by exists o.
Qed.

Lemma wp_req_ends {R} fs g v u body X (m : M (Frame * G) Z unit) l (Q : Z -> HFrame * G -> Prop) B (T : R -> HFrame * G -> Prop) :
  holds fs g -> ends_with g v u body X m (frame0, g) -> (forall r g', answered fs v u body r g' -> Q r (l, g')) ->
  wp (req m) Q B T (l, g).
Proof.
  intros Hg Hm HQ. apply wp_bind, wp_call_wp. refine (wp_mono _ _ _ _ _ _ _ _ Hm _ _ _); [done..|].
  intros r [l' g'] [-> Hend]. apply wp_mret, HQ. by apply (ended_answered fs g _ _ _ X).
Qed.

(** What a request can change. *)
Definition reach v u : string -> bool :=
  match v with
  | Vput _ _ | Vcreate => at_url u
  | Vdelete => below u
  | Vmove dest _ => fun k => below u k || below dest k
  | _ => fun _ => false
  end.
Lemma serves_reach v u fs body (o : outcome World) fs' : serves v u fs body o fs' -> off (reach v u) fs fs'.
Proof. destruct v; simpl; [intros [-> _]|by intros [? _]|intros [-> _]|by intros [? _]|by intros [? _]|by intros [? _]|intros ->|intros ->]; auto with nfs. Qed.

(** The request at a path, by its verb: [m] is one of method.c. *)
Lemma store_request {R} v p body X m fs l g (Q : Z -> HFrame * G -> Prop) B (T : R -> HFrame * G -> Prop) :
  holds fs g -> calm g -> (unlocked g -> ends_with g v (place p) body X m (frame0, g)) ->
  (forall fs' g' o, holds fs' g' -> calm g' -> out_code o = CURLE_OK -> serves (W := World) v (place p) fs body o fs' -> Q 0 (l, g')) ->
  (forall fs' g', holds fs' g' -> off (reach v (place p)) fs fs' -> Exception_has (g_ex g') = true -> Q 1 (l, g')) ->
  wp (req m) Q B T (l, g).
Proof.
  intros Hg Hc Hm HQ HF. eapply wp_req_ends; [exact Hg|eauto using calm_unlocked|].
  intros r g' (fs' & Hg' & [(-> & Hx & o & H0 & Hv)|(-> & Hx & [[_ ->]|(o & Hv & _)])]); [by eapply HQ|..].
  - eapply HF; [exact Hg'|auto with nfs|done].
  - eapply HF; [exact Hg'|by eapply serves_reach|done].
Qed.

(** Where a path is, in a state. *)
Lemma url_at_place fs g p : holds fs g -> url_at g p = place p.
Proof. intros [Hs _]. unfold url_at. by rewrite Hs. Qed.

(** An upload. *)
Lemma wp_put {R} p b offset fs l g (Q : Z -> HFrame * G -> Prop) B (T : R -> HFrame * G -> Prop) :
  let u := place p in
  holds fs g -> calm g -> 0 < zlen b < 2 ^ 62 -> 0 <= offset -> offset + zlen b <= 10 ^ 10 ->
  (forall g', holds (<[u := patch (default [] (fs !! u)) offset b]> fs) g' -> calm g' -> Q 0 (l, g')) ->
  (forall fs' g', holds fs' g' -> off (at_url u) fs fs' -> (refusal (g_ex g') = true -> fs' = fs) -> Q 1 (l, g')) ->
  wp (put p b (zlen b) offset) Q B T (l, g).
Proof.
  intros u Hg Hc Hb Ho Hr HQ HF.
  eapply wp_req_ends; [exact Hg|by apply put_ends; eauto using calm_unlocked|]. rewrite (url_at_place _ _ _ Hg).
  intros r g' (fs' & Hg' & [(-> & Hx & o & H0 & _ & Hv & _)|(-> & Hx & [[Hno ->]|(o & (Hoff & _ & Hv) & Hre)])]).
  - apply HQ; [|done]. by rewrite (Hv H0) in Hg'.
  - eapply HF; [exact Hg'|auto with nfs|done].
  - eapply HF; [exact Hg'|done|]. by intros Hy%Hre%Hv.
Qed.

(** A HEAD, with and without the size. *)
Lemma store_head_size {R} p fs l g (Q : Z * option Z -> HFrame * G -> Prop) B (T : R -> HFrame * G -> Prop) :
  holds fs g -> calm g ->
  (forall n g', holds fs g' -> calm g' -> 0 <= n -> (forall c, fs !! place p = Some c -> n = zlen c) -> Q (0, Some n) (l, g')) ->
  (forall z g', holds fs g' -> Q (1, z) (l, g')) ->
  wp (head_size p) Q B T (l, g).
Proof.
  intros Hg Hc HQ HF. apply wp_call_wp.
  refine (wp_mono _ _ _ _ _ _ _ _ (head_ends sane p true g (calm_unlocked _ _ Hg Hc)) _ _ _); [done..|].
  intros r [l' g'] [-> [(Hx & Hr & Hu)|(Hsame & o & [Hf Hv] & HX & Hx)]]; cbn [fst snd] in *;
    unfold TEST_SUCCESS.
  - rewrite Hx. eapply HF, holds_undisturbed; [exact Hg|exact Hu].
  - assert (holds fs g') as Hg' by (destruct Hg; split; congruence).
    destruct (Exception_has (g_ex g')) eqn:He; [by apply HF|]. rewrite (HX eq_refl).
    destruct (head_sizes_some 0 (out_headers o)) as (n & Hn & Hpos); [lia|]. rewrite Hn. apply HQ; [done..|].
    intros c Hcont. specialize (Hv Hx c). rewrite (url_at_place _ _ _ Hg), (proj2 Hg) in Hv.
    rewrite (head_sizes_tell _ _ _ (zlen_nonneg c) (Hv Hcont)) in Hn. by injection Hn.
Qed.

(** ** Writing *)

(** The end of an operation that may change the files of [K]: what it has done if its answer is good. *)
Definition changes fs K (good : Z -> gmap string bytes -> Prop) (r : Z) (s : HFrame * G) : Prop :=
  exists fs', holds fs' s.2 /\ off K fs fs' /\ (0 <= r -> good r fs').

(** What failed answers no count. *)
Lemma wp_failed fs fs' K good l g :
  holds fs' g -> off K fs fs' -> wp return_map (fun _ _ => False) (fun _ => False) (changes fs K good) (l, g).
Proof.
  intros Hs Ht. apply wp_bind, wp_bind, wp_gets, wp_bind, wp_upd_ex, wp_mret, wp_return. exists fs'. split_and!; [done..|].
  intros Hr. pose proof (exception_errno_negative (get_ex (l, g))). lia.
Qed.

(** The result is left in [res]. *)
Lemma wp_set_res {F : Prop} z l g (Q : unit -> HFrame * G -> Prop) B (T : Z -> HFrame * G -> Prop) :
  Q tt (set_h_res (Some z) l, g) -> gwp F (set_res z) Q B T (l, g).
Proof. intros HQ. by apply wp_upd_local. Qed.

Lemma write_stores p b offset fs l g :
  let u := place p in
  holds fs g -> calm g -> 0 < zlen b < 2 ^ 31 -> 0 <= offset -> offset + zlen b < 2 ^ 32 ->
  wp (dav_write p b (zlen b) offset) (fun _ _ => False) (fun _ => False)
    (changes fs (at_url u) (fun r fs' => r = zlen b /\ fs' = <[u := patch (default [] (fs !! u)) offset b]> fs)) (l, g).
Proof.
  intros u Hg Hcalm Hb Ho Hr. set (T := changes fs (at_url u) _).
  set (K := fun s => wp (res <- get_res ;; if negb (res =? 0) then return_map else return_ (i32 (zlen b)))
    (fun _ _ => False) (fun _ => False) T s).
  assert (forall l z fs' g', h_res l = Some z -> z <> 0 -> holds fs' g' -> off (at_url u) fs fs' -> K (l, g')) as HF.
  { intros l1 z fs' g' Hl Hz Hs Ht. apply wp_bind, wp_bind, wp_gets. cbn [fst]. rewrite Hl. apply wp_mret.
    rewrite (proj2 (Z.eqb_neq z 0)) by done. by eapply wp_failed. }
  assert (forall l g', h_res l = Some 0 -> holds (<[u := patch (default [] (fs !! u)) offset b]> fs) g' -> K (l, g')) as HQ.
  { intros l1 g' Hl Hs. apply wp_bind, wp_bind, wp_gets. cbn [fst]. rewrite Hl. apply wp_mret, wp_return.
    rewrite i32_id by lia. eexists. split_and!; [exact Hs|apply off_insert|done]. }
  (* the last PUT, on a file whose gap is filled or that has none *)
  assert (forall l g' c, calm g' -> holds (<[u := c]> fs) g' ->
    patch c offset b = patch (default [] (fs !! u)) offset b ->
    wp (r <- put p b (zlen b) offset ;; set_res r) (fun _ => K) K T (l, g')) as Hlast.
  { intros l1 g' c Hcalm' Hs Hc. apply wp_bind. eapply wp_put; [exact Hs|done|lia..| |]; fold u.
    - rewrite lookup_insert_eq, insert_insert_eq. simpl. rewrite Hc. intros g2 H2 _. by apply wp_set_res, HQ.
    - intros fs2 g2 H2 Ht _. apply wp_set_res. eapply HF; [done..|].
      eapply off_trans; [|exact Ht]. apply off_insert. }
  apply wp_bind, wp_do_once. fold K. apply wp_bind. eapply wp_put; [exact Hg|done|lia..| |]; fold u.
  { intros g1 H1 _. apply wp_bind, wp_set_res, wp_bind. by apply wp_break, HQ. }
  intros fs1 g1 H1 Ht1 Hre. apply wp_bind, wp_set_res, wp_bind, wp_skip, wp_bind, wp_gets, wp_bind.
  change (get_ex _) with (g_ex g1). unfold refusal in Hre.
  destruct (issubtype (g_ex g1) CurlException); [|by eapply wp_break, HF]. apply wp_skip, wp_bind.
  destruct ((code (g_ex g1) =? CURLE_HTTP_RETURNED_ERROR) && (response_code (g_ex g1) =? 416)); [|by eapply wp_break, HF].
  rewrite (Hre eq_refl) in *. apply wp_skip, wp_bind, wp_upd_ex, wp_bind.
  eapply store_head_size; [exact H1|done| |].
  2: { intros z g3 H3. apply wp_bind, wp_set_res, wp_bind. by eapply wp_break, HF. }
  intros n g3 H3 Hcalm3 Hn Hsize. fold u in Hsize. apply wp_bind, wp_set_res, wp_bind, wp_skip, wp_bind, wp_mret, wp_bind.
  cbn [fst snd]. rewrite u32_id by lia. destruct (Z.ltb_spec n offset) as [Hgap|Hgap].
  - rewrite u64_id by lia. set (zeros := repeat NUL _).
    assert (zlen zeros = offset - n) as Hz by (unfold zeros, zlen in *; rewrite repeat_length; lia).
    rewrite <- Hz. apply wp_bind. eapply wp_put; [exact H3|done|lia..| |]; fold u.
    + intros g4 H4 Hcalm4. apply wp_bind, wp_set_res, wp_skip. eapply Hlast; [done|exact H4|].
      apply patch_gap; [lia|]. destruct (fs !! u) as [c|] eqn:Hc; simpl; [by rewrite (Hsize c)|done].
    + intros fs4 g4 H4 Ht4 _. apply wp_bind, wp_set_res. by eapply wp_break, HF.
  - apply wp_skip. by apply wp_bind; eapply wp_put; [exact H3|done|lia..| |]; fold u;
      [intros g4 H4 _; by apply wp_set_res, HQ|intros fs4 g4 H4 Ht4 _; by eapply wp_set_res, HF].
Qed.

(** ** The other operations *)

(** Reading: what was handed out of a file is the bytes of the range, and the rest of the array is there. *)
Lemma read_slices p n offset fs l g :
  holds fs g -> calm g -> 0 < n <= zlen (h_buf l) -> n < 2 ^ 31 -> 0 <= offset -> offset + n <= 10 ^ 10 ->
  wp (dav_read p n offset) (fun _ _ => False) (fun _ => False)
    (fun r s => holds fs s.2 /\ (0 <= r -> forall c, fs !! place p = Some c ->
       r = zlen (slice c offset n) /\ take (Z.to_nat r) (h_buf s.1) = slice c offset n)) (l, g).
Proof.
  intros Hg Hc Hlen Hn Ho Hr. pose proof Hg as [Hs Hf]. apply wp_bind. rewrite (proj2 (Z.eqb_neq n 0)) by lia.
  apply wp_skip, wp_bind, wp_gets, wp_bind, wp_call_wp.
  refine (wp_mono _ _ _ _ _ _ _ _ (get_ends sane p (h_buf l) n offset g (calm_unlocked _ _ Hg Hc) Hlen _ Ho Hr) _ _ _);
    [lia|done..|]. intros r [l' g'] [Hend (b & Hb & ->)]. unfold ended, failing in Hend.
  rewrite (url_at_place _ _ _ Hg), Hs, Hf in Hend. cbn [fst snd] in *. apply wp_bind, wp_upd_local, wp_bind. cbn [fst snd].
  assert (holds fs g') as Hg' by (destruct Hend as [(_ & _ & Hu)|(Hs' & o & [Hf' _] & _)];
    [by apply (holds_undisturbed fs g)|done]).
  destruct (Exception_has (g_ex g')) eqn:Hx.
  - rewrite (proj2 (Z.ltb_lt (-1) 0)) by done. apply wp_bind, wp_gets. change (get_ex _) with (g_ex g').
    destruct (http_error (g_ex g') && (response_code (g_ex g') =? 416)) eqn:H416.
    + apply wp_bind, wp_upd_ex, wp_return. split; [done|]. intros _ c Hcont.
      assert (refusal (g_ex g') = true) as Hre by by rewrite <- H416; unfold refusal, http_error; rewrite andb_assoc.
      destruct Hend as [(_ & Hno & _)|(_ & o & (_ & _ & Hv) & _ & [_ Hd])]; [congruence|].
      pose proof (proj2 (Hv c Hcont) (Hd Hre)) as Hempty.
      assert (slice c offset n = []) as ->; [|done]. unfold slice, zlen in *.
      by rewrite drop_ge, take_nil by lia.
    + apply wp_bind, wp_bind, wp_gets, wp_bind, wp_upd_ex, wp_mret, wp_return. split; [done|]. intros Hpos.
      pose proof (exception_errno_negative (g_ex g')). unfold get_ex in Hpos. simpl in Hpos. lia.
  - destruct Hend as [(? & _)|(_ & o & (_ & Hroom & Hv) & (b' & Hb' & Hwf & Hsz & Hfill) & H0)]; [done|].
    rewrite Hb in Hb'. injection Hb' as <-. destruct Hwf as [Hbo Hbs _].
    assert (zlen (filled b) = Buffer.offset b) as Hfl by (unfold filled; apply zlen_take; lia).
    rewrite i32_id by lia. rewrite (proj2 (Z.ltb_ge _ _)) by lia. apply wp_skip, wp_return. split; [done|].
    intros _ c Hcont. pose proof (proj1 (Hv c Hcont) H0) as Hbody. rewrite Hb. cbn.
    replace (offset + _ - 1 - offset + 1) with n in Hbody by lia.
    rewrite <- Hbody, <- Hfill. split; [by rewrite Hfl|done].
Qed.

(** Reading a link: its text as a C string, cut to the array. *)
Lemma readlink_reads p n fs l g :
  holds fs g -> calm g -> 1 < n <= zlen (h_buf l) -> n < 2 ^ 31 ->
  wp (dav_readlink p n) (fun _ _ => False) (fun _ => False)
    (fun r s => holds fs s.2 /\ r <= 0 /\ (0 <= r -> forall c, fs !! place p = Some c ->
       take (S (length (slice c 0 (n - 1)))) (h_buf s.1) = slice c 0 (n - 1) ++ [NUL])) (l, g).
Proof.
  intros Hg Hc Hn Hmax. apply wp_bind, wp_gets, wp_bind, wp_call_wp. rewrite u64_id by lia. cbn [fst].
  refine (wp_mono _ _ _ _ _ _ _ _ (read_slices p (n - 1) 0 fs (set_h_buf (h_buf l) hframe0) g Hg Hc _ _ _ _) _ _ _);
    [simpl; lia|lia..|done|done|]. intros r [l1 g1] [H1 Hr]. cbn [fst snd] in *. apply wp_bind, wp_upd_local, wp_bind.
  destruct (Z.ltb_spec r 0) as [Hneg|Hpos]; [apply wp_return; split_and!; [done|lia|lia]|].
  apply wp_skip, wp_bind, wp_gets, wp_bind. cbn [fst snd h_buf set_h_buf]. destruct (decide _) as [Hlt|]; [|done].
  apply wp_upd_local, wp_return. split_and!; [done..|]. intros _ c Hcont. destruct (Hr Hpos c Hcont) as [Hlen Htake].
  cbn [fst h_buf set_h_buf]. assert (length (slice c 0 (n - 1)) = Z.to_nat r) as -> by (rewrite Hlen; unfold zlen; lia).
  rewrite (take_S_r _ _ NUL) by (by apply list_lookup_insert_eq). by rewrite take_insert_ge, Htake.
Qed.

(** The check of the exception answers an error number or what it was given. *)
Lemma wp_checked {F : Prop} fs r l g (Q : unit -> HFrame * G -> Prop) B (T : Z -> HFrame * G -> Prop) :
  holds fs g -> (forall z g', holds fs g' -> z < 0 \/ z = r /\ calm g -> T z (l, g')) ->
  gwp F (return_check r) Q B T (l, g).
Proof.
  intros Hg HT. apply wp_bind, wp_bind, wp_gets. change (get_ex (l, g)) with (g_ex g). destruct (Exception_has (g_ex g)) eqn:Hx.
  - apply wp_bind, wp_gets, wp_bind, wp_upd_ex, wp_mret, wp_return, HT; [done|]. left. apply exception_errno_negative.
  - apply wp_mret, wp_return, HT; auto.
Qed.

(** A request whose result is not looked at, and the check: it answers 0 only after success. *)
Lemma request_checked v p body X m (good : gmap string bytes -> Prop) fs l g :
  holds fs g -> calm g -> (unlocked g -> ends_with g v (place p) body X m (frame0, g)) ->
  (forall fs' o, out_code o = CURLE_OK -> serves (W := World) v (place p) fs body o fs' -> good fs') ->
  wp (_ <- req m ;; return_check 0) (fun _ _ => False) (fun _ => False)
    (changes fs (reach v (place p)) (fun r fs' => r = 0 /\ good fs')) (l, g).
Proof.
  intros Hg Hc Hm Hgood. apply wp_bind. eapply store_request; [exact Hg|done|exact Hm|..].
  - intros fs' g1 o H1 Hc1 H0 Hv. eapply wp_checked; [exact H1|]. intros z g2 H2 Hz. exists fs'.
    split_and!; [done|by eapply serves_reach|]. intros Hpos. split; [lia|by eapply Hgood].
  - intros fs' g1 H1 Ht Hx. eapply wp_checked; [exact H1|]. intros z g2 H2 [Hz|(_ & Hc1)]; [|unfold calm in Hc1; congruence].
    exists fs'. split_and!; [done..|lia].
Qed.

Lemma unlink_removes p fs l g :
  holds fs g -> calm g ->
  wp (dav_unlink p) (fun _ _ => False) (fun _ => False)
    (changes fs (below (place p)) (fun r fs' => r = 0 /\ fs' = cut (place p) fs)) (l, g).
Proof.
  intros Hg Hc. apply (request_checked Vdelete p [] (fun _ _ => True) _ (fun fs' => fs' = cut (place p) fs)); [done..| |].
  - intros Hu. rewrite <- (url_at_place _ _ p Hg). apply method_ends; [done|by left|done].
  - intros fs' o H0 [_ Hv]. by apply Hv.
Qed.

(** An operation that leaves the files. *)
Definition keeps_files fs (r : Z) (s : HFrame * G) : Prop := holds fs s.2 /\ r <= 0.

Lemma changes_nothing fs good r s :
  changes fs (fun _ => false) (fun r fs' => r = 0 /\ good fs') r s -> keeps_files fs r s.
Proof.
  intros (fs' & Hs & ->%off_nothing & Hr). split; [done|]. destruct (decide (0 <= r)) as [H0|]; [|lia].
  by destruct (Hr H0) as [-> _].
Qed.

Lemma mkdir_keeps p fs l g :
  holds fs g -> calm g -> wp (dav_mkdir p) (fun _ _ => False) (fun _ => False) (keeps_files fs) (l, g).
Proof.
  intros Hg Hc. apply wp_bind, wp_gets, wp_bind. destruct (negb _); [by apply wp_return|]. apply wp_skip.
  refine (wp_mono _ _ _ _ _ _ _ _ (request_checked Vmkcol p [] (fun _ _ => True) _ (fun _ => True) fs l g Hg Hc _ _) _ _ _); [|done..|].
  - intros Hu. rewrite <- (url_at_place _ _ p Hg). apply method_ends; [done|by right; right|done].
  - intros r s. apply changes_nothing.
Qed.

Lemma proppatch_keeps op p k v fs l g :
  operation_request op = Some (Rproppatch p k (Some v)) -> holds fs g -> calm g ->
  wp (_ <- req (dav_proppatch p k (Some v)) ;; return_check 0) (fun _ _ => False) (fun _ => False) (keeps_files fs) (l, g).
Proof.
  intros Hop Hg Hc.
  refine (wp_mono _ _ _ _ _ _ _ _ (request_checked Vproppatch p _ (fun _ _ => True) _ (fun _ => True) fs l g Hg Hc _ _) _ _ _); [|done..|].
  - intros Hu. rewrite <- (url_at_place _ _ p Hg). apply proppatch_ends; [done..|exact (operation_sized _ _ Hop)].
  - intros r s. apply changes_nothing.
Qed.

(** Renaming a file. *)
Definition moved (a b : string) (keep : bool) fs fs' : Prop :=
  (keep = true -> fs !! b = None) /\ forall c, fs !! a = Some c -> fs' = <[b := c]> (cut b (delete a fs)).

Lemma rename_moves a b f fs l g :
  holds fs g -> calm g ->
  wp (dav_rename a b f) (fun _ _ => False) (fun _ => False)
    (changes fs (fun k => below (place a) k || below (place b) k)
      (fun r fs' => r = 0 /\ moved (place a) (place b) (negb (f =? 0)) fs fs')) (l, g).
Proof.
  intros Hg Hc. set (T := changes _ _ _).
  assert (forall z, z < 0 -> T z (l, g)) as Hneg by (intros z Hz; exists fs; split_and!; [done|auto with nfs|lia]).
  assert (forall keep, keep = negb (f =? 0) ->
    wp (_ <- req (__dav_move a b keep) ;; return_check 0) (fun _ _ => False) (fun _ => False) T (l, g)) as Hmove.
  { intros keep Hk. apply (request_checked (Vmove (place b) keep) a [] (fun _ _ => True) _
      (moved (place a) (place b) (negb (f =? 0)) fs)); [done..| |].
    - intros Hu. rewrite <- (url_at_place _ _ a Hg), <- (url_at_place _ _ b Hg). by apply move_ends.
    - intros fs' o H0 [_ Hv]. rewrite <- Hk. by apply Hv. }
  assert (forall m, wp (_ <- req m ;; return_check 0) (fun _ _ => False) (fun _ => False) T (l, g) ->
    gwp True (_ <- req m ;; skip) (fun _ s => wp (return_check 0) (fun _ _ => False) (fun _ => False) T s) (fun _ => False) T (l, g)) as Hskip.
  { intros m Hm. unfold gwp, bind in *. by destruct (req m (l, g)) as [[] s]. }
  apply wp_bind, wp_gets, wp_bind. destruct (negb (bool_decide _)); [by apply wp_return, Hneg|]. apply wp_skip, wp_bind.
  destruct (f =? 0) eqn:Hf; [by apply Hskip, Hmove|]. destruct (f =? RENAME_NOREPLACE); [by apply Hskip, Hmove|].
  by apply wp_return, Hneg.
Qed.

Lemma store_handler {R} (m : M (HFrame * G) Z unit) l g P (Q : Z -> HFrame * G -> Prop) B (T : R -> HFrame * G -> Prop) :
  wp m (fun _ _ => False) (fun _ => False) P (hframe0, g) -> (forall r l' g', P r (l', g') -> Q r (l, g')) ->
  wp (handler m) Q B T (l, g).
Proof.
  intros Hm HQ. apply wp_bind, wp_call_wp. refine (wp_mono _ _ _ _ _ _ _ _ Hm _ _ _); [done..|].
  intros r [l' g'] Hr. by eapply wp_mret, HQ.
Qed.

(** The test that a file does not exist, with the answer when it does. *)
Lemma store_must_not_exist p fs l g (Q : unit -> HFrame * G -> Prop) B (T : Z -> HFrame * G -> Prop) :
  holds fs g -> calm g -> (forall g', holds fs g' -> Q tt (l, g')) ->
  (forall g', holds fs g' -> T (- EEXIST) (l, g')) -> wp (must_not_exist p) Q B T (l, g).
Proof.
  intros Hg Hc HQ HT. apply wp_try. cbv zeta. set (K := fun s' : HFrame * G => _).
  assert (forall g', holds fs g' -> K (l, g')) as HK.
  { intros g' Hg'. unfold K. destruct (Exception_has _); [|by apply HQ]. apply wp_catch_type; intros _.
    - apply wp_catch_default. cbv zeta.
      assert (forall e g', holds fs g' -> forall z, Q tt (if set e =? z
        then (l, g') else put_ex (Exception_destory e) (l, g'))) as Hend
        by (intros e g2 H2 z; destruct (_ =? _); by apply HQ).
      apply wp_bind, wp_gets. destruct (negb _); [by apply wp_throw, wp_skip, Hend|by apply wp_skip, Hend].
    - apply wp_onerror_default, wp_skip. by apply HQ. }
  apply wp_bind, wp_throwable, wp_bind.
  assert (forall g', holds fs g' -> if Exception_has (g_ex g') then K (l, g')
    else gwp True (A := unit) (return_ (- EEXIST)) (fun _ => K) K T (l, g')) as Hend
    by (intros g' Hg'; destruct (Exception_has _); [by apply HK|by apply wp_return, HT]).
  eapply (store_request Vhead p []); [exact Hg|done|..].
  - intros Hu. rewrite <- (url_at_place _ _ p Hg). by apply head_ends.
  - intros fs' g' o Hg' _ _ [-> _]. by apply wp_skip, Hend.
  - intros fs' g' Hg' ->%off_nothing _. by apply wp_skip, Hend.
Qed.

(** Making a file. *)
Lemma mknod_makes p m d fs l g :
  holds fs g -> calm g ->
  wp (dav_mknod p m d) (fun _ _ => False) (fun _ => False) (changes fs (at_url (place p)) (fun r fs' => r = 0 /\ fs' = <[place p := []]> fs)) (l, g).
Proof.
  intros Hg Hc. set (T := changes _ _ _).
  assert (forall z g', z < 0 -> holds fs g' -> T z (l, g')) as Hneg.
  { intros z g' Hz Hg'. exists fs. split_and!; [done|auto with nfs|lia]. }
  apply wp_bind. destruct (mode_is S_IFDIR m); [by apply wp_return, Hneg|].
  apply wp_skip, wp_bind, wp_try. cbv zeta. set (K := fun s' : HFrame * G => _).
  assert (forall fs' g', Exception_has (g_ex g') = true -> holds fs' g' -> off (at_url (place p)) fs fs' -> K (l, g')) as HF.
  { intros fs' g' Hx Hg' Ht. unfold K. change (get_ex (l, g')) with (g_ex g'). rewrite Hx.
    apply wp_onerror_default. refine (wp_mono _ _ _ _ _ _ _ _ (wp_failed _ _ _ _ _ _ Hg' Ht) _ _ _); [done..|]. by intros r s Hs. }
  assert (forall g', calm g' -> holds (<[place p := []]> fs) g' -> K (l, g')) as HQ.
  { intros g' Hx Hg'. unfold K. change (get_ex (l, g')) with (g_ex g'). rewrite Hx.
    apply wp_bind. eapply store_handler; [by eapply (proppatch_keeps (Ochmod p m))|]. intros r l2 g2 [H2 Hr]. apply wp_return.
    eexists. split_and!; [exact H2|apply off_insert|]. intros ?. split; [cbn in Hr; lia|done]. }
  clearbody K. apply wp_bind, wp_throwable. eapply store_must_not_exist; [exact Hg|done|..].
  2: { intros g1 H1. by apply Hneg. }
  intros g1 H1. change (get_ex (l, g1)) with (g_ex g1). destruct (Exception_has (g_ex g1)) eqn:Hx; [eapply HF; [done..|auto with nfs]|].
  apply wp_bind. eapply (store_request Vcreate p [] (fun _ _ => True)); [exact H1|done|..].
  - intros Hu. rewrite <- (url_at_place _ _ p H1). apply method_ends; [done|by right; left|done].
  - intros fs2 g2 o H2 Hc2 H0 [_ Hv]. rewrite (Hv H0) in H2. by apply wp_skip, HQ.
  - intros fs2 g2 H2 Ht Hx2. by eapply wp_skip, HF.
Qed.

(** Opening and closing without truncation touch nothing. *)
Lemma open_lock_nothing p fs l g :
  holds fs g -> wp (__dav_open p) (fun _ _ => False) (fun _ => False) (fun r s => r = 0 /\ holds fs s.2) (l, g).
Proof.
  intros Hg. apply wp_bind, wp_gets, wp_bind. destruct (negb _); [by apply wp_return|].
  apply wp_skip, wp_bind, wp_no_locks; [destruct Hg as [-> _]; done|]. by apply wp_bind, wp_mret, wp_return.
Qed.

Lemma create_makes p m f fs l g :
  holds fs g -> calm g ->
  wp (dav_create p m f) (fun _ _ => False) (fun _ => False) (changes fs (at_url (place p)) (fun r fs' => r = 0 /\ fs' = <[place p := []]> fs)) (l, g).
Proof.
  intros Hg Hc. apply wp_bind. eapply store_handler; [by apply mknod_makes|]. intros r l1 g1 (fs1 & H1 & Ht & Hr).
  apply wp_bind. destruct (Z.eqb_spec r 0) as [->|Hne]; [|apply wp_return; by exists fs1].
  destruct (Hr ltac:(done)) as [_ ->]. clear Hr. apply wp_skip, wp_bind, wp_set_res, wp_bind. simpl.
  assert (forall g', holds (<[place p := []]> fs) g' -> gwp True (A := unit) (res <- get_res ;; return_ res) (fun _ _ => False) (fun _ => False)
    (changes fs (at_url (place p)) (fun r fs' => r = 0 /\ fs' = <[place p := []]> fs)) (set_h_res (Some 0) l, g')) as Hend.
  { intros g' Hg'. apply wp_bind. eapply wp_get_res; [done|]. apply wp_return. eexists. split_and!; [exact Hg'|exact Ht|done]. }
  destruct (writes f); [|by apply wp_skip, Hend].
  apply wp_bind. eapply store_handler; [by apply open_lock_nothing|]. intros r2 l2 g2 [-> H2]. by apply wp_set_res, Hend.
Qed.

Lemma open_keeps junk p f fs l g :
  writes f && negb (Z.land f O_TRUNC =? 0) = false -> holds fs g ->
  wp (dav_open junk p f) (fun _ _ => False) (fun _ => False) (keeps_files fs) (l, g).
Proof.
  intros Hf Hg. apply wp_bind, wp_set_res, wp_bind. simpl.
  assert (forall g', holds fs g' -> gwp True (A := unit) (res <- get_res ;; return_ res) (fun _ _ => False) (fun _ => False)
    (keeps_files fs) (set_h_res (Some 0) l, g')) as Hend.
  { intros g' Hg'. apply wp_bind. eapply wp_get_res; [done|]. by apply wp_return. }
  destruct (writes f); [|by apply wp_skip, Hend]. simpl in Hf. rewrite Hf.
  apply wp_bind, wp_skip, wp_bind. eapply wp_get_res; [done|]. simpl.
  apply wp_bind. eapply store_handler; [by apply open_lock_nothing|]. intros r2 l2 g2 [-> H2]. by apply wp_set_res, Hend.
Qed.
End Results.
