(* ===== verification/SessionSpec.v ===== *)
(** * Sessions of reads and writes

    The abstract file system, a finite map, and the refinement: on a mount without locks, over a
    server that stores files, every session of the operations on contents is a run of it. *)

From S2P Require Import Prelude Utils UtilsSpec Exception Control Buffer Stack State Wp Demo Curl Rules Method MethodSpec Pool Progress Sends Locks Propfind Dav DavSpec OperSpec OperProgress TextSpec Server ServerSpec StoreSpec.
#[local] Open Scope Z_scope.
#[local] Open Scope c_scope.

(** ** The abstract file system *)

Section Abstract.
(** The key of a path. *)
Variable key : string -> string.
Implicit Types (fs : gmap string bytes) (op : operation).

(** What an operation that succeeds makes of the files: a removal takes what is below a collection with
    it, and of a renaming it is said what becomes of a file. *)
Definition effect op fs fs' : Prop :=
  match op with
  | Owrite p b _ o => fs' = <[key p := patch (default [] (fs !! key p)) o b]> fs
  | Ounlink p | Ormdir p => fs' = cut (key p) fs
  | Omknod p _ _ | Ocreate p _ _ => fs' = <[key p := []]> fs
  | Orename a b f => moved (key a) (key b) (negb (f =? 0)) fs fs'
  | _ => fs' = fs
  end.

(** The files that it may change. *)
Definition footprint op : string -> bool :=
  match op with
  | Owrite p _ _ _ | Omknod p _ _ | Ocreate p _ _ => at_url (key p)
  | Ounlink p | Ormdir p => below (key p)
  | Orename a b _ => fun k => below (key a) k || below (key b) k
  | _ => fun _ => false
  end.

(** What it answers when it succeeds, with the caller's array after it. *)
Definition replies op fs (r : Z) (out : bytes) : Prop :=
  match op with
  | Oread p n o => forall c, fs !! key p = Some c -> r = zlen (slice c o n) /\ take (Z.to_nat r) out = slice c o n
  | Oreadlink p n => r = 0 /\ forall c, fs !! key p = Some c ->
      take (S (length (slice c 0 (n - 1)))) out = slice c 0 (n - 1) ++ [NUL]
  | Owrite _ _ n _ => r = n
  | _ => r = 0
  end.

Inductive fs_step op fs (r : Z) (out : bytes) fs' : Prop :=
  | fs_done : 0 <= r -> replies op fs r out -> effect op fs fs' -> off (footprint op) fs fs' -> fs_step op fs r out fs'
  | fs_error : r < 0 -> off (footprint op) fs fs' -> fs_step op fs r out fs'.

Inductive fs_run : list (operation * bytes) -> gmap string bytes -> list (Z * bytes) -> gmap string bytes -> Prop :=
  | fs_nil fs : fs_run [] fs [] fs
  | fs_cons op buf calls fs r out fs1 outs fs2 :
      fs_step op fs r out fs1 -> fs_run calls fs1 outs fs2 -> fs_run ((op, buf) :: calls) fs ((r, out) :: outs) fs2.

Lemma fs_run_off u calls fs outs fs' :
  Forall (fun c => footprint c.1 u = false) calls -> fs_run calls fs outs fs' -> fs' !! u = fs !! u.
Proof.
  intros Hu Hrun. induction Hrun as [fs|op buf calls fs r out fs1 outs fs2 Hstep _ IH]; [done|].
  apply Forall_cons in Hu as [Hop Hu]. rewrite (IH Hu). by destruct Hstep as [_ _ _ Hoff|_ Hoff]; apply Hoff.
Qed.

Lemma fs_run_app calls1 calls2 fs outs fs' :
  fs_run (calls1 ++ calls2) fs outs fs' ->
  exists outs1 outs2 fs1, outs = outs1 ++ outs2 /\ fs_run calls1 fs outs1 fs1 /\ fs_run calls2 fs1 outs2 fs'.
Proof.
  revert fs outs. induction calls1 as [|[op buf] calls1 IH]; intros fs outs Hrun.
  - exists [], outs, fs. split_and!; [done|constructor|done].
  - inversion Hrun as [|? ? ? ? r out fs1 outs' ? Hstep Hrest]; subst.
    destruct (IH _ _ Hrest) as (o1 & o2 & fs2 & -> & H1 & H2).
    exists ((r, out) :: o1), o2, fs2. split_and!; [done|by econstructor|done].
Qed.
Lemma fs_run_length calls fs outs fs' : fs_run calls fs outs fs' -> length outs = length calls.
Proof. induction 1; simpl; by f_equal. Qed.
End Abstract.

(** ** The refinement *)

Section Refinement.
Context `{E : Env} {FS : FileServer} (sane : sane_env).
Variable junk : Z -> bytes.
Implicit Types (g : G).

(** Reads and writes of at most 2 GB, reads below 10 GB and writes below 4 GB; the array of a read is
    as large as it says. *)
Definition storable (op : operation) (buf : bytes) : Prop :=
  match op with
  | Oread _ n o => 0 < n <= zlen buf /\ n < 2 ^ 31 /\ 0 <= o /\ o + n <= 10 ^ 10
  | Oreadlink _ n => 1 < n <= zlen buf /\ n < 2 ^ 31
  | Owrite _ b n o => zlen b = n /\ 0 < n < 2 ^ 31 /\ 0 <= o /\ o + n < 2 ^ 32
  | Oopen _ f => writes f && negb (Z.land f O_TRUNC =? 0) = false
  | Oreaddir _ | Ogetattr _ | Osymlink _ _ | Otruncate _ _ | Ocopy_file_range _ _ _ _ _ => False
  | _ => True
  end.

Lemma storable_callable op buf : storable op buf -> callable op buf.
Proof. destruct op; simpl; try done; lia. Qed.

(** The end of an operation, as a step of the abstract file system. *)
Definition stepped op sv fs (r : Z) (s : HFrame * G) : Prop :=
  exists fs', holds sv fs' s.2 /\ fs_step (place sv) op fs r (h_buf s.1) fs'.

Lemma changes_step op sv fs (good : Z -> gmap string bytes -> Prop) m l g :
  (forall r fs', 0 <= r -> good r fs' -> effect (place sv) op fs fs' /\ forall out, replies (place sv) op fs r out) ->
  wp m (fun _ _ => False) (fun _ => False) (changes sv fs (footprint (place sv) op) good) (l, g) ->
  gwp True (A := unit) m (fun _ _ => False) (fun _ => False) (stepped op sv fs) (l, g).
Proof.
  intros Hgood Hm. refine (wp_mono _ _ _ _ _ _ _ _ Hm _ _ _); [done..|].
  intros r s (fs' & Hs & Hoff & Hr). exists fs'. split; [done|]. destruct (decide (0 <= r)) as [H0|H0].
  - destruct (Hgood r fs') as [He Hrep]; [auto..|]. by apply fs_done.
  - apply fs_error; [lia|done].
Qed.

Lemma keeps_step op sv fs m l g :
  effect (place sv) op fs fs -> (forall out, replies (place sv) op fs 0 out) ->
  wp m (fun _ _ => False) (fun _ => False) (keeps_files sv fs) (l, g) ->
  gwp True (A := unit) m (fun _ _ => False) (fun _ => False) (stepped op sv fs) (l, g).
Proof.
  intros He Hrep Hm. refine (wp_mono _ _ _ _ _ _ _ _ Hm _ _ _); [done..|].
  intros r s [Hs Hr]. exists fs. split; [done|]. destruct (decide (r = 0)) as [->|Hne].
  - by apply fs_done; auto with nfs.
  - apply fs_error; [lia|auto with nfs].
Qed.

(** One operation is a step of the abstract file system. *)
Lemma oper_steps op buf sv fs g :
  storable op buf -> use_lock (options sv) = false -> holds sv fs g -> calm g ->
  wp (dav_oper junk op) (fun _ _ => False) (fun _ => False) (stepped op sv fs) (set_h_buf buf hframe0, g).
Proof.
  intros Hop Hl Hg Hc.
  destruct op as [p|p|p n o|p b n o|p|a b f|p|p|p m|p u w|p m d|p n|a b|p m f|p f|p f|p n|pi oi po oo n];
    cbn [dav_oper storable] in *; try done.
  - destruct Hop as (Hlen & Hn & Ho & Hr).
    refine (wp_mono _ _ _ _ _ _ _ _ (read_slices sane sv Hl p n o fs (set_h_buf buf hframe0) g Hg Hc Hlen Hn Ho Hr) _ _ _); [done..|].
    intros r s [Hs Hrep]. exists fs. split; [done|]. destruct (decide (0 <= r)) as [H0|H0].
    + apply fs_done; [done|exact (Hrep H0)|done|auto with nfs].
    + apply fs_error; [lia|auto with nfs].
  - destruct Hop as (<- & Hn & Ho & Hr). eapply changes_step; [|by apply write_stores].
    by intros r fs' _ [-> ->].
  - by eapply keeps_step; [..|apply mkdir_keeps].
  - eapply changes_step; [|by apply rename_moves]. by intros r fs' _ [-> ?].
  - eapply changes_step; [|by apply unlink_removes]. by intros r fs' _ [-> ->].
  - eapply changes_step; [|by apply unlink_removes]. by intros r fs' _ [-> ->].
  - by eapply keeps_step; [..|eapply (proppatch_keeps sane sv Hl (Ochmod p m))].
  - by eapply keeps_step; [..|eapply (proppatch_keeps sane sv Hl (Ochown p u w))].
  - eapply changes_step; [|by apply mknod_makes]. by intros r fs' _ [-> ->].
  - destruct Hop as [Hlen Hn].
    refine (wp_mono _ _ _ _ _ _ _ _ (readlink_reads sane sv Hl p n fs (set_h_buf buf hframe0) g Hg Hc Hlen Hn) _ _ _); [done..|].
    intros r s (Hs & Hle & Hrep). exists fs. split; [done|]. destruct (decide (0 <= r)) as [H0|H0].
    + apply fs_done; [done|split; [lia|exact (Hrep H0)]|done|auto with nfs].
    + apply fs_error; [lia|auto with nfs].
  - eapply changes_step; [|by apply create_makes]. by intros r fs' _ [-> ->].
  - by eapply keeps_step; [..|apply open_keeps].
  - eapply keeps_step; [done..|].
    refine (wp_mono _ _ _ _ _ _ _ _ (wp_release p f _ g _) _ _ _); [by destruct Hg as [-> _]|done..|].
    intros r s [-> Hs]. split; [by rewrite Hs|done].
Qed.

Lemma session_runs sv calls fs g :
  Forall (fun c => storable c.1 c.2) calls -> idle g -> calm g -> holds sv fs g ->
  exists outs fs' g', session junk calls g = Some (outs, g') /\ idle g' /\ calm g' /\ holds sv fs' g'
    /\ fs_run (place sv) calls fs outs fs'.
Proof.
  revert fs g. induction calls as [|[op buf] calls IH]; intros fs g Hcs Hg Hc Hs.
  - exists [], fs, g. split_and!; [done..|constructor].
  - apply Forall_cons in Hcs as [Hop Hcs]. simpl in *.
    destruct (oper_returns sane junk op buf g (storable_callable _ _ Hop) Hg Hc) as (r & s & Hrun & Hg1 & Hc1).
    assert (use_lock (options sv) = false) as Hl by (destruct Hs as [<- _]; by apply idle_unlocked).
    pose proof (oper_steps op buf sv fs g Hop Hl Hs Hc) as Hstep. unfold gwp in Hstep. rewrite Hrun in *.
    destruct Hstep as (fs1 & Hs1 & Hstep).
    destruct (IH fs1 s.2 Hcs Hg1 Hc1 Hs1) as (outs & fs2 & g' & -> & Hg' & Hc' & Hs' & Hfs).
    exists ((r, h_buf s.1) :: outs), fs2, g'. split_and!; [done..|]. by econstructor.
Qed.

(** The keys of a mounted file system. *)
Definition url_on g : string -> string := place (g_server g).

(** C1: refinement of a file system in memory: on a mount without locks, over a server that stores
    files by their ranges, every session of reads, writes, creations, removals, renamings, new
    directories and changes of properties returns, with the answers and the arrays of a run of the
    abstract file system from the files before it to the files after it; an operation that fails answers a
    negative number and touches nothing but the files it names. *)
Theorem store_refines (calls : list (operation * bytes)) g :
  Forall (fun c => storable c.1 c.2) calls -> idle g -> calm g ->
  exists outs g', session junk calls g = Some (outs, g') /\ g_server g' = g_server g
    /\ fs_run (url_on g) calls (files (g_world g)) outs (files (g_world g')).
Proof.
  intros Hcs Hg Hc. destruct (session_runs (g_server g) calls (files (g_world g)) g) as (outs & fs' & g' & Hrun & _ & _ & [Hs <-] & Hfs);
    [done..|]. by exists outs, g'.
Qed.

(** C2: what is written is what is read: after a write that succeeded, and whatever operations on
    other files in between, a read of the same range that succeeds hands out the bytes written, in
    any number of pieces and past any gap. *)
Theorem write_reads_back p b o between buf g :
  let n := zlen b in
  let calls := (Owrite p b n o, []) :: between ++ [(Oread p n o, buf)] in
  Forall (fun c => storable c.1 c.2) calls ->
  Forall (fun c => footprint (url_on g) c.1 (url_on g p) = false) between -> idle g -> calm g ->
  exists r1 out1 outs r2 out2 g', session junk calls g = Some ((r1, out1) :: outs ++ [(r2, out2)], g')
    /\ (0 <= r1 -> 0 <= r2 -> r1 = n /\ r2 = n /\ take (length b) out2 = b).
Proof.
  intros n calls Hcs Hsp Hg Hc. destruct (session_runs (g_server g) calls (files (g_world g)) g Hcs Hg Hc (conj eq_refl eq_refl))
    as (all & fs' & g' & Hrun & _ & _ & _ & Hfs).
  inversion Hfs as [|? ? ? ? r1 out1 fs1 rest ? Hw Hrest]; subst.
  destruct (fs_run_app _ _ _ _ _ _ Hrest) as (outs & last & fs2 & -> & Hmid & Hend).
  inversion Hend as [|? ? ? ? r2 out2 fs3 nil ? Hr Hnil]; subst. inversion Hnil; subst.
  exists r1, out1, outs, r2, out2, g'. split; [done|]. intros H1 H2.
  destruct Hw as [_ Hw1 Heff _|]; [|lia]. destruct Hr as [_ Hr2 _ _|]; [|lia]. cbn [effect replies] in *.
  unfold url_on in Hsp. rewrite (fs_run_off _ _ _ _ _ _ Hsp Hmid), Heff, lookup_insert_eq in Hr2.
  destruct (Hr2 _ eq_refl) as [Hlen Hout]. rewrite slice_patch in Hlen, Hout. subst r1 r2. split_and!; [done..|].
  unfold zlen in Hout. by rewrite Nat2Z.id in Hout.
Qed.
End Refinement.

(** ** A server that keeps its files in memory *)

Section Ram.
#[local] Abbreviation memory := (gmap string bytes).

Definition reply (c : Z) (w : memory) : xfer memory :=
  XDone w (if c <? 400 then CURLE_OK else CURLE_HTTP_RETURNED_ERROR) (demo_info c).

Definition the_url (opts : list (CURLoption * optval)) : string :=
  match last_opt CURLOPT_URL opts with Some (VStr (Some u)) => u | _ => "" end.
Definition the_range (opts : list (CURLoption * optval)) : Z * Z :=
  match last_opt CURLOPT_RANGE opts with
  | Some (VStr (Some t)) => let '(first, rest) := strtol (lit t) 10 in (first, fst (strtol (drop 1 rest) 10))
  | _ => (0, -1)
  end.

(** The Destination, and whether it is kept. *)
Definition the_move (opts : list (CURLoption * optval)) : string * bool :=
  match last_opt CURLOPT_HTTPHEADER opts with
  | Some (VSlist (dest :: more)) => (str_of (drop 13 (lit dest)), bool_decide (more = ["Overwrite: F"%string]))
  | _ => (""%string, false)
  end.

(** It refuses a write past the end of the file; [name] is how it spells the header of the size. *)
Definition ram_server (name : string) (opts : list (CURLoption * optval)) (w : memory) : xfer memory :=
  let u := the_url opts in
  let first := fst (the_range opts) in
  let n := snd (the_range opts) - first + 1 in
  let '(dest, keep) := the_move opts in
  match last_opt CURLOPT_CUSTOMREQUEST opts, w !! u with
  | Some (VStr (Some "HEAD"%string)), Some c =>
      if zlen c <=? LONG_MAX
      then XHeader (lit name ++ udigits 10 (zlen c) ++ lit CRLF) (fun _ => reply 200 w)
      else reply 500 w
  | Some (VStr (Some "PUT"%string)), _ => reply 201 (<[u := []]> w)
  | Some (VStr (Some "DELETE"%string)), Some _ => reply 204 (cut u w)
  | Some (VStr (Some "MOVE"%string)), Some c =>
      if keep && not_null (w !! dest) then reply 412 w else reply 201 (<[dest := c]> (cut dest (delete u w)))
  | Some (VStr (Some "MKCOL"%string)), None => reply 201 w
  | Some (VStr (Some "PROPPATCH"%string)), _ => reply 207 w
  | None, old =>
      if (n <? 0) || (2 ^ 62 <=? n) then reply 500 w else
      match last_opt CURLOPT_UPLOAD opts with
      | Some (VLong 1) =>
          if zlen (default [] old) <? first then reply 416 w else
          XRead n (fun body => reply 204 (<[u := patch (default [] old) first body]> w))
      | _ =>
          match old with
          | Some c => if zlen c <=? first then reply 416 w else XWrite (slice c first n) (fun _ => reply 206 w)
          | None => reply 404 w
          end
      end
  | Some _, _ => reply 404 w
  end.
#[local] Abbreviation ram_env := (demo_env (ram_server "Content-Length: ") None).

Lemma the_range_reads opts first last : has_range opts first last -> the_range opts = (first, last).
Proof.
  intros (t & Ht & rest & H1 & H2). unfold the_range. rewrite Ht, lit_str_of, H1. cbn [drop]. by rewrite drop_0, H2.
Qed.

Lemma slice_length c first n : 0 <= n -> zlen (slice c first n) <= n.
Proof. intros Hn. unfold slice, zlen. rewrite length_take. lia. Qed.

Lemma the_move_reads opts dest (keep : bool) :
  last_opt CURLOPT_HTTPHEADER opts = Some (VSlist (dest_header dest :: if keep then ["Overwrite: F"%string] else [])) ->
  the_move opts = (dest, keep).
Proof.
  intros Hh. unfold the_move. rewrite Hh, lit_dest_header. f_equal; [|by destruct keep].
  change 13%nat with (length (lit "Destination: ")). rewrite drop_app_length. apply str_of_lit.
Qed.

(** A failure that leaves the files. *)
Lemma reply_fails v u (w : memory) body c :
  400 <= c -> c <> 416 -> verb_body v body -> serves v u w body (converse (reply c w) body) w.
Proof.
  intros Hc Hne Hb. assert (out_code (converse (reply c w) body) <> CURLE_OK) as Hcode
    by (cbn; by rewrite (proj2 (Z.ltb_ge c 400)) by lia).
  assert (~ refused (converse (reply c w) body)) as Hre by by intros [_ Hr].
  destruct v; cbn [serves verb_body] in *; split_and?; auto with nfs; try done; intros; try done.
  change (zlen (out_body _)) with 0. lia.
Qed.

Lemma ram_contract opts (w : memory) v u body :
  last_opt CURLOPT_URL opts = Some (VStr (Some u)) -> verb_is opts v -> verb_body v body ->
  let o := converse (ram_server "Content-Length: " opts w) body in serves v u w body o (out_world o).
Proof.
  intros Hu Hv Hb. cbv zeta.
  assert (the_url opts = u) as Hurl by (unfold the_url; by rewrite Hu). unfold ram_server. rewrite Hurl.
  pose proof (reply_fails v u w body) as Hfail. destruct (the_move opts) as [dest keep] eqn:Hmove.
  destruct v as [first last|first last| | | |dest' keep'| |]; simpl in Hv.
  - destruct Hv as (-> & _ & -> & Hr%the_range_reads). rewrite Hr. cbn [fst snd].
    destruct (_ || _); [by apply Hfail|]. destruct Hb as [Hb ->]. destruct (w !! u) as [c|] eqn:Hold; [|by apply Hfail].
    destruct (Z.leb_spec (zlen c) first) as [Hend|]; cbn; (split; [done|split]).
    + unfold zlen. simpl. lia.
    + intros c' Hc'. rewrite Hold in Hc'. by injection Hc' as <-.
    + rewrite app_nil_r. apply slice_length. lia.
    + intros c' Hc'. rewrite Hold in Hc'. injection Hc' as <-. rewrite app_nil_r. by split; [|intros [? _]].
  - destruct Hv as (-> & _ & -> & Hr%the_range_reads & _). rewrite Hr. cbn [fst snd].
    destruct (_ || _); [by apply Hfail|]. destruct Hb as [Hb Hlen].
    destruct (_ <? _); [by split_and!; auto with nfs|]. cbn [converse reply out_world].
    rewrite take_ge by (unfold zlen in Hlen; lia). split_and!; [apply off_insert|done|by intros [? _]].
  - destruct Hv as [-> _]. destruct (w !! u) as [c|] eqn:Hold; [|by apply Hfail].
    destruct (Z.leb_spec (zlen c) LONG_MAX); [|by apply Hfail]. split; [done|]. intros _ c' Hc'.
    rewrite Hold in Hc'. injection Hc' as <-. split; [done|]. by exists [], [].
  - destruct Hv as [-> _]. destruct (w !! u); (split; [apply off_insert|done]).
  - destruct Hv as [-> _]. destruct (w !! u); [|by apply Hfail]. split; [apply off_cut|done].
  - destruct Hv as [[-> _] (lines & Hlines & ->)]. rewrite (the_move_reads _ _ _ Hlines) in Hmove. injection Hmove as -> ->.
    destruct (w !! u) as [c|] eqn:Hold; [|by apply Hfail]. destruct (keep && _) eqn:Hkeep; [by apply Hfail|]. split.
    + intros k [Hk1%below_at%bool_decide_eq_false Hk2]%orb_false_iff. cbn.
      rewrite (off_insert dest _ c k) by by apply below_at. rewrite (off_cut dest _ k Hk2). by rewrite lookup_delete_ne.
    + intros _. split.
      * intros ->. by destruct (w !! dest).
      * intros c' Hc'. rewrite Hold in Hc'. by injection Hc' as <-.
  - destruct Hv as [-> _]. by destruct (w !! u).
  - destruct Hv as [-> _]. by destruct (w !! u).
Qed.

Lemma append_nil (s : string) : s = s +:+ "".
Proof. induction s as [|a s IH]; [done|]. change (String a s = String a (s +:+ "")). by rewrite <- IH. Qed.

#[local] Instance ram_files : FileServer (E := ram_env) := {
  files w := w;
  url_of := String.append;
  files_malloc _ := eq_refl;
  files_easy_init _ := eq_refl;
  files_setopt _ _ _ _ := eq_refl;
  files_slist _ _ _ := eq_refl;
  files_url_dup _ _ := eq_refl;
  files_url_set _ _ _ _ _ := eq_refl;
  files_url_get _ _ _ := eq_refl;
  flag_taken _ _ _ _ _ := eq_refl;
  headers_taken _ _ _ := eq_refl;
  setopt_code _ _ _ _ := ltac:(done);
  url_under := ltac:(by intros u u1 u2 w w1 w2 path f [= ->] [= <-] _);
  url_base := ltac:(intros u u1 w w1 [= ->] _; exact (f_equal Some (append_nil u1)));
  server_contract := ram_contract;
}.

Lemma ram_sane : sane_env (E := ram_env).
Proof.
  split; [done|by intros u part w _; exists u|]. intros opts w. cbn. unfold ram_server.
  assert (forall c w, sane_xfer (reply c w)) as Hr by (intros; constructor).
  repeat case_match; try apply Hr; constructor; intros; try apply Hr.
  all: match goal with H : _ || _ = false |- _ => apply orb_false_iff in H as [?%Z.ltb_ge ?%Z.leb_gt] end; try lia.
  all: eapply Z.le_lt_trans; [apply slice_length|]; lia.
Qed.

#[local] Abbreviation ram_mount := (demo_world (ram_server "Content-Length: ") None (∅ : memory) false [] ex0).

(** A file is made, written, written past its end, read back in parts, renamed twice, and removed. *)
Definition ram_calls : list (operation * bytes) :=
  [(Ocreate "/a" 420 O_RDWR, []); (Owrite "/a" (lit "hello") 5 0, []); (Owrite "/a" (lit "end") 3 8, []);
   (Oread "/a" 16 0, repeat NUL 16); (Oread "/a" 4 11, repeat NUL 4); (Orelease "/a" O_RDWR, []);
   (Omkdir "/d", []); (Ocreate "/b" 420 O_RDWR, []); (Orename "/a" "/b" RENAME_NOREPLACE, []);
   (Orename "/a" "/b" 0, []); (Oreadlink "/b" 6, repeat NUL 6); (Oread "/a" 4 0, repeat NUL 4);
   (Ounlink "/b", []); (Oread "/b" 4 0, repeat NUL 4)].

Lemma store_refines_witness :
  exists outs g', session (E := ram_env) (fun _ => []) ram_calls ram_mount = Some (outs, g')
    /\ fs_run (url_on ram_mount) ram_calls ∅ outs (files (g_world g'))
    /\ outs.*1 = [0; 5; 3; 11; 0; 0; 0; 0; - EEXIST; 0; 0; - ENOENT; 0; - ENOENT]
    /\ (outs !! 3%nat) = Some (11, lit "hello" ++ repeat NUL 3 ++ lit "end" ++ repeat NUL 5)
    /\ (outs !! 10%nat) = Some (0, lit "hello" ++ [NUL]).
Proof.
  destruct (store_refines (E := ram_env) ram_sane (fun _ => []) ram_calls ram_mount) as (outs & g' & Hr & _ & Hfs).
  - unfold ram_calls. repeat apply Forall_cons_2; [..|apply Forall_nil_2]; cbn; unfold zlen; simpl; repeat split; lia.
  - apply demo_idle.
  - reflexivity.
  - exists outs, g'. split; [exact Hr|]. split; [exact Hfs|].
    assert (fst <$> session (E := ram_env) (fun _ => []) ram_calls ram_mount = Some outs) as Ho by (rewrite Hr; reflexivity).
    vm_compute in Ho. injection Ho as <-. split_and!; reflexivity.
Defined.

Lemma write_reads_back_witness :
  let between := [(Ocreate "/b" 420 O_RDWR, []); (Owrite "/b" (lit "other") 5 0, [])] in
  exists r1 out1 outs r2 out2 g',
    session (E := ram_env) (fun _ => []) ((Owrite "/a" (lit "hello") 5 3, []) :: between ++ [(Oread "/a" 5 3, repeat NUL 5)])
      (demo_world (ram_server "Content-Length: ") None (<["http://h/a" := lit "xyz"]> ∅ : memory) false [] ex0) = Some ((r1, out1) :: outs ++ [(r2, out2)], g')
    /\ r1 = 5 /\ r2 = 5 /\ out2 = lit "hello".
Proof.
  intros between.
  destruct (write_reads_back (E := ram_env) ram_sane (fun _ => []) "/a" (lit "hello") 3 between (repeat NUL 5)
    (demo_world (ram_server "Content-Length: ") None (<["http://h/a" := lit "xyz"]> ∅ : memory) false [] ex0))
    as (r1 & out1 & outs & r2 & out2 & g' & Hr & Hback).
  - repeat apply Forall_cons_2; [..|apply Forall_nil_2]; cbn; unfold zlen; simpl; repeat split; lia.
  - repeat apply Forall_cons_2; [..|apply Forall_nil_2]; reflexivity.
  - apply demo_idle.
  - reflexivity.
  - exists r1, out1, outs, r2, out2, g'. split; [exact Hr|].
    pose proof (f_equal (fmap fst) Hr) as Ho. vm_compute in Ho. cbn in Ho.
    destruct outs as [|a [|b [|c []]]]; try discriminate Ho. injection Ho as <- <- <- <- <- <-. split_and!; reflexivity.
Defined.

(** A server that spells the name in lower case, as HTTP/2 asks for: the size of the file reads as 0,
    and the padding of a write past the end erases the file. *)
Example lowercase_length_erases :
  let env := demo_env (ram_server "content-length: ") None in
  let g := demo_world (ram_server "content-length: ") None (<["http://h/a" := lit "hello"]> ∅ : memory) false [] ex0 in
  (fun p => (p.1.*1, g_world p.2)) <$> session (E := env) (fun _ => []) [(Owrite "/a" (lit "end") 3 8, [])] g
  = Some ([3], <["http://h/a" := repeat NUL 8 ++ lit "end"]> ∅).
Proof. vm_compute. reflexivity. Qed.
End Ram.
