(* ===== verification/Dummy.v ===== *)
(** * proto/proto.c, proto/dummy/dummy.c, emulator/emulator.c: the protocols

    The file system with one file, and the choice of a protocol by the scheme of the URL. *)

From S2P Require Import Prelude Utils UtilsSpec Exception Control Buffer Stack State Curl Method Locks Propfind Dav.
#[local] Open Scope Z_scope.
#[local] Open Scope c_scope.

(** ** The dummy protocol *)

(** [path + 1]: [None] is past the end of an empty path. *)
Definition after_slash (path : string) : option string :=
  match path with EmptyString => None | String _ p => Some p end.

Definition hello : bytes := lit "Hello!".

Section Dummy.
Context `{E : Env}.
Abbreviation HM := (M (HFrame * G) Z).

Definition dummy_readdir (path : string) : HM unit :=
  when (negb (bool_decide (path = "/"%string))) (return_ (- ENOENT)) ;;;
  fill_dir "." None ;;;
  fill_dir ".." None ;;;
  fill_dir "hello" None ;;;
  return_ 0.

Definition is_hello {S R} (path : string) : M S R bool :=
  p <- (match after_slash path with Some p => mret p | None => stuck OutOfBounds end) ;;
  mret (bool_decide (p = "hello"%string)).

Definition dummy_getattr (path : string) : HM unit :=
  set_res 0 ;;;
  upd_shared (set_g_stbuf (Some zero_stat)) ;;;
  (if bool_decide (path = "/"%string)
   then upd_shared (set_g_stbuf (Some (set_st_nlink 2 (set_st_mode (Z.lor S_IFDIR 493) zero_stat))))
   else
     h <- is_hello path ;;
     if (h : bool)
     then upd_shared (set_g_stbuf (Some (set_st_size (zlen hello)
            (set_st_nlink 1 (set_st_mode (Z.lor S_IFREG 292) zero_stat)))))
     else set_res (- ENOENT)) ;;;
  res <- get_res ;;
  return_ res.

(** [memcpy (buf, "Hello!" + offset, size)]: the literal has seven bytes. *)
Definition copy_hello (offset size : Z) : HM unit :=
  l <- local ;;
  if (0 <=? offset) && (offset + size <=? zlen hello + 1) && (size <=? zlen (h_buf l))
  then upd_local (set_h_buf (take (Z.to_nat size) (drop (Z.to_nat offset) (hello ++ [NUL]))
                             ++ drop (Z.to_nat size) (h_buf l)))
  else stuck OutOfBounds.

(** On a frame whose [h_buf] is the caller's [buf]. *)
Definition dummy_read (path : string) (size offset : Z) : HM unit :=
  h <- is_hello path ;;
  when (negb h) (return_ (- ENOENT)) ;;;
  let len := zlen hello in
  size <- (if offset <? len then
             let size := if len <? u64 (offset + size) then u64 (len - offset) else size in
             copy_hello offset size ;;; mret size
           else mret 0) ;;
  return_ (i32 size).
End Dummy.

(** ** The table of operations

    A handler that the table does not hold is [None]. *)

Section Proto.
Context `{E : Env}.
Variable junk : Z -> bytes.

Definition proto_operations := operation -> option (M (HFrame * G) Z unit).

Definition dummy_oper : proto_operations := fun op =>
  match op with
  | Oreaddir path => Some (dummy_readdir path)
  | Ogetattr path => Some (dummy_getattr path)
  | Oread path size offset => Some (dummy_read path size offset)
  | _ => None
  end.

(** [dummy_getoper] fills the table and answers 0. *)
Definition dummy_getoper {L} : M (L * G) Z unit := return_ 0.

Definition unsupported (scheme : string) : string :=
  str_of (snprintf (S (length (lit "unsupported scheme `'")) + length (lit scheme))
            (lit "unsupported scheme `" ++ lit scheme ++ lit "'")).
Definition no_handler_msg (scheme : string) : string :=
  str_of (snprintf (S (length (lit "scheme `' has no handler")) + length (lit scheme))
            (lit "scheme `" ++ lit scheme ++ lit "' has no handler")).

(** The end of [get_proto_oper]: NULL needs an exception. *)
Definition proto_result (scheme : string) (ret : option proto_operations)
    : M (Frame * G) (option proto_operations) unit :=
  when (negb (not_null ret))
    (pending <- has_ex ;;
     when (negb pending) (mk_NetworkFSException (no_handler_msg scheme)) ;;;
     return_ None) ;;;
  return_ ret.

Definition get_proto_oper (scheme : string) (baseurl : CURLU) (options : networkfs_opts)
    : M (Frame * G) (option proto_operations) unit :=
  if bool_decide (scheme = "dav"%string) then
    r <- call frame0 (fun _ => tt) (dav_getoper baseurl options) ;;
    proto_result scheme
      (if fst r =? 0 then Some (fun op => Some (dav_oper junk op)) else None)
  else if bool_decide (scheme = "dummy"%string) then
    r <- call frame0 (fun _ => tt) dummy_getoper ;;
    proto_result scheme (if fst r =? 0 then Some dummy_oper else None)
  else
    mk_NetworkFSException (unsupported scheme) ;;; return_ None.

(** emulator.c: every replacement is commented out. *)
Definition emulate_networkfs_oper (proto_oper : option proto_operations) : option proto_operations :=
  proto_oper.
End Proto.
