(* ===== verification/Main.v ===== *)
(** * networkfs.c: the command line and main

    libfuse's parsing of the options, its argument list and its main loop are parameters, and so
    is the order in which getopt meets the arguments. The table that the parser gets is in
    Options.v. *)

From S2P Require Import Prelude Utils UtilsSpec Exception Control Buffer Stack State Curl Method Locks Propfind Dav Dummy Options.
#[local] Open Scope Z_scope.
#[local] Open Scope c_scope.

(** ** Constants (curl/curl.h, curl/urlapi.h, fuse_opt.h) *)

Definition CURLAUTH_BASIC : Z := 1.
Definition CURLAUTH_DIGEST : Z := 2.
Definition CURLAUTH_NTLM : Z := 8.
(** [~CURLAUTH_DIGEST_IE], as a [long] *)
Definition CURLAUTH_ANY : Z := - 17.
Definition CURLUE_NO_USER : CURLUcode := 11.
Definition CURLUE_NO_PASSWORD : CURLUcode := 12.
Definition CURLU_DEFAULT_SCHEME : Z := 2 ^ 2.
Definition CURLU_NON_SUPPORT_SCHEME : Z := 2 ^ 3.
Definition FUSE_OPT_KEY_NONOPT : Z := - 2.

(** ** Hiding the password of the command line *)

(** strrchr on a string without NUL: the offset of the last occurrence. *)
Fixpoint strrchr (s : bytes) (c : ascii) : option nat :=
  match s with
  | [] => None
  | d :: s' => match strrchr s' c with
               | Some i => Some (S i)
               | None => if (d =? c)%char then Some O else None
               end
  end.

Definition stars (n : nat) : bytes := repeat "*"%char n.

(** The URL: what lies between the last colon before the first [@] and that [@]. *)
Definition hide_url (optarg : bytes) : bytes :=
  match strchr optarg "@"%char with
  | None => optarg
  | Some password_end =>
      match strrchr (take password_end optarg) ":"%char with
      | None => optarg
      | Some colon =>
          let password_start := S colon in
          take password_start optarg ++ stars (password_end - password_start)
          ++ drop password_end optarg
      end
  end.

(** The loop over the suboptions with getsubopt, which ends each at its comma with a NUL; the
    comma is put back unless it is the last character. [None] is a store through NULL, for a
    password without a value. Each round passes at least one byte, so the length is fuel enough. *)
Fixpoint hide_subopts (fuel : nat) (subopts : bytes) : option bytes :=
  match fuel, subopts with
  | O, _ | _, [] => Some subopts
  | S fuel', _ =>
      let endp := match strchr subopts ","%char with Some i => i | None => length subopts end in
      let tok := take endp subopts in
      let vstart := strchr tok "="%char in
      let comma := (endp <? length subopts)%nat in
      let next := if comma then S endp else endp in
      let restored := (next <? length subopts)%nat in
      if bool_decide (take (match vstart with Some i => i | None => endp end) tok = lit "password")
      then
        v ← vstart;
        let value := S v in
        let n := (next - value - (if restored then 1 else 0))%nat in
        Some (take value subopts ++ stars n
              ++ (if restored then ","%char :: drop next subopts else []))
      else
        rest ← hide_subopts fuel' (drop next subopts);
        Some (tok ++ (if comma then [if restored then ","%char else NUL] else []) ++ rest)
  end.

(** What getopt reports: an argument that is no option, or the argument of [-o]; each with the
    position in argv and the offset of optarg there. Other options are passed over. *)
Inductive getopt_result :=
  | Positional (i off : nat)
  | Option_o (i off : nat).

Definition update_arg (argv : list string) (i off : nat) (f : bytes -> option bytes)
    : option (list string) :=
  arg ← argv !! i;
  b ← f (drop off (lit arg));
  Some (<[i := str_of (take off (lit arg) ++ b)]> argv).

Fixpoint replace_go (url_processed : bool) (opts : list getopt_result) (argv : list string)
    : option (list string) :=
  match opts with
  | [] => Some argv
  | Positional i off :: opts' =>
      if url_processed then replace_go true opts' argv
      else argv' ← update_arg argv i off (fun b => Some (hide_url b)); replace_go true opts' argv'
  | Option_o i off :: opts' =>
      argv' ← update_arg argv i off (fun b => hide_subopts (length b) b);
      replace_go url_processed opts' argv'
  end.

Definition replace_password (opts : list getopt_result) (argv : list string) : option (list string) :=
  replace_go false opts argv.

(** ** The options *)

Section OptsSetters.
Definition set_username (v : option string) (o : networkfs_opts) : networkfs_opts :=
  mkOpts v (password o) (use_ssl o) (ssl_version o) (ip_version o) (uid o) (gid o) (fmask o)
    (dmask o) (dir_timeout o) (interface o) (timeout o) (connect_timeout o) (initial_timeout
    o) (no_verify_hostname o) (no_verify_peer o) (cert o) (cert_type o) (key o) (key_type o)
    (key_password o) (engine o) (cacert o) (capath o) (ciphers o) (proxy o) (proxy_userpwd
    o) (proxytype o) (proxyauth o) (proxytunnel o) (use_lock o).
Definition set_password (v : option string) (o : networkfs_opts) : networkfs_opts :=
  mkOpts (username o) v (use_ssl o) (ssl_version o) (ip_version o) (uid o) (gid o) (fmask o)
    (dmask o) (dir_timeout o) (interface o) (timeout o) (connect_timeout o) (initial_timeout
    o) (no_verify_hostname o) (no_verify_peer o) (cert o) (cert_type o) (key o) (key_type o)
    (key_password o) (engine o) (cacert o) (capath o) (ciphers o) (proxy o) (proxy_userpwd
    o) (proxytype o) (proxyauth o) (proxytunnel o) (use_lock o).
Definition set_use_ssl (v : Z) (o : networkfs_opts) : networkfs_opts :=
  mkOpts (username o) (password o) v (ssl_version o) (ip_version o) (uid o) (gid o) (fmask
    o) (dmask o) (dir_timeout o) (interface o) (timeout o) (connect_timeout o)
    (initial_timeout o) (no_verify_hostname o) (no_verify_peer o) (cert o) (cert_type o)
    (key o) (key_type o) (key_password o) (engine o) (cacert o) (capath o) (ciphers o)
    (proxy o) (proxy_userpwd o) (proxytype o) (proxyauth o) (proxytunnel o) (use_lock o).
Definition set_interface (v : option string) (o : networkfs_opts) : networkfs_opts :=
  mkOpts (username o) (password o) (use_ssl o) (ssl_version o) (ip_version o) (uid o) (gid o) (fmask
    o) (dmask o) (dir_timeout o) v (timeout o) (connect_timeout o)
    (initial_timeout o) (no_verify_hostname o) (no_verify_peer o) (cert o) (cert_type o)
    (key o) (key_type o) (key_password o) (engine o) (cacert o) (capath o) (ciphers o)
    (proxy o) (proxy_userpwd o) (proxytype o) (proxyauth o) (proxytunnel o) (use_lock o).
Definition set_proxyauth (v : Z) (o : networkfs_opts) : networkfs_opts :=
  mkOpts (username o) (password o) (use_ssl o) (ssl_version o) (ip_version o) (uid o) (gid
    o) (fmask o) (dmask o) (dir_timeout o) (interface o) (timeout o) (connect_timeout o)
    (initial_timeout o) (no_verify_hostname o) (no_verify_peer o) (cert o) (cert_type o)
    (key o) (key_type o) (key_password o) (engine o) (cacert o) (capath o) (ciphers o)
    (proxy o) (proxy_userpwd o) (proxytype o) v (proxytunnel o) (use_lock o).
End OptsSetters.

(** [struct _networkfs_opts options], and the locals of main and of what it calls. *)
Record MainFrame `{E : Env} := mkMain {
  m_opts : networkfs_opts;
  m_baseurl : option CURLU;
  scheme : option string;
  port : option string;
  proxyanyauth : bool;
  proxybasic : bool;
  proxydigest : bool;
  proxyntlm : bool;
  set_uid : bool;
  set_gid : bool;
  entry_timeout_set : bool;
  negative_timeout_set : bool;
  attr_timeout_set : bool;
  hide_password : bool;
  show_help : bool;
  m_text : option string;     (* c_scheme, c_username, c_password *)
  m_argv : list string;       (* the strings of argv *)
  m_args : list string;       (* struct fuse_args args *)
  m_ret : option Z;           (* main's int ret; None while it is not set *)
  m_cret : option Z;          (* combine_url's int ret *)
}.
Arguments mkMain {E}.

Section MainSetters.
Context `{E : Env}.
Definition put_opts (v : networkfs_opts) (l : MainFrame) : MainFrame :=
  mkMain v (m_baseurl l) (scheme l) (port l) (proxyanyauth l) (proxybasic l) (proxydigest l)
    (proxyntlm l) (set_uid l) (set_gid l) (entry_timeout_set l) (negative_timeout_set l)
    (attr_timeout_set l) (hide_password l) (show_help l) (m_text l) (m_argv l) (m_args l)
    (m_ret l) (m_cret l).
Definition put_baseurl (v : option CURLU) (l : MainFrame) : MainFrame :=
  mkMain (m_opts l) v (scheme l) (port l) (proxyanyauth l) (proxybasic l) (proxydigest l)
    (proxyntlm l) (set_uid l) (set_gid l) (entry_timeout_set l) (negative_timeout_set l)
    (attr_timeout_set l) (hide_password l) (show_help l) (m_text l) (m_argv l) (m_args l)
    (m_ret l) (m_cret l).
Definition put_scheme (v : option string) (l : MainFrame) : MainFrame :=
  mkMain (m_opts l) (m_baseurl l) v (port l) (proxyanyauth l) (proxybasic l) (proxydigest l)
    (proxyntlm l) (set_uid l) (set_gid l) (entry_timeout_set l) (negative_timeout_set l)
    (attr_timeout_set l) (hide_password l) (show_help l) (m_text l) (m_argv l) (m_args l)
    (m_ret l) (m_cret l).
Definition put_port (v : option string) (l : MainFrame) : MainFrame :=
  mkMain (m_opts l) (m_baseurl l) (scheme l) v (proxyanyauth l) (proxybasic l) (proxydigest
    l) (proxyntlm l) (set_uid l) (set_gid l) (entry_timeout_set l) (negative_timeout_set l)
    (attr_timeout_set l) (hide_password l) (show_help l) (m_text l) (m_argv l) (m_args l)
    (m_ret l) (m_cret l).
Definition put_text (v : option string) (l : MainFrame) : MainFrame :=
  mkMain (m_opts l) (m_baseurl l) (scheme l) (port l) (proxyanyauth l) (proxybasic l)
    (proxydigest l) (proxyntlm l) (set_uid l) (set_gid l) (entry_timeout_set l)
    (negative_timeout_set l) (attr_timeout_set l) (hide_password l) (show_help l) v (m_argv
    l) (m_args l) (m_ret l) (m_cret l).
Definition put_argv (v : list string) (l : MainFrame) : MainFrame :=
  mkMain (m_opts l) (m_baseurl l) (scheme l) (port l) (proxyanyauth l) (proxybasic l)
    (proxydigest l) (proxyntlm l) (set_uid l) (set_gid l) (entry_timeout_set l)
    (negative_timeout_set l) (attr_timeout_set l) (hide_password l) (show_help l) (m_text l)
    v (m_args l) (m_ret l) (m_cret l).
Definition put_args (v : list string) (l : MainFrame) : MainFrame :=
  mkMain (m_opts l) (m_baseurl l) (scheme l) (port l) (proxyanyauth l) (proxybasic l)
    (proxydigest l) (proxyntlm l) (set_uid l) (set_gid l) (entry_timeout_set l)
    (negative_timeout_set l) (attr_timeout_set l) (hide_password l) (show_help l) (m_text l)
    (m_argv l) v (m_ret l) (m_cret l).
Definition put_ret (v : option Z) (l : MainFrame) : MainFrame :=
  mkMain (m_opts l) (m_baseurl l) (scheme l) (port l) (proxyanyauth l) (proxybasic l)
    (proxydigest l) (proxyntlm l) (set_uid l) (set_gid l) (entry_timeout_set l)
    (negative_timeout_set l) (attr_timeout_set l) (hide_password l) (show_help l) (m_text l)
    (m_argv l) (m_args l) v (m_cret l).
Definition put_cret (v : option Z) (l : MainFrame) : MainFrame :=
  mkMain (m_opts l) (m_baseurl l) (scheme l) (port l) (proxyanyauth l) (proxybasic l)
    (proxydigest l) (proxyntlm l) (set_uid l) (set_gid l) (entry_timeout_set l)
    (negative_timeout_set l) (attr_timeout_set l) (hide_password l) (show_help l) (m_text l)
    (m_argv l) (m_args l) (m_ret l) v.
End MainSetters.

Definition options_set_default `{E : Env} (getuid getgid : Z) (argv : list string) : MainFrame :=
  mkMain
    (mkOpts None None 0 0 0 getuid getgid 91 18 10 None 0 0 5 false false None None None None None
       None None None None None None 0 0 false false)
    None None None false false false false false false false false false true false
    None argv argv None None.

Section Main.
Context `{E : Env}.
Abbreviation MM R := (M (MainFrame * G) R).

Definition upd_opts {R} (f : networkfs_opts -> networkfs_opts) : MM R unit :=
  upd_local (fun l => put_opts (f (m_opts l)) l).

(** [strdup (s)] for a string that may be NULL. *)
Definition strdup_of {R} (s : option string) : MM R (option string) :=
  s <- deref s ;; ok <- malloc_ok ;; mret (if (ok : bool) then Some s else None).

(** [with (curl_char *c, curl_url_get_or_die (h, part, &c, 0), curl_free (c)) body] *)
Definition with_part {R} (part : CURLUPart) (body : option string -> MM R unit) : MM R unit :=
  with_seperated (upd_local (put_text None))
    (fun _ => l <- local ;; curl_url_get_or_die (m_baseurl l) part put_text)
    (fun _ => skip)
    (fun _ => l <- local ;; body (m_text l)).

Definition set_part {R} (part : CURLUPart) (content : option string) : MM R unit :=
  curl_url_set_or_die m_baseurl put_baseurl part content 0.

(** The user name or the password of the URL moves to the options; a URL without one is none of
    the errors. *)
Definition take_part (part : CURLUPart) (missing : CURLUcode)
    (store : option string -> networkfs_opts -> networkfs_opts) : MM Z unit :=
  throwable
    (try_
       (with_part part (fun c =>
          s <- strdup_of c ;; upd_opts (store s) ;;; set_part part None))
       (catch_type CurlUrlException
          (e <- gets get_ex ;; when (negb (code e =? missing)) (throw skip))
          (onerror_default skip))).

Definition combine_url : MM Z unit :=
  upd_local (put_cret (Some 0)) ;;;
  try_
    (throwable
       (l <- local ;;
        match scheme l with
        | Some s =>
            do_once (set_part CURLUPART_SCHEME (Some s)) ;;;
            upd_local (put_scheme None)
        | None =>
            with_part CURLUPART_SCHEME (fun c => s <- strdup_of c ;; upd_local (put_scheme s))
        end) ;;;
     l <- local ;;
     match port l with
     | Some p =>
         do_once (set_part CURLUPART_PORT (Some p)) ;;;
         upd_local (put_port None) ;;;
         check
     | None => skip
     end ;;;
     l <- local ;;
     when (negb (not_null (username (m_opts l))))
       (take_part CURLUPART_USER CURLUE_NO_USER set_username) ;;;
     l <- local ;;
     when (negb (not_null (password (m_opts l))))
       (take_part CURLUPART_PASSWORD CURLUE_NO_PASSWORD set_password))
    (onerror_default (upd_local (put_cret (Some 1)))) ;;;
  l <- local ;;
  match m_cret l with Some r => return_ r | None => stuck Uninit end.

(** ** The callback of the option parser and main

    [exit] ends the program: the callback's result is then not used. *)

Inductive opt_result := OptReturn (r : Z) | OptExit (status : Z).

Definition networkfs_opt_proc (arg : string) (key : Z) : MM opt_result unit :=
  when (key =? KEY_VERSION) (return_ (OptExit 0)) ;;;
  l <- local ;;
  when ((key =? FUSE_OPT_KEY_NONOPT) && negb (not_null (m_baseurl l)))
    (try_
       (u <- curl_url_e ;;
        upd_local (put_baseurl u) ;;;
        when (negb (not_null u)) (throw (mk_CurlException 0 CURL_INIT 0 None) ;;; break) ;;;
        curl_url_set_or_die m_baseurl put_baseurl CURLUPART_URL (Some arg)
          (Z.lor CURLU_DEFAULT_SCHEME CURLU_NON_SUPPORT_SCHEME))
       (onerror_default
          (upd_local (put_baseurl None) ;;; return_ (OptReturn (- 1)))) ;;;
     return_ (OptReturn 0)) ;;;
  return_ (OptReturn 1).

(** [options.proxyauth] from the flags. *)
Definition proxy_auth (l : MainFrame) : Z :=
  if proxyanyauth l then CURLAUTH_ANY
  else
    let add (b : bool) (bit x : Z) := if b then Z.lor x bit else x in
    add (proxyntlm l) CURLAUTH_NTLM
      (add (proxydigest l) CURLAUTH_DIGEST
         (add (proxybasic l) CURLAUTH_BASIC (proxyauth (m_opts l)))).

(** A scheme that ends in "s" asks for TLS and loses the letter. *)
Definition split_scheme : MM Z unit :=
  l <- local ;;
  s <- deref (scheme l) ;;
  match last (lit s) with
  | None => stuck OutOfBounds
  | Some c =>
      when (c =? "s")%char
        (when (use_ssl (m_opts l) =? 0) (upd_opts (set_use_ssl CURLUSESSL_ALL)) ;;;
         upd_local (put_scheme (Some (str_of (take (length (lit s) - 1) (lit s))))))
  end.

(** [snprintf (opt, sizeof ("-ouid=") + 10, "-ouid=%d", options.uid)] *)
Definition id_option (name : string) (id : Z) : string :=
  str_of (snprintf (S (length (lit name)) + 10) (lit name ++ fmt_d (i32 id))).

Section Run.
(** libfuse: the parser runs the callback of the program; [add_arg] says whether there was memory;
    the main loop runs the operations of the table. *)
Variable fuse_opt_parse : (string -> Z -> MM opt_result unit) -> MM Z Z.
Variable fuse_opt_add_arg : list string -> string -> World -> bool * World.
Variable fuse_main : list string -> option proto_operations -> MM Z Z.
Variable getopt : list string -> list getopt_result.
Variable junk : Z -> bytes.

(** [if (fuse_opt_add_arg (&args, opt)) { throw NetworkFSException (msg); }] *)
Definition add_arg (opt msg : string) : MM Z unit :=
  l <- local ;;
  ok <- ext (fuse_opt_add_arg (m_args l) opt) ;;
  (if (ok : bool) then upd_local (put_args (m_args l ++ [opt]))
   else throw (mk_NetworkFSException msg)).

Definition show_usage : MM Z unit :=
  add_arg "-h" "fuse_opt_add_arg help failed" ;;;
  upd_local (fun l => put_args (match m_args l with [] => [] | _ :: a => EmptyString :: a end) l).

(** From the options with their URL to the table of the protocol. *)
Definition choose_oper : MM Z (option proto_operations) :=
  l <- local ;;
  when (hide_password l && not_null (password (m_opts l)))
    (argv <- deref (replace_password (getopt (m_argv l)) (m_argv l)) ;;
     upd_local (put_argv argv)) ;;;
  upd_opts (set_proxyauth (proxy_auth l)) ;;;
  split_scheme ;;;
  l <- local ;;
  s <- deref (scheme l) ;;
  u <- deref (m_baseurl l) ;;
  oper <- throwable_as
    (r <- call frame0 (fun _ => tt) (get_proto_oper junk s u (m_opts l)) ;; mret (fst r)) ;;
  when (set_uid l) (add_arg (id_option "-ouid=" (uid (m_opts l))) "fuse_opt_add_arg uid failed") ;;;
  when (set_gid l) (add_arg (id_option "-ogid=" (gid (m_opts l))) "fuse_opt_add_arg gid failed") ;;;
  when (negb (entry_timeout_set l))
    (add_arg "-oentry_timeout=30" "fuse_opt_add_arg entry_timeout failed") ;;;
  when (negb (negative_timeout_set l))
    (add_arg "-onegative_timeout=10" "fuse_opt_add_arg negative_timeout failed") ;;;
  when (negb (attr_timeout_set l))
    (add_arg "-oattr_timeout=30" "fuse_opt_add_arg attr_timeout failed") ;;;
  mret (emulate_networkfs_oper oper).

Definition prepare : MM Z (option proto_operations) :=
  l <- local ;;
  when (negb (not_null (m_baseurl l))) (throw (mk_NetworkFSException "no URL specified")) ;;;
  throwable (_ <- call_in combine_url ;; skip) ;;;
  choose_oper.

Definition main : MM Z unit :=
  try_
    (r <- fuse_opt_parse networkfs_opt_proc ;;
     when (r =? - 1) (throw (mk_NetworkFSException "fuse_opt_parse failed")) ;;;
     l <- local ;;
     oper <- (if show_help l then show_usage ;;; mret None else prepare) ;;
     l <- local ;;
     r <- fuse_main (m_args l) oper ;;
     upd_local (put_ret (Some r)))
    (catch_type NetworkFSException
       (upd_local (put_ret (Some 1)))
       (onerror_default (upd_local (put_ret (Some 1))))) ;;;
  upd_opts (fun o => set_interface None (set_password None (set_username None o))) ;;;
  upd_local (fun l => put_baseurl None (put_port None (put_scheme None l))) ;;;
  l <- local ;;
  match m_ret l with Some r => return_ r | None => stuck Uninit end.
End Run.
End Main.
