(* ===== verification/SchemeSpec.v ===== *)
(** * networkfs.c: the option that names a scheme

    What becomes of a program that is told the scheme on its command line. *)

From S2P Require Import Prelude Utils UtilsSpec Exception Control Buffer Stack State Wp Demo Curl Rules Method MethodSpec Locks Propfind Dav Dummy Main.
#[local] Open Scope Z_scope.
#[local] Open Scope c_scope.

Section Scheme.
Context `{E : Env}.
Abbreviation MF := MainFrame.
Variable junk : Z -> bytes.
Variable fuse_opt_add_arg : list string -> string -> World -> bool * World.
Variable getopt : list string -> list getopt_result.

(** A step after which an erased scheme is still erased. *)
Definition erases (s s' : MF * G) : Prop := scheme s.1 = None -> scheme s'.1 = None.

#[local] Instance erases_keep : KeepEx erases.
Proof. split; [split|]; unfold erases; simpl; auto. Qed.

Lemma erases_ext {R A} (f : World -> A * World) : keeps erases (ext (R := R) f).
Proof. intros [l g]. unfold erases, ext. simpl. by destruct (f (g_world g)). Qed.
Lemma erases_upd_local {R} (f : MF -> MF) :
  (forall l, scheme (f l) = scheme l) -> keeps erases (upd_local (R := R) f).
Proof. intros Hf. apply keeps_modify. intros [l g] Hl. simpl in *. by rewrite Hf. Qed.
Lemma erases_local {R} : keeps erases (local (R := R)).
Proof. apply (keeps_gets erases). Qed.
#[local] Hint Resolve erases_ext erases_upd_local erases_local : keeps.

Lemma erases_mk {R} c a p : keeps erases (mk_CurlUrlException (R := R) c a p).
Proof. unfold mk_CurlUrlException. keeps. Qed.
#[local] Hint Resolve erases_mk : keeps.
Lemma erases_set_part {R} part c : keeps erases (set_part (R := R) part c).
Proof. unfold set_part, curl_url_set_or_die. keeps. Qed.
#[local] Hint Resolve erases_set_part : keeps.
Lemma erases_with_part {R} part (body : option string -> M (MF * G) R unit) :
  (forall c, keeps erases (body c)) -> keeps erases (with_part part body).
Proof. intros. unfold with_part, curl_url_get_or_die. keeps. Qed.
Lemma erases_take_part part c store : keeps erases (take_part part c store).
Proof.
  unfold take_part, strdup_of, malloc_ok. keeps; apply erases_with_part; keeps.
Qed.

Lemma orderly_set_part {R} part c : orderly (set_part (R := R) part c).
Proof. unfold set_part, curl_url_set_or_die, mk_CurlUrlException. orderly. Qed.
Lemma orderly_take_part part c store : orderly (take_part part c store).
Proof.
  unfold take_part, with_part, curl_url_get_or_die, set_part, curl_url_set_or_die, strdup_of, malloc_ok,
    mk_CurlUrlException. orderly.
Qed.

#[local] Hint Resolve orderly_set_part orderly_take_part erases_take_part : orderly keeps.

(** What is left of [combine_url] when the scheme was erased. *)
Abbreviation rest_of_combine := (
  (l <- local ;;
   match port l with
   | Some p =>
       do_once (set_part CURLUPART_PORT (Some p)) ;;;
       upd_local (put_port None) ;;;
       check
   | None => skip
   end ;;;
   l <- local ;;
   when (negb (not_null (username (m_opts l))))
     (take_part CURLUPART_USER CURLUE_NO_USER set_username) ;;;
   l <- local ;;
   when (negb (not_null (password (m_opts l))))
     (take_part CURLUPART_PASSWORD CURLUE_NO_PASSWORD set_password)) : M (MF * G) Z unit).

Lemma erases_rest : keeps erases rest_of_combine.
Proof. keeps. Qed.

Lemma orderly_do_once {R} (m : M (MF * G) R unit) : orderly m -> orderly (do_once m).
Proof. intros Hm s. specialize (Hm s). unfold do_once. by destruct (m s) as [[] ?]. Qed.
Lemma orderly_rest : orderly rest_of_combine.
Proof. pose proof (@orderly_do_once). orderly. Qed.

(** The end of [combine_url]. *)
Definition finish_combine : M (MF * G) Z unit :=
  l <- local ;; match m_cret l with Some r => return_ r | None => stuck Uninit end.
Abbreviation ends m :=
  (wp m (fun _ _ => False) (fun _ => False) (fun (_ : Z) (s : MF * G) => scheme s.1 = None)).

Lemma ends_finish s : scheme s.1 = None -> ends finish_combine s.
Proof. destruct s as [l g]. intros Hs. apply wp_bind, wp_local. by destruct (m_cret l). Qed.

Lemma ends_handlers s :
  scheme s.1 = None ->
  wp (onerror_default (upd_local (put_cret (Some 1)))) (fun _ => ends finish_combine) (fun _ => False)
    (fun (_ : Z) (s : MF * G) => scheme s.1 = None) s.
Proof. destruct s as [l g]. intros Hs. by apply wp_onerror_default, wp_upd_local, ends_finish. Qed.

Lemma combine_url_erases sc (l : MF) g : scheme l = Some sc -> ends combine_url (l, g).
Proof.
  intros Hs. unfold combine_url. apply wp_bind, wp_upd_local, wp_bind, wp_try, wp_bind, wp_throwable.
  apply wp_bind, wp_local. simpl scheme. rewrite Hs. apply wp_bind, wp_do_once.
  pose proof ends_finish as Hf. pose proof ends_handlers as Hh. unfold finish_combine in Hf, Hh.
  refine (wp_keeps (fun _ _ => True) _ _ _ _ _ _ (orderly_set_part _ _) _ _);
    [done|intros _ [l1 g1] _|intros [l1 g1] _ _]; apply wp_upd_local; cbv beta;
    (destruct (Exception_has (get_ex (put_scheme None l1, g1))) eqn:He; [by apply Hh|]);
    apply (wp_keeps erases); (apply erases_rest || apply orderly_rest || idtac).
  all: intros; cbv beta in *; match goal with H : erases _ ?s |- _ => specialize (H eq_refl) end.
  all: match goal with |- if ?b then _ else _ => destruct b end; by first [apply Hh|apply Hf].
Qed.

Lemma choose_oper_needs_scheme (l : MF) g :
  scheme l = None ->
  wp (choose_oper fuse_opt_add_arg getopt junk) (fun _ _ => False) (fun _ => True) (fun _ _ => True) (l, g).
Proof.
  intros Hs. apply wp_bind, wp_local, wp_bind, wp_when; intros _;
    [apply wp_bind, wp_deref; intros argv _; apply wp_upd_local|];
    apply wp_bind, wp_upd_local, wp_bind, wp_bind, wp_local, wp_bind, wp_deref; simpl; congruence.
Qed.

(** C22: a mount that is told a scheme with [-o scheme] never gets a table of operations: it ends with
    an exception, or in the reading of the scheme that [combine_url] has erased. *)
Theorem scheme_option_never_mounts sc (l : MF) g oper s :
  scheme l = Some sc -> prepare fuse_opt_add_arg getopt junk (l, g) <> (Next oper, s).
Proof.
  intros Hs. enough (wp (prepare fuse_opt_add_arg getopt junk) (fun _ _ => False) (fun _ => True)
    (fun _ _ => True) (l, g)) as Hw.
  { intros Hr. unfold gwp in Hw. by rewrite Hr in Hw. }
  apply wp_bind, wp_local, wp_bind, wp_when; intros _; [by apply wp_throw, wp_mk_NetworkFSException|].
  apply wp_bind, wp_throwable, wp_bind, wp_call_in.
  refine (wp_mono _ _ _ _ _ _ _ _ (combine_url_erases sc l g Hs) _ _ _); [done|done|].
  intros r [l1 g1] H1. apply wp_skip. cbv beta. destruct (Exception_has _); [done|].
  by apply choose_oper_needs_scheme.
Qed.
End Scheme.

(** ** The theorem at a concrete input: an environment in which every call succeeds *)

Lemma scheme_option_never_mounts_witness :
  let l := put_scheme (E := demo_env (answers 200) None) (Some "dav"%string) (put_baseurl (E := demo_env (answers 200) None) (Some "h"%string)
             (options_set_default (E := demo_env (answers 200) None) 0 0 [])) in
  let run := prepare (E := demo_env (answers 200) None) (fun _ _ w => (true, w)) (fun _ => []) (fun _ => [])
               (l, demo_state (answers 200) None false [] ex0) in
  (forall oper s, run <> (Next oper, s)) /\ run.1 = Stuck NullDeref.
Proof.
  intros l run. split; [|by vm_compute].
  intros oper s. by apply (scheme_option_never_mounts (E := demo_env (answers 200) None) (fun _ => [])
    (fun _ _ w => (true, w)) (fun _ => []) "dav"%string).
Defined.
